(* ===== verification/_CoqProject ===== *)
-Q . S2P
Prelude.v
RustStd.v
Fs.v
FsDir.v
External.v
Instances.v
F64.v
Json.v
Protocol.v
Rfc7578.v
Multipart.v
Metrics.v
Schemas.v
Storage.v
RateLimit.v
Auth.v
State.v
Crashes.v
CrashStore.v
CrashIngest.v
CrashProgress.v
Janitor.v
Retention.v
Refs.v
System.v
Concurrency.v
CrashTasks.v
JanitorTasks.v
CrashRely.v
CrashParallel.v
CrashConcurrent.v
RetentionRely.v
RetentionUploads.v
RetentionJanitor.v
RetentionConcurrent.v
Otlp.v
Logs.v
LogText.v
LogQueue.v
LogWriter.v
LogPipeline.v
Compression.v
Spool.v
PanicHook.v
Shipper.v
ClientInstances.v
ShipSafety.v
ShipProgress.v
HookEntry.v
Layer.v
LayerSafety.v
LayerProgress.v
EndToEnd.v
EndToEndLogs.v
Server.v
ServerSafety.v
Calm.v
ServerLogs.v
Daemon.v
ClientRoot.v
Network.v
EndToEndShip.v
EndToEndExport.v
EndToEndDisk.v
EndToEndDelivery.v
EndToEndDeliveryLogs.v
