(* ===== verification/Prelude.v ===== *)
(** * Detritus: a verification development of the crash and log collector

    Detritus collects crash dumps and OTLP logs.  In a client process a panic
    hook spools crashes and a tracing layer exports log records; a shipper uploads
    spooled crashes as multipart requests.  The server authenticates requests,
    limits their rate, validates them against per-tenant JSON schemas, stores crash
    parts in a content-addressed store with one index file per crash and logs in
    daily NDJSON files per source; a janitor enforces retention.  This development
    models the three crates (src/crates/detritus-protocol, detritus-server and
    detritus-client) and proves what makes them correct, under arbitrary I/O
    failures and against arbitrary peers where the code handles them.

    ** Files

    Foundations:
    - [Prelude]: results and their notation, the hint database, shared lemmas.
    - [RustStd]: strings, UTF-8, paths and integers of the Rust standard library.
    - [Fs], [FsDir]: the file system, the clock and the I/O monad; directory trees,
      renaming and sorted listings.  A file system is a finite map from paths to
      nodes; every system call first consumes one entry of the schedule [w_faults],
      and a [Some] entry makes it fail, possibly after part of its effect.
      Theorems quantify over the schedule, so they hold whichever calls fail.
      [wp m Q w] says that [m] run in [w] ends in [Q]; [Keeps I m] is preservation
      of an invariant, proved by instance search; the lemmas [wpn_] and [run_] are
      for calls that do not fail.
    - [F64]: an interface [Arith] with two instances, IEEE double precision (the
      standard library's [SpecFloat], executable) and exact rationals.
    - [External], [Instances], [ClientInstances]: the crates the program calls
      (uuid, chrono, sha2, multer, and in the files that use them argon2, toml,
      http, url, zstd, tar, prost, tonic, axum, tower, jsonschema, serde_json's
      text) as classes of operations with classes of documented laws, and concrete
      instances that satisfy the laws, used by the witnesses.
    - [Json]: serde_json values, the text interface and the derived codecs'
      building blocks; the reader's recursion limit is 127 levels, as in serde_json.
    - [Rfc7578]: an executable parser of multipart bodies as RFC 7578 defines them.
      [MulterRfc] states that multer agrees with it on the bodies it accepts.

    The protocol crate:
    - [Protocol] (lib.rs, source.rs, crash.rs, schema.rs): wire types and derived
      JSON codecs.
    - [Multipart] (multipart.rs): writing and reading crash envelopes.
    - [Otlp] (the .proto files): the messages of the log service.

    The server crate, each file named after its source:
    - [Storage]: source keys and the layout of the data directory.
    - [RateLimit]: token buckets, written once over [Arith].
    - [Metrics]: the collectors; [u64] counters wrap.
    - [Schemas]: the schema registry.
    - [Auth]: tokens, security configuration, middleware.
    - [State] (server.rs, [AppState]): the state handlers share, and the monad
      [App] they run in.
    - [Crashes]: the crash handler.  A request is its content type and the results
      of polling its body.
    - [Janitor]: the retention cycle.  [collect_loop] takes fuel; the size of the
      file system plus one is proved enough.
    - [Logs]: the log service, its bounded channels and writer tasks.  [ls_drains]
      fixes how many lines a writer takes before each send: theorems quantify over
      it, hence over the interleavings of writers and handler.
    - [JanitorTasks]: the janitor's loop as a task that requests may interrupt at
      every system call; a cycle run alone is the cycle of [Janitor].
    - [Server] (server.rs): layers, authentication, routing and handlers composed;
      a run of the server is a list of events (requests, retention cycles, turns of
      the writer tasks, time), one after the other, between startup and the signal
      that ends it.  A panic of a cycle ends the janitor ([sv_janitor]).
    - [Daemon] (main.rs): the command line, [hash-token], start-up.

    The client crate:
    - [Compression] (compression.rs), [Spool] (spool.rs), [PanicHook]
      (panic_hook.rs), [Shipper] (shipper.rs), [Layer] (layer.rs).  The shipper's
      HTTP peer and the exporter's gRPC peer are arbitrary functions with a state;
      the exchanges are logged.  The exporter's loop ([run]) runs on what its
      [select!] yields; [run_worker] is the task with the panics at its start.
    - [ClientRoot] (lib.rs): the process-wide crypto provider.
    - [Network]: the running server behind a network as the shipper's HTTP peer;
      a script says what happens at the server between the client's requests and
      which requests and answers are lost.

    Properties:
    - [CrashStore], [CrashIngest], [CrashProgress]: an accepted crash is completely
      on disk; every request, whatever fails, keeps the store sound and touches
      nothing else; checks precede writes; every request is answered with a
      documented status and counted once; a well-formed upload is accepted.
    - [Retention]: the walk terminates and is exact; a cycle removes only what
      expired or is unreferenced, keeps what is referenced, and when it succeeds
      has removed all of it and counted what is gone below each root.
    - [Concurrency], [CrashTasks]: programs that other tasks may interrupt between
      any two of their actions, pools of them run by any schedule, and the
      rely-guarantee rules for them; the crash handler as such a program, which run
      alone is the handler of [Crashes].
    - [CrashRely], [CrashParallel], [CrashConcurrent]: what concurrent crash
      requests rely on and guarantee; any number of them, under every schedule and
      every failure, keep the store sound and are recorded; under a fair schedule
      all are answered; and a run in which two uploads of one crash damage their
      index.
    - [RetentionRely], [RetentionUploads], [RetentionJanitor], [RetentionConcurrent]:
      uploads and the janitor's loop at the same time, interleaved at every system
      call: the store stays sound, and from the start of a cycle on the indexes that
      no unanswered request writes keep their blobs until they expire.
    - [Refs], [System], [ServerSafety]: the handler's index and the janitor's view
      of it agree; the invariant of the data directory over any sequence of requests
      and cycles that do not overlap; what each request may change; and what an
      upload inside a cycle loses: every dump that the store had and no index
      referenced when the references were collected.
    - [LogQueue], [LogText], [LogWriter], [LogPipeline]: what an export queues, its
      error text, what a writer appends, and the composition from accepted calls
      to the files on disk.
    - [ShipSafety], [ShipProgress], [HookEntry]: no run of the shipper loses a
      crash that was not delivered; with an accepting peer every crash is
      delivered; clean-up is exact; what a panic spools is a complete crash.
    - [LayerSafety]: the exporter conserves records, loses none while its queue
      directory is writable, and replay removes only what was acknowledged.
    - [LayerProgress]: against a server that acknowledges, the exporter empties its
      queue and delivers every record it received.
    - [EndToEnd], [EndToEndLogs]: the shipper's upload of a spooled crash is stored
      by the server's handler, and an exported batch becomes lines of the client's
      own source.
    - [EndToEndShip]: shipper, network and server composed: whatever fails, a crash
      the client moved to sent/ is in the server's store at the end of the run.
    - [EndToEndExport]: exporter, network and server composed: the server takes in
      the batches in order, each completely or up to a prefix, and what it did not
      acknowledge is in the client's queue.
    - [Calm], [ServerLogs]: runs of the server in which no file operation fails:
      uploads and retention leave the logs alone, and from startup to shutdown every
      line an export brought in is written once and in order.
    - [EndToEndDisk]: [EndToEndExport] continued to the server's disk.
    - [EndToEndDelivery], [EndToEndDeliveryLogs]: the running server meets the
      shipper's notion of an accepting peer and the exporter's of an acknowledging
      one, so when nothing fails every spooled crash is in the server's store, and
      every record that sampling kept is in its log files exactly once.
    - in the component files: confinement and injectivity of paths ([Storage]),
      codec round trips ([Protocol], [Multipart]), exact bursts in double precision,
      isolation, and the long-run rate in exact arithmetic ([RateLimit]), the gate and the soundness of the configuration
      ([Auth]), the declared schemas ([Schemas]), the compression decision
      ([Compression]), hashed tokens ([Daemon]).

    ** Choices

    A [u32] or [u64] is a [Z] with its wrap-around written out.  Paths are lists of
    components.  A hard link is a copy of the node: no operation of the server
    writes to a file after linking it.  Writes of tokio files are taken to happen
    when they are issued.  In the sequential files, and in the runs of [Server] and
    of everything composed with it, a handler or a cycle runs without interruption
    by others; [Logs] interleaves the writers with the handler, and [CrashTasks] and
    [JanitorTasks] let a crash request or a cycle be interrupted at every system
    call, at the limiter's lock and at every metric.  There [create_dir_all] and the
    listing of a directory are one step each, and the random names of temporary
    files are assumed to differ; a walk that grows under the janitor has no bound,
    so it gets any number of [extra] steps and what is proved holds for each; the
    requests whose indexes coincide are called contested, since what an index
    contested by several requests ends up with is not determined.  The limiter and
    the pool are behind a mutex in the program.  The age limit of retention is the
    code's [u64] product, which wraps for periods of more than 2^64 seconds
    ([expired_exact] says that below it is the age in days).  The spool lock is a call that may
    fail: runs of the shipper that hold it do not overlap.

    ** Not modelled

    Logging with tracing, the text rendering of metrics, code generated from the
    protobuf files, TLS and the wire formats of HTTP and gRPC, what the tower layers
    do to bodies (compression, request ids), the exact times of timers, the
    process that minidumper-child spawns.  A request whose body
    breaks off on its way is, in [Network] and [EndToEndExport], an arrival of its
    first frames among the events, and lost for the client.  Of the remaining lines of the crates most
    are imports, re-exports, tests and documentation; the [Debug] renderings that
    hide token hashes are not modelled either. *)

From stdpp Require Export base option list strings gmap.
From Stdlib Require Export ZArith Lia.
From Stdlib Require Import Ascii.

(** Appending reduces on a constructor. *)
#[global] Arguments String.append : simpl nomatch.

(** ** Results

    [Result A E] is Rust's [Result<A, E>]; [let? x := m in k] is [?]. *)

Inductive Result (A E : Type) : Type :=
| Ok (a : A)
| Err (e : E).

Arguments Ok {A E} a.
Arguments Err {A E} e.

Declare Scope result_scope.
Delimit Scope result_scope with result.
Open Scope result_scope.

(** The hint database of the development: [autorewrite with detritus] and
    [eauto with detritus] close the routine steps. *)
Create HintDb detritus.
Create Rewrite HintDb detritus.

Notation "'let?' x ':=' m 'in' k" :=
  (match m with Ok x => k | Err e_ => Err e_ end)
  (at level 10, x pattern, m at level 100, k at level 200) : result_scope.

Definition map_err {A E F} (f : E -> F) (r : Result A E) : Result A F :=
  match r with Ok a => Ok a | Err e => Err (f e) end.

Definition ok_or {A E} (o : option A) (e : E) : Result A E :=
  match o with Some a => Ok a | None => Err e end.

Definition is_ok {A E} (r : Result A E) : bool :=
  match r with Ok _ => true | Err _ => false end.

(** [r.ok()] *)
Definition result_ok {A E} (r : Result A E) : option A :=
  match r with Ok a => Some a | Err _ => None end.

(** Fold of a fallible step over a list, stopping at the first error: a [for]
    loop whose body uses [?]. *)
Fixpoint try_fold {A S E} (f : S -> A -> Result S E) (s : S) (l : list A)
  : Result S E :=
  match l with
  | [] => Ok s
  | x :: xs => let? s' := f s x in try_fold f s' xs
  end.

(** [iter.map(f).collect::<Result<Vec<_>, _>>()] *)
Fixpoint try_map {A B E} (f : A -> Result B E) (l : list A)
  : Result (list B) E :=
  match l with
  | [] => Ok []
  | x :: xs => let? y := f x in let? ys := try_map f xs in Ok (y :: ys)
  end.

#[export] Instance result_eq_dec {A E} `{EqDecision A, EqDecision E} :
  EqDecision (Result A E).
Proof. solve_decision. Defined.

Lemma ok_or_Ok {A E} (o : option A) (e : E) a :
  ok_or o e = Ok a <-> o = Some a.
Proof. destruct o; simpl; split; congruence. Qed.

Lemma map_err_Ok {A E F} (f : E -> F) (r : Result A E) a :
  map_err f r = Ok a <-> r = Ok a.
Proof. destruct r; simpl; split; congruence. Qed.

Lemma try_fold_app {A S E} (f : S -> A -> Result S E) s l1 l2 :
  try_fold f s (l1 ++ l2) = let? s' := try_fold f s l1 in try_fold f s' l2.
Proof.
  revert s; induction l1 as [|x l1 IH]; intros s; simpl; [done|].
  destruct (f s x); [apply IH|done].
Qed.

(** An invariant of the accumulator carried through a successful loop. *)
Lemma try_fold_inv {A S E} (P : S -> Prop) (f : S -> A -> Result S E) s l s' :
  (forall s x s', x ∈ l -> P s -> f s x = Ok s' -> P s') ->
  P s -> try_fold f s l = Ok s' -> P s'.
Proof.
  revert s; induction l as [|x l IH]; intros s Hf HP Hl; simpl in Hl.
  - congruence.
  - destruct (f s x) as [s1|e] eqn:E1; [|discriminate].
    apply (IH s1); eauto using list_elem_of_here, list_elem_of_further.
Qed.

Lemma try_map_Forall2 {A B E} (f : A -> Result B E) l l' :
  try_map f l = Ok l' <-> Forall2 (fun x y => f x = Ok y) l l'.
Proof.
  revert l'; induction l as [|x l IH]; intros l'; simpl; split.
  - intros [= <-]. constructor.
  - intros H; inversion H; done.
  - destruct (f x) as [y|] eqn:Ex; [|done].
    destruct (try_map f l) as [ys|] eqn:El; [|done].
    intros [= <-]. constructor; [done|]. by apply IH.
  - intros H; inversion H as [|? y ? ys Hx Hxs]; subst.
    apply IH in Hxs. by rewrite Hx, Hxs.
Qed.
