(* ===== verification/RustStd.v ===== *)
(** * What the program uses of the Rust language and standard library

    Strings are byte strings ([string]); [Vec<u8>] is [list ascii]; a path is
    its list of components, the form under which [std::path] compares paths
    (Unix rules; a leading root is the component ["/"]).  Integers are [Z] with
    the width written out in the operation that needs it. *)

From Stdlib Require Import Ascii.
From S2P Require Import Prelude.

Abbreviation bytes := (list ascii).
Abbreviation Path := (list string).

Definition as_bytes (s : string) : bytes := String.list_ascii_of_string s.
Definition of_bytes (b : bytes) : string := String.string_of_list_ascii b.

(** [slice.len() as u64] *)
Definition len_u64 (b : bytes) : Z := Z.of_nat (length b).

Definition U32_MAX : Z := 2 ^ 32 - 1.
Definition U64_MAX : Z := 2 ^ 64 - 1.
Definition wrap_u64 (z : Z) : Z := z mod 2 ^ 64.
Definition saturating_mul_u64 (a b : Z) : Z := Z.min (a * b) U64_MAX.

(** ** String slices *)

Fixpoint strip_prefix (p s : string) : option string :=
  match p, s with
  | EmptyString, _ => Some s
  | String a p', String b s' => if Ascii.eqb a b then strip_prefix p' s' else None
  | String _ _, EmptyString => None
  end.

Definition starts_with (p s : string) : bool :=
  match strip_prefix p s with Some _ => true | None => false end.

Fixpoint strip_suffix (suf s : string) : option string :=
  if String.eqb s suf then Some EmptyString
  else match s with
       | EmptyString => None
       | String c s' => String c <$> strip_suffix suf s'
       end.

Definition ends_with (suf s : string) : bool :=
  match strip_suffix suf s with Some _ => true | None => false end.

Fixpoint contains_char (c : ascii) (s : string) : bool :=
  match s with
  | EmptyString => false
  | String a s' => Ascii.eqb a c || contains_char c s'
  end.

(** [s.split(c)]: always at least one piece. *)
Fixpoint split_char (c : ascii) (s : string) : list string :=
  match s with
  | EmptyString => [EmptyString]
  | String a s' =>
      if Ascii.eqb a c then EmptyString :: split_char c s'
      else match split_char c s' with
           | [] => [String a EmptyString]
           | h :: t => String a h :: t
           end
  end.

(** [pieces.join(sep)] *)
Fixpoint join_with (sep : string) (l : list string) : string :=
  match l with
  | [] => EmptyString
  | [x] => x
  | x :: xs => x +:+ sep +:+ join_with sep xs
  end.

Definition ascii_lower (c : ascii) : ascii :=
  let n := N_of_ascii c in
  if ((65 <=? n) && (n <=? 90))%N then ascii_of_N (n + 32) else c.

Fixpoint to_ascii_lowercase (s : string) : string :=
  match s with
  | EmptyString => EmptyString
  | String c s' => String (ascii_lower c) (to_ascii_lowercase s')
  end.

(** ** UTF-8 *)

Definition byte_in (lo hi : N) (c : ascii) : bool :=
  ((lo <=? N_of_ascii c) && (N_of_ascii c <=? hi))%N.

Definition is_cont (c : ascii) : bool := byte_in 128 191 c.

(** [std::str::from_utf8(b).is_ok()], by the table of well-formed sequences. *)
Fixpoint utf8_valid (b : bytes) : bool :=
  match b with
  | [] => true
  | b0 :: r =>
      if byte_in 0 127 b0 then utf8_valid r
      else match r with
      | [] => false
      | b1 :: r1 =>
          if byte_in 194 223 b0 then is_cont b1 && utf8_valid r1
          else match r1 with
          | [] => false
          | b2 :: r2 =>
              if byte_in 224 239 b0 then
                (if byte_in 224 224 b0 then byte_in 160 191 b1
                 else if byte_in 237 237 b0 then byte_in 128 159 b1
                 else is_cont b1)
                && is_cont b2 && utf8_valid r2
              else match r2 with
              | [] => false
              | b3 :: r3 =>
                  byte_in 240 244 b0
                  && (if byte_in 240 240 b0 then byte_in 144 191 b1
                      else if byte_in 244 244 b0 then byte_in 128 143 b1
                      else is_cont b1)
                  && is_cont b2 && is_cont b3 && utf8_valid r3
              end
          end
      end
  end.

(** [OsStr::to_str] *)
Definition to_str (s : string) : option string :=
  if utf8_valid (as_bytes s) then Some s else None.

(** [str::is_char_boundary] *)
Definition is_char_boundary (b : bytes) (i : nat) : bool :=
  match i with
  | O => true
  | _ => match b !! i with
         | Some c => negb (is_cont c)
         | None => Nat.eqb i (length b)
         end
  end.

(** ** Decimal integers *)

Definition digit_of (c : ascii) : option Z :=
  let n := N_of_ascii c in
  if ((48 <=? n) && (n <=? 57))%N then Some (Z.of_N n - 48)%Z else None.

(** The digit loop of [u32::from_str_radix(_, 10)] with its checked steps. *)
Fixpoint parse_u32_digits (acc : Z) (s : string) : option Z :=
  match s with
  | EmptyString => Some acc
  | String c s' =>
      d ← digit_of c;
      if (acc * 10 + d <=? U32_MAX)%Z then parse_u32_digits (acc * 10 + d) s'
      else None
  end.

(** [str::parse::<u32>()]: one leading [+] is accepted, [-] is not a digit. *)
Definition parse_u32 (s : string) : option Z :=
  match s with
  | EmptyString => None
  | String "+" EmptyString => None
  | String "+" s' => parse_u32_digits 0 s'
  | _ => parse_u32_digits 0 s
  end.

(** [n.to_string()] for an integer. *)
Definition Z_to_string (z : Z) : string := pretty.pretty z.

(** ** Paths *)

Definition is_absolute (s : string) : bool := starts_with "/" s.

Definition relative_components (s : string) : Path :=
  filter (fun c => negb (String.eqb c "") && negb (String.eqb c ".")) (split_char "/" s).

(** [Path::new(s).components()]: a leading [.] is kept, later ones are not. *)
Definition path_of_string (s : string) : Path :=
  if is_absolute s then "/" :: relative_components s
  else if starts_with "./" s || String.eqb s "." then "." :: relative_components s
  else relative_components s.

(** [PathBuf::join] *)
Definition join (p : Path) (s : string) : Path :=
  if is_absolute s then path_of_string s
  else match p with
       | [] => path_of_string s
       | _ => p ++ relative_components s
       end.

(** [Path::join] with a path argument. *)
Definition join_path (p q : Path) : Path :=
  match q with
  | "/" :: _ => q
  | "." :: q' => match p with [] => q | _ => p ++ q' end
  | _ => p ++ q
  end.

Definition special_component (c : string) : bool :=
  String.eqb c "/" || String.eqb c "." || String.eqb c "..".

Definition parent (p : Path) : option Path :=
  match last p with
  | None => None
  | Some c => if String.eqb c "/" then None else Some (removelast p)
  end.

Definition file_name (p : Path) : option string :=
  c ← last p;
  if special_component c then None else Some c.

(** The text after the last dot, if there is a dot. *)
Fixpoint after_last_dot (s : string) : option string :=
  match s with
  | EmptyString => None
  | String c s' =>
      match after_last_dot s' with
      | Some r => Some r
      | None => if Ascii.eqb c "." then Some s' else None
      end
  end.

(** [Path::extension]: a name whose only dot is its first character has none. *)
Definition extension (p : Path) : option string :=
  n ← file_name p;
  match n with
  | String "." s' => after_last_dot s'
  | _ => after_last_dot n
  end.

Fixpoint path_strip_prefix (base p : Path) : option Path :=
  match base, p with
  | [], _ => Some p
  | a :: base', b :: p' => if String.eqb a b then path_strip_prefix base' p' else None
  | _ :: _, [] => None
  end.

(** [Path::to_string_lossy] on a path built by joins. *)
Definition path_display (p : Path) : string :=
  match p with
  | "/" :: p' => "/" +:+ join_with "/" p'
  | _ => join_with "/" p
  end.

(** ** Lemmas on strings *)

Lemma append_nil_r s : s +:+ "" = s.
Proof. induction s as [|c s IH]; simpl; congruence. Qed.

Lemma append_assoc s t u : (s +:+ t) +:+ u = s +:+ (t +:+ u).
Proof. induction s as [|c s IH]; simpl; congruence. Qed.

Lemma append_inv_head s t u : s +:+ t = s +:+ u -> t = u.
Proof. induction s as [|c s IH]; simpl; [done|]. intros [= H]; auto. Qed.

Lemma append_length s t :
  String.length (s +:+ t) = (String.length s + String.length t)%nat.
Proof. induction s as [|c s IH]; simpl; congruence. Qed.

Lemma append_inv_tail s t u : s +:+ u = t +:+ u -> s = t.
Proof.
  revert t; induction s as [|c s IH]; intros [|d t]; simpl; try done.
  - intros H. apply (f_equal String.length) in H.
    simpl in H. rewrite append_length in H. lia.
  - intros H. apply (f_equal String.length) in H. simpl in H.
    rewrite append_length in H. lia.
  - intros [= -> H]. f_equal; auto.
Qed.

(** Texts with ends of the same length are equal piecewise. *)
Lemma append_inv s t u v : String.length u = String.length v -> s +:+ u = t +:+ v -> s = t /\ u = v.
Proof.
  intros Hl. revert t; induction s as [|c s IH]; intros [|d t]; simpl; try done.
  - intros H. apply (f_equal String.length) in H. simpl in H. rewrite append_length in H. lia.
  - intros H. apply (f_equal String.length) in H. simpl in H. rewrite append_length in H. lia.
  - intros [= -> H]. destruct (IH t H) as [-> ->]. done.
Qed.

Lemma strip_prefix_Some p s r : strip_prefix p s = Some r <-> s = p +:+ r.
Proof.
  revert s; induction p as [|a p IH]; intros [|b s]; simpl;
    try (split; congruence).
  destruct (Ascii.eqb_spec a b) as [->|Hne].
  - rewrite IH. split; congruence.
  - split; congruence.
Qed.

Lemma starts_with_spec p s : starts_with p s = true <-> exists r, s = p +:+ r.
Proof.
  unfold starts_with. destruct (strip_prefix p s) as [r|] eqn:E.
  - apply strip_prefix_Some in E. naive_solver.
  - split; [done|]. intros [r Hr]. apply strip_prefix_Some in Hr. congruence.
Qed.

Lemma strip_suffix_Some suf s r : strip_suffix suf s = Some r <-> s = r +:+ suf.
Proof.
  assert (Hself : forall r s, s = r +:+ s -> r = "").
  { intros r0 s0 H. apply (f_equal String.length) in H.
    rewrite append_length in H. destruct r0; [done|]. simpl in H. lia. }
  revert r; induction s as [|c s IH]; intros r; cbn [strip_suffix].
  - destruct (String.eqb_spec "" suf) as [<-|Hne].
    + rewrite append_nil_r. split; congruence.
    + split; [done|]. destruct r; simpl; congruence.
  - destruct (String.eqb_spec (String c s) suf) as [<-|Hne]; split.
    + by intros [= <-].
    + intros H. f_equal. symmetry. eapply Hself. exact H.
    + intros H. apply fmap_Some in H as (r' & Hr' & ->).
      apply IH in Hr' as ->. done.
    + destruct r as [|d r]; simpl; [congruence|]. intros [= -> Hs].
      assert (strip_suffix suf s = Some r) as -> by (apply IH; done). done.
Qed.

Lemma contains_char_app c s t :
  contains_char c (s +:+ t) = contains_char c s || contains_char c t.
Proof. induction s as [|a s IH]; simpl; [done|]. by rewrite IH, orb_assoc. Qed.

Lemma split_char_no_sep c s : contains_char c s = false -> split_char c s = [s].
Proof.
  induction s as [|a s IH]; simpl; [done|].
  intros [Ha Hs]%orb_false_iff. by rewrite Ha, IH.
Qed.

Lemma as_bytes_app s t : as_bytes (s +:+ t) = as_bytes s ++ as_bytes t.
Proof. induction s as [|c s IH]; simpl; [done|]. unfold as_bytes in *; simpl. by rewrite IH. Qed.

Lemma of_as_bytes s : of_bytes (as_bytes s) = s.
Proof. apply String.string_of_list_ascii_of_string. Qed.

Lemma as_of_bytes b : as_bytes (of_bytes b) = b.
Proof. apply String.list_ascii_of_string_of_list_ascii. Qed.

Lemma as_bytes_inj s t : as_bytes s = as_bytes t -> s = t.
Proof. intros H. by rewrite <- (of_as_bytes s), <- (of_as_bytes t), H. Qed.

(** ** Lemmas on paths *)

(** A string that is exactly one ordinary path component. *)
Definition normal_component (s : string) : bool :=
  negb (String.eqb s "") && negb (String.eqb s ".") && negb (contains_char "/" s).

Lemma relative_components_normal s :
  normal_component s = true -> relative_components s = [s].
Proof.
  unfold normal_component, relative_components.
  intros [[H1 H2]%andb_true_iff H3%negb_true_iff]%andb_true_iff.
  rewrite split_char_no_sep by done.
  rewrite filter_cons_True by (by rewrite H1, H2). by rewrite filter_nil.
Qed.

Lemma join_normal p s : normal_component s = true -> join p s = p ++ [s].
Proof.
  intros Hn. unfold join, path_of_string, is_absolute.
  pose proof (relative_components_normal s Hn) as Hr.
  unfold normal_component in Hn.
  apply andb_true_iff in Hn as [[H1%negb_true_iff H2%negb_true_iff]%andb_true_iff H3%negb_true_iff].
  assert (forall q, starts_with q s = true -> contains_char "/" q = false) as Hsl.
  { intros q [r ->]%starts_with_spec. rewrite contains_char_app in H3.
    by apply orb_false_iff in H3 as [? _]. }
  destruct (starts_with "/" s) eqn:E1; [by apply Hsl in E1|].
  destruct (starts_with "./" s) eqn:E2; [by apply Hsl in E2|].
  rewrite H2. simpl. rewrite Hr. by destruct p.
Qed.

Lemma path_strip_prefix_app base p : path_strip_prefix base (base ++ p) = Some p.
Proof. induction base as [|a base IH]; simpl; [done|]. by rewrite String.eqb_refl. Qed.

Lemma path_strip_prefix_Some base p r :
  path_strip_prefix base p = Some r <-> p = base ++ r.
Proof.
  revert p; induction base as [|a base IH]; intros [|b p]; simpl; try (split; congruence).
  destruct (String.eqb_spec a b) as [->|Hne]; [rewrite IH|]; split; congruence.
Qed.

Lemma last_app_singleton {A} (l : list A) x : last (l ++ [x]) = Some x.
Proof. by rewrite last_snoc. Qed.

Lemma file_name_snoc p s : special_component s = false -> file_name (p ++ [s]) = Some s.
Proof. intros H. unfold file_name. rewrite last_snoc. simpl. by rewrite H. Qed.

Lemma removelast_snoc {A} (l : list A) x : removelast (l ++ [x]) = l.
Proof. apply removelast_last. Qed.

Lemma parent_snoc p s : s <> "/" -> parent (p ++ [s]) = Some p.
Proof.
  intros H. unfold parent. rewrite last_snoc.
  destruct (String.eqb_spec s "/"); [done|]. by rewrite removelast_snoc.
Qed.

Lemma parent_Some q p : parent q = Some p -> exists s, q = p ++ [s] /\ s <> "/".
Proof.
  unfold parent. destruct (last q) as [s|] eqn:E; [|done]. apply last_Some in E as [l ->].
  destruct (String.eqb_spec s "/"); [done|]. rewrite removelast_snoc. intros [= <-]. by exists s.
Qed.

Lemma after_last_dot_app s e :
  contains_char "." e = false -> after_last_dot (s +:+ "." +:+ e) = Some e.
Proof.
  intros He. assert (after_last_dot e = None) as Hn.
  { clear s. induction e as [|c e IH]; simpl in *; [done|].
    apply orb_false_iff in He as [Hc He]. by rewrite IH, Hc. }
  induction s as [|c s IH]; simpl.
  - by rewrite Hn.
  - simpl in IH. by rewrite IH.
Qed.

(** The extension of [<stem>.<ext>] for a non-empty stem. *)
Lemma extension_stem p s e :
  s <> "" -> contains_char "." e = false ->
  special_component (s +:+ "." +:+ e) = false ->
  extension (p ++ [s +:+ "." +:+ e]) = Some e.
Proof.
  intros Hs He Hsp. unfold extension. rewrite file_name_snoc by done. simpl.
  destruct s as [|c s]; [done|]. simpl.
  pose proof (after_last_dot_app s e He) as H1. simpl in H1.
  rewrite H1. by destruct c as [[] [] [] [] [] [] [] []].
Qed.

#[export] Hint Rewrite append_assoc append_nil_r append_length as_bytes_app
  of_as_bytes as_of_bytes path_strip_prefix_app @last_snoc @removelast_snoc : detritus.
