(* ===== verification/Fs.v ===== *)
(** * The file system and the clock: the world the program's I/O acts on

    A file system is a finite map from paths to nodes.  Every system call first
    consumes one entry of the fault schedule [w_faults]: a [Some] entry makes
    the call fail with that error, after the part of its effect [f_partial]
    says (bytes written, directories created); when the schedule is exhausted
    calls fail only for the reasons the file system gives.  Statements
    quantified over worlds therefore quantify over every pattern of I/O
    errors. *)

From S2P Require Import Prelude RustStd.

Inductive ErrorKind :=
| NotFound
| AlreadyExists
| NotADirectory
| IsADirectory
| DirectoryNotEmpty
| InvalidData
| Other.

#[export] Instance ErrorKind_eq_dec : EqDecision ErrorKind.
Proof. solve_decision. Defined.

Record io_error := IoError { kind : ErrorKind; message : string }.

#[export] Instance io_error_eq_dec : EqDecision io_error.
Proof. solve_decision. Defined.

(** A scheduled failure (an I/O error, a full disk, a permission problem): never
    one of the kinds that report what the file system contains. *)
Record Fault := { f_message : string; f_partial : nat }.

Definition f_error (f : Fault) : io_error := IoError Other (f_message f).

(** Times are nanoseconds since the Unix epoch. *)
Inductive Node :=
| File (content : bytes) (mtime : Z)
| Dir.

#[export] Instance Node_eq_dec : EqDecision Node.
Proof. solve_decision. Defined.

Record World := mkWorld {
  w_fs : gmap Path Node;
  w_now : Z;
  w_clock : list Z;
  w_faults : list (option Fault);
  w_uuids : nat;
  w_dir_mtime : Path -> Z
}.

Definition with_fs (w : World) (fs : gmap Path Node) : World :=
  {| w_fs := fs; w_now := w_now w; w_clock := w_clock w; w_faults := w_faults w;
     w_uuids := w_uuids w; w_dir_mtime := w_dir_mtime w |}.

Definition with_faults (w : World) (fl : list (option Fault)) : World :=
  {| w_fs := w_fs w; w_now := w_now w; w_clock := w_clock w; w_faults := fl;
     w_uuids := w_uuids w; w_dir_mtime := w_dir_mtime w |}.

(** ** The I/O monad

    [ST W E A] is a computation on states [W] that may fail with [E]; file
    system programs are [IO := ST World]. *)

Definition ST (W E A : Type) : Type := W -> Result A E * W.
Definition IO : Type -> Type -> Type := ST World.

Section Monad.
Context {W E A : Type}.

Definition io_ret (a : A) : ST W E A := fun w => (Ok a, w).
Definition io_err (e : E) : ST W E A := fun w => (Err e, w).
Definition io_lift (r : Result A E) : ST W E A := fun w => (r, w).

Definition io_bind {B : Type} (m : ST W E A) (k : A -> ST W E B) : ST W E B :=
  fun w => match m w with
           | (Ok a, w') => k a w'
           | (Err e, w') => (Err e, w')
           end.

(** Conversion of the error type, as [?] does through [From]. *)
Definition io_map_err {F : Type} (f : E -> F) (m : ST W E A) : ST W F A :=
  fun w => match m w with
           | (Ok a, w') => (Ok a, w')
           | (Err e, w') => (Err (f e), w')
           end.

(** The result as a value, as in [match op().await { Ok(..) => .., Err(..) => .. }]. *)
Definition io_try {F : Type} (m : ST W E A) : ST W F (Result A E) :=
  fun w => match m w with (r, w') => (Ok r, w') end.
End Monad.

Declare Scope io_scope.
Delimit Scope io_scope with io.
Open Scope io_scope.

Notation "'let!' x ':=' m 'in' k" := (io_bind m (fun x => k))
  (at level 10, x pattern, m at level 100, k at level 200) : io_scope.
Notation "m ';;!' k" := (io_bind m (fun _ => k))
  (at level 100, right associativity) : io_scope.

Fixpoint io_fold {W E A S : Type} (f : S -> A -> ST W E S) (s : S) (l : list A) : ST W E S :=
  match l with
  | [] => io_ret s
  | x :: xs => let! s' := f s x in io_fold f s' xs
  end.

(** ** System calls *)

Definition next_fault (w : World) : option Fault * World :=
  match w_faults w with
  | [] => (None, w)
  | f :: fl => (f, with_faults w fl)
  end.

(** A call: fail as the schedule says, with the partial effect [part], or run [op]. *)
Definition syscall {A : Type} (part : nat -> gmap Path Node -> gmap Path Node)
    (op : World -> Result A io_error * gmap Path Node) : IO io_error A :=
  fun w =>
    let (f, w1) := next_fault w in
    match f with
    | Some ft => (Err (f_error ft), with_fs w1 (part (f_partial ft) (w_fs w1)))
    | None => let (r, fs) := op w1 in (r, with_fs w1 fs)
    end.

Definition no_part (n : nat) (fs : gmap Path Node) : gmap Path Node := fs.

Definition fail_kind {A} (k : ErrorKind) : Result A io_error :=
  Err (IoError k "").

Definition ancestors (p : Path) : list Path :=
  (fun n => take n p) <$> seq 1 (length p).

Definition add_dir (fs : gmap Path Node) (p : Path) : gmap Path Node :=
  match fs !! p with None => <[p := Dir]> fs | Some _ => fs end.

Definition is_file (fs : gmap Path Node) (p : Path) : bool :=
  match fs !! p with Some (File _ _) => true | _ => false end.

Definition is_dir (fs : gmap Path Node) (p : Path) : bool :=
  match fs !! p with Some Dir => true | _ => false end.

Definition parent_is_dir (fs : gmap Path Node) (p : Path) : bool :=
  match parent p with
  | None | Some [] => true
  | Some q => is_dir fs q
  end.

(** [fs::create_dir_all] *)
Definition create_dir_all (p : Path) : IO io_error unit :=
  syscall (fun n fs => if existsb (is_file fs) (ancestors p) then fs
                       else foldl add_dir fs (take n (ancestors p)))
    (fun w => if existsb (is_file (w_fs w)) (ancestors p)
              then (fail_kind NotADirectory, w_fs w)
              else (Ok tt, foldl add_dir (w_fs w) (ancestors p))).

(** [File::create]: create or truncate. *)
Definition file_create (p : Path) : IO io_error unit :=
  syscall no_part
    (fun w => if is_dir (w_fs w) p then (fail_kind IsADirectory, w_fs w)
              else if parent_is_dir (w_fs w) p
              then (Ok tt, <[p := File [] (w_now w)]> (w_fs w))
              else (fail_kind NotFound, w_fs w)).

(** [OpenOptions::new().create(true).append(true).open(p)] *)
Definition open_append (p : Path) : IO io_error unit :=
  syscall no_part
    (fun w => if is_dir (w_fs w) p then (fail_kind IsADirectory, w_fs w)
              else if is_file (w_fs w) p then (Ok tt, w_fs w)
              else if parent_is_dir (w_fs w) p
              then (Ok tt, <[p := File [] (w_now w)]> (w_fs w))
              else (fail_kind NotFound, w_fs w)).

Definition append_to (p : Path) (b : bytes) (now : Z) (fs : gmap Path Node) : gmap Path Node :=
  match fs !! p with
  | Some (File c _) => <[p := File (c ++ b) now]> fs
  | _ => fs
  end.

(** [write_all] on the open file [p]; a failing write may have written a prefix. *)
Definition write_all (p : Path) (b : bytes) : IO io_error unit :=
  fun w => syscall (fun n fs => append_to p (take n b) (w_now w) fs)
    (fun w => (Ok tt, append_to p b (w_now w) (w_fs w))) w.

(** [flush] / [sync_all] *)
Definition sync_file (p : Path) : IO io_error unit :=
  syscall no_part (fun w => (Ok tt, w_fs w)).

(** [fs::write] *)
Definition fs_write (p : Path) (b : bytes) : IO io_error unit :=
  file_create p;;! write_all p b.

(** [fs::read] *)
Definition fs_read (p : Path) : IO io_error bytes :=
  syscall no_part
    (fun w => (match w_fs w !! p with
               | Some (File c _) => Ok c
               | Some Dir => fail_kind IsADirectory
               | None => fail_kind NotFound
               end, w_fs w)).

(** [fs::try_exists] *)
Definition try_exists (p : Path) : IO io_error bool :=
  syscall no_part
    (fun w => (Ok (bool_decide (is_Some (w_fs w !! p))), w_fs w)).

(** [fs::hard_link] *)
Definition hard_link (src dst : Path) : IO io_error unit :=
  syscall no_part
    (fun w => match w_fs w !! src with
              | Some (File c t) =>
                  match w_fs w !! dst with
                  | Some _ => (fail_kind AlreadyExists, w_fs w)
                  | None => if parent_is_dir (w_fs w) dst
                            then (Ok tt, <[dst := File c t]> (w_fs w))
                            else (fail_kind NotFound, w_fs w)
                  end
              | Some Dir => (fail_kind Other, w_fs w)
              | None => (fail_kind NotFound, w_fs w)
              end).

(** [fs::remove_file] *)
Definition remove_file (p : Path) : IO io_error unit :=
  syscall no_part
    (fun w => match w_fs w !! p with
              | Some (File _ _) => (Ok tt, delete p (w_fs w))
              | Some Dir => (fail_kind IsADirectory, w_fs w)
              | None => (fail_kind NotFound, w_fs w)
              end).

(** What [fs::metadata] gives: modification time and length (the program never
    reads the length of a directory). *)
Record Metadata := { md_modified : Z; md_len : Z; md_is_dir : bool }.

Definition fs_metadata (p : Path) : IO io_error Metadata :=
  syscall no_part
    (fun w => (match w_fs w !! p with
               | Some (File c t) => Ok {| md_modified := t; md_len := len_u64 c; md_is_dir := false |}
               | Some Dir => Ok {| md_modified := w_dir_mtime w p; md_len := 0; md_is_dir := true |}
               | None => fail_kind NotFound
               end, w_fs w)).

(** [SystemTime::now()] *)
Definition system_time_now {E} : IO E Z :=
  fun w => match w_clock w with
           | [] => (Ok (w_now w), w)
           | t :: ts => (Ok t, {| w_fs := w_fs w; w_now := t; w_clock := ts;
                                  w_faults := w_faults w; w_uuids := w_uuids w;
                                  w_dir_mtime := w_dir_mtime w |})
           end.

(** The order in which the operating system lists a directory is unspecified. *)
Class Os := {
  dir_order : list Path -> list Path;
  dir_order_perm : forall l, dir_order l ≡ₚ l
}.

Definition children (fs : gmap Path Node) (p : Path) : list Path :=
  filter (fun q => parent q = Some p) (map_to_list fs).*1.

(** [fs::read_dir] *)
Definition read_dir `{Os} (p : Path) : IO io_error (list Path) :=
  syscall no_part
    (fun w => (match w_fs w !! p with
               | Some Dir => Ok (dir_order (children (w_fs w) p))
               | Some (File _ _) => fail_kind NotADirectory
               | None => fail_kind NotFound
               end, w_fs w)).

(** [DirEntry::file_type], of an entry [read_dir] returned. *)
Inductive FileType := IsFile | IsDir.

Definition file_type (p : Path) : IO io_error FileType :=
  syscall no_part
    (fun w => (match w_fs w !! p with
               | Some (File _ _) => Ok IsFile
               | Some Dir => Ok IsDir
               | None => fail_kind NotFound
               end, w_fs w)).

(** ** Reasoning about I/O programs

    [wp m Q w]: running [m] from [w] ends in a result and a world in [Q]. *)

Definition wp {W E A : Type} (m : ST W E A) (Q : Result A E -> W -> Prop) (w : W) : Prop :=
  Q (m w).1 (m w).2.

Lemma wp_ret {W E A : Type} (a : A) (Q : Result A E -> W -> Prop) w :
  Q (Ok a) w -> wp (io_ret a) Q w.
Proof. done. Qed.

Lemma wp_err {W E A : Type} (e : E) (Q : Result A E -> W -> Prop) w :
  Q (Err e) w -> wp (io_err e) Q w.
Proof. done. Qed.

Lemma wp_lift {W E A : Type} (r : Result A E) (Q : Result A E -> W -> Prop) w :
  Q r w -> wp (io_lift r) Q w.
Proof. done. Qed.

Lemma wp_bind {W E A B : Type} (m : ST W E A) (k : A -> ST W E B) (Q : Result B E -> W -> Prop) w :
  wp m (fun r w' => match r with Ok a => wp (k a) Q w' | Err e => Q (Err e) w' end) w ->
  wp (io_bind m k) Q w.
Proof. unfold wp, io_bind. by destruct (m w) as [[a|e] w']. Qed.

Lemma wp_map_err {W E F A : Type} (f : E -> F) (m : ST W E A) (Q : Result A F -> W -> Prop) w :
  wp m (fun r w' => Q (map_err f r) w') w -> wp (io_map_err f m) Q w.
Proof. unfold wp, io_map_err. by destruct (m w) as [[a|e] w']. Qed.

Lemma wp_try {W E F A : Type} (m : ST W E A) (Q : Result (Result A E) F -> W -> Prop) w :
  wp m (fun r w' => Q (Ok r) w') w -> wp (io_try m) Q w.
Proof. unfold wp, io_try. by destruct (m w) as [r w']. Qed.

Lemma wp_mono {W E A : Type} (m : ST W E A) (Q Q' : Result A E -> W -> Prop) w :
  wp m Q w -> (forall r w', Q r w' -> Q' r w') -> wp m Q' w.
Proof. unfold wp; auto. Qed.

Lemma wp_run {W E A : Type} (m : ST W E A) (Q : Result A E -> W -> Prop) w r w' :
  wp m Q w -> m w = (r, w') -> Q r w'.
Proof. unfold wp. intros H Hrun. by rewrite Hrun in H. Qed.

Lemma wp_of_run {W E A : Type} (m : ST W E A) (Q : Result A E -> W -> Prop) w :
  (forall r w', m w = (r, w') -> Q r w') -> wp m Q w.
Proof. unfold wp. intros H. by apply H, surjective_pairing. Qed.

(** A loop with an invariant of the accumulator and the world. *)
Lemma wp_fold {W E A S : Type} (f : S -> A -> ST W E S) (I : S -> list A -> W -> Prop)
    (Q : Result S E -> W -> Prop) s l w :
  (forall s x xs w, I s (x :: xs) w ->
     wp (f s x) (fun r w' => match r with Ok s' => I s' xs w' | Err e => Q (Err e) w' end) w) ->
  (forall s w, I s [] w -> Q (Ok s) w) ->
  I s l w -> wp (io_fold f s l) Q w.
Proof.
  intros Hstep Hend. revert s w.
  induction l as [|x l IH]; intros s w HI; simpl; [by apply wp_ret, Hend|].
  apply wp_bind. eapply wp_mono; [by apply Hstep|].
  intros [s'|e] w'; auto.
Qed.

(** What a call never changes: everything but the files and the schedule. *)
Definition same_env (w w' : World) : Prop :=
  w_now w' = w_now w /\ w_clock w' = w_clock w /\ w_uuids w' = w_uuids w /\
  w_dir_mtime w' = w_dir_mtime w.

#[export] Instance same_env_preorder : PreOrder same_env.
Proof. split; unfold same_env; [done|]. intros w1 w2 w3; intuition congruence. Qed.

(** With the schedule exhausted it stays exhausted. *)
Definition faults_from (w w' : World) : Prop := w_faults w = [] -> w_faults w' = [].

Lemma next_fault_spec w f w1 :
  next_fault w = (f, w1) ->
  w_fs w1 = w_fs w /\ same_env w w1 /\ faults_from w w1 /\ (w_faults w = [] -> f = None).
Proof.
  unfold next_fault, same_env, faults_from.
  destruct (w_faults w) as [|f0 fl] eqn:E; intros [= <- <-]; simpl; naive_solver.
Qed.

Lemma wp_syscall {A : Type} part op (Q : Result A io_error -> World -> Prop) w :
  (forall msg n w', w_faults w <> [] -> w_fs w' = part n (w_fs w) -> same_env w w' ->
     Q (Err (IoError Other msg)) w') ->
  (forall w1, w_fs w1 = w_fs w -> same_env w w1 -> faults_from w w1 ->
     Q (op w1).1 (with_fs w1 (op w1).2)) ->
  wp (syscall part op) Q w.
Proof.
  intros Hf Ho. unfold wp, syscall.
  destruct (next_fault w) as [[ft|] w1] eqn:E;
    apply next_fault_spec in E as (Hfs & Henv & Hfl & Hnone).
  - simpl. apply (Hf (f_message ft) (f_partial ft)).
    + intros H. by specialize (Hnone H).
    + simpl. by rewrite Hfs.
    + destruct Henv as (?&?&?&?). by repeat split.
  - specialize (Ho w1 Hfs Henv Hfl). by destruct (op w1).
Qed.

Lemma syscall_no_fault {A : Type} (part : nat -> gmap Path Node -> gmap Path Node) (op : World -> Result A io_error * gmap Path Node) w :
  w_faults w = [] ->
  syscall part op w = ((op w).1, with_fs w (op w).2).
Proof. intros H. unfold syscall, next_fault. rewrite H. by destruct (op w). Qed.

Lemma ancestors_self p : p <> [] -> p ∈ ancestors p.
Proof.
  intros H. unfold ancestors. apply list_elem_of_fmap. exists (length p).
  rewrite take_ge by lia. split; [done|]. apply elem_of_seq.
  destruct p; [done|]. simpl. lia.
Qed.

Lemma foldl_add_dir_lookup fs l q :
  foldl add_dir fs l !! q =
  match fs !! q with
  | Some n => Some n
  | None => if decide (q ∈ l) then Some Dir else None
  end.
Proof.
  revert fs; induction l as [|x l IH]; intros fs; simpl.
  - by destruct (fs !! q).
  - rewrite IH. unfold add_dir. destruct (fs !! x) as [n|] eqn:Ex.
    + destruct (fs !! q) eqn:Eq; [done|].
      repeat case_decide; try done; set_solver.
    + destruct (decide (x = q)) as [->|Hne].
      * rewrite lookup_insert_eq, Ex. rewrite decide_True by set_solver. done.
      * rewrite lookup_insert_ne by done.
        destruct (fs !! q); [done|]. repeat case_decide; try done; set_solver.
Qed.

(** [only S fs fs']: outside [S] nothing changes, except that missing
    directories may have been created. *)
Definition only (S : Path -> Prop) (fs fs' : gmap Path Node) : Prop :=
  forall q, S q \/ fs' !! q = fs !! q \/ (fs !! q = None /\ fs' !! q = Some Dir).

#[export] Instance only_refl S : Reflexive (only S).
Proof. intros fs q; auto. Qed.

#[export] Instance only_trans S : Transitive (only S).
Proof.
  intros fs1 fs2 fs3 H12 H23 q.
  destruct (H12 q) as [|[E12|[E1 E2]]]; [by left| |].
  - rewrite <- E12. destruct (H23 q) as [|[|]]; auto.
  - destruct (H23 q) as [|[->|[? ?]]]; [by left| |congruence]. auto.
Qed.

Lemma only_mono (S T : Path -> Prop) fs fs' :
  (forall q, S q -> T q) -> only S fs fs' -> only T fs fs'.
Proof. intros HST H q. destruct (H q) as [?|?]; auto. Qed.

Lemma only_insert (S : Path -> Prop) fs p n : S p -> only S fs (<[p := n]> fs).
Proof.
  intros HS q. destruct (decide (p = q)) as [<-|Hne]; [by left|].
  right; left. by rewrite lookup_insert_ne.
Qed.

Lemma only_delete (S : Path -> Prop) fs p : S p -> only S fs (delete p fs).
Proof.
  intros HS q. destruct (decide (p = q)) as [<-|Hne]; [by left|].
  right; left. by rewrite lookup_delete_ne.
Qed.

Lemma only_append_to (S : Path -> Prop) fs p b now : S p -> only S fs (append_to p b now fs).
Proof.
  intros HS. unfold append_to. destruct (fs !! p) as [[c t|]|]; try reflexivity.
  by apply only_insert.
Qed.

Lemma only_foldl_add_dir S fs l : only S fs (foldl add_dir fs l).
Proof.
  intros q. rewrite foldl_add_dir_lookup.
  destruct (fs !! q); [by auto|]. case_decide; auto.
Qed.

(** Files outside [S] are the same before and after. *)
Lemma only_file (S : Path -> Prop) fs fs' q c t :
  only S fs fs' -> ~ S q -> fs' !! q = Some (File c t) <-> fs !! q = Some (File c t).
Proof. intros H HS. destruct (H q) as [?|[->|[-> ->]]]; [done|done|]. split; done. Qed.

Lemma only_some (S : Path -> Prop) fs fs' q n :
  only S fs fs' -> ~ S q -> fs !! q = Some n -> fs' !! q = Some n.
Proof. intros H HS Hq. destruct (H q) as [?|[->|[? ?]]]; congruence. Qed.

#[export] Hint Resolve only_insert only_delete only_append_to only_foldl_add_dir : detritus.

Lemma same_env_with_fs w w1 fs : same_env w w1 -> same_env w (with_fs w1 fs).
Proof. done. Qed.

#[export] Hint Resolve same_env_with_fs : detritus.

Lemma ancestors_prefix p q : q ∈ ancestors p -> q `prefix_of` p.
Proof.
  unfold ancestors. intros (n & -> & _)%list_elem_of_fmap.
  exists (drop n p). by rewrite take_drop.
Qed.

(** Creating ancestors of [p] changes no other path. *)
Lemma foldl_add_dir_prefix p l fs q :
  (forall x, x ∈ l -> x ∈ ancestors p) -> ~ q `prefix_of` p -> foldl add_dir fs l !! q = fs !! q.
Proof.
  intros Hl Hq. rewrite foldl_add_dir_lookup. destruct (fs !! q); [done|].
  rewrite decide_False; [done|]. intros Hin. by apply Hq, ancestors_prefix, Hl.
Qed.

Lemma wp_create_dir_all p Q w :
  (forall r w', same_env w w' -> only (fun _ => False) (w_fs w) (w_fs w') ->
     (forall q, ~ q `prefix_of` p -> w_fs w' !! q = w_fs w !! q) ->
     (r = Ok tt -> forall q, q ∈ ancestors p -> w_fs w' !! q = Some Dir) -> Q r w') ->
  wp (create_dir_all p) Q w.
Proof.
  intros HQ. apply wp_syscall.
  - intros e n w' _ Hfs Henv. apply HQ; [done| | |done]; rewrite Hfs; destruct (existsb _ _);
      auto with detritus; [done|]. intros q Hq. apply (foldl_add_dir_prefix p); [|done]. intros x Hx.
    by apply elem_of_take in Hx as (i & Hi%list_elem_of_lookup_2 & _).
  - intros w1 Hfs Henv _. rewrite Hfs.
    destruct (existsb _ _) eqn:Hex; simpl; apply HQ; simpl; auto with detritus; try done.
    + intros q Hq. by apply (foldl_add_dir_prefix p).
    + intros _ q Hq. rewrite foldl_add_dir_lookup, decide_True by done.
      destruct (w_fs w !! q) as [[c t|]|] eqn:Eq; [|done|done].
      exfalso. apply not_true_iff_false in Hex. apply Hex, existsb_exists.
      exists q. split; [by apply list_elem_of_In|]. unfold is_file. by rewrite Eq.
Qed.

(** Closes a goal [Q r (with_fs w1 fs)] with the matching premise. *)
Ltac sys_done :=
  match goal with
  | H : forall _, _ |- _ => eapply H; simpl; eauto with detritus; done
  end.

Lemma wp_file_create p Q w :
  (forall w', same_env w w' -> w_fs w' = <[p := File [] (w_now w)]> (w_fs w) -> Q (Ok tt) w') ->
  (forall e w', same_env w w' -> w_fs w' = w_fs w -> Q (Err e) w') ->
  wp (file_create p) Q w.
Proof.
  intros HO HE. apply wp_syscall; [by eauto|].
  intros w1 Hfs Henv _. rewrite Hfs.
  assert (w_now w1 = w_now w) as -> by apply Henv.
  destruct (is_dir _ _); [|destruct (parent_is_dir _ _)]; simpl; sys_done.
Qed.

Lemma wp_write_all p b Q w :
  (forall w', same_env w w' -> w_fs w' = append_to p b (w_now w) (w_fs w) -> Q (Ok tt) w') ->
  (forall e n w', same_env w w' -> w_fs w' = append_to p (take n b) (w_now w) (w_fs w) ->
     Q (Err e) w') ->
  wp (write_all p b) Q w.
Proof.
  intros HO HE. unfold write_all, wp. apply wp_syscall; [by eauto|].
  intros w1 Hfs Henv _. rewrite Hfs.
  assert (w_now w1 = w_now w) as -> by apply Henv. simpl. sys_done.
Qed.

Lemma wp_sync_file p Q w :
  (forall r w', same_env w w' -> w_fs w' = w_fs w -> Q r w') ->
  wp (sync_file p) Q w.
Proof. intros HQ. apply wp_syscall; [by eauto|]. intros w1 Hfs Henv _. rewrite Hfs. sys_done. Qed.

Lemma wp_try_exists p Q w :
  (forall w', same_env w w' -> w_fs w' = w_fs w ->
     Q (Ok (bool_decide (is_Some (w_fs w !! p)))) w') ->
  (forall e w', same_env w w' -> w_fs w' = w_fs w -> Q (Err e) w') ->
  wp (try_exists p) Q w.
Proof.
  intros HO HE. apply wp_syscall; [by eauto|].
  intros w1 Hfs Henv _. rewrite Hfs. simpl. sys_done.
Qed.

Lemma wp_fs_read p Q w :
  (forall c t w', w_fs w !! p = Some (File c t) -> same_env w w' -> w_fs w' = w_fs w -> Q (Ok c) w') ->
  (forall e w', same_env w w' -> w_fs w' = w_fs w -> Q (Err e) w') ->
  wp (fs_read p) Q w.
Proof.
  intros HO HE. apply wp_syscall; [by eauto|].
  intros w1 Hfs Henv _. rewrite Hfs. simpl.
  destruct (w_fs w !! p) as [[c t|]|] eqn:E0; sys_done.
Qed.

Lemma wp_hard_link src dst Q w :
  (forall c t w', w_fs w !! src = Some (File c t) -> w_fs w !! dst = None ->
     same_env w w' -> w_fs w' = <[dst := File c t]> (w_fs w) -> Q (Ok tt) w') ->
  (forall e w', (kind e = AlreadyExists -> is_Some (w_fs w !! dst)) ->
     same_env w w' -> w_fs w' = w_fs w -> Q (Err e) w') ->
  wp (hard_link src dst) Q w.
Proof.
  intros HO HE. apply wp_syscall; [intros; by apply HE|].
  intros w1 Hfs Henv _. rewrite Hfs. simpl.
  destruct (w_fs w !! src) as [[c t|]|] eqn:Es;
    [destruct (w_fs w !! dst) eqn:Ed; [|destruct (parent_is_dir _ _)]| |]; simpl; sys_done.
Qed.

Lemma wp_remove_file_kind p Q w :
  (forall c t w', w_fs w !! p = Some (File c t) -> same_env w w' ->
     w_fs w' = delete p (w_fs w) -> Q (Ok tt) w') ->
  (forall e w', same_env w w' -> w_fs w' = w_fs w ->
     (kind e = NotFound -> w_fs w !! p = None) -> Q (Err e) w') ->
  wp (remove_file p) Q w.
Proof.
  intros HO HE. apply wp_syscall; [by intros; apply HE|].
  intros w1 Hfs Henv _. rewrite Hfs. simpl.
  destruct (w_fs w !! p) as [[c t|]|] eqn:Ep; simpl;
    [by eapply HO; simpl; eauto with detritus|apply HE; simpl; auto with detritus; done..].
Qed.

Lemma wp_remove_file p Q w :
  (forall c t w', w_fs w !! p = Some (File c t) -> same_env w w' ->
     w_fs w' = delete p (w_fs w) -> Q (Ok tt) w') ->
  (forall e w', same_env w w' -> w_fs w' = w_fs w -> Q (Err e) w') ->
  wp (remove_file p) Q w.
Proof. intros HO HE. apply wp_remove_file_kind; auto. Qed.

Lemma wp_system_time_now {E} Q w :
  (forall t w', w_fs w' = w_fs w -> w_faults w' = w_faults w -> w_uuids w' = w_uuids w ->
     w_dir_mtime w' = w_dir_mtime w -> w_now w' = t -> Q (Ok t) w') ->
  wp (@system_time_now E) Q w.
Proof. intros HQ. unfold wp, system_time_now. destruct (w_clock w); simpl; auto. Qed.

(** The clock readings a run can still make. *)
Definition times (w : World) : list Z := w_now w :: w_clock w.

Lemma same_env_times w w' : same_env w w' -> times w' = times w.
Proof. intros (Hn & Hc & _). unfold times. congruence. Qed.

Lemma wp_fs_metadata p Q w :
  (forall md w', w_fs w' = w_fs w -> same_env w w' ->
     (forall c t, w_fs w !! p = Some (File c t) -> md_modified md = t /\ md_len md = len_u64 c) ->
     Q (Ok md) w') ->
  (forall e w', w_fs w' = w_fs w -> same_env w w' -> Q (Err e) w') ->
  wp (fs_metadata p) Q w.
Proof.
  intros HO HE. apply wp_syscall; [by eauto|]. intros w1 Hfs Henv _. rewrite Hfs. simpl.
  destruct (w_fs w !! p) as [[c t|]|] eqn:Ep; simpl;
    [apply HO|apply HO|apply HE]; auto with detritus; try done. intros c' t' [= <- <-]. done.
Qed.

Lemma wp_file_type p Q w :
  (forall ty w', w_fs w' = w_fs w -> times w' = times w ->
     match ty with IsDir => w_fs w !! p = Some Dir
                 | IsFile => exists c t, w_fs w !! p = Some (File c t) end -> Q (Ok ty) w') ->
  (forall e w', w_fs w' = w_fs w -> times w' = times w -> Q (Err e) w') ->
  wp (file_type p) Q w.
Proof.
  intros HO HE. apply wp_syscall; [intros msg n w' _ Hfs Hn%same_env_times; by apply HE|].
  intros w1 Hfs Hn%same_env_times _. rewrite Hfs. simpl.
  destruct (w_fs w !! p) as [[c t|]|] eqn:Ep; simpl; [apply HO|apply HO|apply HE]; eauto.
Qed.

Lemma elem_of_children fs p q : q ∈ children fs p <-> parent q = Some p /\ is_Some (fs !! q).
Proof.
  unfold children. rewrite list_elem_of_filter, list_elem_of_fmap. split.
  - intros [Hp ([q' n] & -> & Hn%elem_of_map_to_list)]. eauto.
  - intros [Hp [n Hn]]. split; [done|]. exists (q, n). split; [done|].
    by apply elem_of_map_to_list.
Qed.

Lemma children_NoDup fs p : NoDup (children fs p).
Proof. apply NoDup_filter, NoDup_fst_map_to_list. Qed.

Lemma wp_read_dir `{Os} p Q w :
  (forall entries w', w_fs w' = w_fs w -> times w' = times w -> w_fs w !! p = Some Dir ->
     entries ≡ₚ children (w_fs w) p -> Q (Ok entries) w') ->
  (forall e w', w_fs w' = w_fs w -> times w' = times w -> Q (Err e) w') ->
  wp (read_dir p) Q w.
Proof.
  intros HO HE. apply wp_syscall; [intros msg n w' _ Hfs Hn%same_env_times; by apply HE|].
  intros w1 Hfs Hn%same_env_times _. rewrite Hfs. simpl.
  destruct (w_fs w !! p) as [[c t|]|] eqn:Ep; simpl; [apply HE|apply HO|apply HE]; auto.
  apply dir_order_perm.
Qed.

(** ** Well-formed file systems: what exists lies in a directory *)

Definition fs_wf (fs : gmap Path Node) : Prop :=
  forall q p n, fs !! q = Some n -> parent q = Some p -> p <> [] -> fs !! p = Some Dir.

Lemma fs_wf_insert fs q n :
  fs_wf fs -> parent_is_dir fs q = true -> (is_dir fs q = true -> n = Dir) -> fs_wf (<[q := n]> fs).
Proof.
  intros Hwf Hq Hd r p n' Hr Hp Hne.
  assert (fs !! p = Some Dir) as Hdir.
  { destruct (decide (q = r)) as [<-|Hqr].
    - unfold parent_is_dir in Hq. rewrite Hp in Hq. destruct p; [done|].
      unfold is_dir in Hq. by destruct (fs !! _) as [[]|].
    - rewrite lookup_insert_ne in Hr by done. by eapply Hwf. }
  destruct (decide (q = p)) as [->|]; [|by rewrite lookup_insert_ne].
  rewrite lookup_insert_eq, Hd; [done|]. unfold is_dir. by rewrite Hdir.
Qed.

(** Removing a file leaves the rest in place. *)
Lemma fs_wf_delete_file fs q c t : fs_wf fs -> fs !! q = Some (File c t) -> fs_wf (delete q fs).
Proof.
  intros Hwf Hq r p n Hr Hp Hne. destruct (decide (q = r)) as [<-|Hqr]; [by rewrite lookup_delete_eq in Hr|].
  rewrite lookup_delete_ne in Hr by done. pose proof (Hwf _ _ _ Hr Hp Hne) as Hdir.
  destruct (decide (q = p)) as [->|]; [congruence|]. by rewrite lookup_delete_ne.
Qed.

Lemma fs_wf_append fs q b now : fs_wf fs -> fs_wf (append_to q b now fs).
Proof.
  intros Hwf. unfold append_to. destruct (fs !! q) as [[c t|]|] eqn:Eq; try done.
  intros r p n Hr Hp Hne.
  assert (fs !! p = Some Dir) as Hdir.
  { destruct (decide (q = r)) as [<-|]; [by eapply Hwf|]. rewrite lookup_insert_ne in Hr by done.
    by eapply Hwf. }
  destruct (decide (q = p)) as [->|]; [congruence|]. by rewrite lookup_insert_ne.
Qed.

Lemma parent_take q n p : parent (take (Datatypes.S n) q) = Some p -> (n < length q)%nat -> p = take n q.
Proof.
  intros Hp Hn. destruct (lookup_lt_is_Some_2 q n Hn) as [x Hx].
  rewrite (take_S_r _ _ _ Hx) in Hp. unfold parent in Hp. rewrite last_snoc in Hp.
  destruct (String.eqb x "/"); [done|]. injection Hp as <-. apply removelast_snoc.
Qed.

Lemma fs_wf_dirs fs q n :
  fs_wf fs -> existsb (is_file fs) (ancestors q) = false -> fs_wf (foldl add_dir fs (take n (ancestors q))).
Proof.
  intros Hwf Hnf r p nd. rewrite !foldl_add_dir_lookup. intros Hr Hp Hne.
  destruct (fs !! r) as [n'|] eqn:Er.
  - by rewrite (Hwf _ _ _ Er Hp Hne).
  - case_decide as Hin; [|done].
    assert (p ∈ take n (ancestors q)) as Hpin.
    { apply elem_of_take in Hin as (i & Hi & Hin). unfold ancestors in Hi.
      apply list_lookup_fmap_Some in Hi as (j & -> & Hj). apply lookup_seq in Hj as [-> Hj].
      apply parent_take in Hp; [|done]. subst p.
      destruct i as [|i]; [by rewrite take_0 in Hne|].
      apply elem_of_take. exists i. split; [|lia]. unfold ancestors.
      rewrite list_lookup_fmap, lookup_seq_lt by lia. done. }
    rewrite decide_True by done. destruct (fs !! p) as [[c t|]|] eqn:Epp; [|done|done].
    exfalso. apply not_true_iff_false in Hnf. apply Hnf, existsb_exists. exists p.
    apply elem_of_take in Hpin as (i & Hi & _). split; [|unfold is_file; by rewrite Epp].
    apply list_elem_of_In. by eapply list_elem_of_lookup_2.
Qed.

(** ** Invariants of programs

    [Keeps I m]: the program [m] preserves [I].  Instances follow the program's
    structure, so that preservation is proved by instance search. *)

Class Keeps {W E A : Type} (I : W -> Prop) (m : ST W E A) : Prop :=
  keeps : forall w, I w -> I (m w).2.

Section Keeps.
Context {W : Type} {I : W -> Prop}.

#[export] Instance keeps_ret {E A} (a : A) : Keeps I (@io_ret W E A a).
Proof. by intros w. Qed.

#[export] Instance keeps_err {E A} (e : E) : Keeps I (@io_err W E A e).
Proof. by intros w. Qed.

#[export] Instance keeps_lift {E A} (r : Result A E) : Keeps I (@io_lift W E A r).
Proof. by intros w. Qed.

#[export] Instance keeps_bind {E A B} (m : ST W E A) (k : A -> ST W E B) :
  Keeps I m -> (forall a, Keeps I (k a)) -> Keeps I (io_bind m k).
Proof.
  intros Hm Hk w Hw. unfold io_bind. specialize (Hm w Hw).
  destruct (m w) as [[a|e] w']; [by apply (Hk a)|done].
Qed.

#[export] Instance keeps_map_err {E F A} (f : E -> F) (m : ST W E A) :
  Keeps I m -> Keeps I (io_map_err f m).
Proof. intros Hm w Hw. unfold io_map_err. specialize (Hm w Hw). by destruct (m w) as [[a|e] w']. Qed.

#[export] Instance keeps_try {E F A} (m : ST W E A) : Keeps I m -> Keeps I (@io_try W E A F m).
Proof. intros Hm w Hw. unfold io_try. specialize (Hm w Hw). by destruct (m w) as [r w']. Qed.

#[export] Instance keeps_fold {E A S} (f : S -> A -> ST W E S) s l :
  (forall s x, Keeps I (f s x)) -> Keeps I (io_fold f s l).
Proof. intros Hf. revert s. induction l as [|x l IH]; intros s; simpl; apply _. Qed.

#[export] Instance keeps_if {E A} (b : bool) (m1 m2 : ST W E A) :
  Keeps I m1 -> Keeps I m2 -> Keeps I (if b then m1 else m2).
Proof. by destruct b. Qed.

#[export] Instance keeps_decide {E A} (P : Prop) (d : Decision P) (m1 m2 : ST W E A) :
  Keeps I m1 -> Keeps I m2 -> Keeps I (if decide P then m1 else m2).
Proof. by destruct (decide P). Qed.

#[export] Instance keeps_option {E A B} (o : option B) (m1 : B -> ST W E A) (m2 : ST W E A) :
  (forall b, Keeps I (m1 b)) -> Keeps I m2 ->
  Keeps I (match o with Some b => m1 b | None => m2 end).
Proof. destruct o; auto. Qed.

#[export] Instance keeps_result {E A B F} (r : Result B F) (m1 : B -> ST W E A) (m2 : F -> ST W E A) :
  (forall b, Keeps I (m1 b)) -> (forall e, Keeps I (m2 e)) ->
  Keeps I (match r with Ok b => m1 b | Err e => m2 e end).
Proof. destruct r; auto. Qed.

#[export] Instance keeps_pair {E A B D} (p : B * D) (m : B -> D -> ST W E A) :
  (forall b d, Keeps I (m b d)) -> Keeps I (let (b, d) := p in m b d).
Proof. destruct p; auto. Qed.
End Keeps.

(** The file system stays well formed. *)
Definition wf_world (w : World) : Prop := fs_wf (w_fs w).

Lemma keeps_syscall {A : Type} (part : nat -> gmap Path Node -> gmap Path Node) (op : World -> Result A io_error * gmap Path Node) :
  (forall n fs, fs_wf fs -> fs_wf (part n fs)) ->
  (forall w, fs_wf (w_fs w) -> fs_wf (op w).2) -> Keeps wf_world (syscall part op).
Proof.
  intros Hp Ho w Hw. unfold wf_world in *.
  apply (wp_syscall part op (fun _ w' => fs_wf (w_fs w'))).
  - intros msg n w' _ -> _. by apply Hp.
  - intros w1 Hfs _ _. simpl. apply Ho. by rewrite Hfs.
Qed.

#[export] Instance create_dir_all_wf p : Keeps wf_world (create_dir_all p).
Proof.
  apply keeps_syscall.
  - intros n fs Hwf. destruct (existsb _ _) eqn:E; [done|]. by apply fs_wf_dirs.
  - intros w Hwf. destruct (existsb _ _) eqn:E; [done|]. simpl.
    rewrite <- (firstn_all (ancestors p)). by apply fs_wf_dirs.
Qed.

#[export] Instance file_create_wf p : Keeps wf_world (file_create p).
Proof.
  apply keeps_syscall; [done|]. intros w Hwf. destruct (is_dir _ _) eqn:Ed; [done|].
  destruct (parent_is_dir _ _) eqn:Ep; [|done]. simpl. by apply fs_wf_insert; [..|rewrite Ed].
Qed.

#[export] Instance open_append_wf p : Keeps wf_world (open_append p).
Proof.
  apply keeps_syscall; [done|]. intros w Hwf. destruct (is_dir _ _) eqn:Ed; [done|].
  destruct (is_file _ _); [done|].
  destruct (parent_is_dir _ _) eqn:Ep; [|done]. simpl. by apply fs_wf_insert; [..|rewrite Ed].
Qed.

#[export] Instance write_all_wf p b : Keeps wf_world (write_all p b).
Proof. intros w. apply keeps_syscall; intros; simpl; by apply fs_wf_append. Qed.

#[export] Instance hard_link_wf src dst : Keeps wf_world (hard_link src dst).
Proof.
  apply keeps_syscall; [done|]. intros w Hwf. destruct (w_fs w !! src) as [[c t|]|]; try done.
  destruct (w_fs w !! dst) eqn:Ed; [done|]. destruct (parent_is_dir _ _) eqn:Ep; [|done]. simpl.
  apply fs_wf_insert; [done|done|]. unfold is_dir. by rewrite Ed.
Qed.

#[export] Instance remove_file_wf p : Keeps wf_world (remove_file p).
Proof.
  apply keeps_syscall; [done|]. intros w Hwf. destruct (w_fs w !! p) as [[c t|]|] eqn:E; try done.
  simpl. by eapply fs_wf_delete_file.
Qed.

#[export] Instance sync_file_wf p : Keeps wf_world (sync_file p).
Proof. by apply keeps_syscall. Qed.

#[export] Instance fs_read_wf p : Keeps wf_world (fs_read p).
Proof. by apply keeps_syscall. Qed.

#[export] Instance try_exists_wf p : Keeps wf_world (try_exists p).
Proof. by apply keeps_syscall. Qed.

#[export] Instance fs_metadata_wf p : Keeps wf_world (fs_metadata p).
Proof. by apply keeps_syscall. Qed.

(** ** Calls that do not fail

    With the schedule exhausted, a call whose preconditions hold succeeds. *)

Lemma wpn_create_dir_all p Q w :
  w_faults w = [] -> (forall q, q `prefix_of` p -> is_file (w_fs w) q = false) ->
  Q (Ok tt) (with_fs w (foldl add_dir (w_fs w) (ancestors p))) -> wp (create_dir_all p) Q w.
Proof.
  intros Hf Hp HQ. unfold wp, create_dir_all. rewrite syscall_no_fault by done.
  destruct (existsb _ _) eqn:E; [|done]. exfalso.
  apply existsb_exists in E as (q & Hq & Hq'). apply list_elem_of_In in Hq.
  rewrite Hp in Hq'; [done|]. by apply ancestors_prefix.
Qed.

Lemma wpn_open_append p Q w :
  w_faults w = [] -> w_fs w !! p <> Some Dir -> parent_is_dir (w_fs w) p = true ->
  Q (Ok tt) (with_fs w (if is_file (w_fs w) p then w_fs w else <[p := File [] (w_now w)]> (w_fs w))) ->
  wp (open_append p) Q w.
Proof.
  intros Hf Hd Hp HQ. unfold wp, open_append. rewrite syscall_no_fault by done.
  replace (is_dir (w_fs w) p) with false by (unfold is_dir; by destruct (w_fs w !! p) as [[]|]).
  rewrite Hp. by destruct (is_file (w_fs w) p).
Qed.

Lemma wpn_file_create p Q w :
  w_faults w = [] -> w_fs w !! p <> Some Dir -> parent_is_dir (w_fs w) p = true ->
  Q (Ok tt) (with_fs w (<[p := File [] (w_now w)]> (w_fs w))) -> wp (file_create p) Q w.
Proof.
  intros Hf Hd Hp HQ. unfold wp, file_create. rewrite syscall_no_fault by done.
  replace (is_dir (w_fs w) p) with false by (unfold is_dir; by destruct (w_fs w !! p) as [[]|]).
  by rewrite Hp.
Qed.

Lemma wpn_write_all p b Q w :
  w_faults w = [] -> Q (Ok tt) (with_fs w (append_to p b (w_now w) (w_fs w))) -> wp (write_all p b) Q w.
Proof. intros Hf HQ. unfold wp, write_all. by rewrite syscall_no_fault. Qed.

Lemma wpn_sync_file p Q w : w_faults w = [] -> Q (Ok tt) w -> wp (sync_file p) Q w.
Proof.
  intros Hf HQ. unfold wp, sync_file. rewrite syscall_no_fault by done. simpl. by destruct w.
Qed.

Lemma parent_is_dir_of fs q p : parent q = Some p -> fs !! p = Some Dir -> parent_is_dir fs q = true.
Proof. intros Hq Hp. unfold parent_is_dir. rewrite Hq. destruct p; [done|]. unfold is_dir. by rewrite Hp. Qed.

Lemma wpn_try_exists p Q w :
  w_faults w = [] -> Q (Ok (bool_decide (is_Some (w_fs w !! p)))) w -> wp (try_exists p) Q w.
Proof.
  intros Hf HQ. unfold wp, try_exists. rewrite syscall_no_fault by done.
  cbn [fst snd]. by destruct w.
Qed.

Lemma wpn_hard_link src dst c t Q w :
  w_faults w = [] -> w_fs w !! src = Some (File c t) -> w_fs w !! dst = None ->
  parent_is_dir (w_fs w) dst = true ->
  Q (Ok tt) (with_fs w (<[dst := File c t]> (w_fs w))) -> wp (hard_link src dst) Q w.
Proof.
  intros Hf Hs Hd Hp HQ. unfold wp, hard_link. rewrite syscall_no_fault by done.
  by rewrite Hs, Hd, Hp.
Qed.

Lemma wpn_remove_file p c t Q w :
  w_faults w = [] -> w_fs w !! p = Some (File c t) ->
  Q (Ok tt) (with_fs w (delete p (w_fs w))) -> wp (remove_file p) Q w.
Proof.
  intros Hf Hp HQ. unfold wp, remove_file. rewrite syscall_no_fault by done. by rewrite Hp.
Qed.

(** Facts of all nodes of a concrete file system, by evaluation. *)
Lemma nodes_forall (P : Path -> Node -> bool) (fs : gmap Path Node) :
  forallb (fun kv => P kv.1 kv.2) (map_to_list fs) = true -> forall q n, fs !! q = Some n -> P q n = true.
Proof.
  intros H q n Hq. apply elem_of_map_to_list, list_elem_of_In in Hq.
  exact (proj1 (forallb_forall _ _) H _ Hq).
Qed.
