(* ===== verification/FsDir.v ===== *)
(** * Directory trees: the [std::fs] calls of the client

    Renaming and removing whole directories, listing with per-entry errors, and
    the [Path] queries that turn errors into [false]. *)

From Stdlib Require Import Ascii.
From stdpp Require Import sorting.
From S2P Require Import Prelude RustStd Fs.

(** ** Trees *)

Definition in_tree (p q : Path) : bool := bool_decide (p `prefix_of` q).

Definition deeper (a b : Path) : Prop := (length b <= length a)%nat.

#[export] Instance deeper_dec : RelDecision deeper.
Proof. unfold deeper. intros a b. apply _. Defined.

(** The tree at [p], deepest paths first. *)
Definition tree_order (fs : gmap Path Node) (p : Path) : list Path :=
  merge_sort deeper (filter (fun q => p `prefix_of` q) (map_to_list fs).*1).

Definition drop_tree (p : Path) (fs : gmap Path Node) : gmap Path Node :=
  filter (fun kv : Path * Node => ~ p `prefix_of` kv.1) fs.

(** What is at [src] is moved to [dst]; [dst]'s former tree is gone. *)
Definition moved_part (src dst : Path) (fs : gmap Path Node) : gmap Path Node :=
  list_to_map (omap (fun kv : Path * Node => rel ← path_strip_prefix src kv.1; Some (dst ++ rel, kv.2))
                    (map_to_list fs)).

Definition move_tree (src dst : Path) (fs : gmap Path Node) : gmap Path Node :=
  moved_part src dst fs ∪ drop_tree dst (drop_tree src fs).

(** ** Calls *)

Definition is_empty_dir (fs : gmap Path Node) (p : Path) : bool :=
  bool_decide (fs !! p = Some Dir) && bool_decide (filter (fun q => p `prefix_of` q /\ q <> p) (map_to_list fs).*1 = []).

(** [fs::rename]; a directory keeps its modification time. *)
Definition rename (src dst : Path) : IO io_error unit := fun w =>
  let (f, w1) := next_fault w in
  match f with
  | Some ft => (Err (f_error ft), w1)
  | None =>
      let fs := w_fs w1 in
      let go := (Ok tt, {| w_fs := move_tree src dst fs; w_now := w_now w1; w_clock := w_clock w1;
                           w_faults := w_faults w1; w_uuids := w_uuids w1;
                           w_dir_mtime := fun q => match path_strip_prefix dst q with
                                                   | Some rel => w_dir_mtime w1 (src ++ rel)
                                                   | None => w_dir_mtime w1 q
                                                   end |}) in
      match fs !! src with
      | None => (fail_kind NotFound, w1)
      | Some n =>
          if in_tree src dst then (fail_kind Other, w1)
          else if negb (parent_is_dir fs dst) then (fail_kind NotFound, w1)
          else match n, fs !! dst with
               | _, None => go
               | Dir, Some Dir => if is_empty_dir fs dst then go else (fail_kind DirectoryNotEmpty, w1)
               | Dir, Some (File _ _) => (fail_kind NotADirectory, w1)
               | File _ _, Some (File _ _) => go
               | File _ _, Some Dir => (fail_kind IsADirectory, w1)
               end
      end
  end.

(** [fs::remove_dir_all]; a failing call may have removed part of the tree. *)
Definition remove_dir_all (p : Path) : IO io_error unit :=
  syscall (fun n fs => foldl (fun fs q => delete q fs) fs (take n (tree_order fs p)))
    (fun w => match w_fs w !! p with
              | Some Dir => (Ok tt, drop_tree p (w_fs w))
              | Some (File _ _) => (fail_kind NotADirectory, w_fs w)
              | None => (fail_kind NotFound, w_fs w)
              end).

(** [Path::exists] and [Path::is_dir]: an error counts as [false]. *)
Definition path_exists {E : Type} (p : Path) : IO E bool :=
  let! r := io_try (fs_metadata p) in io_ret (is_ok r).

Definition path_is_dir {E : Type} (p : Path) : IO E bool :=
  let! r := io_try (fs_metadata p) in
  io_ret (match r with Ok md => md_is_dir md | Err _ => false end).

(** Reading the next entry of an open directory can fail. *)
Definition next_entry : IO io_error unit := syscall no_part (fun w => (Ok tt, w_fs w)).

(** [entries.filter_map(Result::ok).map(|entry| entry.path()).filter(f).collect()] *)
Fixpoint collect_entries {E : Type} (f : Path -> IO E bool) (entries : list Path) : IO E (list Path) :=
  match entries with
  | [] => io_ret []
  | e :: es =>
      let! next := io_try next_entry in
      let! keep := (match next with Ok _ => f e | Err _ => io_ret false end) in
      let! rest := collect_entries f es in
      io_ret (if (keep : bool) then e :: rest else rest)
  end.

(** Paths compare component by component. *)
Fixpoint string_leb (s t : string) : bool :=
  match s, t with
  | EmptyString, _ => true
  | String _ _, EmptyString => false
  | String a s', String b t' =>
      (N_of_ascii a <? N_of_ascii b)%N || ((N_of_ascii a =? N_of_ascii b)%N && string_leb s' t')
  end.

Fixpoint path_leb (p q : Path) : bool :=
  match p, q with
  | [], _ => true
  | _ :: _, [] => false
  | a :: p', b :: q' => if String.eqb a b then path_leb p' q' else string_leb a b
  end.

Definition path_le (p q : Path) : Prop := path_leb p q = true.

#[export] Instance path_le_dec : RelDecision path_le.
Proof. unfold path_le. intros p q. apply _. Defined.

Definition sort_paths (l : list Path) : list Path := merge_sort path_le l.

(** ** Properties *)

Lemma drop_tree_lookup p fs q :
  drop_tree p fs !! q = if decide (p `prefix_of` q) then None else fs !! q.
Proof.
  unfold drop_tree. case_decide as H.
  - rewrite map_lookup_filter_None. right. intros n _. cbn. tauto.
  - destruct (fs !! q) as [n|] eqn:E.
    + apply map_lookup_filter_Some. by split.
    + apply map_lookup_filter_None. by left.
Qed.

Lemma moved_part_lookup src dst fs q :
  moved_part src dst fs !! q =
  match path_strip_prefix dst q with Some rel => fs !! (src ++ rel) | None => None end.
Proof.
  unfold moved_part. set (l := omap _ _).
  assert (forall k n, (k, n) ∈ l <-> exists rel, k = dst ++ rel /\ fs !! (src ++ rel) = Some n) as Hl.
  { intros k n. unfold l. rewrite list_elem_of_omap. split.
    - intros ([k' n'] & Hin & Hk). apply elem_of_map_to_list in Hin. cbn in Hk.
      destruct (path_strip_prefix src k') as [rel|] eqn:E; [|done]. cbn in Hk. injection Hk as <- <-.
      apply path_strip_prefix_Some in E as ->. by exists rel.
    - intros (rel & -> & Hn). exists (src ++ rel, n). split; [by apply elem_of_map_to_list|].
      cbn. by rewrite path_strip_prefix_app. }
  assert (forall q n n', (q, n) ∈ l -> (q, n') ∈ l -> n = n') as Hun.
  { intros q' n n' (r & -> & Hn)%Hl (r' & Heq & Hn')%Hl. apply app_inv_head in Heq as <-. congruence. }
  destruct (list_to_map l !! q) as [n|] eqn:E.
  - apply elem_of_list_to_map_2 in E. apply Hl in E as (rel & -> & Hn). by rewrite path_strip_prefix_app.
  - apply not_elem_of_list_to_map_2 in E. destruct (path_strip_prefix dst q) as [rel|] eqn:Er; [|done].
    apply path_strip_prefix_Some in Er as ->. destruct (fs !! (src ++ rel)) as [n|] eqn:En; [|done].
    exfalso. apply E, list_elem_of_fmap. exists (dst ++ rel, n). split; [done|]. apply Hl. by exists rel.
Qed.

Lemma move_tree_lookup src dst fs q :
  move_tree src dst fs !! q =
  match path_strip_prefix dst q with
  | Some rel => fs !! (src ++ rel)
  | None => if decide (src `prefix_of` q) then None else fs !! q
  end.
Proof.
  unfold move_tree. rewrite lookup_union, moved_part_lookup, drop_tree_lookup, drop_tree_lookup.
  destruct (path_strip_prefix dst q) as [rel|] eqn:E.
  - apply path_strip_prefix_Some in E as ->. rewrite decide_True by (by apply prefix_app_r).
    by destruct (fs !! (src ++ rel)).
  - rewrite decide_False; [by destruct (decide _), (fs !! q)|].
    intros [rel ->]. by rewrite path_strip_prefix_app in E.
Qed.

(** What a directory's removal leaves, complete or not. *)
Definition thinned (p : Path) (fs fs' : gmap Path Node) : Prop :=
  forall q, fs' !! q = fs !! q \/ (p `prefix_of` q /\ fs' !! q = None).

Lemma tree_order_in fs p q : q ∈ tree_order fs p -> p `prefix_of` q.
Proof. unfold tree_order. rewrite merge_sort_Permutation. by intros [? _]%list_elem_of_filter. Qed.

Lemma thinned_deletes p l : (forall q, q ∈ l -> p `prefix_of` q) -> forall fs,
  thinned p fs (foldl (fun fs q => delete q fs) fs l).
Proof.
  intros Hl. induction l as [|x l IH]; intros fs; [by left|]. cbn [foldl].
  intros q. destruct (IH (fun q Hq => Hl q (list_elem_of_further _ _ _ Hq)) (delete x fs) q) as [->|?]; [|by right].
  destruct (decide (x = q)) as [->|Hne]; [|left; by rewrite lookup_delete_ne].
  right. split; [apply Hl; by left|]. apply lookup_delete_eq.
Qed.

Lemma wp_remove_dir_all p (Q : Result unit io_error -> World -> Prop) w :
  (forall r w', same_env w w' -> thinned p (w_fs w) (w_fs w') ->
     (r = Ok tt -> w_fs w' = drop_tree p (w_fs w)) -> Q r w') ->
  wp (remove_dir_all p) Q w.
Proof.
  intros HQ. apply wp_syscall.
  - intros msg n w' _ Hfs Henv. apply HQ; [done| |done]. rewrite Hfs. apply thinned_deletes.
    intros q Hq. apply elem_of_take in Hq as (i & Hi & _). eapply tree_order_in, list_elem_of_lookup_2, Hi.
  - intros w1 Hfs Henv _. rewrite Hfs. assert (same_env w (with_fs w1 (drop_tree p (w_fs w)))) by done.
    destruct (w_fs w !! p) as [[]|]; cbn [fst snd]; apply HQ; try done; try (by left).
    intros q. cbn [w_fs with_fs]. rewrite drop_tree_lookup. case_decide; auto.
Qed.

(** Queries change nothing. *)
Lemma wp_path_exists {E} p (Q : Result bool E -> World -> Prop) w :
  (forall b w', same_env w w' -> w_fs w' = w_fs w -> (b = true -> is_Some (w_fs w !! p)) -> Q (Ok b) w') ->
  wp (path_exists p) Q w.
Proof.
  intros HQ. apply wp_bind, wp_try, wp_syscall.
  - intros msg n w' _ Hfs Henv. by apply wp_ret, HQ.
  - intros w1 Hfs Henv _. rewrite Hfs. apply wp_ret.
    destruct (w_fs w !! p) as [[]|] eqn:Ep; cbn [fst snd is_ok]; apply HQ; try done.
Qed.

Lemma wp_path_is_dir {E} p (Q : Result bool E -> World -> Prop) w :
  (forall b w', same_env w w' -> w_fs w' = w_fs w -> (b = true -> w_fs w !! p = Some Dir) -> Q (Ok b) w') ->
  wp (path_is_dir p) Q w.
Proof.
  intros HQ. apply wp_bind, wp_try, wp_syscall.
  - intros msg n w' _ Hfs Henv. by apply wp_ret, HQ.
  - intros w1 Hfs Henv _. rewrite Hfs. apply wp_ret.
    destruct (w_fs w !! p) as [[]|] eqn:Ep; cbn [fst snd]; apply HQ; try done.
Qed.

Lemma wp_collect_entries {E} (f : Path -> IO E bool) (R : Path -> Prop) entries
    (Q : Result (list Path) E -> World -> Prop) w :
  (forall p (Q : Result bool E -> World -> Prop) w1, w_fs w1 = w_fs w ->
     (forall b w', same_env w1 w' -> w_fs w' = w_fs w -> (b = true -> R p) -> Q (Ok b) w') ->
     wp (f p) Q w1) ->
  (forall l w', same_env w w' -> w_fs w' = w_fs w -> l `sublist_of` entries -> Forall R l -> Q (Ok l) w') ->
  wp (collect_entries f entries) Q w.
Proof.
  intros Hf. enough (forall w1, same_env w w1 -> w_fs w1 = w_fs w ->
    (forall l w', same_env w w' -> w_fs w' = w_fs w -> l `sublist_of` entries -> Forall R l -> Q (Ok l) w') ->
    wp (collect_entries f entries) Q w1) as H by (by apply H).
  revert Q. induction entries as [|e es IH]; intros Q w1 He1 Hfs1 HQ; cbn [collect_entries].
  { by apply wp_ret, HQ. }
  assert (forall b w2, same_env w w2 -> w_fs w2 = w_fs w -> (b = true -> R e) ->
    wp (let! rest := collect_entries f es in io_ret (if (b : bool) then e :: rest else rest)) Q w2) as Hrest.
  { intros b w2 He2 Hfs2 Hb. apply wp_bind, IH; [done|done|]. intros l w3 He3 Hfs3 Hl HR. apply wp_ret, HQ; [done|done| |].
    - destruct b; [by apply sublist_skip|by apply sublist_cons].
    - destruct b; [apply Forall_cons; auto|done]. }
  apply wp_bind, wp_try, wp_syscall.
  - intros msg n w2 _ Hfs2 Henv2. apply wp_bind, wp_ret, (Hrest false); [by etransitivity|unfold no_part in Hfs2; congruence|done].
  - intros w2 Hfs2 Henv2 _. cbn [fst snd]. apply wp_bind, Hf; [cbn; congruence|].
    intros b w3 He3 Hfs3 Hb. apply Hrest; [|congruence|done]. transitivity w2; [by transitivity w1|]. done.
Qed.

Lemma sort_paths_perm l : sort_paths l ≡ₚ l.
Proof. apply merge_sort_Permutation. Qed.

Lemma wp_rename src dst (Q : Result unit io_error -> World -> Prop) w :
  (forall w', w_fs w' = move_tree src dst (w_fs w) -> w_now w' = w_now w -> w_clock w' = w_clock w ->
     ~ src `prefix_of` dst -> is_Some (w_fs w !! src) -> Q (Ok tt) w') ->
  (forall e w', same_env w w' -> w_fs w' = w_fs w -> Q (Err e) w') ->
  wp (rename src dst) Q w.
Proof.
  intros HO HE. unfold wp, rename, next_fault.
  assert (forall w1, w_fs w1 = w_fs w -> same_env w w1 ->
    Q (Ok tt) {| w_fs := move_tree src dst (w_fs w1); w_now := w_now w1; w_clock := w_clock w1;
                 w_faults := w_faults w1; w_uuids := w_uuids w1;
                 w_dir_mtime := fun q => match path_strip_prefix dst q with
                                         | Some rel => w_dir_mtime w1 (src ++ rel)
                                         | None => w_dir_mtime w1 q end |} \/
    (~ src `prefix_of` dst -> is_Some (w_fs w !! src) -> False)) as Hgo.
  { intros w1 Hfs (Hn & Hc & _).
    destruct (decide (src `prefix_of` dst)); [right; tauto|].
    destruct (w_fs w !! src) eqn:E; [|right; intros _ []; done].
    left. apply HO; cbn; [by rewrite Hfs|done|done|done|by eauto]. }
  assert (forall f fl, w_faults w = f :: fl -> same_env w (with_faults w fl)) as Hsame by done.
  destruct (w_faults w) as [|[ft|] fl] eqn:Ef.
  - specialize (Hgo w eq_refl (reflexivity _)).
    destruct (w_fs w !! src) as [n|] eqn:Es; [|by apply HE].
    unfold in_tree. case_bool_decide as Hp; [by apply HE|].
    destruct (parent_is_dir _ _); cbn [negb]; [|by apply HE].
    destruct Hgo as [Hgo|Hgo]; [|exfalso; apply Hgo; [done|eauto]].
    destruct n, (w_fs w !! dst) as [[]|]; try done; try (by apply HE).
    destruct (is_empty_dir _ _); [done|by apply HE].
  - by apply HE.
  - specialize (Hgo (with_faults w fl) eq_refl (Hsame _ _ eq_refl)). cbn [w_fs with_faults] in *.
    destruct (w_fs w !! src) as [n|] eqn:Es; [|by apply HE].
    unfold in_tree. case_bool_decide as Hp; [by apply HE|].
    destruct (parent_is_dir _ _); cbn [negb]; [|by apply HE].
    destruct Hgo as [Hgo|Hgo]; [|exfalso; apply Hgo; [done|eauto]].
    destruct n, (w_fs w !! dst) as [[]|]; try done; try (by apply HE).
    destruct (is_empty_dir _ _); [done|by apply HE].
Qed.
