(* ===== verification/External.v ===== *)
(** * Interfaces of the crates the program calls

    One class per crate: its operations, and a second class with the documented
    behaviour the program relies on.  Client theorems are proved against these
    classes; concrete instances, used by the witnesses, are in [Instances]. *)

From Stdlib Require Import Ascii.
From S2P Require Import Prelude RustStd.

Definition is_lower_hex (c : ascii) : bool :=
  byte_in 48 57 c || byte_in 97 102 c.

Fixpoint all_chars (f : ascii -> bool) (s : string) : bool :=
  match s with
  | EmptyString => true
  | String c s' => f c && all_chars f s'
  end.

(** ** uuid

    [Uuid] prints as 36 lowercase hexadecimal digits and hyphens and parses
    back; [new_v4 n] is the [n]-th random draw of the process. *)
Class UuidApi := {
  Uuid : Type;
  uuid_eq_dec :: EqDecision Uuid;
  uuid_to_string : Uuid -> string;
  uuid_parse : string -> option Uuid;
  new_v4 : nat -> Uuid
}.

Class UuidLaws (U : UuidApi) := {
  uuid_text_length : forall u, String.length (uuid_to_string u) = 36;
  uuid_text_chars : forall u,
    all_chars (fun c => is_lower_hex c || Ascii.eqb c "-") (uuid_to_string u) = true;
  uuid_parse_to_string : forall u, uuid_parse (uuid_to_string u) = Some u
}.

(** ** sha2 and hex

    [sha256_hex b] is [hex::encode(Sha256::digest(b))]; feeding the hasher chunk
    by chunk digests the concatenation of the chunks. *)
Class Sha256Api := { sha256_hex : bytes -> string }.

Class Sha256Laws (H : Sha256Api) := {
  sha256_hex_length : forall b, String.length (sha256_hex b) = 64;
  sha256_hex_chars : forall b, all_chars is_lower_hex (sha256_hex b) = true
}.

(** ** chrono

    [naive_date_display d] is [format!("{d}")] of a [NaiveDate], [stamp t] is
    [t.format("%Y%m%dT%H%M%S%.fZ")], [rfc3339 t] the serde form of a
    [DateTime<Utc>], [date_of] the UTC date of a clock reading. *)
Class ChronoApi := {
  DateTime : Type;
  datetime_eq_dec :: EqDecision DateTime;
  NaiveDate : Type;
  naive_date_eq_dec :: EqDecision NaiveDate;
  naive_date_display : NaiveDate -> string;
  stamp : DateTime -> string;
  rfc3339 : DateTime -> string;
  parse_rfc3339 : string -> option DateTime;
  datetime_of : Z -> DateTime;
  date_of : Z -> NaiveDate
}.

Class ChronoLaws (C : ChronoApi) := {
  naive_date_no_slash : forall d, contains_char "/" (naive_date_display d) = false;
  naive_date_inj : forall d d', naive_date_display d = naive_date_display d' -> d = d';
  stamp_no_slash : forall t, contains_char "/" (stamp t) = false;
  parse_rfc3339_rfc3339 : forall t, parse_rfc3339 (rfc3339 t) = Some t;
  rfc3339_text : forall t, utf8_valid (as_bytes (rfc3339 t)) = true
}.

(** ** multer

    [multipart body boundary] is what repeated [next_field] calls return on a
    body (its data frames or transport errors, in order), up to the first error;
    the chunks of a field are what repeated [chunk] calls return. *)
Record Field := {
  f_name : option string;
  f_content_type : option string;
  f_content_encoding : option bytes;
  f_chunks : list (Result bytes string)
}.

Class MulterApi := {
  parse_boundary : string -> Result string string;
  multipart : list (Result bytes string) -> string -> list (Result Field string)
}.

(** Names and content types are strings; a chunk is at most [isize::MAX] bytes. *)
Class MulterLaws (M : MulterApi) := {
  multipart_text : forall body boundary f, Ok f ∈ multipart body boundary ->
    (forall n, f_name f = Some n -> utf8_valid (as_bytes n) = true) /\
    (forall c, f_content_type f = Some c -> utf8_valid (as_bytes c) = true);
  multipart_chunks : forall body boundary f b, Ok f ∈ multipart body boundary ->
    Ok b ∈ f_chunks f -> (len_u64 b < 2 ^ 63)%Z
}.

(** ** Consequences *)

Lemma all_chars_contains f s c :
  all_chars f s = true -> f c = false -> contains_char c s = false.
Proof.
  induction s as [|a s IH]; simpl; [done|].
  intros [Ha Hs]%andb_true_iff Hc. apply orb_false_iff. split; [|auto].
  destruct (Ascii.eqb_spec a c) as [->|]; [congruence|done].
Qed.

Lemma sha256_hex_no_char `{Sha256Laws} c b :
  is_lower_hex c = false -> contains_char c (sha256_hex b) = false.
Proof. intros Hc. eapply all_chars_contains; [apply sha256_hex_chars|done]. Qed.

Lemma uuid_no_slash `{UuidLaws} u : contains_char "/" (uuid_to_string u) = false.
Proof. eapply all_chars_contains; [apply uuid_text_chars|done]. Qed.

(** ASCII text is UTF-8. *)
Lemma ascii_text f s :
  (forall c, f c = true -> byte_in 0 127 c = true) -> all_chars f s = true ->
  utf8_valid (as_bytes s) = true.
Proof.
  intros Hf. induction s as [|c s IH]; [done|]. cbn [all_chars]. intros [Hc Hs]%andb_true_iff.
  unfold as_bytes in *. cbn [String.list_ascii_of_string utf8_valid]. rewrite (Hf c Hc). by apply IH.
Qed.

Lemma is_lower_hex_ascii c : is_lower_hex c = true -> byte_in 0 127 c = true.
Proof.
  unfold is_lower_hex, byte_in. rewrite orb_true_iff, !andb_true_iff, !N.leb_le. lia.
Qed.

Lemma sha256_hex_text `{Sha256Laws} b : utf8_valid (as_bytes (sha256_hex b)) = true.
Proof. apply (ascii_text is_lower_hex); [apply is_lower_hex_ascii|apply sha256_hex_chars]. Qed.

Lemma uuid_text `{UuidLaws} u : utf8_valid (as_bytes (uuid_to_string u)) = true.
Proof.
  eapply ascii_text; [|apply uuid_text_chars]. intros c. simpl. intros [Hc|Hc]%orb_true_iff.
  - by apply is_lower_hex_ascii.
  - apply Ascii.eqb_eq in Hc as ->. done.
Qed.
