(* ===== verification/Instances.v ===== *)
(** * Concrete instances of the crate interfaces

    Small executable models of the crates of [External], each with its laws.
    They show that the hypotheses the theorems make of the crates can hold
    together, and the witnesses evaluate with them. *)

From Stdlib Require Import Ascii Eqdep_dec.
From S2P Require Import Prelude RustStd Fs External.

Fixpoint repeat_char (n : nat) (c : ascii) : string :=
  match n with O => EmptyString | S n' => String c (repeat_char n' c) end.

Lemma repeat_char_length n c : String.length (repeat_char n c) = n.
Proof. induction n; simpl; congruence. Qed.

Lemma repeat_char_all f n c : f c = true -> all_chars f (repeat_char n c) = true.
Proof. intros H. induction n; simpl; [done|]. by rewrite H. Qed.

Lemma repeat_char_inj n m c : repeat_char n c = repeat_char m c -> n = m.
Proof.
  intros H. apply (f_equal String.length) in H. by rewrite !repeat_char_length in H.
Qed.

(** ** uuid: the well-formed texts themselves *)

Definition uuid_text_ok (s : string) : bool :=
  Nat.eqb (String.length s) 36 && all_chars (fun c => is_lower_hex c || Ascii.eqb c "-") s.

Definition toy_uuid : Type := { s : string | uuid_text_ok s = true }.

Lemma toy_uuid_eq (u v : toy_uuid) : `u = `v -> u = v.
Proof.
  destruct u as [u Hu], v as [v Hv]. simpl. intros ->. f_equal.
  apply UIP_dec. apply Bool.bool_dec.
Qed.

#[export] Instance toy_uuid_eq_dec : EqDecision toy_uuid.
Proof.
  intros u v. destruct (decide (`u = `v)) as [H|H].
  - left. by apply toy_uuid_eq.
  - right. congruence.
Defined.

Definition toy_uuid_parse (s : string) : option toy_uuid :=
  (if uuid_text_ok s as b return (uuid_text_ok s = b -> option toy_uuid)
   then fun H => Some (s ↾ H) else fun _ => None) eq_refl.

Lemma toy_uuid_parse_ok (u : toy_uuid) : toy_uuid_parse (`u) = Some u.
Proof.
  destruct u as [s Hs]. cbn [proj1_sig]. unfold toy_uuid_parse.
  assert (forall b (e : uuid_text_ok s = b),
    (if b as b return (uuid_text_ok s = b -> option toy_uuid) then fun H => Some (s ↾ H) else fun _ => None) e = Some (s ↾ Hs)) as H;
    [|apply H]. intros [|] e; [|congruence]. f_equal. by apply toy_uuid_eq.
Qed.

Definition nil_uuid_text : string := "00000000-0000-0000-0000-000000000000".

Definition nil_uuid : toy_uuid := nil_uuid_text ↾ eq_refl.

Definition hex_digit (n : nat) : ascii :=
  ascii_of_nat (if Nat.ltb n 10 then 48 + n else 87 + n).

(** The draws repeat after sixteen. *)
Definition toy_draw (n : nat) : toy_uuid :=
  default nil_uuid (toy_uuid_parse ("00000000-0000-0000-0000-00000000000" +:+ String (hex_digit (n mod 16)) "")).

#[export] Instance ToyUuid : UuidApi := {
  Uuid := toy_uuid;
  uuid_to_string u := `u;
  uuid_parse := toy_uuid_parse;
  new_v4 := toy_draw
}.

#[export] Instance ToyUuidLaws : UuidLaws ToyUuid.
Proof.
  split.
  - intros [s Hs]. simpl. unfold uuid_text_ok in Hs.
    apply andb_true_iff in Hs as [Hs _]. by apply Nat.eqb_eq in Hs.
  - intros [s Hs]. simpl. unfold uuid_text_ok in Hs. by apply andb_true_iff in Hs as [_ Hs].
  - apply toy_uuid_parse_ok.
Defined.

(** ** sha2: sixty-four copies of a checksum digit *)

Definition toy_sum (b : bytes) : nat :=
  Nat.modulo (foldr (fun c n => nat_of_ascii c + n) (length b) b) 16.

#[export] Instance ToySha256 : Sha256Api := {
  sha256_hex b := repeat_char 64 (hex_digit (toy_sum b))
}.

#[export] Instance ToySha256Laws : Sha256Laws ToySha256.
Proof.
  split; intros b; cbn [sha256_hex ToySha256].
  - apply repeat_char_length.
  - apply repeat_char_all. unfold toy_sum.
    set (n := foldr _ _ _). assert (n mod 16 < 16)%nat as H by (apply Nat.mod_upper_bound; lia).
    destruct (n mod 16)%nat as [|[|[|[|[|[|[|[|[|[|[|[|[|[|[|[|]]]]]]]]]]]]]]]]; try done; lia.
Defined.

(** ** chrono: times and dates in unary *)

Definition unary (n : nat) : string := repeat_char n "1".

Definition parse_unary (s : string) : option nat :=
  if all_chars (Ascii.eqb "1") s then Some (String.length s) else None.

Lemma unary_no_slash n : contains_char "/" (unary n) = false.
Proof. apply (all_chars_contains (Ascii.eqb "1")); [by apply repeat_char_all|done]. Qed.

#[export] Instance ToyChrono : ChronoApi := {
  DateTime := nat;
  NaiveDate := nat;
  naive_date_display := unary;
  stamp := unary;
  rfc3339 := unary;
  parse_rfc3339 := parse_unary;
  datetime_of t := Z.to_nat t;
  date_of t := Z.to_nat t
}.

#[export] Instance ToyChronoLaws : ChronoLaws ToyChrono.
Proof.
  split; simpl.
  - apply unary_no_slash.
  - intros d d'. apply repeat_char_inj.
  - apply unary_no_slash.
  - intros t. unfold parse_unary, unary.
    rewrite repeat_char_all by done. by rewrite repeat_char_length.
  - intros t. apply (ascii_text (Ascii.eqb "1")); [|by apply repeat_char_all].
    by intros c ->%Ascii.eqb_eq%eq_sym.
Defined.

(** ** multer: one part per frame, [name=content] *)

Fixpoint split_eq (acc b : bytes) : bytes * bytes :=
  match b with
  | [] => (acc, [])
  | c :: b' => if Ascii.eqb c "=" then (acc, b') else split_eq (acc ++ [c]) b'
  end.

Definition toy_field (b : bytes) : Result Field string :=
  let (name, content) := split_eq [] b in
  if utf8_valid name && (len_u64 content <? 2 ^ 63)%Z then
    Ok {| f_name := Some (of_bytes name); f_content_type := None; f_content_encoding := None;
          f_chunks := [Ok content] |}
  else Err "invalid part".

#[export] Instance ToyMulter : MulterApi := {
  parse_boundary s := Ok s;
  multipart body _ := (fun r => let? b := r in toy_field b) <$> body
}.

#[export] Instance ToyMulterLaws : MulterLaws ToyMulter.
Proof.
  assert (forall (body : list (Result bytes string)) f, Ok f ∈ (fun r : Result bytes string => let? b := r in toy_field b) <$> body ->
    exists b, toy_field b = Ok f) as Hf.
  { intros body f ([b|] & Hb & _)%list_elem_of_fmap; [by eauto|done]. }
  split; intros body boundary f; cbn [multipart ToyMulter].
  - intros [b Hb]%Hf. unfold toy_field in Hb. destruct (split_eq [] b) as [name content].
    destruct (utf8_valid name) eqn:E; [|done]. destruct (_ <? _)%Z; [|done]. injection Hb as <-.
    simpl. split; [|done]. intros n [= <-]. by rewrite as_of_bytes.
  - intros b [b' Hb]%Hf. unfold toy_field in Hb. destruct (split_eq [] b') as [name content].
    destruct (utf8_valid name); [|done]. destruct (Z.ltb_spec (len_u64 content) (2 ^ 63)); [|done].
    injection Hb as <-. simpl. by intros [= ->]%list_elem_of_singleton.
Defined.

(** ** Directories listed in the order of the map *)

#[export] Instance ToyOs : Os := { dir_order l := l; dir_order_perm l := reflexivity l }.
