(* ===== verification/F64.v ===== *)
(** * Floating point

    [Arith] is the arithmetic the rate limiter and the sampler are written in.
    [binary64] is Rust's [f64]: IEEE 754 double precision with round to nearest
    even, executable, from the standard library's [SpecFloat].  [exactQ] is the
    same interface over the rationals, without rounding; it is used to state
    the long-run rate bound. *)

From Stdlib Require Import SpecFloat QArith Qminmax Lqa.
From S2P Require Import Prelude.

Class Arith := {
  num : Type;
  of_Z : Z -> num;
  add : num -> num -> num;
  sub : num -> num -> num;
  mul : num -> num -> num;
  div : num -> num -> num;
  num_min : num -> num -> num;
  leb : num -> num -> bool
}.

Definition NANOS_PER_SEC : Z := 1000000000.

(** [Duration::as_secs_f64] of a duration in nanoseconds. *)
Definition as_secs_f64 `{Arith} (d : Z) : num :=
  add (of_Z (d / NANOS_PER_SEC)) (div (of_Z (d mod NANOS_PER_SEC)) (of_Z NANOS_PER_SEC)).

Abbreviation f64 := spec_float.

Definition f64_is_nan (x : f64) : bool :=
  match x with S754_nan => true | _ => false end.

(** [f64::min]: a NaN operand is ignored. *)
Definition f64_min (x y : f64) : f64 :=
  if f64_is_nan x then y
  else if f64_is_nan y then x
  else if SFltb x y then x else y.

Definition f64_of_Z (z : Z) : f64 := binary_normalize 53 1024 z 0 false.

#[export] Instance binary64 : Arith := {
  num := f64;
  of_Z := f64_of_Z;
  add := SFadd 53 1024;
  sub := SFsub 53 1024;
  mul := SFmul 53 1024;
  div := SFdiv 53 1024;
  num_min := f64_min;
  leb := SFleb
}.

Definition exactQ : Arith := {|
  num := Q;
  of_Z := inject_Z;
  add := Qplus;
  sub := Qminus;
  mul := Qmult;
  div := Qdiv;
  num_min := Qmin;
  leb := Qle_bool
|}.

(** ** Exactness of [binary64] on the integers below [2^53] *)

Open Scope Z_scope.

Abbreviation digits p := (Z.pos (digits2_pos p)).

Lemma digits_bounds p : 2 ^ (digits p - 1) <= Z.pos p < 2 ^ digits p.
Proof.
  induction p as [p IH|p IH|]; cbn [digits2_pos]; [| |done];
    rewrite Pos2Z.inj_succ; replace (Z.succ (digits p) - 1) with (Z.succ (digits p - 1)) by lia;
    rewrite !Z.pow_succ_r by lia; lia.
Qed.

Lemma digits_le p n : 0 <= n -> Z.pos p < 2 ^ n -> digits p <= n.
Proof.
  intros Hn Hp. destruct (digits_bounds p) as [Hd _].
  assert (digits p - 1 < n) by (apply (Z.pow_lt_mono_r_iff 2); lia). lia.
Qed.

Lemma shl_0 p : Pos.shiftl p 0 = p.
Proof. done. Qed.

Lemma shl_pos p n : Pos.shiftl p (Npos n) = Pos.iter xO p n.
Proof. done. Qed.

Lemma digits_shl p n : digits (Pos.shiftl p n) = digits p + Z.of_N n.
Proof.
  destruct n as [|n]; cbn [Z.of_N]; [rewrite shl_0; lia|]. rewrite shl_pos.
  induction n as [|n IH] using Pos.peano_ind; [cbn [Pos.iter digits2_pos]; lia|].
  rewrite Pos.iter_succ. cbn [digits2_pos]. lia.
Qed.

Lemma shl_value p n : Z.pos (Pos.shiftl p n) = Z.pos p * 2 ^ Z.of_N n.
Proof.
  destruct n as [|n]; cbn [Z.of_N]; [rewrite shl_0; lia|]. rewrite shl_pos.
  induction n as [|n IH] using Pos.peano_ind; [cbn [Pos.iter]; lia|].
  rewrite Pos.iter_succ, Pos2Z.inj_xO, IH, Pos2Z.inj_succ, Z.pow_succ_r by lia. lia.
Qed.

Lemma shl_shl p n m : Pos.shiftl (Pos.shiftl p n) m = Pos.shiftl p (n + m).
Proof. apply Pos2Z.inj. rewrite !shl_value, N2Z.inj_add, Z.pow_add_r by lia. lia. Qed.

Lemma iter_pos_nat {A} (f : A -> A) n x : SpecFloat.iter_pos f n x = Nat.iter (Pos.to_nat n) f x.
Proof.
  assert (forall a b x, Nat.iter (a + b) f x = Nat.iter a f (Nat.iter b f x)) as Hadd.
  { induction a; simpl; congruence. }
  revert x; induction n as [n IH|n IH|]; intros x; cbn [SpecFloat.iter_pos].
  - rewrite !IH. rewrite Pos2Nat.inj_xI.
    replace (S (2 * Pos.to_nat n)) with (Pos.to_nat n + (Pos.to_nat n + 1))%nat by lia.
    by rewrite !Hadd.
  - rewrite !IH. rewrite Pos2Nat.inj_xO.
    replace (2 * Pos.to_nat n)%nat with (Pos.to_nat n + Pos.to_nat n)%nat by lia.
    by rewrite Hadd.
  - done.
Qed.

(** Shifting out zeros is exact. *)
Lemma shr_shl p n :
  SpecFloat.iter_pos shr_1 n {| shr_m := Z.pos (Pos.shiftl p (Npos n)); shr_r := false; shr_s := false |}
  = {| shr_m := Z.pos p; shr_r := false; shr_s := false |}.
Proof.
  rewrite iter_pos_nat, shl_pos.
  induction n as [|n IH] using Pos.peano_ind; [done|].
  rewrite Pos2Nat.inj_succ, Pos.iter_succ.
  replace (S (Pos.to_nat n)) with (Pos.to_nat n + 1)%nat by lia.
  rewrite Nat.iter_add. cbn [Nat.iter shr_1 orb]. exact IH.
Qed.

Lemma fexp_small e : -1000 <= e -> fexp 53 1024 e = e - 53.
Proof. unfold fexp, emin. lia. Qed.

Lemma shr_fexp_canon m e :
  digits m = 53 -> -900 <= e ->
  shr_fexp 53 1024 (Z.pos m) e loc_Exact
  = ({| shr_m := Z.pos m; shr_r := false; shr_s := false |}, e).
Proof.
  intros Hd He. unfold shr_fexp. cbn [shr_record_of_loc Zdigits2].
  rewrite Hd, fexp_small by lia. replace (53 + e - 53 - e) with 0 by lia. done.
Qed.

Lemma binary_round_aux_canon s m e :
  digits m = 53 -> -900 <= e <= 971 ->
  binary_round_aux 53 1024 s (Z.pos m) e loc_Exact = S754_finite s m e.
Proof.
  intros Hd He. unfold binary_round_aux. rewrite shr_fexp_canon by lia.
  cbn [shr_m loc_of_shr_record round_nearest_even].
  rewrite shr_fexp_canon by lia. cbn [shr_m].
  rewrite (proj2 (Z.leb_le _ _)) by lia. done.
Qed.

(** The double nearest to a positive integer of at most 53 bits: itself, with
    the mantissa normalised to 53 bits. *)
Definition f64_int (p : positive) : f64 :=
  S754_finite false (Pos.shiftl p (Z.to_N (53 - digits p))) (digits p - 53).

Lemma binary_round_exact p k :
  digits p <= 53 -> (Z.of_N k <= 900) ->
  binary_round 53 1024 false (Pos.shiftl p k) (- Z.of_N k) = f64_int p.
Proof.
  intros Hd Hk. unfold binary_round, shl_align, f64_int.
  rewrite digits_shl, fexp_small by lia.
  replace (digits p + Z.of_N k + - Z.of_N k - 53) with (digits p - 53) by lia.
  destruct (digits p - 53 - - Z.of_N k) as [|n|n] eqn:En.
  - replace (Z.to_N (53 - digits p)) with k by lia.
    replace (- Z.of_N k) with (digits p - 53) by lia.
    rewrite binary_round_aux_canon; [done| |lia]. rewrite digits_shl. lia.
  - unfold binary_round_aux, shr_fexp at 1. cbn [shr_record_of_loc Zdigits2].
    rewrite digits_shl, fexp_small by lia.
    replace (digits p + Z.of_N k + - Z.of_N k - 53 - - Z.of_N k) with (Z.pos n) by lia.
    replace k with (Z.to_N (53 - digits p) + Npos n)%N at 1 by lia.
    rewrite <- shl_shl. cbn [shr]. rewrite shr_shl.
    cbn [shr_m loc_of_shr_record round_nearest_even].
    replace (- Z.of_N k + Z.pos n) with (digits p - 53) by lia.
    rewrite shr_fexp_canon; [|rewrite digits_shl; lia|lia]. cbn [shr_m].
    rewrite (proj2 (Z.leb_le _ _)) by lia. done.
  - rewrite <- shl_pos, shl_shl.
    replace (k + N.pos n)%N with (Z.to_N (53 - digits p)) by lia.
    rewrite binary_round_aux_canon; [done| |lia]. rewrite digits_shl. lia.
Qed.

Lemma f64_of_Z_pos p : digits p <= 53 -> f64_of_Z (Z.pos p) = f64_int p.
Proof. intros Hd. unfold f64_of_Z, binary_normalize. by apply (binary_round_exact p 0). Qed.

Lemma f64_of_Z_0 : f64_of_Z 0 = S754_zero false.
Proof. done. Qed.

Definition small_int (n : Z) : Prop := 0 <= n < 2 ^ 53.

(** Comparison of exactly represented integers. *)
Lemma f64_compare_of_Z a b :
  small_int a -> small_int b -> SFcompare (f64_of_Z a) (f64_of_Z b) = Some (a ?= b).
Proof.
  intros [Ha0 Ha] [Hb0 Hb].
  destruct a as [|p|p], b as [|q|q]; try lia; try done.
  - rewrite f64_of_Z_pos by (apply digits_le; lia). done.
  - rewrite f64_of_Z_pos by (apply digits_le; lia). done.
  - rewrite !f64_of_Z_pos by (apply digits_le; lia). unfold f64_int. cbn [SFcompare].
    f_equal. pose proof (digits_bounds p). pose proof (digits_bounds q).
    assert (digits p <= 53) by (apply digits_le; lia).
    assert (digits q <= 53) by (apply digits_le; lia).
    destruct (Z.compare_spec (digits p - 53) (digits q - 53)) as [E|E|E].
    + assert (digits p = digits q) as Ed by lia. rewrite Ed.
      change (Pos.compare_cont Eq ?x ?y) with (x ?= y)%positive.
      set (k := Z.to_N (53 - digits q)).
      assert (0 < 2 ^ Z.of_N k) by (apply Z.pow_pos_nonneg; lia).
      change ((Pos.shiftl p k ?= Pos.shiftl q k)%positive) with (Z.pos (Pos.shiftl p k) ?= Z.pos (Pos.shiftl q k)).
      rewrite !shl_value. destruct (Z.compare_spec (Z.pos p) (Z.pos q)) as [->|Hlt|Hgt].
      * apply Z.compare_refl.
      * apply Z.compare_lt_iff. nia.
      * apply Z.compare_gt_iff. nia.
    + symmetry. apply Z.compare_lt_iff.
      assert (2 ^ digits p <= 2 ^ (digits q - 1)) by (apply Z.pow_le_mono_r; lia). lia.
    + symmetry. apply Z.compare_gt_iff.
      assert (2 ^ digits q <= 2 ^ (digits p - 1)) by (apply Z.pow_le_mono_r; lia). lia.
Qed.

Lemma f64_of_Z_not_nan n : small_int n -> f64_is_nan (f64_of_Z n) = false.
Proof.
  intros [H0 H]. destruct n as [|p|p]; [done| |lia].
  by rewrite f64_of_Z_pos by (apply digits_le; lia).
Qed.

Lemma f64_leb_of_Z a b :
  small_int a -> small_int b -> SFleb (f64_of_Z a) (f64_of_Z b) = (a <=? b).
Proof.
  intros Ha Hb. unfold SFleb. rewrite f64_compare_of_Z by done.
  unfold Z.leb. by destruct (a ?= b).
Qed.

Lemma f64_min_of_Z a b :
  small_int a -> small_int b -> f64_min (f64_of_Z a) (f64_of_Z b) = f64_of_Z (Z.min a b).
Proof.
  intros Ha Hb. unfold f64_min. rewrite !f64_of_Z_not_nan by done.
  unfold SFltb. rewrite f64_compare_of_Z by done. unfold Z.min.
  destruct (Z.compare_spec a b); [by subst|done|done].
Qed.

Lemma f64_sub_1 n : 1 <= n < 2 ^ 53 -> SFsub 53 1024 (f64_of_Z n) (f64_of_Z 1) = f64_of_Z (n - 1).
Proof.
  intros [H1 H]. destruct n as [|p|p]; try lia.
  assert (digits p <= 53) as Hd by (apply digits_le; lia).
  rewrite !f64_of_Z_pos by (done || lia). unfold f64_int at 1 2. cbn [SFsub].
  change (digits 1) with 1. rewrite Z.min_r by lia. cbn [cond_Zopp].
  assert (Z.pos (fst (shl_align (Pos.shiftl p (Z.to_N (53 - digits p))) (digits p - 53) (1 - 53)))
          = Z.pos p * 2 ^ 52) as ->.
  { unfold shl_align. destruct (1 - 53 - (digits p - 53)) as [|n|n] eqn:En; cbn [fst].
    - rewrite shl_value. f_equal. f_equal. lia.
    - lia.
    - rewrite <- shl_pos, shl_shl, shl_value. f_equal. f_equal. lia. }
  change (Z.pos (fst (shl_align (Pos.shiftl 1 (Z.to_N (53 - 1))) (1 - 53) (1 - 53)))) with (2 ^ 52).
  replace (Z.pos p * 2 ^ 52 - 2 ^ 52) with ((Z.pos p - 1) * 2 ^ 52) by ring.
  destruct (Z.pos p - 1) as [|q|q] eqn:Eq; [done| |lia].
  change (Z.pos q * 2 ^ 52) with (Z.pos q * 2 ^ Z.of_N 52).
  rewrite <- shl_value, f64_of_Z_pos by (apply digits_le; lia).
  unfold binary_normalize. change (1 - 53) with (- Z.of_N 52).
  apply binary_round_exact; [apply digits_le|]; lia.
Qed.

Lemma f64_add_0_r n : small_int n -> SFadd 53 1024 (f64_of_Z n) (S754_zero false) = f64_of_Z n.
Proof.
  intros [H0 H]. destruct n as [|p|p]; [done| |lia].
  by rewrite f64_of_Z_pos by (apply digits_le; lia).
Qed.

(** ** The quotient of two small integers is finite and not negative *)

Definition f64_nonneg_finite (x : f64) : bool :=
  match x with S754_zero false | S754_finite false _ _ => true | _ => false end.

Lemma Zdigits2_le m n : 0 <= n -> 0 <= m < 2 ^ n -> Zdigits2 m <= n.
Proof. intros Hn Hm. destruct m as [|p|p]; [done| |lia]. simpl. apply digits_le; lia. Qed.

Lemma shr_1_range r N :
  0 <= shr_m r <= N -> 0 <= shr_m (shr_1 r) <= N.
Proof. destruct r as [[|[p|p|]|p] rr s]; simpl; lia. Qed.

Lemma shr_range m l e n N r e' :
  0 <= m <= N -> shr (shr_record_of_loc m l) e n = (r, e') ->
  0 <= shr_m r <= N /\ e' = e + Z.max n 0.
Proof.
  intros Hm. assert (shr_m (shr_record_of_loc m l) = m) as Hs by (by destruct l as [|[]]).
  unfold shr. destruct n as [|n|n]; intros [= <- <-]; rewrite ?Hs; try lia.
  split; [|lia]. rewrite iter_pos_nat. induction (Pos.to_nat n) as [|k IH]; simpl; [lia|].
  by apply shr_1_range.
Qed.

Lemma binary_round_aux_nonneg_finite m e l :
  0 <= m < 2 ^ 60 -> -200 <= e <= 200 ->
  f64_nonneg_finite (binary_round_aux 53 1024 false m e l) = true.
Proof.
  intros Hm He. unfold binary_round_aux.
  destruct (shr_fexp 53 1024 m e l) as [r1 e1] eqn:E1.
  apply (shr_range _ _ _ _ (2 ^ 60 - 1)) in E1 as [Hr1 He1]; [|lia].
  assert (Zdigits2 m <= 60) by (apply Zdigits2_le; lia).
  assert (0 <= Zdigits2 m) by (destruct m; simpl; lia).
  rewrite fexp_small in He1 by lia.
  destruct (shr_fexp 53 1024 (round_nearest_even _ _) e1 loc_Exact) as [r2 e2] eqn:E2.
  set (m2 := round_nearest_even _ _) in *.
  assert (0 <= m2 <= 2 ^ 60) as Hm2.
  { subst m2. unfold round_nearest_even.
    destruct (loc_of_shr_record r1) as [|[]]; try destruct (Z.even _); lia. }
  apply (shr_range _ _ _ _ (2 ^ 60)) in E2 as [Hr2 He2]; [|lia].
  assert (Zdigits2 m2 <= 61) by (apply Zdigits2_le; lia).
  assert (0 <= Zdigits2 m2) by (destruct m2; simpl; lia).
  rewrite fexp_small in He2 by lia.
  destruct (shr_m r2) as [|p|p]; [done| |lia].
  rewrite (proj2 (Z.leb_le _ _)) by lia. done.
Qed.

Lemma f64_div_nonneg_finite a b :
  small_int a -> 0 < b < 2 ^ 53 ->
  f64_nonneg_finite (SFdiv 53 1024 (f64_of_Z a) (f64_of_Z b)) = true.
Proof.
  intros [Ha0 Ha] [Hb0 Hb].
  destruct b as [|q|q]; try lia. rewrite (f64_of_Z_pos q) by (apply digits_le; lia).
  destruct a as [|p|p]; [done| |lia].
  assert (digits p <= 53) by (apply digits_le; lia).
  assert (digits q <= 53) by (apply digits_le; lia).
  rewrite f64_of_Z_pos by done. unfold f64_int. cbn [SFdiv xorb].
  unfold SFdiv_core_binary. cbn [Zdigits2]. rewrite !digits_shl.
  rewrite fexp_small by lia.
  set (mp := Pos.shiftl p _). set (mq := Pos.shiftl q _).
  pose proof (digits_bounds mp) as Bp. pose proof (digits_bounds mq) as Bq.
  subst mp mq. rewrite !digits_shl in Bp, Bq.
  set (mp := Pos.shiftl p _) in *. set (mq := Pos.shiftl q _) in *.
  replace (digits p + Z.of_N (Z.to_N (53 - digits p))) with 53 in * by lia.
  replace (digits q + Z.of_N (Z.to_N (53 - digits q))) with 53 in * by lia.
  rewrite Z.min_l by lia.
  match goal with |- context [match ?s with Z0 => _ | Z.pos _ => _ | Z.neg _ => _ end] =>
    replace s with 53 by lia end.
  rewrite Z.shiftl_mul_pow2 by lia.
  pose proof (Z_div_mod (Z.pos mp * 2 ^ 53) (Z.pos mq) ltac:(lia)) as Hdm.
  destruct (Z.div_eucl _ _) as [q0 r0]. destruct Hdm as [Hdm Hr].
  apply binary_round_aux_nonneg_finite; [|lia].
  change (2 ^ (53 - 1)) with 4503599627370496 in *.
  change (2 ^ 53) with 9007199254740992 in *. change (2 ^ 60) with 1152921504606846976.
  nia.
Qed.

Lemma f64_mul_0_l x : f64_nonneg_finite x = true -> SFmul 53 1024 (S754_zero false) x = S754_zero false.
Proof. by destruct x as [[]|[]| |[]]. Qed.
