(* ===== verification/Json.v ===== *)
(** * JSON documents and the derived serde codecs' building blocks

    A document is a [Value] whose objects are association lists in text order.
    [normalize] is what [serde_json::Value] makes of one: its maps are sorted by
    key and the last of several equal keys wins.  [de_struct] and the [field_*]
    functions are the visitors [#[derive(Deserialize)]] generates: a struct is
    read from an object (unknown keys ignored, a repeated known key is an error)
    or from an array (by position). *)

From Stdlib Require Import Ascii SpecFloat.
From S2P Require Import Prelude RustStd F64.

Inductive Number :=
| PosInt (n : Z)
| NegInt (n : Z)
| Float (f : f64).

Inductive Value :=
| Null
| Bool (b : bool)
| Num (n : Number)
| Str (s : string)
| Array (l : list Value)
| Object (m : list (string * Value)).

(** Induction through the nested lists. *)
Section ValueInd.
Variable P : Value -> Prop.
Hypothesis HNull : P Null.
Hypothesis HBool : forall b, P (Bool b).
Hypothesis HNum : forall n, P (Num n).
Hypothesis HStr : forall s, P (Str s).
Hypothesis HArray : forall l, Forall P l -> P (Array l).
Hypothesis HObject : forall m, Forall (fun kv => P kv.2) m -> P (Object m).

Fixpoint Value_nested_ind (v : Value) : P v :=
  match v with
  | Null => HNull
  | Bool b => HBool b
  | Num n => HNum n
  | Str s => HStr s
  | Array l => HArray l
      ((fix go l := match l return Forall P l with
                    | [] => Forall_nil_2 _
                    | x :: xs => Forall_cons_2 _ _ _ (Value_nested_ind x) (go xs)
                    end) l)
  | Object m => HObject m
      ((fix go m := match m return Forall (fun kv => P kv.2) m with
                    | [] => Forall_nil_2 _
                    | x :: xs => Forall_cons_2 _ _ _ (Value_nested_ind x.2) (go xs)
                    end) m)
  end.
End ValueInd.

(** [Map::insert] of a [BTreeMap<String, Value>]. *)
Fixpoint obj_insert (k : string) (v : Value) (m : list (string * Value)) : list (string * Value) :=
  match m with
  | [] => [(k, v)]
  | (k', v') :: m' =>
      match String.compare k k' with
      | Lt => (k, v) :: m
      | Eq => (k, v) :: m'
      | Gt => (k', v') :: obj_insert k v m'
      end
  end.

(** [iter.collect::<Map<String, Value>>()] *)
Definition obj_collect (l : list (string * Value)) : list (string * Value) :=
  foldl (fun m kv => obj_insert kv.1 kv.2 m) [] l.

Fixpoint normalize (v : Value) : Value :=
  match v with
  | Array l => Array (normalize <$> l)
  | Object m => Object (obj_collect ((fun kv => (kv.1, normalize kv.2)) <$> m))
  | _ => v
  end.

(** What the Rust types guarantee of a value: numbers in range, floats finite,
    strings UTF-8. *)
Definition number_ok (n : Number) : bool :=
  match n with
  | PosInt z => (0 <=? z)%Z && (z <=? U64_MAX)%Z
  | NegInt z => (- 2 ^ 63 <=? z)%Z && (z <? 0)%Z
  | Float (S754_zero _) | Float (S754_finite _ _ _) => true
  | Float _ => false
  end.

Definition text_ok (s : string) : bool := utf8_valid (as_bytes s).

Fixpoint value_ok (v : Value) : bool :=
  match v with
  | Num n => number_ok n
  | Str s => text_ok s
  | Array l => forallb value_ok l
  | Object m => forallb (fun kv => text_ok kv.1 && value_ok kv.2) m
  | _ => true
  end.

(** A value up to the precision of its floats. *)
Fixpoint erase (v : Value) : Value :=
  match v with
  | Num (Float _) => Num (Float S754_nan)
  | Array l => Array (erase <$> l)
  | Object m => Object ((fun kv => (kv.1, erase kv.2)) <$> m)
  | _ => v
  end.

(** No floating-point number. *)
Fixpoint json_exact (v : Value) : bool :=
  match v with
  | Num (Float _) => false
  | Array l => forallb json_exact l
  | Object m => forallb (fun kv => json_exact kv.2) m
  | _ => true
  end.

(** How deep arrays and objects nest. *)
Fixpoint json_depth (v : Value) : nat :=
  match v with
  | Array l => Datatypes.S (foldr (fun x n => Nat.max (json_depth x) n) 0%nat l)
  | Object m => Datatypes.S (foldr (fun kv n => Nat.max (json_depth kv.2) n) 0%nat m)
  | _ => 0%nat
  end.

(** ** serde_json's text layer *)

Definition json_error := string.

(** [json_parse b] is the document the text [b] denotes.  Text is read back up to
    the last digits of floats; an object's text ends in its closing brace, so no
    proper prefix of it is a document; compact text has no line breaks. *)
Class JsonText := {
  json_print : Value -> bytes;
  json_print_pretty : Value -> bytes;
  json_parse : bytes -> Result Value json_error
}.

Class JsonTextLaws (J : JsonText) := {
  json_parse_print_erase : forall v, value_ok v = true ->
    exists v', json_parse (json_print v) = Ok v' /\ erase v' = erase v;
  json_parse_pretty_erase : forall v, value_ok v = true ->
    exists v', json_parse (json_print_pretty v) = Ok v' /\ erase v' = erase v;
  json_pretty_prefix : forall m n, (n < length (json_print_pretty (Object m)))%nat ->
    value_ok (Object m) = true -> is_ok (json_parse (take n (json_print_pretty (Object m)))) = false;
  json_parse_ok : forall b v, json_parse b = Ok v -> value_ok v = true;
  json_print_one_line : forall v, Ascii.ascii_of_nat 10 ∉ json_print v;
  json_print_object_head : forall m, head (json_print (Object m)) <> Some "-"%char
}.

(** ** Derived deserialization *)

Inductive Access :=
| MapAccess (m : list (string * Value))
| SeqAccess (l : list Value).

Definition obj_get (k : string) (m : list (string * Value)) : option Value :=
  snd <$> find (fun kv => String.eqb kv.1 k) m.

Definition key_count (k : string) (m : list (string * Value)) : nat :=
  length (filter (fun kv => kv.1 = k) m).

Definition de_struct (names : list string) (v : Value) : Result Access json_error :=
  match v with
  | Object m =>
      if existsb (fun n => Nat.ltb 1 (key_count n m)) names then Err "duplicate field"
      else Ok (MapAccess m)
  | Array l =>
      if Nat.ltb (length names) (length l) then Err "trailing characters"
      else Ok (SeqAccess l)
  | _ => Err "invalid type"
  end.

Definition get_field (a : Access) (i : nat) (name : string) : option Value :=
  match a with
  | MapAccess m => obj_get name m
  | SeqAccess l => l !! i
  end.

(** A required field. *)
Definition field_req {A} (de : Value -> Result A json_error) (a : Access) (i : nat) (name : string)
  : Result A json_error :=
  match get_field a i name with
  | Some v => de v
  | None => Err ("missing field " +:+ name)
  end.

Definition de_option {A} (de : Value -> Result A json_error) (v : Value)
  : Result (option A) json_error :=
  match v with
  | Null => Ok None
  | _ => let? x := de v in Ok (Some x)
  end.

(** An [Option] field: absent from an object means [None]. *)
Definition field_opt {A} (de : Value -> Result A json_error) (a : Access) (i : nat) (name : string)
  : Result (option A) json_error :=
  match get_field a i name with
  | Some v => de_option de v
  | None => match a with
            | MapAccess _ => Ok None
            | SeqAccess _ => Err ("invalid length at " +:+ name)
            end
  end.

(** A [#[serde(default)]] field. *)
Definition field_default {A} (d : A) (de : Value -> Result A json_error) (a : Access) (i : nat)
  (name : string) : Result A json_error :=
  match get_field a i name with
  | Some v => de v
  | None => Ok d
  end.

Definition de_string (v : Value) : Result string json_error :=
  match v with Str s => Ok s | _ => Err "invalid type: expected a string" end.

Definition de_uint (max : Z) (v : Value) : Result Z json_error :=
  match v with
  | Num (PosInt n) => if (n <=? max)%Z then Ok n else Err "invalid value: out of range"
  | _ => Err "invalid type: expected an integer"
  end.

Definition de_bool (v : Value) : Result bool json_error :=
  match v with Bool b => Ok b | _ => Err "invalid type: expected a boolean" end.

Definition de_vec {A} (de : Value -> Result A json_error) (v : Value)
  : Result (list A) json_error :=
  match v with Array l => try_map de l | _ => Err "invalid type: expected a sequence" end.

(** A [serde_json::Value]: serde_json refuses to build one when more than 127
    arrays and objects are open; [limit] is what the surroundings leave of that.
    (Fields that are skipped are not limited.) *)
Definition RECURSION_LIMIT : nat := 127%nat.

Definition de_value (limit : nat) (v : Value) : Result Value json_error :=
  if Nat.leb (json_depth v) limit then Ok (normalize v) else Err "recursion limit exceeded".

Definition ser_option {A} (ser : A -> Value) (o : option A) : Value :=
  match o with Some x => ser x | None => Null end.

(** The name of a unit variant: a string, or an object with the variant as its
    only key and [null] as its content. *)
Definition de_unit_variant (v : Value) : Result string json_error :=
  match v with
  | Str s => Ok s
  | Object [(k, Null)] => Ok k
  | _ => Err "invalid type: expected a variant"
  end.

(** ** Lemmas *)

Lemma erase_exact_inv v v' : erase v' = erase v -> json_exact v = true -> v' = v.
Proof.
  revert v'. induction v as [| |n| |l IH|m IH] using Value_nested_ind; intros v' He Hx;
    try (destruct v' as [| |[]| | |]; simpl in *; congruence).
  - destruct n; [| |done]; destruct v' as [| |[]| | |]; simpl in *; congruence.
  - destruct v' as [| |[]| |l'|]; simpl in He; try discriminate. injection He as He. f_equal.
    simpl in Hx. rewrite forallb_forall in Hx. revert l' He.
    induction IH as [|v l Hv _ IHl]; intros [|v' l'] He; try discriminate; [done|].
    injection He as He1 He2. f_equal; [apply Hv; [done|]; apply Hx; by left|].
    apply IHl; [|done]. intros x Hin. apply Hx. by right.
  - destruct v' as [| |[]| | |m']; simpl in He; try discriminate. injection He as He. f_equal.
    simpl in Hx. rewrite forallb_forall in Hx. revert m' He.
    induction IH as [|[k v] l Hv _ IHl]; intros [|[k' v'] m'] He; try discriminate; [done|].
    injection He as Hk He1 He2. subst k'. f_equal.
    + f_equal. apply Hv; [done|]. apply (Hx (k, v)). by left.
    + apply IHl; [|done]. intros x Hin. apply Hx. by right.
Qed.

Lemma json_parse_print `{JsonTextLaws} v :
  value_ok v = true -> json_exact v = true -> json_parse (json_print v) = Ok v.
Proof.
  intros Hok Hx. destruct (json_parse_print_erase v Hok) as (v' & -> & He).
  by rewrite (erase_exact_inv v v').
Qed.

Lemma json_parse_print_pretty `{JsonTextLaws} v :
  value_ok v = true -> json_exact v = true -> json_parse (json_print_pretty v) = Ok v.
Proof.
  intros Hok Hx. destruct (json_parse_pretty_erase v Hok) as (v' & -> & He).
  by rewrite (erase_exact_inv v v').
Qed.

Lemma key_count_NoDup k m : NoDup m.*1 -> (key_count k m <= 1)%nat.
Proof.
  unfold key_count. induction m as [|[k' v] m IH]; simpl; [lia|].
  intros [Hk Hm]%NoDup_cons. rewrite filter_cons. case_decide as Hd; [|auto].
  simpl in Hd. subst k'. simpl.
  assert (filter (fun kv : string * Value => kv.1 = k) m = []) as ->; [|simpl; lia].
  clear IH Hm. induction m as [|[k' v'] m IH2]; [done|]. rewrite filter_cons. simpl in *.
  apply not_elem_of_cons in Hk as [Hk1 Hk2].
  rewrite decide_False by congruence. auto.
Qed.

(** An object without repeated keys reads as a map. *)
Lemma de_struct_NoDup names m : NoDup m.*1 -> de_struct names (Object m) = Ok (MapAccess m).
Proof.
  intros H. simpl. destruct (existsb _ names) eqn:E; [|done].
  apply existsb_exists in E as (n & _ & Hn%Nat.ltb_lt).
  pose proof (key_count_NoDup n m H). lia.
Qed.

#[global] Arguments de_struct : simpl never.

Ltac closed_keys := apply (bool_decide_unpack _); vm_compute; exact I.

Lemma de_vec_map {A} (ser : A -> Value) (de : Value -> Result A json_error) l :
  Forall (fun x => de (ser x) = Ok x) l -> de_vec de (Array (ser <$> l)) = Ok l.
Proof.
  intros H. simpl. apply try_map_Forall2. induction H; simpl; constructor; auto.
Qed.

Lemma json_exact_map {A} (ser : A -> Value) l :
  (forall x, json_exact (ser x) = true) -> json_exact (Array (ser <$> l)) = true.
Proof. intros H. simpl. induction l; simpl; [done|]. by rewrite H. Qed.

(** ** An instance of the text layer

    A document is written as the binary digits of its code and a semicolon;
    pretty-printing puts a space before it, which the reader skips. *)

#[export] Instance spec_float_eq_dec : EqDecision spec_float.
Proof. solve_decision. Defined.

Definition f64_code (f : f64) : bool * bool + bool * positive * Z :=
  match f with
  | S754_zero s => inl (false, s)
  | S754_infinity s => inl (true, s)
  | S754_nan => inr (false, 1%positive, 0%Z)
  | S754_finite s m e => inr (true, m, if s then (2 * e)%Z else (2 * e + 1)%Z)
  end.

Definition f64_uncode (c : bool * bool + bool * positive * Z) : f64 :=
  match c with
  | inl (false, s) => S754_zero s
  | inl (true, s) => S754_infinity s
  | inr (false, _, _) => S754_nan
  | inr (true, m, e) => S754_finite (Z.even e) m (Z.div2 e)
  end.

#[export] Instance f64_countable : Countable spec_float.
Proof.
  apply (inj_countable' f64_code f64_uncode). intros [s|s| |s m e]; try done.
  unfold f64_code, f64_uncode. destruct s; f_equal.
  - by rewrite Z.even_mul.
  - rewrite Z.div2_div, Z.mul_comm, Z.div_mul; lia.
  - rewrite Z.add_comm, Z.even_add_mul_2. done.
  - rewrite Z.div2_div. symmetry. apply (Z.div_unique _ _ _ 1); lia.
Defined.

Definition Number_code (n : Number) : Z + Z + f64 :=
  match n with PosInt z => inl (inl z) | NegInt z => inl (inr z) | Float f => inr f end.

Definition Number_uncode (c : Z + Z + f64) : Number :=
  match c with inl (inl z) => PosInt z | inl (inr z) => NegInt z | inr f => Float f end.

#[export] Instance Number_eq_dec : EqDecision Number.
Proof. solve_decision. Defined.

#[export] Instance Number_countable : Countable Number.
Proof. apply (inj_countable' Number_code Number_uncode). by intros []. Defined.

Abbreviation value_tree := (gen_tree (unit + bool + Number + string)).

Fixpoint value_code (v : Value) : value_tree :=
  match v with
  | Null => GenLeaf (inl (inl (inl tt)))
  | Bool b => GenLeaf (inl (inl (inr b)))
  | Num n => GenLeaf (inl (inr n))
  | Str s => GenLeaf (inr s)
  | Array l => GenNode 0 (value_code <$> l)
  | Object m => GenNode 1 ((fun kv => GenNode 2 [GenLeaf (inr kv.1); value_code kv.2]) <$> m)
  end.

Fixpoint value_uncode (t : value_tree) : Value :=
  match t with
  | GenLeaf (inl (inl (inl _))) => Null
  | GenLeaf (inl (inl (inr b))) => Bool b
  | GenLeaf (inl (inr n)) => Num n
  | GenLeaf (inr s) => Str s
  | GenNode 0 l => Array (value_uncode <$> l)
  | GenNode _ l => Object ((fun t => match t with
                                     | GenNode _ [GenLeaf (inr k); v] => (k, value_uncode v)
                                     | _ => (EmptyString, Null)
                                     end) <$> l)
  end.

Lemma value_uncode_code v : value_uncode (value_code v) = v.
Proof.
  induction v as [| | | |l IH|m IH] using Value_nested_ind; try done; cbn [value_code value_uncode].
  - f_equal. rewrite <- list_fmap_compose. rewrite <- (list_fmap_id l) at 2.
    apply list_fmap_ext. intros i x Hx. simpl. by apply (Forall_lookup_1 _ _ _ _ IH Hx).
  - f_equal. rewrite <- list_fmap_compose. rewrite <- (list_fmap_id m) at 2.
    apply list_fmap_ext. intros i [k x] Hx. simpl.
    f_equal. by apply (Forall_lookup_1 _ _ _ _ IH Hx).
Qed.

Fixpoint bits_of (p : positive) : bytes :=
  match p with
  | xH => []
  | xO p' => ascii_of_nat 48 :: bits_of p'
  | xI p' => ascii_of_nat 49 :: bits_of p'
  end.

Fixpoint of_bits (b : bytes) : option positive :=
  match b with
  | [] => None
  | c :: b' =>
      if Ascii.eqb c ";" then match b' with [] => Some xH | _ => None end
      else if Ascii.eqb c (ascii_of_nat 49) then xI <$> of_bits b'
      else if Ascii.eqb c (ascii_of_nat 48) then xO <$> of_bits b' else None
  end.

Definition toy_parse (b : bytes) : Result Value json_error :=
  match (match b with c :: b' => if Ascii.eqb c " " then of_bits b' else of_bits b | [] => None end)
        ≫= decode with
  | Some t => if value_ok (value_uncode t) then Ok (value_uncode t) else Err "invalid value"
  | None => Err "syntax error"
  end.

Lemma of_bits_of p : of_bits (bits_of p ++ [";"%char]) = Some p.
Proof. induction p as [p IH|p IH|]; simpl; [by rewrite IH|by rewrite IH|done]. Qed.

Lemma of_bits_prefix p n : (n <= length (bits_of p))%nat -> of_bits (take n (bits_of p ++ [";"%char])) = None.
Proof.
  revert n. induction p as [p IH|p IH|]; intros [|n] Hn; simpl in *; try done; try lia;
    rewrite IH by lia; done.
Qed.

#[export] Instance ToyJson : JsonText := {
  json_print v := bits_of (encode (value_code v)) ++ [";"%char];
  json_print_pretty v := " "%char :: bits_of (encode (value_code v)) ++ [";"%char];
  json_parse := toy_parse
}.

Lemma toy_parse_print v :
  value_ok v = true -> toy_parse (bits_of (encode (value_code v)) ++ [";"%char]) = Ok v.
Proof.
  intros Hok. unfold toy_parse. pose proof (of_bits_of (encode (value_code v))) as H.
  destruct (bits_of (encode (value_code v)) ++ [";"%char]) as [|c l] eqn:E; [done|].
  destruct (Ascii.eqb_spec c " ") as [->|_]; [discriminate H|]. rewrite H.
  cbn [mbind option_bind]. by rewrite decode_encode, value_uncode_code, Hok.
Qed.

#[export] Instance ToyJsonLaws : JsonTextLaws ToyJson.
Proof.
  split; cbn [json_print json_print_pretty json_parse ToyJson].
  - intros v Hok. exists v. by rewrite toy_parse_print.
  - intros v Hok. exists v. unfold toy_parse. cbn [Ascii.eqb Bool.eqb]. rewrite of_bits_of.
    cbn [mbind option_bind]. by rewrite decode_encode, value_uncode_code, Hok.
  - intros m n Hn _. generalize dependent (encode (value_code (Object m))). intros p Hn.
    destruct n as [|n]; [done|]. unfold toy_parse. simpl in Hn |- *.
    rewrite length_app in Hn. simpl in Hn. by rewrite of_bits_prefix by lia.
  - intros b v. unfold toy_parse. destruct (_ ≫= decode) as [t|]; [|done].
    destruct (value_ok (value_uncode t)) eqn:E; [|done]. by intros [= <-].
  - intros v. generalize (encode (value_code v)). intros p.
    induction p; simpl; rewrite ?not_elem_of_cons; try (split; [done|done]).
    split; [done|apply not_elem_of_nil].
  - intros m. by destruct (encode (value_code (Object m))).
Defined.
