(* ===== verification/Protocol.v ===== *)
(** * detritus-protocol: the wire types (lib.rs, source.rs, crash.rs, schema.rs)

    The records and enums of the protocol crate with their derived JSON codecs:
    [ser_X] is [Serialize], in field order, and [de_X] is [Deserialize]. *)

From Stdlib Require Import Ascii.
From S2P Require Import Prelude RustStd Fs External Instances Json.

Definition PROTOCOL_VERSION : Z := 1.
Definition GRPC_VERSION_KEY : string := "x-protocol-version".
Definition HTTP_VERSION_HEADER : string := "X-Protocol-Version".

Section Types.
Context `{U : UuidApi} `{C : ChronoApi}.

Record SourceId := {
  src_project : string;
  src_platform : string;
  src_version : string;
  src_install_id : Uuid
}.

Definition SourceId_canonical (s : SourceId) : string :=
  src_project s +:+ "/" +:+ src_platform s +:+ "/" +:+ src_version s +:+ "/"
    +:+ uuid_to_string (src_install_id s).

Record AttachmentManifest := {
  am_key : string;
  am_filename : option string;
  am_content_type : string;
  am_len : Z
}.

Record BuildInfo := { git_sha : string; profile : string; target_triple : string }.

Inductive CrashKind := Minidump | PanicTarball | RustcIce.

Record CrashMetadata := {
  schema_version : Z;
  md_source : SourceId;
  timestamp : DateTime;
  md_kind : CrashKind;
  build : BuildInfo;
  panic_text : option string;
  context : Value;
  md_attachments : list AttachmentManifest
}.

Definition CrashMetadata_new (source : SourceId) (ts : DateTime) (kind : CrashKind)
    (b : BuildInfo) (ctx : Value) : CrashMetadata :=
  {| schema_version := PROTOCOL_VERSION; md_source := source; timestamp := ts;
     md_kind := kind; build := b; panic_text := None; context := ctx;
     md_attachments := [] |}.

Record CrashAttachment := { ca_key : string; ca_content_type : string; ca_bytes : bytes }.

Record CrashEnvelope := {
  ce_metadata : CrashMetadata;
  ce_dump : bytes;
  ce_attachments : list CrashAttachment
}.

(** The payloads of third-party errors are their texts. *)
Inductive ProtocolError :=
| PJson (e : json_error)
| PMultipart (e : string)
| PIo (e : io_error)
| PMissingPart (name : string)
| PInvalidPartName
| PInvalidMultipart (what : string).

(** ** Derived serialization *)

Definition ser_SourceId (s : SourceId) : Value :=
  Object [("project", Str (src_project s)); ("platform", Str (src_platform s));
          ("version", Str (src_version s));
          ("install_id", Str (uuid_to_string (src_install_id s)))].

Definition ser_AttachmentManifest (a : AttachmentManifest) : Value :=
  Object [("key", Str (am_key a)); ("filename", ser_option Str (am_filename a));
          ("content_type", Str (am_content_type a)); ("len", Num (PosInt (am_len a)))].

Definition ser_BuildInfo (b : BuildInfo) : Value :=
  Object [("git_sha", Str (git_sha b)); ("profile", Str (profile b));
          ("target_triple", Str (target_triple b))].

Definition CrashKind_name (k : CrashKind) : string :=
  match k with
  | Minidump => "Minidump"
  | PanicTarball => "PanicTarball"
  | RustcIce => "RustcIce"
  end.

Definition ser_CrashMetadata (m : CrashMetadata) : Value :=
  Object [("schema_version", Num (PosInt (schema_version m)));
          ("source", ser_SourceId (md_source m));
          ("timestamp", Str (rfc3339 (timestamp m)));
          ("kind", Str (CrashKind_name (md_kind m)));
          ("build", ser_BuildInfo (build m));
          ("panic_text", ser_option Str (panic_text m));
          ("context", context m);
          ("attachments", Array (ser_AttachmentManifest <$> md_attachments m))].

(** ** Derived deserialization *)

Definition de_uuid (v : Value) : Result Uuid json_error :=
  let? s := de_string v in ok_or (uuid_parse s) "invalid UUID".

Definition de_datetime (v : Value) : Result DateTime json_error :=
  let? s := de_string v in ok_or (parse_rfc3339 s) "invalid date".

Definition de_SourceId (v : Value) : Result SourceId json_error :=
  let? a := de_struct ["project"; "platform"; "version"; "install_id"] v in
  let? p := field_req de_string a 0 "project" in
  let? pl := field_req de_string a 1 "platform" in
  let? ve := field_req de_string a 2 "version" in
  let? i := field_req de_uuid a 3 "install_id" in
  Ok {| src_project := p; src_platform := pl; src_version := ve; src_install_id := i |}.

Definition de_AttachmentManifest (v : Value) : Result AttachmentManifest json_error :=
  let? a := de_struct ["key"; "filename"; "content_type"; "len"] v in
  let? k := field_req de_string a 0 "key" in
  let? f := field_opt de_string a 1 "filename" in
  let? c := field_req de_string a 2 "content_type" in
  let? n := field_req (de_uint U64_MAX) a 3 "len" in
  Ok {| am_key := k; am_filename := f; am_content_type := c; am_len := n |}.

Definition de_BuildInfo (v : Value) : Result BuildInfo json_error :=
  let? a := de_struct ["git_sha"; "profile"; "target_triple"] v in
  let? g := field_req de_string a 0 "git_sha" in
  let? p := field_req de_string a 1 "profile" in
  let? t := field_req de_string a 2 "target_triple" in
  Ok {| git_sha := g; profile := p; target_triple := t |}.

Definition de_CrashKind (v : Value) : Result CrashKind json_error :=
  let? n := de_unit_variant v in
  if String.eqb n "Minidump" then Ok Minidump
  else if String.eqb n "PanicTarball" then Ok PanicTarball
  else if String.eqb n "RustcIce" then Ok RustcIce
  else Err "unknown variant".

Definition de_CrashMetadata (v : Value) : Result CrashMetadata json_error :=
  let? a := de_struct ["schema_version"; "source"; "timestamp"; "kind"; "build";
                       "panic_text"; "context"; "attachments"] v in
  let? sv := field_req (de_uint U32_MAX) a 0 "schema_version" in
  let? so := field_req de_SourceId a 1 "source" in
  let? ts := field_req de_datetime a 2 "timestamp" in
  let? ki := field_req de_CrashKind a 3 "kind" in
  let? bu := field_req de_BuildInfo a 4 "build" in
  let? pt := field_opt de_string a 5 "panic_text" in
  let? cx := field_req (de_value (RECURSION_LIMIT - 1)%nat) a 6 "context" in
  let? at_ := field_req (de_vec de_AttachmentManifest) a 7 "attachments" in
  Ok {| schema_version := sv; md_source := so; timestamp := ts; md_kind := ki; build := bu;
        panic_text := pt; context := cx; md_attachments := at_ |}.
End Types.

Arguments SourceId U : clear implicits.
Arguments CrashMetadata U C : clear implicits.
Arguments CrashEnvelope U C : clear implicits.

(** [serde_json::to_vec], [to_value] and [from_slice] at [CrashMetadata]. *)
Definition metadata_to_vec `{UuidApi, ChronoApi, JsonText} (m : CrashMetadata _ _) : bytes :=
  json_print (ser_CrashMetadata m).

Definition metadata_to_vec_pretty `{UuidApi, ChronoApi, JsonText} (m : CrashMetadata _ _) : bytes :=
  json_print_pretty (ser_CrashMetadata m).

Definition metadata_to_value `{UuidApi, ChronoApi} (m : CrashMetadata _ _) : Value :=
  normalize (ser_CrashMetadata m).

Definition metadata_from_slice `{U : UuidApi, C : ChronoApi, JsonText} (b : bytes)
  : Result (CrashMetadata U C) json_error :=
  let? v := json_parse b in de_CrashMetadata v.

(** ** schema.rs *)

Inductive SchemaKind := CrashMetadataKind | LogAttributes.

#[export] Instance SchemaKind_eq_dec : EqDecision SchemaKind.
Proof. solve_decision. Defined.

#[export] Instance SchemaKind_countable : Countable SchemaKind.
Proof.
  apply (inj_countable' (fun k => match k with CrashMetadataKind => true | LogAttributes => false end)
           (fun b : bool => if b then CrashMetadataKind else LogAttributes)).
  by intros [].
Defined.

(** [#[serde(rename_all = "snake_case")]] *)
Definition SchemaKind_name (k : SchemaKind) : string :=
  match k with CrashMetadataKind => "crash_metadata" | LogAttributes => "log_attributes" end.

Record SchemaSpec := { ss_kind : SchemaKind; ss_path : Path }.

Inductive SchemaError :=
| SchemaIo (path : Path) (source : io_error)
| SchemaParse (path : Path) (source : json_error)
| SchemaValidation (kind : SchemaKind) (errors : list string)
| UnknownSchema (project : string) (kind : SchemaKind).

(** ** Well-formed metadata: what the Rust types guarantee. *)

Definition manifest_wf (a : AttachmentManifest) : Prop := (0 <= am_len a <= U64_MAX)%Z.

Definition metadata_wf `{UuidApi, ChronoApi} (m : CrashMetadata _ _) : Prop :=
  (0 <= schema_version m <= U32_MAX)%Z /\ normalize (context m) = context m /\
  Forall manifest_wf (md_attachments m).

(** A context that a reader's recursion limit admits. *)
Definition context_fits `{UuidApi, ChronoApi} (m : CrashMetadata _ _) : Prop :=
  (json_depth (context m) <= RECURSION_LIMIT - 1)%nat.

Section Codec.
Context {U : UuidApi} {UL : UuidLaws U} {C : ChronoApi} {CL : ChronoLaws C}.

Lemma de_ser_SourceId (s : SourceId U) : de_SourceId (ser_SourceId s) = Ok s.
Proof using UL.
  destruct s. unfold de_SourceId, ser_SourceId. rewrite de_struct_NoDup by closed_keys.
  unfold field_req, de_uuid. simpl. by rewrite uuid_parse_to_string.
Qed.

Lemma de_ser_AttachmentManifest a :
  manifest_wf a -> de_AttachmentManifest (ser_AttachmentManifest a) = Ok a.
Proof.
  destruct a as [k [f|] c n]; intros [_ Hn]; simpl in Hn;
    unfold de_AttachmentManifest, ser_AttachmentManifest;
    rewrite de_struct_NoDup by closed_keys; unfold field_req, field_opt; simpl;
    by rewrite (proj2 (Z.leb_le _ _) Hn).
Qed.

Lemma de_ser_CrashKind k : de_CrashKind (Str (CrashKind_name k)) = Ok k.
Proof. by destruct k. Qed.

Lemma de_ser_CrashMetadata (m : CrashMetadata U C) :
  metadata_wf m -> context_fits m -> de_CrashMetadata (ser_CrashMetadata m) = Ok m.
Proof using UL CL.
  intros ([_ Hv] & Hc & Ha) Hd%Nat.leb_le. unfold de_CrashMetadata, ser_CrashMetadata.
  rewrite de_struct_NoDup by closed_keys. unfold field_req, field_opt. simpl. rewrite (proj2 (Z.leb_le _ _) Hv).
  rewrite de_ser_SourceId. unfold de_datetime. simpl. rewrite parse_rfc3339_rfc3339. simpl.
  rewrite de_ser_CrashKind. destruct m as [sv so ts ki bu pt cx atts]; simpl in *.
  replace (de_option de_string (ser_option Str pt)) with (@Ok _ json_error pt) by (by destruct pt).
  rewrite (proj2 (try_map_Forall2 _ _ atts)).
  - unfold de_value. rewrite Hd, Hc. by destruct bu.
  - clear -Ha. induction Ha; simpl; constructor; auto using de_ser_AttachmentManifest.
Qed.
End Codec.

Section RoundTrip.
Context {U : UuidApi} {UL : UuidLaws U} {C : ChronoApi} {CL : ChronoLaws C}
  {J : JsonText} {JL : JsonTextLaws J}.

Lemma metadata_exact (m : CrashMetadata U C) :
  json_exact (context m) = true -> json_exact (ser_CrashMetadata m) = true.
Proof.
  intros Hc. unfold ser_CrashMetadata. cbn [json_exact forallb snd].
  rewrite Hc. replace (json_exact (ser_option Str (panic_text m))) with true
    by (by destruct (panic_text m)).
  simpl. rewrite !andb_true_r. apply forallb_forall.
  intros v Hv. apply list_elem_of_In, list_elem_of_fmap in Hv as (a & -> & _).
  by destruct a as [? [] ? ?].
Qed.

Lemma metadata_from_to_vec (m : CrashMetadata U C) :
  metadata_wf m -> value_ok (ser_CrashMetadata m) = true -> context_fits m ->
  json_exact (context m) = true -> metadata_from_slice (metadata_to_vec m) = Ok m.
Proof using UL CL JL.
  intros Hwf Hok Hd Hex. unfold metadata_from_slice, metadata_to_vec.
  rewrite json_parse_print by (done || by apply metadata_exact). by rewrite de_ser_CrashMetadata.
Qed.

Lemma metadata_from_to_vec_pretty (m : CrashMetadata U C) :
  metadata_wf m -> value_ok (ser_CrashMetadata m) = true -> context_fits m ->
  json_exact (context m) = true -> metadata_from_slice (metadata_to_vec_pretty m) = Ok m.
Proof using UL CL JL.
  intros Hwf Hok Hd Hex. unfold metadata_from_slice, metadata_to_vec_pretty.
  rewrite json_parse_print_pretty by (done || by apply metadata_exact). by rewrite de_ser_CrashMetadata.
Qed.

(** C34. Crash metadata survives the JSON wire format: reading what either the
    compact or the pretty writer produced gives back the same metadata, field by
    field, including absent options, the enum name and the free-form context.  For
    metadata whose integers are within their types and whose texts are UTF-8, and
    whose context has no floating-point numbers (serde_json does not promise to
    read back their last digits) and no repeated or unordered keys and is nested
    within the recursion limit. *)
Theorem metadata_json_round_trip (m : CrashMetadata U C) :
  metadata_wf m -> value_ok (ser_CrashMetadata m) = true -> context_fits m ->
  json_exact (context m) = true ->
  metadata_from_slice (metadata_to_vec m) = Ok m /\
  metadata_from_slice (metadata_to_vec_pretty m) = Ok m.
Proof using UL CL JL.
  intros. split; [by apply metadata_from_to_vec|by apply metadata_from_to_vec_pretty].
Qed.
End RoundTrip.

Definition sample_metadata : CrashMetadata ToyUuid ToyChrono := {|
  schema_version := 1;
  md_source := {| src_project := "app"; src_platform := "linux"; src_version := "1.0";
                  src_install_id := nil_uuid |};
  timestamp := 7%nat;
  md_kind := PanicTarball;
  build := {| git_sha := "abc"; profile := "dev"; target_triple := "x86_64" |};
  panic_text := Some "boom";
  context := Object [("seed", Num (PosInt 4)); ("tick", Num (PosInt 9))];
  md_attachments := [{| am_key := "log"; am_filename := None;
                        am_content_type := "text/plain"; am_len := 12 |}]
|}.

Lemma metadata_json_round_trip_witness :
  metadata_from_slice (metadata_to_vec sample_metadata) = Ok sample_metadata /\
  metadata_from_slice (metadata_to_vec_pretty sample_metadata) = Ok sample_metadata.
Proof.
  apply (metadata_json_round_trip sample_metadata).
  - split; [unfold U32_MAX; simpl; lia|]. split; [reflexivity|].
    repeat constructor; unfold U64_MAX; simpl; lia.
  - reflexivity.
  - unfold context_fits, RECURSION_LIMIT. simpl. lia.
  - reflexivity.
Defined.
