(* ===== verification/Rfc7578.v ===== *)
(** * multipart/form-data (RFC 7578), as a reference parser

    The multer crate is a parameter of the model.  This file states what it is
    relied upon to do: [rfc_parse] reads a subset of the format on which
    implementations agree (visible header values, quoted names without escapes,
    plain media types, no preamble), and [MulterRfc] says that multer returns the
    fields [rfc_parse] finds, however the body is cut into frames. *)

From Stdlib Require Import Ascii.
From S2P Require Import Prelude RustStd External Instances.

Definition CRLF : bytes := [ascii_of_nat 13; ascii_of_nat 10].

(** ** Searching *)

Fixpoint strip (p b : bytes) : option bytes :=
  match p, b with
  | [], _ => Some b
  | x :: p', y :: b' => if Ascii.eqb x y then strip p' b' else None
  | _ :: _, [] => None
  end.

(** The text before and after the first occurrence of [pat]. *)
Fixpoint split_on (pat b : bytes) : option (bytes * bytes) :=
  match strip pat b with
  | Some r => Some ([], r)
  | None => match b with
            | [] => None
            | c :: b' => '(x, r) ← split_on pat b'; Some (c :: x, r)
            end
  end.

(** ** Parts *)

Record RawPart := {
  rp_name : string;
  rp_type : option string;
  rp_encoding : option bytes;
  rp_content : bytes
}.

Definition visible (c : ascii) : bool := byte_in 33 126 c.

(** Characters of a name that need no escape. *)
Definition name_char (c : ascii) : bool :=
  (byte_in 32 126 c || byte_in 128 255 c) &&
  negb (Ascii.eqb c (ascii_of_nat 34)) && negb (Ascii.eqb c "\") && negb (Ascii.eqb c "%").

Definition name_ok (s : string) : bool := forallb name_char (as_bytes s) && utf8_valid (as_bytes s).

Definition mime_char (c : ascii) : bool :=
  byte_in 97 122 c || byte_in 48 57 c || existsb (Ascii.eqb c) ["-"; "."; "+"; "_"]%char.

(** [type/subtype] in lower case, without parameters. *)
Definition mime_ok (s : string) : bool :=
  forallb (fun c => mime_char c || Ascii.eqb c "/") (as_bytes s) &&
  match split_char "/" s with
  | [t; u] => negb (String.eqb t "") && negb (String.eqb u "")
  | _ => false
  end.

Definition boundary_char (c : ascii) : bool :=
  byte_in 97 122 c || byte_in 65 90 c || byte_in 48 57 c || Ascii.eqb c "-".

Definition boundary_ok (b : string) : bool :=
  forallb boundary_char (as_bytes b) && negb (String.eqb b "").

(** ** Headers *)

Fixpoint headers (fuel : nat) (b : bytes) : option (list (string * bytes) * bytes) :=
  match fuel with
  | O => None
  | S fuel =>
      '(line, rest) ← split_on CRLF b;
      match line with
      | [] => Some ([], rest)
      | _ => '(name, value) ← split_on (as_bytes ": ") line;
             '(hs, rest') ← headers fuel rest;
             Some ((to_ascii_lowercase (of_bytes name), value) :: hs, rest')
      end
  end.

Definition header (name : string) (hs : list (string * bytes)) : option bytes :=
  snd <$> find (fun h => String.eqb h.1 name) hs.

Definition disposition_name (v : bytes) : option string :=
  r ← strip (as_bytes ("form-data; name=" +:+ String (ascii_of_nat 34) "")) v;
  '(name, rest) ← split_on [ascii_of_nat 34] r;
  match rest with
  | [] => if name_ok (of_bytes name) then Some (of_bytes name) else None
  | _ => None
  end.

(** A part, if its headers are of the agreed form. *)
Definition part_of_headers (hs : list (string * bytes)) (content : bytes) : option RawPart :=
  d ← header "content-disposition" hs;
  name ← disposition_name d;
  ct ← match header "content-type" hs with
       | None => Some None
       | Some v => if mime_ok (of_bytes v) then Some (Some (of_bytes v)) else None
       end;
  enc ← match header "content-encoding" hs with
        | None => Some None
        | Some v => if forallb visible v && negb (bool_decide (v = [])) then Some (Some v) else None
        end;
  Some {| rp_name := name; rp_type := ct; rp_encoding := enc; rp_content := content |}.

(** ** The body *)

Definition dash_boundary (b : string) : bytes := as_bytes ("--" +:+ b).

Fixpoint parts_after (fuel : nat) (b : string) (after : bytes) : option (list RawPart) :=
  match fuel with
  | O => None
  | S fuel' =>
      match strip (as_bytes "--") after with
      | Some _ => Some []
      | None =>
          r ← strip CRLF after;
          '(hs, r) ← headers fuel r;
          '(x, after') ← split_on (CRLF ++ dash_boundary b) (CRLF ++ r);
          content ← strip CRLF x;
          p ← part_of_headers hs content;
          ps ← parts_after fuel' b after';
          Some (p :: ps)
      end
  end.

Definition rfc_parse (b : string) (body : bytes) : option (list RawPart) :=
  r ← strip (dash_boundary b) body; parts_after (length body) b r.

(** ** What multer does *)

Definition field_matches (f : Field) (p : RawPart) : Prop :=
  f_name f = Some (rp_name p) /\ f_content_type f = rp_type p /\ f_content_encoding f = rp_encoding p /\
  exists cs, f_chunks f = Ok <$> cs /\ concat cs = rp_content p.

Class MulterRfc (M : MulterApi) := {
  parse_boundary_rfc : forall b, boundary_ok b = true ->
    parse_boundary ("multipart/form-data; boundary=" +:+ b) = Ok b;
  multipart_rfc : forall (frames : list bytes) b parts, boundary_ok b = true ->
    (len_u64 (concat frames) < 2 ^ 63)%Z -> rfc_parse b (concat frames) = Some parts ->
    exists fields, multipart (Ok <$> frames) b = Ok <$> fields /\ Forall2 field_matches fields parts
}.

(** ** Printing and reading back *)

Lemma strip_app p b : strip p (p ++ b) = Some b.
Proof. induction p as [|c p IH]; [done|]. cbn. by rewrite Ascii.eqb_refl. Qed.

Lemma strip_Some p b r : strip p b = Some r -> b = p ++ r.
Proof.
  revert b. induction p as [|c p IH]; intros b; [by intros [= ->]|]. destruct b as [|y b]; [done|]. cbn.
  destruct (Ascii.eqb_spec c y) as [->|]; [|done]. by intros ->%IH.
Qed.

(** A pattern whose first byte does not recur is found where it was put. *)
Lemma split_on_put c p x r :
  c ∉ p -> split_on (c :: p) x = None -> split_on (c :: p) (x ++ (c :: p) ++ r) = Some (x, r).
Proof.
  intros Hc. induction x as [|y x IH]; intros Hx.
  - change ([] ++ (c :: p) ++ r) with ((c :: p) ++ r). pose proof (strip_app (c :: p) r) as Hs.
    destruct ((c :: p) ++ r) eqn:E; [done|]. cbn [split_on]. by rewrite Hs.
  - cbn [split_on app] in Hx |- *.
    destruct (strip (c :: p) (y :: x)) as [?|] eqn:Hs; [done|].
    destruct (split_on (c :: p) x) as [[]|]; [done|]. cbn [app] in IH. rewrite (IH eq_refl).
    destruct (strip (c :: p) (y :: x ++ c :: p ++ r)) as [z|] eqn:Hz; [|done]. exfalso.
    apply strip_Some in Hz. injection Hz as -> Hz.
    destruct (decide (length p <= length x)%nat) as [Hle|Hgt].
    + assert (x = p ++ drop (length p) x) as Hp.
      { rewrite <- (take_drop (length p) x) at 1. f_equal.
        assert (take (length p) (x ++ c :: p ++ r) = take (length p) (p ++ z)) as Ht by (by rewrite Hz).
        rewrite take_app_le in Ht by done. rewrite take_app_length in Ht. exact Ht. }
      rewrite Hp in Hs. cbn in Hs. rewrite Ascii.eqb_refl, strip_app in Hs. done.
    + apply Hc. apply list_elem_of_lookup_2 with (length x).
      assert ((x ++ c :: p ++ r) !! length x = Some c) as Hl by (by rewrite list_lookup_middle).
      rewrite Hz, lookup_app_l in Hl by lia. done.
Qed.

Lemma split_on_None_notin c p x : c ∉ x -> split_on (c :: p) x = None.
Proof.
  induction x as [|y x IH]; [done|]. intros [Hy Hx]%not_elem_of_cons. cbn [split_on strip].
  destruct (Ascii.eqb_spec c y) as [->|_]; [done|]. by rewrite IH.
Qed.

Lemma CRLF_cons : CRLF = ascii_of_nat 13 :: [ascii_of_nat 10].
Proof. done. Qed.

Lemma forallb_notin f (c : ascii) l : forallb f l = true -> f c = false -> c ∉ l.
Proof.
  intros Hl Hc Hin. apply list_elem_of_In in Hin. rewrite forallb_forall in Hl.
  specialize (Hl c Hin). congruence.
Qed.

(** Printed headers are read back. *)
Definition header_text (h : string * bytes) : bytes := as_bytes h.1 ++ as_bytes ": " ++ h.2 ++ CRLF.

Definition header_fine (h : string * bytes) : Prop :=
  h.1 <> "" /\ (ascii_of_nat 13 ∉ as_bytes h.1) /\ (":"%char ∉ as_bytes h.1) /\ (ascii_of_nat 13 ∉ h.2).

Lemma headers_printed hs r : forall fuel,
  Forall header_fine hs -> (length hs < fuel)%nat ->
  headers fuel (concat (header_text <$> hs) ++ CRLF ++ r) =
    Some ((fun h => (to_ascii_lowercase h.1, h.2)) <$> hs, r).
Proof.
  induction hs as [|[n v] hs IH]; intros fuel Hf Hlen; (destruct fuel as [|fuel]; [cbn in Hlen; lia|]).
  { cbn [headers]. change (concat (header_text <$> []) ++ CRLF ++ r) with ([] ++ CRLF ++ r).
    rewrite CRLF_cons, split_on_put; [done|set_solver|done]. }
  apply Forall_cons in Hf as [(Hn & Hn13 & Hnc & Hv13) Hf]. cbn [fst snd] in *.
  cbn [fmap list_fmap concat headers]. unfold header_text at 1. cbn [fst snd].
  replace (((as_bytes n ++ as_bytes ": " ++ v ++ CRLF) ++ concat (header_text <$> hs)) ++ CRLF ++ r)
    with ((as_bytes n ++ as_bytes ": " ++ v) ++ CRLF ++ (concat (header_text <$> hs) ++ CRLF ++ r))
    by (by rewrite <- !app_assoc).
  rewrite CRLF_cons at 1 2. rewrite split_on_put.
  2: { set_solver. }
  2: { apply split_on_None_notin. rewrite !elem_of_app. intros [?|[H|?]]; [done| |done].
       vm_compute in H. set_solver. }
  cbn [mbind option_bind].
  destruct (as_bytes n ++ as_bytes ": " ++ v) as [|c0 l0] eqn:El.
  { destruct n; [done|]. by destruct (as_bytes _). }
  rewrite <- El. change (as_bytes ": ") with (":"%char :: [" "%char]).
  rewrite split_on_put; [|set_solver|by apply split_on_None_notin]. cbn [mbind option_bind].
  cbn [length] in Hlen. rewrite IH by (done || lia). cbn [mbind option_bind]. by rewrite of_as_bytes.
Qed.

(** ** Printed bodies are read back *)

Definition part_headers (p : RawPart) : list (string * bytes) :=
  [("Content-Disposition", as_bytes ("form-data; name=" +:+ String (ascii_of_nat 34) "") ++
      as_bytes (rp_name p) ++ [ascii_of_nat 34])] ++
  match rp_type p with Some t => [("Content-Type", as_bytes t)] | None => [] end ++
  match rp_encoding p with Some e => [("Content-Encoding", e)] | None => [] end.

(** The text of a part, from its boundary line to the line break that ends it. *)
Definition part_text (b : string) (p : RawPart) : bytes :=
  dash_boundary b ++ CRLF ++ concat (header_text <$> part_headers p) ++ CRLF ++ rp_content p ++ CRLF.

Definition body_text (b : string) (parts : list RawPart) : bytes :=
  concat (part_text b <$> parts) ++ dash_boundary b ++ as_bytes "--" ++ CRLF.

(** No boundary line starts in the content. *)
Definition content_ok (b : string) (content : bytes) : bool :=
  match split_on (CRLF ++ dash_boundary b) (CRLF ++ content) with None => true | Some _ => false end.

Definition raw_part_ok (b : string) (p : RawPart) : bool :=
  name_ok (rp_name p) && content_ok b (rp_content p) &&
  match rp_type p with Some t => mime_ok t | None => true end &&
  match rp_encoding p with Some e => forallb visible e && negb (bool_decide (e = [])) | None => true end.

Lemma mime_no_cr t : mime_ok t = true -> ascii_of_nat 13 ∉ as_bytes t.
Proof. intros [H _]%andb_true_iff. by eapply forallb_notin. Qed.

Lemma header_fine_in p b h : raw_part_ok b p = true -> h ∈ part_headers p -> header_fine h.
Proof.
  unfold raw_part_ok, part_headers. rewrite !andb_true_iff. intros [[[[Hn _]%andb_true_iff _] Ht] He] Hh.
  assert (forall n v, n ∈ ["Content-Disposition"; "Content-Type"; "Content-Encoding"] ->
    ascii_of_nat 13 ∉ v -> header_fine (n, v)) as Hfine.
  { intros n v Hnm Hv. split_and!; cbn [fst snd]; try done;
      repeat (apply elem_of_cons in Hnm as [->|Hnm]; [by apply (bool_decide_unpack _)|]);
      by apply not_elem_of_nil in Hnm. }
  apply elem_of_app in Hh as [->%list_elem_of_singleton|[Hh|Hh]%elem_of_app].
  - apply Hfine; [by left|]. rewrite !not_elem_of_app. split_and!; [by apply (bool_decide_unpack _)| |set_solver].
    by eapply forallb_notin.
  - destruct (rp_type p) as [t|]; [|by apply not_elem_of_nil in Hh].
    apply list_elem_of_singleton in Hh as ->. apply Hfine; [by right; left|by apply mime_no_cr].
  - destruct (rp_encoding p) as [e|]; [|by apply not_elem_of_nil in Hh].
    apply list_elem_of_singleton in Hh as ->. apply andb_true_iff in He as [He _].
    apply Hfine; [by right; right; left|by eapply forallb_notin].
Qed.

Lemma part_headers_read p b :
  raw_part_ok b p = true ->
  part_of_headers ((fun h => (to_ascii_lowercase h.1, h.2)) <$> part_headers p) (rp_content p) = Some p.
Proof.
  unfold raw_part_ok. rewrite !andb_true_iff. intros [[[Hn _] Ht] He].
  unfold part_of_headers, part_headers, header.
  assert (disposition_name (as_bytes ("form-data; name=" +:+ String (ascii_of_nat 34) "") ++
      as_bytes (rp_name p) ++ [ascii_of_nat 34]) = Some (rp_name p)) as Hd.
  { unfold disposition_name. rewrite strip_app. cbn [mbind option_bind].
    pose proof (andb_true_iff (forallb name_char (as_bytes (rp_name p))) (utf8_valid (as_bytes (rp_name p)))) as [Hsp _].
    pose proof (split_on_put (ascii_of_nat 34) [] (as_bytes (rp_name p)) []) as Hput.
    cbn [app] in Hput. rewrite Hput; [|apply not_elem_of_nil|].
    - cbn [mbind option_bind]. by rewrite of_as_bytes, Hn.
    - apply split_on_None_notin. eapply forallb_notin; [apply (proj1 (Hsp Hn))|done]. }
  set (dv := as_bytes ("form-data; name=" +:+ String (ascii_of_nat 34) "") ++ _) in *. clearbody dv.
  destruct p as [n [t|] [e|] c]; cbn [rp_type rp_encoding rp_name rp_content] in *;
    cbn [fmap list_fmap app fst snd];
    change (to_ascii_lowercase "Content-Disposition") with "content-disposition";
    change (to_ascii_lowercase "Content-Type") with "content-type";
    change (to_ascii_lowercase "Content-Encoding") with "content-encoding";
    cbn -[disposition_name mime_ok forallb as_bytes of_bytes bool_decide]; rewrite Hd;
    cbn -[mime_ok forallb as_bytes of_bytes bool_decide];
    rewrite ?of_as_bytes, ?Ht; cbn -[forallb bool_decide]; rewrite ?He; done.
Qed.

Lemma boundary_no_cr b : boundary_ok b = true -> ascii_of_nat 13 ∉ dash_boundary b.
Proof.
  intros [Hb _]%andb_true_iff. unfold dash_boundary. rewrite as_bytes_app. apply not_elem_of_app.
  split; [by apply (bool_decide_unpack _)|]. by eapply forallb_notin.
Qed.

Lemma part_headers_length p : (length (part_headers p) <= 3)%nat.
Proof. unfold part_headers. destruct (rp_type p), (rp_encoding p); cbn; lia. Qed.

(** What follows a boundary line: the rest of the printed parts. *)
Lemma parts_after_printed b parts : boundary_ok b = true -> forall fuel,
  Forall (fun p => raw_part_ok b p = true) parts -> (length parts + 4 < fuel)%nat ->
  forall tail, concat (part_text b <$> parts) ++ dash_boundary b ++ as_bytes "--" ++ CRLF = dash_boundary b ++ tail ->
  parts_after fuel b tail = Some parts.
Proof.
  intros Hb. induction parts as [|p parts IH]; intros fuel Hok Hfuel tail Htail;
    (destruct fuel as [|fuel]; [lia|]).
  { cbn [fmap list_fmap concat app] in Htail. apply app_inv_head in Htail. subst tail. cbn [parts_after]. by rewrite strip_app. }
  apply Forall_cons in Hok as [Hp Hok]. cbn [fmap list_fmap concat] in Htail. unfold part_text at 1 in Htail.
  rewrite <- !app_assoc in Htail. apply app_inv_head in Htail. subst tail. cbn [parts_after].
  replace (strip (as_bytes "--") _) with (@None bytes) by done.
  rewrite strip_app. cbn [mbind option_bind].
  rewrite headers_printed.
  2: { apply Forall_forall. intros h Hh. by eapply header_fine_in. }
  2: { pose proof (part_headers_length p). cbn [length] in Hfuel. lia. }
  cbn [mbind option_bind].
  set (rest := concat (part_text b <$> parts) ++ dash_boundary b ++ as_bytes "--" ++ CRLF).
  assert (exists tail', rest = dash_boundary b ++ tail') as [tail' Hrest].
  { unfold rest. destruct parts; [by eexists|]. cbn [fmap list_fmap concat]. unfold part_text at 1.
    rewrite <- !app_assoc. by eexists. }
  assert (split_on (CRLF ++ dash_boundary b) (CRLF ++ rp_content p ++ CRLF ++ rest)
    = Some (CRLF ++ rp_content p, tail')) as ->.
  { rewrite Hrest. rewrite CRLF_cons at 1 3. cbn [app].
    replace (CRLF ++ rp_content p ++ ascii_of_nat 13 :: ascii_of_nat 10 :: dash_boundary b ++ tail')
      with ((CRLF ++ rp_content p) ++ (ascii_of_nat 13 :: ascii_of_nat 10 :: dash_boundary b) ++ tail')
      by (by rewrite <- !app_assoc).
    apply split_on_put.
    - apply not_elem_of_cons. split; [done|by apply boundary_no_cr].
    - unfold raw_part_ok, content_ok in Hp. rewrite !andb_true_iff in Hp.
      destruct Hp as [[[_ Hc] _] _]. cbn [app CRLF] in Hc |- *. by destruct (split_on _ _). }
  cbn [mbind option_bind]. rewrite strip_app. cbn [mbind option_bind].
  rewrite (part_headers_read p b) by done. cbn [mbind option_bind].
  rewrite (IH fuel); [done|done| |exact Hrest]. cbn [length] in Hfuel. lia.
Qed.

Lemma concat_length_ge {A : Type} (f : A -> bytes) n l :
  (forall x, n <= length (f x))%nat -> (n * length l <= length (concat (f <$> l)))%nat.
Proof.
  intros H. induction l as [|x l IH]; cbn [fmap list_fmap concat length]; [lia|].
  rewrite length_app, Nat.mul_succ_r. specialize (H x). change (list_fmap _ _ f l) with (f <$> l). lia.
Qed.

(** The reference parser reads back what the grammar prints. *)
Lemma rfc_parse_body b parts :
  boundary_ok b = true -> Forall (fun p => raw_part_ok b p = true) parts ->
  rfc_parse b (body_text b parts) = Some parts.
Proof.
  intros Hb Hok. unfold rfc_parse.
  assert (exists tail, body_text b parts = dash_boundary b ++ tail) as [tail Htail].
  { unfold body_text. destruct parts; [by eexists|]. cbn [fmap list_fmap concat]. unfold part_text at 1.
    rewrite <- !app_assoc. by eexists. }
  rewrite Htail at 1. rewrite strip_app. cbn [mbind option_bind].
  apply parts_after_printed; [done|done| |done].
  unfold body_text. rewrite !length_app.
  assert (2 < length (dash_boundary b))%nat as Hd.
  { apply andb_true_iff in Hb as [_ Hb]. unfold dash_boundary. rewrite as_bytes_app, length_app.
    destruct b; [done|]. cbn. lia. }
  pose proof (concat_length_ge (part_text b) 4 parts) as Hc. cbn.
  enough (4 * length parts <= length (concat (part_text b <$> parts)))%nat by lia.
  apply Hc. intros x. unfold part_text. rewrite !length_app. cbn. lia.
Qed.

(** ** An instance: multer as the reference parser *)

Lemma split_on_Some pat b x r : split_on pat b = Some (x, r) -> b = x ++ pat ++ r.
Proof.
  revert x. induction b as [|c b IH]; intros x; cbn [split_on].
  - destruct (strip pat []) eqn:E; [|done]. intros [= <- <-]. by apply strip_Some in E.
  - destruct (strip pat (c :: b)) eqn:E; [intros [= <- <-]; by apply strip_Some in E|].
    destruct (split_on pat b) as [[y r']|]; [|done]. cbn. intros [= <- <-]. cbn. f_equal. by apply IH.
Qed.

Lemma headers_length fuel : forall b hs r, headers fuel b = Some (hs, r) -> (length r <= length b)%nat.
Proof.
  induction fuel as [|fuel IH]; intros b hs r; cbn [headers]; [done|].
  destruct (split_on CRLF b) as [[line rest]|] eqn:E; [|done]. cbn [mbind option_bind].
  apply split_on_Some in E. subst b. rewrite !length_app.
  destruct line as [|c line]; [intros [= <- <-]; lia|].
  destruct (split_on _ (c :: line)) as [[]|]; [|done]. cbn [mbind option_bind].
  destruct (headers fuel rest) as [[hs' r']|] eqn:Eh; [|done]. cbn [mbind option_bind].
  intros [= <- <-]. apply IH in Eh. lia.
Qed.

Definition sound_part (n : nat) (p : RawPart) : Prop :=
  (length (rp_content p) <= n)%nat /\ utf8_valid (as_bytes (rp_name p)) = true /\
  forall t, rp_type p = Some t -> utf8_valid (as_bytes t) = true.

Lemma mime_ok_text t : mime_ok t = true -> utf8_valid (as_bytes t) = true.
Proof.
  intros [H _]%andb_true_iff. apply (ascii_text (fun c => mime_char c || Ascii.eqb c "/")).
  - intros c [Hc|Hc]%orb_true_iff; [|by apply Ascii.eqb_eq in Hc as ->]. unfold mime_char in Hc.
    apply orb_true_iff in Hc as [Hc|Hc].
    + unfold byte_in in *. apply orb_true_iff in Hc as [Hc|Hc]; apply andb_true_iff in Hc as [H1 H2];
        apply N.leb_le in H1, H2; apply andb_true_iff; rewrite !N.leb_le; lia.
    + apply existsb_exists in Hc as (d & Hd & ->%Ascii.eqb_eq). cbn in Hd. naive_solver.
  - clear -H. induction t as [|c t IH]; [done|]. cbn in H |- *. apply andb_true_iff in H as [-> H]. by apply IH.
Qed.

Lemma part_of_headers_sound hs c p : part_of_headers hs c = Some p ->
  rp_content p = c /\ sound_part (length c) p.
Proof.
  unfold part_of_headers. destruct (header "content-disposition" hs) as [d|]; [|done]. cbn [mbind option_bind].
  destruct (disposition_name d) as [n|] eqn:En; [|done]. cbn [mbind option_bind].
  destruct (match header "content-type" hs with None => Some None | Some v => _ end) as [ct|] eqn:Ect; [|done].
  cbn [mbind option_bind].
  destruct (match header "content-encoding" hs with None => Some None | Some v => _ end) as [enc|]; [|done].
  cbn [mbind option_bind]. intros [= <-]. cbn. split; [done|]. split; [cbn; lia|]. split; cbn [rp_name rp_type].
  - unfold disposition_name in En. destruct (strip _ d) as [r|]; [|done]. cbn [mbind option_bind] in En.
    destruct (split_on _ r) as [[nm [|]]|]; [|done|done]. cbn [mbind option_bind] in En.
    destruct (name_ok (of_bytes nm)) eqn:Hn; [|done]. injection En as <-. by apply andb_true_iff in Hn as [_ ?].
  - intros t ->. destruct (header "content-type" hs) as [v|]; [|done].
    destruct (mime_ok (of_bytes v)) eqn:Hm; [|done]. injection Ect as <-. by apply mime_ok_text.
Qed.

Lemma parts_after_sound b fuel : forall after ps, parts_after fuel b after = Some ps ->
  Forall (sound_part (length after)) ps.
Proof.
  induction fuel as [|fuel IH]; intros after ps; cbn [parts_after]; [done|].
  destruct (strip (as_bytes "--") after); [intros [= <-]; apply Forall_nil_2|].
  destruct (strip CRLF after) as [r|] eqn:Er; [|done]. cbn [mbind option_bind]. apply strip_Some in Er.
  destruct (headers _ r) as [[hs r1]|] eqn:Eh; [|done]. cbn [mbind option_bind]. apply headers_length in Eh.
  destruct (split_on _ _) as [[x after']|] eqn:Es; [|done]. cbn [mbind option_bind].
  destruct (strip CRLF x) as [c|] eqn:Ec; [|done]. cbn [mbind option_bind].
  destruct (part_of_headers hs c) as [p|] eqn:Ep; [|done]. cbn [mbind option_bind].
  destruct (parts_after fuel b after') as [ps'|] eqn:Eps; [|done]. cbn [mbind option_bind]. intros [= <-].
  apply split_on_Some in Es. apply strip_Some in Ec. apply part_of_headers_sound in Ep as (<- & Hl & Ht).
  apply (f_equal length) in Es. rewrite !length_app in Es. subst after x. rewrite !length_app in *.
  apply Forall_cons. split; [split; [lia|done]|]. eapply Forall_impl; [by apply IH|].
  intros q (Hq & Hq'). split; [lia|done].
Qed.

Lemma rfc_parse_sound b body ps : rfc_parse b body = Some ps -> Forall (sound_part (length body)) ps.
Proof.
  unfold rfc_parse. destruct (strip _ body) as [r|] eqn:E; [|done]. cbn [mbind option_bind].
  apply strip_Some in E as ->. intros H%parts_after_sound. eapply Forall_impl; [exact H|].
  intros q (Hq & Hq'). split; [rewrite length_app; lia|done].
Qed.

Definition rfc_field (p : RawPart) : Field :=
  {| f_name := Some (rp_name p); f_content_type := rp_type p; f_content_encoding := rp_encoding p;
     f_chunks := [Ok (rp_content p)] |}.

Definition rfc_fields (body : list (Result bytes string)) (b : string) : list (Result Field string) :=
  match try_map (fun r => r) body with
  | Err e => [Err e]
  | Ok frames =>
      if (len_u64 (concat frames) <? 2 ^ 63)%Z then
        match rfc_parse b (concat frames) with
        | Some parts => (fun p => Ok (rfc_field p)) <$> parts
        | None => [Err "malformed body"]
        end
      else [Err "body too long"]
  end.

Definition RfcMulter : MulterApi := {|
  parse_boundary s :=
    match strip_prefix "multipart/form-data; boundary=" s with
    | Some b => if boundary_ok b then Ok b else Err "bad boundary"
    | None => Err "not multipart"
    end;
  multipart := rfc_fields
|}.

Lemma rfc_fields_elem body b f : Ok f ∈ rfc_fields body b ->
  exists n p, (Z.of_nat n < 2 ^ 63)%Z /\ sound_part n p /\ f = rfc_field p.
Proof.
  unfold rfc_fields. destruct (try_map _ body) as [frames|]; [|by intros ?%list_elem_of_singleton].
  destruct (Z.ltb_spec (len_u64 (concat frames)) (2 ^ 63)) as [Hl|]; [|by intros ?%list_elem_of_singleton].
  destruct (rfc_parse b (concat frames)) as [ps|] eqn:E; [|by intros ?%list_elem_of_singleton].
  intros (p & Hf & Hp)%list_elem_of_fmap. injection Hf as ->. exists (length (concat frames)), p.
  split; [exact Hl|]. split; [|done]. apply rfc_parse_sound in E. by eapply (proj1 (Forall_forall _ _) E).
Qed.

#[export] Instance RfcMulterLaws : MulterLaws RfcMulter.
Proof.
  split; cbn [multipart RfcMulter].
  - intros body b f (n & p & _ & (_ & Hn & Ht) & ->)%rfc_fields_elem. cbn. split; [by intros ? [= <-]|done].
  - intros body b f c (n & p & Hn & (Hl & _) & ->)%rfc_fields_elem. cbn [f_chunks rfc_field].
    intros [= ->]%list_elem_of_singleton. unfold len_u64. lia.
Defined.

#[export] Instance RfcMulterRfc : MulterRfc RfcMulter.
Proof.
  split; cbn [multipart parse_boundary RfcMulter].
  - intros b Hb. replace (strip_prefix _ _) with (Some b) by (symmetry; by apply strip_prefix_Some).
    by rewrite Hb.
  - intros frames b parts _ Hl Hp. exists (rfc_field <$> parts). unfold rfc_fields.
    assert (try_map (fun r : Result bytes string => r) (Ok <$> frames) = Ok frames) as ->.
    { apply try_map_Forall2. clear. induction frames; [by apply Forall2_nil|by apply Forall2_cons]. }
    rewrite (proj2 (Z.ltb_lt _ _) Hl), Hp. split; [by rewrite <- list_fmap_compose|].
    clear Hp. induction parts as [|p parts IH]; [by apply Forall2_nil|]. apply Forall2_cons. split; [|done].
    split_and!; try done. exists [rp_content p]. split; [done|]. cbn. by rewrite app_nil_r.
Defined.
