(* ===== verification/Multipart.v ===== *)
(** * detritus-protocol/src/multipart.rs: crash envelopes as multipart bodies

    The writer is generic in the [AsyncWrite] it writes to; the reader sees the
    result of [read_to_end]. *)

From Stdlib Require Import Ascii.
From S2P Require Import Prelude RustStd Fs External Instances Json Protocol Rfc7578.

Definition DEFAULT_BOUNDARY : string := "detritus-boundary-v1".

(** [const CRLF: &str], as a string. *)
Definition CRLF_str : string := of_bytes CRLF.

Definition quote : string := String (ascii_of_nat 34) "".

Record PartEncoding := { content_encoding : option string }.
Definition PartEncoding_default : PartEncoding := {| content_encoding := None |}.

Record EnvelopeEncodings := { enc_dump : PartEncoding; enc_attachments : list PartEncoding }.
Definition EnvelopeEncodings_none : EnvelopeEncodings :=
  {| enc_dump := PartEncoding_default; enc_attachments := [] |}.

(** ** Writers *)

(** What the envelope writer needs of [tokio::io::AsyncWrite]. *)
Class AsyncWrite (W : Type) := {
  aw_write_all : bytes -> ST W io_error unit;
  aw_flush : ST W io_error unit
}.

(** [Vec<u8>] never fails. *)
#[export] Instance vec_write : AsyncWrite bytes := {
  aw_write_all b := fun w => (Ok tt, w ++ b);
  aw_flush := fun w => (Ok tt, w)
}.

Section Multipart.
Context {U : UuidApi} {C : ChronoApi} {J : JsonText} {M : MulterApi}.

Definition write_part {W} `{AsyncWrite W} (boundary name content_type : string)
    (content_encoding : option string) (b : bytes) : ST W ProtocolError unit :=
  io_map_err PIo (aw_write_all (as_bytes ("--" +:+ boundary +:+ CRLF_str)));;!
  let headers := "Content-Disposition: form-data; name=" +:+ quote +:+ name +:+ quote +:+ CRLF_str
                 +:+ "Content-Type: " +:+ content_type +:+ CRLF_str in
  let headers := match content_encoding with
                 | Some encoding => headers +:+ "Content-Encoding: " +:+ encoding +:+ CRLF_str
                 | None => headers
                 end in
  let headers := headers +:+ CRLF_str in
  io_map_err PIo (aw_write_all (as_bytes headers));;!
  io_map_err PIo (aw_write_all b);;!
  io_map_err PIo (aw_write_all (as_bytes CRLF_str)).

Definition write_to_with_boundary_and_encodings {W} `{AsyncWrite W} (e : CrashEnvelope U C)
    (boundary : string) (encodings : EnvelopeEncodings) : ST W ProtocolError unit :=
  let metadata := metadata_to_vec (ce_metadata e) in
  write_part boundary "metadata" "application/json" None metadata;;!
  write_part boundary "dump" "application/octet-stream" (content_encoding (enc_dump encodings)) (ce_dump e);;!
  io_fold (fun _ '(idx, attachment) =>
    let name := "attach:" +:+ ca_key attachment in
    let encoding := enc_attachments encodings !! idx ≫= content_encoding in
    write_part boundary name (ca_content_type attachment) encoding (ca_bytes attachment))
    tt (imap pair (ce_attachments e));;!
  io_map_err PIo (aw_write_all (as_bytes ("--" +:+ boundary +:+ "--" +:+ CRLF_str)));;!
  io_map_err PIo aw_flush.

Definition write_to_with_boundary {W} `{AsyncWrite W} (e : CrashEnvelope U C) (boundary : string)
  : ST W ProtocolError unit :=
  write_to_with_boundary_and_encodings e boundary EnvelopeEncodings_none.

Definition write_to {W} `{AsyncWrite W} (e : CrashEnvelope U C) : ST W ProtocolError unit :=
  write_to_with_boundary e DEFAULT_BOUNDARY.

(** ** The reader *)

(** [field.bytes()] *)
Definition field_collect (f : Field) : Result bytes ProtocolError :=
  let? cs := try_map (map_err PMultipart) (f_chunks f) in Ok (concat cs).

(** The reader's variables: metadata, dump, attachments. *)
Definition Reading : Type := option (CrashMetadata U C) * option bytes * list CrashAttachment.

Definition read_field (acc : Reading) (next : Result Field string) : Result Reading ProtocolError :=
  let '(metadata, dump, attachments) := acc in
  let? field := map_err PMultipart next in
  let? name := ok_or (f_name field) PInvalidPartName in
  let content_type := default "application/octet-stream" (f_content_type field) in
  let? b := field_collect field in
  if String.eqb name "metadata" then
    let? m := map_err PJson (metadata_from_slice b) in Ok (Some m, dump, attachments)
  else if String.eqb name "dump" then Ok (metadata, Some b, attachments)
  else if starts_with "attach:" name then
    let? key := ok_or (strip_prefix "attach:" name) (PInvalidMultipart name) in
    Ok (metadata, dump, attachments ++ [{| ca_key := key; ca_content_type := content_type; ca_bytes := b |}])
  else Err (PInvalidMultipart name).

(** [read] is the result of [reader.read_to_end]. *)
Definition read_from_with_boundary (read : Result bytes io_error) (boundary : string)
  : Result (CrashEnvelope U C) ProtocolError :=
  let? body := map_err PIo read in
  let? (metadata, dump, attachments) := try_fold read_field (None, None, []) (multipart [Ok body] boundary) in
  let? metadata := ok_or metadata (PMissingPart "metadata") in
  if (schema_version metadata =? PROTOCOL_VERSION)%Z then
    let? dump := ok_or dump (PMissingPart "dump") in
    Ok {| ce_metadata := metadata; ce_dump := dump; ce_attachments := attachments |}
  else Err (PInvalidMultipart ("schema version " +:+ Z_to_string (schema_version metadata)
              +:+ " does not match protocol version " +:+ Z_to_string PROTOCOL_VERSION)).

Definition read_from (read : Result bytes io_error) : Result (CrashEnvelope U C) ProtocolError :=
  read_from_with_boundary read DEFAULT_BOUNDARY.

(** ** What the writer produces *)

Definition raw (name ct : string) (enc : option string) (b : bytes) : RawPart :=
  {| rp_name := name; rp_type := Some ct; rp_encoding := as_bytes <$> enc; rp_content := b |}.

Lemma wp_vec_write_all b (Q : Result unit ProtocolError -> bytes -> Prop) w :
  Q (Ok tt) (w ++ b) -> wp (io_map_err PIo (aw_write_all b)) Q w.
Proof. done. Qed.

Lemma vec_write_part boundary name ct enc b (w : bytes) :
  write_part boundary name ct enc b w = (Ok tt, w ++ part_text boundary (raw name ct enc b)).
Proof.
  unfold write_part, io_bind, io_map_err. cbn [aw_write_all vec_write].
  rewrite <- !app_assoc. do 2 f_equal. unfold part_text, dash_boundary, part_headers, raw.
  cbn [rp_type rp_encoding rp_content rp_name].
  destruct enc as [e|]; cbn [fmap option_fmap option_map list_fmap app concat]; unfold header_text; cbn [fst snd];
    unfold CRLF_str, quote; rewrite !as_bytes_app, !as_of_bytes, <- !app_assoc, ?app_nil_r; reflexivity.
Qed.

(** The parts of an envelope, in writing order. *)
Definition envelope_parts (e : CrashEnvelope U C) (encodings : EnvelopeEncodings) : list RawPart :=
  raw "metadata" "application/json" None (metadata_to_vec (ce_metadata e)) ::
  raw "dump" "application/octet-stream" (content_encoding (enc_dump encodings)) (ce_dump e) ::
  imap (fun i a => raw ("attach:" +:+ ca_key a) (ca_content_type a)
          (enc_attachments encodings !! i ≫= content_encoding) (ca_bytes a)) (ce_attachments e).

Lemma vec_write_attachments boundary (f : nat -> option string) l : forall (g : nat -> nat) (w : bytes),
  io_fold (fun _ '(idx, attachment) =>
    write_part boundary ("attach:" +:+ ca_key attachment) (ca_content_type attachment) (f idx)
      (ca_bytes attachment)) tt (imap (fun i a => (g i, a)) l) w =
  (Ok tt, w ++ concat (part_text boundary <$>
     imap (fun i a => raw ("attach:" +:+ ca_key a) (ca_content_type a) (f (g i)) (ca_bytes a)) l)).
Proof.
  induction l as [|a l IH]; intros g w; [cbn; by rewrite app_nil_r|].
  rewrite !imap_cons. cbn [io_fold fmap list_fmap concat]. unfold io_bind at 1. rewrite vec_write_part.
  rewrite app_assoc. apply (IH (g ∘ S)).
Qed.

Lemma vec_write_envelope (e : CrashEnvelope U C) boundary encodings (w : bytes) :
  write_to_with_boundary_and_encodings e boundary encodings w =
  (Ok tt, w ++ body_text boundary (envelope_parts e encodings)).
Proof.
  unfold write_to_with_boundary_and_encodings, io_bind. cbv zeta. rewrite !vec_write_part.
  rewrite (vec_write_attachments boundary
    (fun idx => enc_attachments encodings !! idx ≫= content_encoding) _ (fun i => i)).
  cbn [io_map_err aw_write_all vec_write aw_flush]. unfold io_map_err. cbn [fst snd].
  unfold body_text, envelope_parts. cbn [fmap list_fmap concat]. rewrite <- !app_assoc. do 2 f_equal.
  unfold dash_boundary, CRLF_str. rewrite !as_bytes_app, as_of_bytes, <- !app_assoc. done.
Qed.
End Multipart.

Lemma content_ok_one_line b content :
  (ascii_of_nat 10 ∉ content) -> head content <> Some "-"%char -> content_ok b content = true.
Proof.
  intros Hc Hh. unfold content_ok. destruct (split_on _ _) as [[x r]|] eqn:E; [|done]. exfalso.
  apply split_on_Some in E. rewrite <- app_assoc in E. destruct x as [|c [|d x]]; [|done|].
  - cbn in E. injection E as ->. by apply Hh.
  - cbn in E. injection E as _ _ ->. apply Hc, elem_of_app. right. right. by left.
Qed.

(** ** Reading back *)

Section RoundTrip.
Context {U : UuidApi} {UL : UuidLaws U} {C : ChronoApi} {CL : ChronoLaws C} {J : JsonText} {JL : JsonTextLaws J}
  {M : MulterApi} {MR : MulterRfc M}.

(** An envelope the format can carry under a boundary: names that need no
    escape, plain media types, contents in which no boundary line starts, and
    metadata of the current version that JSON reads back. *)
Record envelope_ok (boundary : string) (e : CrashEnvelope U C) : Prop := {
  eo_wf : metadata_wf (ce_metadata e);
  eo_value : value_ok (ser_CrashMetadata (ce_metadata e)) = true;
  eo_context : context_fits (ce_metadata e);
  eo_exact : json_exact (context (ce_metadata e)) = true;
  eo_version : schema_version (ce_metadata e) = PROTOCOL_VERSION;
  eo_dump : content_ok boundary (ce_dump e) = true;
  eo_attachments : Forall (fun a => name_ok (ca_key a) = true /\ mime_ok (ca_content_type a) = true /\
                                    content_ok boundary (ca_bytes a) = true) (ce_attachments e)
}.

Definition encoding_ok (e : PartEncoding) : Prop :=
  match content_encoding e with Some s => forallb visible (as_bytes s) = true /\ s <> "" | None => True end.

Definition encodings_ok (encs : EnvelopeEncodings) : Prop :=
  encoding_ok (enc_dump encs) /\ Forall encoding_ok (enc_attachments encs).

Lemma metadata_content_ok b (m : CrashMetadata U C) : content_ok b (metadata_to_vec m) = true.
Proof using JL.
  apply content_ok_one_line; [apply json_print_one_line|apply json_print_object_head].
Qed.

Lemma attach_name_ok key : name_ok key = true -> name_ok ("attach:" +:+ key) = true.
Proof.
  unfold name_ok. rewrite as_bytes_app, !andb_true_iff, forallb_app. intros [H1 H2].
  split; [rewrite H1; done|]. exact H2.
Qed.

Lemma encoding_visible e : encoding_ok e ->
  match as_bytes <$> content_encoding e with
  | Some v => forallb visible v && negb (bool_decide (v = [])) | None => true end = true.
Proof.
  unfold encoding_ok. destruct (content_encoding e) as [s|]; [|done]. cbn. intros [-> Hs].
  rewrite bool_decide_eq_false_2; [done|]. by destruct s.
Qed.

Lemma nth_encoding_visible encs i : Forall encoding_ok encs ->
  match as_bytes <$> (encs !! i ≫= content_encoding) with
  | Some v => forallb visible v && negb (bool_decide (v = [])) | None => true end = true.
Proof.
  intros He. destruct (encs !! i) as [e|] eqn:Ei; [|done]. cbn [mbind option_bind].
  apply encoding_visible. by eapply Forall_lookup_1.
Qed.

Lemma envelope_parts_ok b e encs :
  envelope_ok b e -> encodings_ok encs -> Forall (fun p => raw_part_ok b p = true) (envelope_parts e encs).
Proof using JL.
  intros He [Hd Ha]. unfold envelope_parts, raw_part_ok.
  apply Forall_cons; split; [cbn [rp_name rp_type rp_encoding rp_content raw]; by rewrite metadata_content_ok|].
  apply Forall_cons; split.
  { cbn [rp_name rp_type rp_encoding rp_content raw]. rewrite (eo_dump _ _ He). by apply encoding_visible in Hd. }
  apply Forall_lookup_2. intros i p Hi. rewrite list_lookup_imap in Hi.
  destruct (ce_attachments e !! i) as [a|] eqn:Ea; [|done]. cbn [fmap option_fmap option_map] in Hi.
  apply (inj Some) in Hi. rewrite <- Hi.
  destruct (Forall_lookup_1 _ _ _ _ (eo_attachments _ _ He) Ea) as (Hk & Hm & Hc).
  cbn [rp_name rp_type rp_encoding rp_content raw]. rewrite attach_name_ok, Hc, Hm by done.
  cbn [andb]. by apply nth_encoding_visible.
Qed.

(** What multer makes of a written envelope. *)
Lemma envelope_fields b e encs (frames : list bytes) :
  boundary_ok b = true -> envelope_ok b e -> encodings_ok encs ->
  concat frames = body_text b (envelope_parts e encs) -> (len_u64 (concat frames) < 2 ^ 63)%Z ->
  exists fields, multipart (Ok <$> frames) b = Ok <$> fields /\
    Forall2 field_matches fields (envelope_parts e encs).
Proof using JL MR.
  intros Hb He Hencs Hf Hl. apply multipart_rfc; [done|done|]. rewrite Hf.
  by apply rfc_parse_body, envelope_parts_ok.
Qed.

Lemma field_collect_matches f p : field_matches f p -> field_collect f = Ok (rp_content p).
Proof.
  intros (_ & _ & _ & cs & Hcs & <-). unfold field_collect. rewrite Hcs.
  assert (try_map (map_err PMultipart) (Ok <$> cs) = Ok cs) as ->; [|done].
  apply try_map_Forall2. clear. induction cs; [by apply Forall2_nil|by apply Forall2_cons].
Qed.

Lemma read_attachments (l : list CrashAttachment) (f : nat -> option string) : forall fields m d acc,
  Forall2 field_matches fields
    (imap (fun i a => raw ("attach:" +:+ ca_key a) (ca_content_type a) (f i) (ca_bytes a)) l) ->
  try_fold read_field (m, d, acc) (Ok <$> fields) = Ok (m, d, acc ++ l).
Proof.
  revert f. induction l as [|a l IH]; intros f fields m d acc H.
  { apply Forall2_nil_inv_r in H as ->. by rewrite app_nil_r. }
  rewrite imap_cons in H. apply Forall2_cons_inv_r in H as (fd & fields' & Hfd & H & ->).
  cbn [fmap list_fmap try_fold]. unfold read_field at 1. cbn [map_err].
  rewrite (field_collect_matches _ _ Hfd). destruct Hfd as (Hn & Ht & _). rewrite Hn, Ht.
  cbn [ok_or raw rp_name rp_type rp_content default].
  change (String.eqb ("attach:" +:+ ca_key a) "metadata") with false.
  change (String.eqb ("attach:" +:+ ca_key a) "dump") with false. cbn iota.
  assert (strip_prefix "attach:" ("attach:" +:+ ca_key a) = Some (ca_key a)) as Hs by (by apply strip_prefix_Some).
  unfold starts_with. rewrite Hs. cbn [ok_or].
  rewrite (IH (f ∘ S)) by done. rewrite <- app_assoc. by destruct a.
Qed.

(** C20. A crash envelope survives the multipart wire format: writing it to a buffer
    succeeds, and reading the written bytes back gives the same envelope: metadata,
    dump, and the attachments with their keys, media types and bytes in order.
    For every boundary of RFC 7578 and every choice of content encodings of
    visible characters, and for every envelope whose attachment keys have no
    quote, backslash, percent sign or control character, whose media types are
    [type/subtype] in lower case without parameters, in whose dump and attachments
    no line starts with the boundary, whose metadata is of the current version and
    representable in JSON, its context without floating-point numbers and within
    the recursion limit, and whose body is shorter than 2^63 bytes. *)
Theorem envelope_round_trip (e : CrashEnvelope U C) b encs :
  boundary_ok b = true -> envelope_ok b e -> encodings_ok encs ->
  exists body, write_to_with_boundary_and_encodings e b encs [] = (Ok tt, body) /\
    ((len_u64 body < 2 ^ 63)%Z -> read_from_with_boundary (Ok body) b = Ok e).
Proof using UL CL JL MR.
  intros Hb He Hencs. exists (body_text b (envelope_parts e encs)). rewrite vec_write_envelope.
  split; [done|]. intros Hl. unfold read_from_with_boundary. cbn [map_err].
  destruct (envelope_fields b e encs [body_text b (envelope_parts e encs)]) as (fields & Hm & Hfs);
    [done|done|done|cbn; by rewrite app_nil_r|cbn; by rewrite app_nil_r|].
  cbn [fmap list_fmap] in Hm. rewrite Hm. unfold envelope_parts in Hfs.
  apply Forall2_cons_inv_r in Hfs as (fm & fields1 & Hfm & Hfs & ->).
  apply Forall2_cons_inv_r in Hfs as (fd & fields2 & Hfd & Hfs & ->).
  cbn [fmap list_fmap try_fold]. unfold read_field at 1. cbn [map_err].
  rewrite (field_collect_matches _ _ Hfm). destruct Hfm as (Hn & _). rewrite Hn. cbn [ok_or raw rp_name rp_content].
  change (String.eqb "metadata" "metadata") with true. cbn iota.
  rewrite metadata_from_to_vec by apply He. cbn [map_err]. unfold read_field at 1. cbn [map_err].
  rewrite (field_collect_matches _ _ Hfd). destruct Hfd as (Hnd & _). rewrite Hnd. cbn [ok_or raw rp_name rp_content].
  change (String.eqb "dump" "metadata") with false. change (String.eqb "dump" "dump") with true. cbn iota.
  pose proof (read_attachments (ce_attachments e)
    (fun i => enc_attachments encs !! i ≫= content_encoding) fields2 (Some (ce_metadata e)) (Some (ce_dump e)) [] Hfs) as Hr.
  cbn [app] in Hr. rewrite Hr. cbn [ok_or].
  rewrite (eo_version _ _ He), Z.eqb_refl. by destruct e.
Qed.
End RoundTrip.

(** ** A concrete envelope *)

Definition sample_envelope : CrashEnvelope ToyUuid ToyChrono := {|
  ce_metadata := sample_metadata; ce_dump := as_bytes "core";
  ce_attachments := [{| ca_key := "log"; ca_content_type := "text/plain"; ca_bytes := as_bytes "line" |}] |}.

Lemma sample_metadata_wf : metadata_wf sample_metadata.
Proof.
  split; [unfold U32_MAX; simpl; lia|]. split; [reflexivity|].
  repeat constructor; unfold U64_MAX; simpl; lia.
Qed.

Lemma sample_envelope_ok : envelope_ok DEFAULT_BOUNDARY sample_envelope.
Proof.
  split; [exact sample_metadata_wf|reflexivity|unfold context_fits, RECURSION_LIMIT; simpl; lia|reflexivity
         |reflexivity|vm_compute; reflexivity|].
  apply Forall_cons. split; [split_and!; vm_compute; reflexivity|apply Forall_nil_2].
Qed.

Lemma envelope_round_trip_witness :
  exists body, write_to_with_boundary_and_encodings sample_envelope DEFAULT_BOUNDARY EnvelopeEncodings_none []
      = (Ok tt, body) /\
    ((len_u64 body < 2 ^ 63)%Z ->
     read_from_with_boundary (M := RfcMulter) (Ok body) DEFAULT_BOUNDARY = Ok sample_envelope).
Proof.
  apply (envelope_round_trip (M := RfcMulter) sample_envelope DEFAULT_BOUNDARY EnvelopeEncodings_none).
  - vm_compute. reflexivity.
  - exact sample_envelope_ok.
  - split; [exact I|apply Forall_nil_2].
Defined.
