(* ===== verification/Metrics.v ===== *)
(** * detritus-server/src/metrics.rs: the Prometheus collectors

    A labelled counter or gauge is a map from its label values; a histogram is
    the list of observations per label.  Counters are [u64] and wrap, gauges are
    [i64]. *)

From S2P Require Import Prelude RustStd.
Open Scope Z_scope.

Record JanitorMetricStats := {
  jm_logs_deleted : Z;
  jm_indexes_deleted : Z;
  jm_blobs_deleted : Z;
  jm_bytes_freed : Z
}.

Definition JanitorMetricStats_default : JanitorMetricStats :=
  {| jm_logs_deleted := 0; jm_indexes_deleted := 0; jm_blobs_deleted := 0; jm_bytes_freed := 0 |}.

Record Metrics := {
  requests_total : gmap (string * string) Z;
  request_duration_seconds : gmap string (list Z);
  bytes_ingested_total : gmap string Z;
  dedup_hits_total : Z;
  validation_failures_total : gmap string Z;
  writer_queue_depth : gmap string Z;
  janitor_cycles_total : Z;
  janitor_blobs_freed_total : Z;
  janitor_bytes_freed_total : Z;
  janitor_cycle_duration_seconds : gmap string (list Z);
  janitor_last_logs_deleted : Z;
  janitor_last_indexes_deleted : Z;
  janitor_last_blobs_deleted : Z
}.

(** [Metrics::new], after the collectors are registered. *)
Definition Metrics_new : Metrics := {|
  requests_total := ∅; request_duration_seconds := ∅; bytes_ingested_total := ∅;
  dedup_hits_total := 0; validation_failures_total := ∅;
  writer_queue_depth := {[ "none" := 0 ]};
  janitor_cycles_total := 0; janitor_blobs_freed_total := 0; janitor_bytes_freed_total := 0;
  janitor_cycle_duration_seconds := ∅; janitor_last_logs_deleted := 0;
  janitor_last_indexes_deleted := 0; janitor_last_blobs_deleted := 0
|}.

(** [counter.with_label_values(l).inc_by(n)] *)
Definition inc_label `{Countable K} (m : gmap K Z) (l : K) (n : Z) : gmap K Z :=
  <[l := wrap_u64 (default 0 (m !! l) + n)]> m.

(** [histogram.with_label_values(l).observe(d)] *)
Definition observe_label (m : gmap string (list Z)) (l : string) (d : Z) : gmap string (list Z) :=
  <[l := default [] (m !! l) ++ [d]]> m.

(** [x as i64] *)
Definition as_i64 (n : Z) : Z := (n + 2 ^ 63) mod 2 ^ 64 - 2 ^ 63.

(** Durations are in nanoseconds. *)
Definition observe_request (m : Metrics) (endpoint status : string) (duration : Z) : Metrics := {|
  requests_total := inc_label (requests_total m) (endpoint, status) 1;
  request_duration_seconds := observe_label (request_duration_seconds m) endpoint duration;
  bytes_ingested_total := bytes_ingested_total m; dedup_hits_total := dedup_hits_total m;
  validation_failures_total := validation_failures_total m;
  writer_queue_depth := writer_queue_depth m; janitor_cycles_total := janitor_cycles_total m;
  janitor_blobs_freed_total := janitor_blobs_freed_total m;
  janitor_bytes_freed_total := janitor_bytes_freed_total m;
  janitor_cycle_duration_seconds := janitor_cycle_duration_seconds m;
  janitor_last_logs_deleted := janitor_last_logs_deleted m;
  janitor_last_indexes_deleted := janitor_last_indexes_deleted m;
  janitor_last_blobs_deleted := janitor_last_blobs_deleted m
|}.

Definition observe_bytes (m : Metrics) (endpoint : string) (n : Z) : Metrics := {|
  requests_total := requests_total m; request_duration_seconds := request_duration_seconds m;
  bytes_ingested_total := inc_label (bytes_ingested_total m) endpoint n;
  dedup_hits_total := dedup_hits_total m;
  validation_failures_total := validation_failures_total m;
  writer_queue_depth := writer_queue_depth m; janitor_cycles_total := janitor_cycles_total m;
  janitor_blobs_freed_total := janitor_blobs_freed_total m;
  janitor_bytes_freed_total := janitor_bytes_freed_total m;
  janitor_cycle_duration_seconds := janitor_cycle_duration_seconds m;
  janitor_last_logs_deleted := janitor_last_logs_deleted m;
  janitor_last_indexes_deleted := janitor_last_indexes_deleted m;
  janitor_last_blobs_deleted := janitor_last_blobs_deleted m
|}.

Definition observe_dedup_hit (m : Metrics) : Metrics := {|
  requests_total := requests_total m; request_duration_seconds := request_duration_seconds m;
  bytes_ingested_total := bytes_ingested_total m;
  dedup_hits_total := wrap_u64 (dedup_hits_total m + 1);
  validation_failures_total := validation_failures_total m;
  writer_queue_depth := writer_queue_depth m; janitor_cycles_total := janitor_cycles_total m;
  janitor_blobs_freed_total := janitor_blobs_freed_total m;
  janitor_bytes_freed_total := janitor_bytes_freed_total m;
  janitor_cycle_duration_seconds := janitor_cycle_duration_seconds m;
  janitor_last_logs_deleted := janitor_last_logs_deleted m;
  janitor_last_indexes_deleted := janitor_last_indexes_deleted m;
  janitor_last_blobs_deleted := janitor_last_blobs_deleted m
|}.

Definition observe_validation_failure (m : Metrics) (endpoint : string) : Metrics := {|
  requests_total := requests_total m; request_duration_seconds := request_duration_seconds m;
  bytes_ingested_total := bytes_ingested_total m; dedup_hits_total := dedup_hits_total m;
  validation_failures_total := inc_label (validation_failures_total m) endpoint 1;
  writer_queue_depth := writer_queue_depth m; janitor_cycles_total := janitor_cycles_total m;
  janitor_blobs_freed_total := janitor_blobs_freed_total m;
  janitor_bytes_freed_total := janitor_bytes_freed_total m;
  janitor_cycle_duration_seconds := janitor_cycle_duration_seconds m;
  janitor_last_logs_deleted := janitor_last_logs_deleted m;
  janitor_last_indexes_deleted := janitor_last_indexes_deleted m;
  janitor_last_blobs_deleted := janitor_last_blobs_deleted m
|}.

Definition set_writer_queue_depth (m : Metrics) (source_id : string) (depth : Z) : Metrics := {|
  requests_total := requests_total m; request_duration_seconds := request_duration_seconds m;
  bytes_ingested_total := bytes_ingested_total m; dedup_hits_total := dedup_hits_total m;
  validation_failures_total := validation_failures_total m;
  writer_queue_depth := <[source_id := depth]> (writer_queue_depth m);
  janitor_cycles_total := janitor_cycles_total m;
  janitor_blobs_freed_total := janitor_blobs_freed_total m;
  janitor_bytes_freed_total := janitor_bytes_freed_total m;
  janitor_cycle_duration_seconds := janitor_cycle_duration_seconds m;
  janitor_last_logs_deleted := janitor_last_logs_deleted m;
  janitor_last_indexes_deleted := janitor_last_indexes_deleted m;
  janitor_last_blobs_deleted := janitor_last_blobs_deleted m
|}.

Definition observe_janitor (m : Metrics) (result : string) (duration : Z)
    (stats : JanitorMetricStats) : Metrics := {|
  requests_total := requests_total m; request_duration_seconds := request_duration_seconds m;
  bytes_ingested_total := bytes_ingested_total m; dedup_hits_total := dedup_hits_total m;
  validation_failures_total := validation_failures_total m;
  writer_queue_depth := writer_queue_depth m;
  janitor_cycles_total := wrap_u64 (janitor_cycles_total m + 1);
  janitor_blobs_freed_total := wrap_u64 (janitor_blobs_freed_total m + jm_blobs_deleted stats);
  janitor_bytes_freed_total := wrap_u64 (janitor_bytes_freed_total m + jm_bytes_freed stats);
  janitor_cycle_duration_seconds :=
    observe_label (janitor_cycle_duration_seconds m) result duration;
  janitor_last_logs_deleted := as_i64 (jm_logs_deleted stats);
  janitor_last_indexes_deleted := as_i64 (jm_indexes_deleted stats);
  janitor_last_blobs_deleted := as_i64 (jm_blobs_deleted stats)
|}.

Lemma inc_label_same `{Countable K} (m : gmap K Z) l n :
  inc_label m l n !! l = Some (wrap_u64 (default 0 (m !! l) + n)).
Proof. apply lookup_insert_eq. Qed.

Lemma inc_label_other `{Countable K} (m : gmap K Z) l l' n :
  l <> l' -> inc_label m l n !! l' = m !! l'.
Proof. apply lookup_insert_ne. Qed.
