(* ===== verification/Schemas.v ===== *)
(** * detritus-server/src/schemas.rs: the per-tenant schema registry *)

From Stdlib Require Import Ascii.
From S2P Require Import Prelude RustStd Fs External Json Protocol.

(** The jsonschema crate: a registry of [$ref] documents, compiled validators,
    and the errors of a payload with their instance path, masked text and
    schema path. *)
Class JsonSchemaApi := {
  Validator : Type;
  Registry : Type;
  PreparedRegistry : Type;
  registry_new : Registry;
  registry_add : Registry -> string -> Value -> Result Registry string;
  registry_prepare : Registry -> Result PreparedRegistry string;
  validator_build : PreparedRegistry -> option bool -> option bool -> Value -> Result Validator string;
  iter_errors : Validator -> Value -> list (string * string * string)
}.

Record ProjectSchemaEntry := { pse_project : string; pse_kind : SchemaKind; pse_path : Path }.

Record SchemaResourceEntry := { sre_uri : string; sre_path : Path }.

Record SchemaOptions := {
  validate_formats : option bool;
  ignore_unknown_formats : option bool;
  resources : list SchemaResourceEntry
}.

Definition SchemaOptions_default : SchemaOptions :=
  {| validate_formats := None; ignore_unknown_formats := None; resources := [] |}.

(** [fs::read_to_string] *)
Definition fs_read_to_string (p : Path) : IO io_error string :=
  let! b := fs_read p in
  if utf8_valid b then io_ret (of_bytes b)
  else io_err (IoError InvalidData "stream did not contain valid UTF-8").

Definition schema_parse_error (path : Path) (error : string) : SchemaError :=
  SchemaParse path error.

Section Registry.
Context `{J : JsonText} `{V : JsonSchemaApi}.

Record SchemaRegistry := { schemas : gmap (string * SchemaKind) Validator }.

Definition SchemaRegistry_empty : SchemaRegistry := {| schemas := ∅ |}.

Definition read_schema (path : Path) : IO SchemaError Value :=
  let! raw := io_map_err (SchemaIo path) (fs_read_to_string path) in
  io_lift (map_err (SchemaParse path)
             (let? v := json_parse (as_bytes raw) in de_value RECURSION_LIMIT v)).

(** One iteration of the resource loop, on the URIs seen and the registry. *)
Definition add_resource (acc : gset string * Registry) (r : SchemaResourceEntry)
  : IO SchemaError (gset string * Registry) :=
  let (uris, reg) := acc in
  if decide (sre_uri r ∈ uris)
  then io_err (schema_parse_error (sre_path r) "duplicate schema resource URI")
  else
    let! value := read_schema (sre_path r) in
    let! reg' := io_lift (map_err (schema_parse_error (sre_path r))
                            (registry_add reg (sre_uri r) value)) in
    io_ret ({[sre_uri r]} ∪ uris, reg').

Definition add_entry (prepared : PreparedRegistry) (options : SchemaOptions)
    (m : gmap (string * SchemaKind) Validator) (e : ProjectSchemaEntry)
  : IO SchemaError (gmap (string * SchemaKind) Validator) :=
  let! value := read_schema (pse_path e) in
  let! validator := io_lift (map_err (schema_parse_error (pse_path e))
      (validator_build prepared (validate_formats options) (ignore_unknown_formats options) value)) in
  io_ret (<[(pse_project e, pse_kind e) := validator]> m).

Definition load_with_options (entries : list ProjectSchemaEntry) (options : SchemaOptions)
  : IO SchemaError SchemaRegistry :=
  let! acc := io_fold add_resource (∅, registry_new) (resources options) in
  let resource_path := match resources options with
                       | [] => path_of_string "<schema resources>"
                       | r :: _ => sre_path r
                       end in
  let! prepared := io_lift (map_err (schema_parse_error resource_path)
                              (registry_prepare acc.2)) in
  let! m := io_fold (add_entry prepared options) ∅ entries in
  io_ret {| schemas := m |}.

Definition load (entries : list ProjectSchemaEntry) : IO SchemaError SchemaRegistry :=
  load_with_options entries SchemaOptions_default.

Definition format_error (e : string * string * string) : string :=
  e.1.1 +:+ ": " +:+ e.1.2 +:+ " [schema " +:+ e.2 +:+ "]".

Definition validate (r : SchemaRegistry) (project : string) (kind : SchemaKind) (payload : Value)
  : Result unit SchemaError :=
  match schemas r !! (project, kind) with
  | None => Ok tt
  | Some compiled =>
      let errors := format_error <$> iter_errors compiled payload in
      match errors with
      | [] => Ok tt
      | _ => Err (SchemaValidation kind errors)
      end
  end.

(** ** Lemmas *)

Lemma validate_Err r project kind payload e :
  validate r project kind payload = Err e ->
  exists v, schemas r !! (project, kind) = Some v /\
    e = SchemaValidation kind (format_error <$> iter_errors v payload) /\
    iter_errors v payload <> [].
Proof.
  unfold validate. destruct (schemas r !! (project, kind)) as [v|]; [|done].
  destruct (iter_errors v payload) as [|x l] eqn:E; [done|].
  intros [= <-]. exists v. rewrite E. done.
Qed.

Lemma read_schema_fs path Q w :
  (forall r w', same_env w w' -> w_fs w' = w_fs w -> Q r w') -> wp (read_schema path) Q w.
Proof.
  intros HQ. unfold read_schema. apply wp_bind, wp_map_err. unfold fs_read_to_string.
  apply wp_bind, wp_fs_read; [|intros; by apply HQ].
  intros c t w' _ Henv Hfs. destruct (utf8_valid c); [|by apply wp_err, HQ].
  apply wp_ret. simpl. apply wp_lift. by apply HQ.
Qed.

(** The entries' keys are exactly the keys of the loaded map. *)
Lemma add_entries_dom prepared options entries m Q w :
  (forall r w', w_fs w' = w_fs w ->
     (forall m', r = Ok m' ->
        dom m' = dom m ∪ list_to_set ((fun e => (pse_project e, pse_kind e)) <$> entries)) ->
     Q r w') ->
  wp (io_fold (add_entry prepared options) m entries) Q w.
Proof.
  revert m Q w. induction entries as [|e es IH]; intros m Q w HQ; simpl.
  - apply wp_ret, HQ; [done|]. intros m' [= <-]. set_solver.
  - apply wp_bind. unfold add_entry at 1. apply wp_bind, read_schema_fs.
    intros [v|er] w1 _ Hfs1; [|apply HQ; done].
    apply wp_bind, wp_lift. destruct (map_err _ _) as [vd|er]; [|by apply HQ].
    apply wp_ret. simpl. apply IH. intros r w' Hfs Hr. apply HQ; [congruence|].
    intros m' ->. rewrite (Hr m' eq_refl), dom_insert_L. set_solver.
Qed.
Lemma add_resources_fs acc rs Q w :
  (forall r w', w_fs w' = w_fs w -> Q r w') -> wp (io_fold add_resource acc rs) Q w.
Proof.
  revert acc Q w. induction rs as [|x rs IH]; intros acc Q w HQ; simpl; [by apply wp_ret, HQ|].
  apply wp_bind. unfold add_resource at 1. destruct acc as [uris reg].
  destruct (decide _); [by apply wp_err, HQ|].
  apply wp_bind, read_schema_fs. intros [v|er] w1 _ Hfs1; [|by apply HQ].
  apply wp_bind, wp_lift. destruct (map_err _ _) as [reg'|er]; [|by apply HQ].
  apply wp_ret, IH. intros r w' Hfs. apply HQ. congruence.
Qed.

Lemma load_with_options_spec entries options Q w :
  (forall r w', w_fs w' = w_fs w ->
     (forall reg, r = Ok reg ->
        dom (schemas reg) = list_to_set ((fun e => (pse_project e, pse_kind e)) <$> entries)) ->
     Q r w') ->
  wp (load_with_options entries options) Q w.
Proof.
  intros HQ. unfold load_with_options. apply wp_bind, add_resources_fs.
  intros [acc|er] w1 Hfs1; [|by apply HQ]. apply wp_bind, wp_lift.
  destruct (map_err _ _) as [prep|er]; [|by apply HQ]. apply wp_bind, add_entries_dom.
  intros [m|er] w2 Hfs2 Hm; [|apply HQ; [congruence|done]]. apply wp_ret, HQ; [congruence|].
  intros reg0 [= <-]. simpl. rewrite (Hm m eq_refl). set_solver.
Qed.

(** C33. Schema validation gates exactly the configured tenants: after a
    successful load every declared (project, kind) has a compiled schema, a
    payload of any pair that was not declared is accepted, and a payload of a
    declared pair is rejected exactly when its validator reports errors, with
    one formatted message per error.  Loading only reads files. *)
Theorem schema_registry_gates_declared entries options w reg w' :
  load_with_options entries options w = (Ok reg, w') ->
  w_fs w' = w_fs w /\
  (forall e, e ∈ entries -> is_Some (schemas reg !! (pse_project e, pse_kind e))) /\
  (forall project kind payload,
     (forall e, e ∈ entries -> (pse_project e, pse_kind e) <> (project, kind)) ->
     validate reg project kind payload = Ok tt) /\
  (forall project kind v payload,
     schemas reg !! (project, kind) = Some v ->
     validate reg project kind payload =
       match iter_errors v payload with
       | [] => Ok tt
       | errs => Err (SchemaValidation kind (format_error <$> errs))
       end).
Proof.
  intros Hrun.
  assert (wp (load_with_options entries options) (fun r w' => forall reg, r = Ok reg ->
    w_fs w' = w_fs w /\
    dom (schemas reg) = list_to_set ((fun e => (pse_project e, pse_kind e)) <$> entries)) w) as Hwp.
  { apply load_with_options_spec. auto. }
  destruct (wp_run _ _ _ _ _ Hwp Hrun reg eq_refl) as [Hfs Hdom].
  split; [done|]. split; [|split].
  - intros e He. apply elem_of_dom. rewrite Hdom. set_solver.
  - intros project kind payload Hno. unfold validate.
    destruct (schemas reg !! (project, kind)) eqn:E; [|done]. exfalso.
    assert ((project, kind) ∈ dom (schemas reg)) as Hd by (apply elem_of_dom; eauto).
    rewrite Hdom, elem_of_list_to_set, list_elem_of_fmap in Hd.
    destruct Hd as (e & He & Hin). by apply (Hno e Hin).
  - intros project kind v payload Hv. unfold validate. rewrite Hv.
    by destruct (iter_errors v payload).
Qed.
End Registry.

Arguments SchemaRegistry {V}.

(** ** An instance: a validator that reports a fixed list of errors *)

#[export] Instance ToySchema : JsonSchemaApi := {
  Validator := list (string * string * string);
  Registry := list string;
  PreparedRegistry := list string;
  registry_new := [];
  registry_add r uri _ := Ok (uri :: r);
  registry_prepare r := Ok r;
  validator_build _ _ _ v := match v with
                             | Bool false => Ok [("/", "denied", "/false")]
                             | _ => Ok []
                             end;
  iter_errors v _ := v
}.

Definition schema_world : World := {|
  w_fs := {[ ["/"; "s.json"] := File (json_print (Bool false)) 0 ]};
  w_now := 0; w_clock := []; w_faults := []; w_uuids := 0; w_dir_mtime := fun _ => 0%Z |}.

Lemma schema_registry_gates_declared_witness :
  let e := {| pse_project := "p"; pse_kind := LogAttributes; pse_path := ["/"; "s.json"] |} in
  match load_with_options [e] SchemaOptions_default schema_world with
  | (Ok reg, _) => validate reg "q" LogAttributes Null = Ok tt
  | (Err _, _) => False
  end.
Proof.
  intros e. destruct (load_with_options [e] SchemaOptions_default schema_world) as [[reg|er] w'] eqn:E.
  - destruct (schema_registry_gates_declared [e] SchemaOptions_default schema_world reg w' E)
      as (_ & _ & Hother & _).
    apply Hother. intros e' ->%list_elem_of_singleton. discriminate.
  - vm_compute in E. discriminate E.
Defined.
