(* ===== verification/Storage.v ===== *)
(** * detritus-server/src/storage.rs: source keys and the storage layout *)

From Stdlib Require Import Ascii.
From S2P Require Import Prelude RustStd Fs External Instances.

Inductive StorageError :=
| InvalidComponent (name value : string)
| StorageIo (e : io_error).

Definition StorageError_display (e : StorageError) : string :=
  match e with
  | InvalidComponent name value => "invalid storage path component `" +:+ name +:+ "`: `" +:+ value +:+ "`"
  | StorageIo e => "storage I/O error: " +:+ message e
  end.

Definition validate_component (name value : string) : Result unit StorageError :=
  let invalid := String.eqb value ""
    || String.eqb value "."
    || String.eqb value ".."
    || contains_char "/" value
    || contains_char "\" value in
  if invalid then Err (InvalidComponent name value) else Ok tt.

Record SourceKey := { sk_project : string; sk_source_id : string }.

#[export] Instance SourceKey_eq_dec : EqDecision SourceKey.
Proof. solve_decision. Defined.

#[export] Instance SourceKey_countable : Countable SourceKey.
Proof.
  apply (inj_countable' (fun k => (sk_project k, sk_source_id k))
           (fun '(p, s) => {| sk_project := p; sk_source_id := s |})).
  by intros [].
Defined.

Definition SourceKey_new (project source_id : string) : Result SourceKey StorageError :=
  let? _ := validate_component "project" project in
  let? _ := validate_component "source_id" source_id in
  Ok {| sk_project := project; sk_source_id := source_id |}.

Definition SourceKey_canonical (k : SourceKey) : string :=
  sk_project k +:+ "/" +:+ sk_source_id k.

(** ** Paths; [StoragePaths] is its [data_dir]. *)

Record StoragePaths := { data_dir : Path }.

Definition StoragePaths_new (d : Path) : StoragePaths := {| data_dir := d |}.

Definition tmp_dir (s : StoragePaths) : Path := join (data_dir s) "tmp".

Definition log_file `{ChronoApi} (s : StoragePaths) (source : SourceKey) (date : NaiveDate) : Path :=
  join (join (join (join (data_dir s) "logs") (sk_project source)) (sk_source_id source))
       (naive_date_display date +:+ ".ndjson").

(** [&sha256[..2]]; [None] is the panic of a slice out of range. *)
Definition hash_prefix (sha256 : string) : option string :=
  match sha256 with
  | String a (String b r) =>
      if is_char_boundary (as_bytes sha256) 2 then Some (String a (String b "")) else None
  | _ => None
  end.

Definition blob_path (s : StoragePaths) (sha256 : string) : option Path :=
  prefix ← hash_prefix sha256;
  Some (join (join (join (join (data_dir s) "crashes") "by-hash") prefix) (sha256 +:+ ".bin")).

Definition index_path (s : StoragePaths) (source : SourceKey) (timestamp sha256 : string) : Path :=
  join (join (join (join (join (data_dir s) "crashes") "by-source")
       (sk_project source)) (sk_source_id source))
       (timestamp +:+ "-" +:+ sha256 +:+ ".json").

Definition relative_to_data_dir (s : StoragePaths) (p : Path) : Path :=
  default p (path_strip_prefix (data_dir s) p).

(** [StoragePaths::prepare] *)
Definition prepare (s : StoragePaths) : IO StorageError unit :=
  io_map_err StorageIo (create_dir_all (join (data_dir s) "logs"));;!
  io_map_err StorageIo (create_dir_all (join (join (data_dir s) "crashes") "by-hash"));;!
  io_map_err StorageIo (create_dir_all (join (join (data_dir s) "crashes") "by-source"));;!
  io_map_err StorageIo (create_dir_all (tmp_dir s));;!
  io_ret tt.

(** ** Lemmas *)

(** What an accepted component is: one ordinary path component. *)
Lemma validate_component_Ok name value :
  validate_component name value = Ok tt ->
  normal_component value = true /\ value <> ".." /\ contains_char "\" value = false.
Proof.
  unfold validate_component, normal_component. intros H.
  destruct (String.eqb_spec value ""); [done|].
  destruct (String.eqb_spec value "."); [done|].
  destruct (String.eqb_spec value ".."); [done|]. simpl in H.
  by destruct (contains_char "/" value), (contains_char "\" value).
Qed.

(** Both components of a key are ordinary: the invariant of [SourceKey]. *)
Definition SourceKey_valid (k : SourceKey) : Prop :=
  normal_component (sk_project k) = true /\ sk_project k <> ".." /\
  normal_component (sk_source_id k) = true /\ sk_source_id k <> "..".

Lemma SourceKey_new_Ok p i k :
  SourceKey_new p i = Ok k ->
  k = {| sk_project := p; sk_source_id := i |} /\ SourceKey_valid k.
Proof.
  unfold SourceKey_new. intros H.
  destruct (validate_component "project" p) as [[]|] eqn:E1; [|done].
  destruct (validate_component "source_id" i) as [[]|] eqn:E2; [|done].
  injection H as <-.
  apply validate_component_Ok in E1 as (?&?&?), E2 as (?&?&?).
  by repeat split.
Qed.

(** A file name [<stem>.<ext>] without separators is an ordinary component. *)
Lemma normal_component_ext stem ext :
  contains_char "/" stem = false -> contains_char "/" ext = false -> ext <> "" ->
  normal_component (stem +:+ "." +:+ ext) = true /\
  special_component (stem +:+ "." +:+ ext) = (String.eqb (stem +:+ "." +:+ ext) "..").
Proof.
  intros Hs He Hne.
  assert (contains_char "/" (stem +:+ "." +:+ ext) = false) as Hf.
  { rewrite contains_char_app, Hs. simpl. done. }
  assert (stem +:+ "." +:+ ext <> "") as H1 by (by destruct stem).
  assert (stem +:+ "." +:+ ext <> ".") as H2.
  { destruct stem as [|c [|? ?]]; simpl; [|done|done]. by destruct ext. }
  unfold normal_component, special_component.
  generalize dependent (stem +:+ "." +:+ ext). intros f Hf H1 H2.
  apply String.eqb_neq in H1 as ->, H2 as ->. rewrite Hf.
  destruct (String.eqb_spec f "/") as [->|_]; [done|]. done.
Qed.

Section Layout.
Context `{ChronoLaws} `{Sha256Laws}.
Implicit Types (s : StoragePaths) (k : SourceKey).

(** Each path is the data directory followed by exactly the
    documented components. *)
Lemma log_file_components s k d :
  SourceKey_valid k ->
  log_file s k d = data_dir s ++
    ["logs"; sk_project k; sk_source_id k; naive_date_display d +:+ ".ndjson"].
Proof.
  intros (Hp & _ & Hi & _). unfold log_file.
  destruct (normal_component_ext (naive_date_display d) "ndjson") as [Hn _];
    [apply naive_date_no_slash|done|done|].
  simpl in Hn. rewrite !join_normal by done. by rewrite <- !app_assoc.
Qed.

Lemma index_path_components s k t b :
  SourceKey_valid k ->
  index_path s k (stamp t) (sha256_hex b) = data_dir s ++
    ["crashes"; "by-source"; sk_project k; sk_source_id k;
     stamp t +:+ "-" +:+ sha256_hex b +:+ ".json"].
Proof.
  intros (Hp & _ & Hi & _). unfold index_path.
  destruct (normal_component_ext (stamp t +:+ "-" +:+ sha256_hex b) "json") as [Hn _].
  { rewrite !contains_char_app, stamp_no_slash. by rewrite sha256_hex_no_char. }
  { done. } { done. }
  rewrite !append_assoc in Hn. simpl in Hn.
  rewrite !join_normal by done. by rewrite <- !app_assoc.
Qed.

Lemma hash_prefix_sha256 b :
  exists x y r, sha256_hex b = String x (String y r) /\
    hash_prefix (sha256_hex b) = Some (String x (String y "")) /\
    contains_char "/" (String x (String y "")) = false /\
    String x (String y "") <> "..".
Proof.
  pose proof (sha256_hex_length b) as Hl. pose proof (sha256_hex_chars b) as Hc.
  destruct (sha256_hex b) as [|x [|y [|z r]]]; try done.
  exists x, y, (String z r). split; [done|]. simpl in Hc.
  apply andb_true_iff in Hc as [Hx [Hy [Hz _]%andb_true_iff]%andb_true_iff].
  assert (is_cont z = false) as Hzc.
  { unfold is_cont, byte_in, is_lower_hex, byte_in in *.
    destruct (N.leb_spec 128 (N_of_ascii z)); [|done].
    apply orb_true_iff in Hz as [Hz|Hz]; apply andb_true_iff in Hz as [_ Hz];
      apply N.leb_le in Hz; lia. }
  repeat split.
  - simpl. unfold as_bytes; simpl. by rewrite Hzc.
  - simpl. destruct (Ascii.eqb_spec x "/"), (Ascii.eqb_spec y "/"); subst; done.
  - intros [= -> ->]. done.
Qed.

(** The blob path always exists (no slice panic) and has the sharded form. *)
Lemma blob_path_components s b :
  exists prefix, hash_prefix (sha256_hex b) = Some prefix /\
    blob_path s (sha256_hex b) = Some (data_dir s ++
      ["crashes"; "by-hash"; prefix; sha256_hex b +:+ ".bin"]).
Proof.
  destruct (hash_prefix_sha256 b) as (x & y & r & _ & Hp & Hs & Hd).
  exists (String x (String y "")). split; [done|].
  unfold blob_path. rewrite Hp. cbn [mbind option_bind].
  destruct (normal_component_ext (sha256_hex b) "bin") as [Hn _];
    [by apply sha256_hex_no_char|done|done|]. simpl in Hn.
  assert (normal_component (String x (String y "")) = true) as Hn2.
  { unfold normal_component. rewrite Hs.
    assert (String.eqb (String x (String y "")) "." = false) as ->
      by (by apply String.eqb_neq). done. }
  rewrite !join_normal by done. by rewrite <- !app_assoc.
Qed.
End Layout.

(** ** Properties *)

Section Properties.
Context `{ChronoLaws} `{Sha256Laws}.

(** Whatever project and source id a client sends, once [SourceKey::new]
    accepts them the log file and the crash index of that source are the data
    directory followed by exactly the documented components: no component is a
    parent reference or can introduce another level, so nothing outside the
    data directory is ever named. *)
Theorem storage_paths_confined s project source_id k d t b :
  SourceKey_new project source_id = Ok k ->
  log_file s k d = data_dir s ++
    ["logs"; project; source_id; naive_date_display d +:+ ".ndjson"] /\
  index_path s k (stamp t) (sha256_hex b) = data_dir s ++
    ["crashes"; "by-source"; project; source_id;
     stamp t +:+ "-" +:+ sha256_hex b +:+ ".json"] /\
  Forall (fun c => c <> ".." /\ contains_char "/" c = false /\ contains_char "\" c = false /\ c <> "")
    [project; source_id].
Proof.
  intros Hk. pose proof Hk as Hk2. apply SourceKey_new_Ok in Hk2 as [-> Hv].
  split; [by apply log_file_components|]. split; [by apply index_path_components|].
  unfold SourceKey_new in Hk.
  destruct (validate_component "project" project) as [[]|] eqn:E1; [|done].
  destruct (validate_component "source_id" source_id) as [[]|] eqn:E2; [|done].
  apply validate_component_Ok in E1 as (N1 & D1 & B1), E2 as (N2 & D2 & B2).
  unfold normal_component in N1, N2.
  apply andb_true_iff in N1 as [[N1 _]%andb_true_iff S1%negb_true_iff].
  apply andb_true_iff in N2 as [[N2 _]%andb_true_iff S2%negb_true_iff].
  apply negb_true_iff, String.eqb_neq in N1. apply negb_true_iff, String.eqb_neq in N2.
  by repeat constructor.
Qed.

(** The log layout separates sources and days: two accepted sources share a
    log file only if they are the same source on the same day. *)
Lemma log_file_injective s p i p' i' k k' d d' :
  SourceKey_new p i = Ok k -> SourceKey_new p' i' = Ok k' ->
  log_file s k d = log_file s k' d' -> k = k' /\ d = d'.
Proof.
  intros [_ Hk]%SourceKey_new_Ok [_ Hk']%SourceKey_new_Ok.
  rewrite !log_file_components by done. intros Heq.
  apply app_inv_head in Heq. injection Heq as Hp Hi Hd.
  split; [by destruct k, k'; simpl in *; subst|].
  by apply naive_date_inj, append_inv_tail with ".ndjson".
Qed.

(** Crashes share an index only if source, time stamp and dump agree. *)
Lemma index_path_injective s k k' t t' b b' :
  SourceKey_valid k -> SourceKey_valid k' ->
  index_path s k (stamp t) (sha256_hex b) = index_path s k' (stamp t') (sha256_hex b') ->
  k = k' /\ stamp t = stamp t' /\ sha256_hex b = sha256_hex b'.
Proof.
  intros Hk Hk'. rewrite !index_path_components by done. intros Heq.
  apply app_inv_head in Heq. injection Heq as Hp Hi Hn. split; [by destruct k, k'; simpl in *; subst|].
  apply append_inv in Hn as [-> Hn]; [|simpl; by rewrite !append_length, !sha256_hex_length].
  injection Hn as Hn. by apply append_inv_tail in Hn.
Qed.
End Properties.

Lemma storage_paths_confined_witness :
  let s := StoragePaths_new ["/"; "data"] in
  let k := {| sk_project := "app"; sk_source_id := "install-1" |} in
  log_file s k (3%nat : NaiveDate) = ["/"; "data"; "logs"; "app"; "install-1"; "111.ndjson"].
Proof.
  intros s k.
  apply (storage_paths_confined (C := ToyChrono) s "app" "install-1" k 3%nat 2%nat []).
  reflexivity.
Defined.

Lemma log_file_injective_witness :
  let s := StoragePaths_new ["/"; "data"] in
  let k i := {| sk_project := "app"; sk_source_id := i |} in
  log_file s (k "a") (3%nat : NaiveDate) <> log_file s (k "b") (3%nat : NaiveDate).
Proof.
  intros s k Heq.
  destruct (log_file_injective (C := ToyChrono) s "app" "a" "app" "b" (k "a") (k "b") 3%nat
              3%nat eq_refl eq_refl Heq) as [Hk _].
  discriminate Hk.
Defined.
