(* ===== verification/RateLimit.v ===== *)
(** * detritus-server/src/rate_limit.rs: token buckets

    The map of buckets is behind a mutex held for the whole of [check], so a
    call is one atomic step on the state. *)

From Stdlib Require Import Ascii SpecFloat QArith Qminmax Lqa Sorted.
From S2P Require Import Prelude RustStd Fs External Storage F64.
Open Scope Z_scope.

Record RateLimitConfig := {
  logs_per_minute : Z;
  logs_burst : Z;
  crashes_per_minute : Z;
  crashes_burst : Z
}.

Definition default_logs_per_minute : Z := 1000.
Definition default_logs_burst : Z := 200.
Definition default_crashes_per_minute : Z := 30.
Definition default_crashes_burst : Z := 5.

Definition RateLimitConfig_default : RateLimitConfig := {|
  logs_per_minute := default_logs_per_minute;
  logs_burst := default_logs_burst;
  crashes_per_minute := default_crashes_per_minute;
  crashes_burst := default_crashes_burst
|}.

Record RateKey := { rk_endpoint : string; rk_token_id : string; rk_source : string }.

#[export] Instance RateKey_eq_dec : EqDecision RateKey.
Proof. solve_decision. Defined.

#[export] Instance RateKey_countable : Countable RateKey.
Proof.
  apply (inj_countable' (fun k => (rk_endpoint k, rk_token_id k, rk_source k))
           (fun '(e, t, s) => {| rk_endpoint := e; rk_token_id := t; rk_source := s |})).
  by intros [].
Defined.

Inductive RateLimitError := RateLimitExceeded.

Section RateLimiter.
Context {F : Arith}.

(** Instants are nanoseconds of a monotonic clock. *)
Record Bucket := { tokens : num; last_refill : Z }.

Record RateLimiter := { rl_buckets : gmap RateKey Bucket; rl_config : RateLimitConfig }.

Definition RateLimiter_new (config : RateLimitConfig) : RateLimiter :=
  {| rl_buckets := ∅; rl_config := config |}.

(** [Instant::duration_since] saturates at zero. *)
Definition duration_since (now earlier : Z) : Z := Z.max 0 (now - earlier).

(** The body of [check] on the bucket of the key: refill, then take a token. *)
Definition bucket_check (now per_minute burst : Z) (o : option Bucket)
  : Result unit RateLimitError * Bucket :=
  let bucket := default {| tokens := of_Z burst; last_refill := now |} o in
  let refill_per_second := div (of_Z per_minute) (of_Z 60) in
  let elapsed := as_secs_f64 (duration_since now (last_refill bucket)) in
  let t := num_min (add (tokens bucket) (mul elapsed refill_per_second)) (of_Z burst) in
  if leb (of_Z 1) t
  then (Ok tt, {| tokens := sub t (of_Z 1); last_refill := now |})
  else (Err RateLimitExceeded, {| tokens := t; last_refill := now |}).

(** [token_id] is the [id] of the [TokenContext]. *)
Definition check (rl : RateLimiter) (now : Z) (endpoint token_id : string)
    (source : SourceKey) (per_minute burst : Z) : Result unit RateLimitError * RateLimiter :=
  let key := {| rk_endpoint := endpoint; rk_token_id := token_id;
                rk_source := SourceKey_canonical source |} in
  let (r, b) := bucket_check now per_minute burst (rl_buckets rl !! key) in
  (r, {| rl_buckets := <[key := b]> (rl_buckets rl); rl_config := rl_config rl |}).

Definition check_logs (rl : RateLimiter) (now : Z) (token_id : string) (source : SourceKey) :=
  check rl now "logs" token_id source (logs_per_minute (rl_config rl)) (logs_burst (rl_config rl)).

Definition check_crashes (rl : RateLimiter) (now : Z) (token_id : string) (source : SourceKey) :=
  check rl now "crashes" token_id source
    (crashes_per_minute (rl_config rl)) (crashes_burst (rl_config rl)).
End RateLimiter.

Arguments Bucket F : clear implicits.
Arguments RateLimiter F : clear implicits.

(** ** Specification: a sequence of requests to one bucket *)

Section Runs.
Context {F : Arith}.

(** The outcomes of the checks made at the instants [times]. *)
Fixpoint bucket_run (per_minute burst : Z) (o : option (Bucket F)) (times : list Z)
  : list (Result unit RateLimitError) * option (Bucket F) :=
  match times with
  | [] => ([], o)
  | t :: ts =>
      let (r, b) := bucket_check t per_minute burst o in
      let (rs, o') := bucket_run per_minute burst (Some b) ts in
      (r :: rs, o')
  end.

Fixpoint check_run (rl : RateLimiter F) (endpoint token_id : string) (source : SourceKey)
    (per_minute burst : Z) (times : list Z)
  : list (Result unit RateLimitError) * RateLimiter F :=
  match times with
  | [] => ([], rl)
  | t :: ts =>
      let (r, rl1) := check rl t endpoint token_id source per_minute burst in
      let (rs, rl2) := check_run rl1 endpoint token_id source per_minute burst ts in
      (r :: rs, rl2)
  end.

Lemma check_config (rl : RateLimiter F) now endpoint token_id source pm burst :
  rl_config (check rl now endpoint token_id source pm burst).2 = rl_config rl.
Proof. unfold check. by destruct (bucket_check _ _ _ _). Qed.

(** When all of a run is admitted, so are its first check and the rest. *)
Lemma check_run_admits rl endpoint token_id source pm burst t ts :
  Forall (fun r => r = Ok tt) (check_run rl endpoint token_id source pm burst (t :: ts)).1 ->
  let o := check rl t endpoint token_id source pm burst in
  o.1 = Ok tt /\ Forall (fun r => r = Ok tt) (check_run o.2 endpoint token_id source pm burst ts).1.
Proof.
  cbn [check_run]. destruct (check _ _ _ _ _ _ _) as [r rl1]. destruct (check_run _ _ _ _ _ _ _) as [rs rl2].
  by intros [? ?]%Forall_cons.
Qed.

Definition rate_key (endpoint token_id : string) (source : SourceKey) : RateKey :=
  {| rk_endpoint := endpoint; rk_token_id := token_id; rk_source := SourceKey_canonical source |}.

(** The limiter runs the bucket of the request's key. *)
Lemma check_run_bucket rl endpoint token_id source pm burst times :
  (check_run rl endpoint token_id source pm burst times).1 =
  (bucket_run pm burst (rl_buckets rl !! rate_key endpoint token_id source) times).1.
Proof.
  revert rl; induction times as [|t ts IH]; intros rl; simpl; [done|].
  unfold check. fold (rate_key endpoint token_id source).
  destruct (bucket_check _ _ _ _) as [r b]. cbn [fst snd].
  specialize (IH {| rl_buckets := <[rate_key endpoint token_id source := b]> (rl_buckets rl);
                    rl_config := rl_config rl |}).
  cbn [rl_buckets] in IH. rewrite lookup_insert_eq in IH.
  destruct (check_run _ _ _ _ _ _ _), (bucket_run _ _ _ _). simpl in *. congruence.
Qed.

Lemma check_outcome rl now endpoint token_id source pm burst :
  (check rl now endpoint token_id source pm burst).1 =
  (bucket_check now pm burst (rl_buckets rl !! rate_key endpoint token_id source)).1.
Proof. unfold check, rate_key. by destruct (bucket_check _ _ _ _). Qed.

Lemma check_other_key rl now endpoint token_id source pm burst key :
  key <> rate_key endpoint token_id source ->
  rl_buckets (check rl now endpoint token_id source pm burst).2 !! key = rl_buckets rl !! key.
Proof.
  intros Hne. unfold check, rate_key in *. destruct (bucket_check _ _ _ _). simpl.
  by rewrite lookup_insert_ne.
Qed.

(** Calls of the limiter, by any tokens and sources, in the order in which they
    take its lock. *)
Inductive RateCall :=
| LogsCall (now : Z) (token_id : string) (source : SourceKey)
| CrashesCall (now : Z) (token_id : string) (source : SourceKey).

Definition rate_call (rl : RateLimiter F) (c : RateCall) : Result unit RateLimitError * RateLimiter F :=
  match c with
  | LogsCall now token_id source => check_logs rl now token_id source
  | CrashesCall now token_id source => check_crashes rl now token_id source
  end.

Definition call_now (c : RateCall) : Z := match c with LogsCall now _ _ | CrashesCall now _ _ => now end.

Definition call_key (c : RateCall) : RateKey :=
  match c with
  | LogsCall _ token_id source => rate_key "logs" token_id source
  | CrashesCall _ token_id source => rate_key "crashes" token_id source
  end.

(** The configured rate and burst of a key. *)
Definition limits_of (cfg : RateLimitConfig) (key : RateKey) : Z * Z :=
  if String.eqb (rk_endpoint key) "logs" then (logs_per_minute cfg, logs_burst cfg)
  else (crashes_per_minute cfg, crashes_burst cfg).

Fixpoint limiter_run (rl : RateLimiter F) (calls : list RateCall)
  : list (RateCall * Result unit RateLimitError) * RateLimiter F :=
  match calls with
  | [] => ([], rl)
  | c :: cs =>
      let (r, rl1) := rate_call rl c in
      let (rs, rl2) := limiter_run rl1 cs in
      ((c, r) :: rs, rl2)
  end.

(** The instants at which a key is checked, and the outcomes. *)
Definition key_instants (key : RateKey) (calls : list RateCall) : list Z :=
  call_now <$> filter (fun c => call_key c = key) calls.

Definition key_outcomes (key : RateKey) (l : list (RateCall * Result unit RateLimitError)) : list (Result unit RateLimitError) :=
  (filter (fun x => call_key x.1 = key) l).*2.

Lemma rate_call_check rl c :
  rate_call rl c = let lim := limits_of (rl_config rl) (call_key c) in
    let (r, b) := bucket_check (call_now c) lim.1 lim.2 (rl_buckets rl !! call_key c) in
    (r, {| rl_buckets := <[call_key c := b]> (rl_buckets rl); rl_config := rl_config rl |}).
Proof. by destruct c. Qed.

(** Each key has a bucket of its own: what the others do does not matter to it. *)
Lemma limiter_run_key key calls : forall rl,
  let lim := limits_of (rl_config rl) key in
  let run := bucket_run lim.1 lim.2 (rl_buckets rl !! key) (key_instants key calls) in
  key_outcomes key (limiter_run rl calls).1 = run.1 /\ rl_buckets (limiter_run rl calls).2 !! key = run.2 /\
  rl_config (limiter_run rl calls).2 = rl_config rl.
Proof.
  induction calls as [|c cs IH]; intros rl; [done|]. cbn [limiter_run]. rewrite rate_call_check. cbv zeta.
  unfold key_instants. rewrite filter_cons.
  destruct (bucket_check (call_now c) _ _ (rl_buckets rl !! call_key c)) as [r b] eqn:Eb.
  set (rl1 := {| rl_buckets := _; rl_config := _ |}). specialize (IH rl1).
  destruct (limiter_run rl1 cs) as [rs rl2]. cbn [fst snd] in *. unfold key_outcomes. rewrite filter_cons. cbn [fst].
  case_decide as Hk; cbn [fmap list_fmap snd].
  - subst key. cbn [bucket_run]. rewrite Eb. unfold rl1 in IH. cbn [rl_buckets rl_config] in IH. rewrite lookup_insert_eq in IH.
    fold (key_instants (call_key c) cs) (key_outcomes (call_key c) rs).
    destruct (bucket_run _ _ (Some b) _) as [rs' o']. cbn [fst snd] in *. destruct IH as (-> & ? & ?). done.
  - unfold rl1 in IH. cbn [rl_buckets rl_config] in IH. rewrite lookup_insert_ne in IH by done. exact IH.
Qed.
End Runs.

(** *** Keys *)

Lemma append_slash_inj p q i j :
  contains_char "/" p = false -> contains_char "/" q = false ->
  p +:+ "/" +:+ i = q +:+ "/" +:+ j -> p = q /\ i = j.
Proof.
  revert q; induction p as [|c p IH]; intros [|d q] Hp Hq; simpl in *.
  - by intros [= ->].
  - intros [= <- _]. done.
  - intros [= -> _]. done.
  - intros [= -> H]. apply orb_false_iff in Hp as [_ Hp], Hq as [_ Hq].
    destruct (IH q Hp Hq H) as [-> ->]. done.
Qed.

Lemma SourceKey_canonical_inj k k' :
  SourceKey_valid k -> SourceKey_valid k' ->
  SourceKey_canonical k = SourceKey_canonical k' -> k = k'.
Proof.
  destruct k as [p i], k' as [q j]. intros (Hp & _) (Hq & _). cbn in Hp, Hq.
  unfold normal_component in Hp, Hq.
  apply andb_true_iff in Hp as [_ Hp%negb_true_iff], Hq as [_ Hq%negb_true_iff].
  unfold SourceKey_canonical. cbn. intros H. by apply append_slash_inj in H as [-> ->].
Qed.

(** *** Bursts, in double precision *)

Section Burst.
Variables (pm burst : Z).
Hypothesis Hpm : 0 <= pm <= U32_MAX.
Hypothesis Hburst : 0 <= burst <= U32_MAX.

Local Definition int_bucket (now k : Z) : Bucket binary64 :=
  {| tokens := f64_of_Z k; last_refill := now |}.

(** Without elapsed time the refill adds exactly nothing. *)
Lemma bucket_check_same_instant now k :
  0 <= k <= burst ->
  bucket_check (F := binary64) now pm burst (Some (int_bucket now k)) =
  if 1 <=? k then (Ok tt, int_bucket now (k - 1))
  else (Err RateLimitExceeded, int_bucket now k).
Proof using Hpm Hburst.
  intros Hk. unfold U32_MAX in *. unfold bucket_check. cbn [from_option id].
  assert (duration_since now (last_refill (int_bucket now k)) = 0) as ->.
  { unfold duration_since, int_bucket; simpl. lia. }
  change (as_secs_f64 (H := binary64) 0) with (S754_zero false).
  cbn [mul add div num_min leb sub of_Z num binary64 tokens int_bucket].
  rewrite f64_mul_0_l by (apply f64_div_nonneg_finite; unfold small_int; lia).
  rewrite f64_add_0_r, f64_min_of_Z, Z.min_l by (unfold small_int; lia).
  rewrite f64_leb_of_Z by (unfold small_int; lia).
  destruct (Z.leb_spec 1 k); [|done]. by rewrite f64_sub_1 by lia.
Qed.

Lemma bucket_run_same_instant now n k :
  0 <= k <= burst ->
  (bucket_run pm burst (Some (int_bucket now k)) (replicate n now)).1 =
  replicate (Nat.min n (Z.to_nat k)) (Ok tt)
    ++ replicate (n - Z.to_nat k) (Err RateLimitExceeded).
Proof using Hpm Hburst.
  revert k; induction n as [|n IH]; intros k Hk; simpl; [done|].
  rewrite bucket_check_same_instant by done.
  destruct (Z.leb_spec 1 k) as [H1|H1].
  - specialize (IH (k - 1) ltac:(lia)).
    destruct (bucket_run _ _ _ _) as [rs o']. simpl in *. rewrite IH.
    replace (Z.to_nat k) with (S (Z.to_nat (k - 1))) by lia. done.
  - specialize (IH k Hk). assert (k = 0) as -> by lia.
    destruct (bucket_run _ _ _ _) as [rs o']. simpl in *. rewrite IH.
    rewrite Nat.min_0_r, Nat.sub_0_r. done.
Qed.

(** A key that was never seen starts with a full bucket. *)
Lemma bucket_run_fresh now n :
  (bucket_run pm burst None (replicate n now)).1 =
  (bucket_run pm burst (Some (int_bucket now burst)) (replicate n now)).1.
Proof using. by destruct n. Qed.
End Burst.

(** C35. In IEEE double precision, whatever the configured [u32] rate and burst:
    a source that was not seen before has exactly [burst] of any number of
    simultaneous requests admitted, the first ones, and every later one is
    refused. *)
Theorem rate_limit_burst_exact (rl : RateLimiter binary64) endpoint token_id source pm burst now n :
  0 <= pm <= U32_MAX -> 0 <= burst <= U32_MAX ->
  rl_buckets rl !! rate_key endpoint token_id source = None ->
  (check_run rl endpoint token_id source pm burst (replicate n now)).1 =
    replicate (Nat.min n (Z.to_nat burst)) (Ok tt)
      ++ replicate (n - Z.to_nat burst) (Err RateLimitExceeded).
Proof.
  intros Hpm Hb Hnone. rewrite check_run_bucket, Hnone, bucket_run_fresh.
  apply bucket_run_same_instant; lia || done.
Qed.

Lemma rate_limit_burst_exact_witness :
  (check_run (RateLimiter_new (F := binary64) RateLimitConfig_default) "crashes" "t"
     {| sk_project := "p"; sk_source_id := "i" |} 30 5 (replicate 7 42)).1
  = replicate 5 (Ok tt) ++ replicate 2 (Err RateLimitExceeded).
Proof.
  apply (rate_limit_burst_exact (RateLimiter_new RateLimitConfig_default) "crashes" "t"
           {| sk_project := "p"; sk_source_id := "i" |} 30 5 42 7);
    [unfold U32_MAX; lia|unfold U32_MAX; lia|reflexivity].
Defined.

(** Buckets are independent: a check made for one (endpoint, token, source)
    never changes the outcome of a check for another, where sources are keys
    that passed [SourceKey::new]. *)
Theorem rate_limit_isolation `{F : Arith} (rl : RateLimiter F) e1 t1 k1 pm1 b1 n1 e2 t2 k2 pm2 b2 n2 p1 i1 p2 i2 :
  SourceKey_new p1 i1 = Ok k1 -> SourceKey_new p2 i2 = Ok k2 ->
  (e1, t1, k1) <> (e2, t2, k2) ->
  (check (check rl n1 e1 t1 k1 pm1 b1).2 n2 e2 t2 k2 pm2 b2).1 =
  (check rl n2 e2 t2 k2 pm2 b2).1.
Proof.
  intros [_ H1]%SourceKey_new_Ok [_ H2]%SourceKey_new_Ok Hne.
  rewrite !check_outcome, check_other_key; [done|].
  unfold rate_key. intros [= -> -> Hc]. apply Hne.
  by rewrite (SourceKey_canonical_inj _ _ H1 H2).
Qed.

Lemma rate_limit_isolation_witness :
  let rl := RateLimiter_new (F := binary64) RateLimitConfig_default in
  let k i := {| sk_project := "p"; sk_source_id := i |} in
  (check (check rl 0 "logs" "t" (k "a") 60 1).2 0 "logs" "t" (k "b") 60 1).1 =
  (check rl 0 "logs" "t" (k "b") 60 1).1.
Proof.
  intros rl k. apply (rate_limit_isolation rl "logs" "t" (k "a") 60 1 0 "logs" "t" (k "b") 60 1 0
    "p" "a" "p" "b"); [reflexivity|reflexivity|discriminate].
Defined.

(** *** The long-run rate, in exact arithmetic *)

Definition count_ok (rs : list (Result unit RateLimitError)) : nat :=
  length (filter (fun r => is_ok r = true) rs).

Definition secs (d : Z) : Q := (inject_Z d / inject_Z NANOS_PER_SEC)%Q.

Lemma as_secs_exact d : (as_secs_f64 (H := exactQ) d == secs d)%Q.
Proof.
  unfold as_secs_f64, secs. cbn [add of_Z div exactQ num].
  rewrite (Z.div_mod d NANOS_PER_SEC) at 3 by done.
  rewrite inject_Z_plus, inject_Z_mult. unfold NANOS_PER_SEC. field.
Qed.

Lemma secs_add a b : (secs a + secs b == secs (a + b))%Q.
Proof. unfold secs. rewrite inject_Z_plus. unfold NANOS_PER_SEC. field. Qed.

Lemma secs_nonneg d : 0 <= d -> (0 <= secs d)%Q.
Proof.
  intros H. unfold secs, NANOS_PER_SEC. apply Qle_shift_div_l; [done|].
  rewrite Qmult_0_l. change 0%Q with (inject_Z 0). by rewrite <- Zle_Qle.
Qed.

Section LongRun.
Variables (pm burst tN : Z).
Hypothesis Hpm : 0 <= pm.
Hypothesis Hburst : 0 <= burst.

Let rate : Q := (inject_Z pm / inject_Z 60)%Q.

Local Lemma rate_nonneg : (0 <= rate)%Q.
Proof using Hpm.
  subst rate. apply Qle_shift_div_l; [done|]. rewrite Qmult_0_l.
  change 0%Q with (inject_Z 0). by rewrite <- Zle_Qle.
Qed.

(** One check spends at most what the bucket held plus the refill. *)
Lemma bucket_check_potential t (b : Bucket exactQ) r b' :
  last_refill b <= t -> (0 <= tokens b)%Q ->
  bucket_check t pm burst (Some b) = (r, b') ->
  last_refill b' = t /\ (0 <= tokens b')%Q /\
  (inject_Z (if is_ok r then 1 else 0) + tokens b' <= tokens b + rate * secs (t - last_refill b))%Q.
Proof using Hpm Hburst.
  intros Hl Htok. unfold bucket_check. cbn [from_option id].
  assert (duration_since t (last_refill b) = t - last_refill b) as -> by (unfold duration_since; lia).
  pose proof (as_secs_exact (t - last_refill b)) as Hs.
  pose proof (secs_nonneg (t - last_refill b) ltac:(lia)) as Hs0.
  pose proof rate_nonneg as Hr.
  set (el := as_secs_f64 _) in *. cbn [add mul div sub of_Z num num_min leb exactQ] in *.
  fold rate.
  assert (0 <= rate * secs (t - last_refill b))%Q by (by apply Qmult_le_0_compat).
  assert (el * rate == rate * secs (t - last_refill b))%Q as Heq by (rewrite Hs; ring).
  set (x := (rate * secs (t - last_refill b))%Q) in *.
  pose proof (Q.le_min_l (tokens b + el * rate) (inject_Z burst)) as Hm1.
  assert (0 <= Qmin (tokens b + el * rate) (inject_Z burst))%Q as Hm2.
  { apply Q.min_glb; [lra|]. change 0%Q with (inject_Z 0). by rewrite <- Zle_Qle. }
  set (m := Qmin _ _) in *.
  destruct (Qle_bool (inject_Z 1) m) eqn:Ele; intros [= <- <-]; simpl.
  - apply Qle_bool_iff in Ele. change (inject_Z 1) with 1%Q in *.
    repeat split; unfold Qminus in *; lra.
  - change (inject_Z 0) with 0%Q. repeat split; lra.
Qed.

Lemma count_ok_cons r rs :
  (inject_Z (Z.of_nat (count_ok (r :: rs))) == inject_Z (if is_ok r then 1 else 0) + inject_Z (Z.of_nat (count_ok rs)))%Q.
Proof.
  rewrite <- inject_Z_plus. unfold count_ok. rewrite filter_cons.
  destruct (is_ok r); case_decide; try done; cbn [length]; rewrite ?Nat2Z.inj_succ; repeat f_equiv; lia.
Qed.

Lemma bucket_run_potential times (b : Bucket exactQ) :
  (0 <= tokens b)%Q -> last_refill b <= tN ->
  Sorted Z.le (last_refill b :: times) -> Forall (fun t => t <= tN) times ->
  (inject_Z (Z.of_nat (count_ok (bucket_run pm burst (Some b) times).1))
   <= tokens b + rate * secs (tN - last_refill b))%Q.
Proof using Hpm Hburst.
  revert b; induction times as [|t ts IH]; intros b Htok Hlast Hs Hle.
  - cbn [bucket_run fst]. pose proof (secs_nonneg (tN - last_refill b) ltac:(lia)).
    assert (0 <= rate * secs (tN - last_refill b))%Q
      by (apply Qmult_le_0_compat; [apply rate_nonneg|done]).
    change (inject_Z (Z.of_nat (count_ok []))) with 0%Q. lra.
  - apply Sorted_inv in Hs as [Hs Hhd]. apply HdRel_inv in Hhd.
    apply Forall_cons in Hle as [Ht Hle].
    cbn [bucket_run]. destruct (bucket_check t pm burst (Some b)) as [r b'] eqn:Eb.
    apply bucket_check_potential in Eb as (Hl' & Htok' & Hstep); [|done|done].
    specialize (IH b' Htok' ltac:(lia)). rewrite Hl' in IH. specialize (IH Hs Hle).
    destruct (bucket_run _ _ _ _) as [rs o']. cbn [fst] in *.
    assert (secs (tN - last_refill b) == secs (t - last_refill b) + secs (tN - t))%Q as ->.
    { rewrite secs_add. unfold secs. repeat f_equiv. lia. }
    rewrite count_ok_cons.
    rewrite Qmult_plus_distr_r. lra.
Qed.

(** After any check the bucket holds at most the burst, less the token it gave. *)
Lemma bucket_check_cap t (o : option (Bucket exactQ)) r b' :
  (forall b, o = Some b -> (0 <= tokens b)%Q) -> bucket_check t pm burst o = (r, b') ->
  last_refill b' = t /\ (0 <= tokens b')%Q /\ (inject_Z (if is_ok r then 1 else 0) + tokens b' <= inject_Z burst)%Q.
Proof using Hpm Hburst.
  intros Ho. unfold bucket_check. set (b := default _ o).
  assert (0 <= inject_Z burst)%Q as Hb0 by (change 0%Q with (inject_Z 0); by rewrite <- Zle_Qle).
  assert (0 <= tokens b)%Q as Htok by (unfold b; destruct o as [b0|]; [by apply Ho|exact Hb0]).
  pose proof (as_secs_exact (duration_since t (last_refill b))) as Hs.
  pose proof (secs_nonneg (duration_since t (last_refill b)) ltac:(unfold duration_since; lia)) as Hs0.
  pose proof rate_nonneg as Hr. set (el := as_secs_f64 _) in *. cbn [add mul div sub of_Z num num_min leb exactQ] in *. fold rate.
  assert (0 <= el * rate)%Q by (rewrite Hs; by apply Qmult_le_0_compat).
  pose proof (Q.le_min_r (tokens b + el * rate) (inject_Z burst)) as Hm1.
  assert (0 <= Qmin (tokens b + el * rate) (inject_Z burst))%Q as Hm2 by (apply Q.min_glb; [lra|done]).
  set (m := Qmin _ _) in *. destruct (Qle_bool (inject_Z 1) m) eqn:Ele; intros [= <- <-]; simpl.
  - apply Qle_bool_iff in Ele. change (inject_Z 1) with 1%Q in *. repeat split; unfold Qminus in *; lra.
  - change (inject_Z 0) with 0%Q. repeat split; lra.
Qed.

Lemma bucket_run_nonneg times : forall (o : option (Bucket exactQ)) b,
  (forall b, o = Some b -> (0 <= tokens b)%Q) -> (bucket_run pm burst o times).2 = Some b -> (0 <= tokens b)%Q.
Proof using Hpm Hburst.
  induction times as [|t ts IH]; intros o b Ho; cbn [bucket_run]; [apply Ho|].
  destruct (bucket_check t pm burst o) as [r b1] eqn:E. apply bucket_check_cap in E as (_ & H1 & _); [|done].
  specialize (IH (Some b1) b). destruct (bucket_run _ _ _ _) as [rs o']. cbn [snd] in *. apply IH. by intros ? [= <-].
Qed.

(** From any bucket, within any interval. *)
Lemma bucket_run_interval times t0 (o : option (Bucket exactQ)) :
  (forall b, o = Some b -> (0 <= tokens b)%Q) -> t0 <= tN -> Sorted Z.le times -> Forall (fun t => t0 <= t <= tN) times ->
  (inject_Z (Z.of_nat (count_ok (bucket_run pm burst o times).1)) <= inject_Z burst + rate * secs (tN - t0))%Q.
Proof using Hpm Hburst.
  intros Ho Hle Hs Hin. assert (0 <= inject_Z burst)%Q as Hb0 by (change 0%Q with (inject_Z 0); by rewrite <- Zle_Qle).
  assert (forall d : Z, 0 <= d -> (0 <= rate * secs d)%Q) as Hpos by (intros d Hd; apply Qmult_le_0_compat; [apply rate_nonneg|by apply secs_nonneg]).
  destruct times as [|t ts].
  { cbn [bucket_run fst]. pose proof (Hpos (tN - t0) ltac:(lia)). change (inject_Z (Z.of_nat (count_ok []))) with 0%Q. lra. }
  apply Forall_cons in Hin as [Ht Hin]. cbn [bucket_run]. destruct (bucket_check t pm burst o) as [r b1] eqn:E.
  apply bucket_check_cap in E as (Hl & Htok & Hcap); [|done].
  pose proof (bucket_run_potential ts b1 Htok ltac:(lia)) as Hrest. rewrite Hl in Hrest.
  specialize (Hrest Hs ltac:(eapply Forall_impl; [exact Hin|]; intros; cbn in *; lia)).
  destruct (bucket_run pm burst (Some b1) ts) as [rs o']. cbn [fst] in *. rewrite count_ok_cons.
  assert (secs (tN - t0) == secs (tN - t) + secs (t - t0))%Q as -> by (rewrite secs_add; unfold secs; repeat f_equiv; lia).
  pose proof (Hpos (t - t0) ltac:(lia)). rewrite Qmult_plus_distr_r. lra.
Qed.
End LongRun.

(** C36. In exact arithmetic, the limiter enforces its long-run rate: after any
    history of checks by any tokens, sources and endpoints, and among any others,
    the checks of one token and source at one endpoint that fall into an interval,
    at non-decreasing instants, are admitted at most as often as the burst plus
    the configured rate times the length of the interval.  In particular a source
    that was silent for long has no more than its burst to spend. *)
Theorem rate_limit_long_run cfg before calls key t0 tN :
  let rl := (limiter_run (F := exactQ) (RateLimiter_new cfg) before).2 in
  let (pm, burst) := limits_of cfg key in
  0 <= pm -> 0 <= burst -> t0 <= tN ->
  Sorted Z.le (key_instants key calls) -> Forall (fun t => t0 <= t <= tN) (key_instants key calls) ->
  (inject_Z (Z.of_nat (count_ok (key_outcomes key (limiter_run rl calls).1)))
   <= inject_Z burst + (inject_Z pm / inject_Z 60) * secs (tN - t0))%Q.
Proof.
  intros rl. destruct (limits_of cfg key) as [pm burst] eqn:El. intros Hpm Hb Ht Hs Hin.
  destruct (limiter_run_key key before (RateLimiter_new (F := exactQ) cfg)) as (_ & Hbuck & Hcfg). fold rl in Hbuck, Hcfg.
  destruct (limiter_run_key key calls rl) as (-> & _). rewrite Hcfg. cbn [rl_config RateLimiter_new]. rewrite El. cbn [fst snd].
  apply bucket_run_interval; try done. intros b Hsome. rewrite Hbuck in Hsome. cbn [rl_config rl_buckets RateLimiter_new] in Hsome.
  rewrite El in Hsome. cbn [fst snd] in Hsome. eapply (bucket_run_nonneg pm burst Hpm Hb); [|exact Hsome].
  intros b0. by rewrite lookup_empty.
Qed.

(** A history, long silence, then three crashes and a log export at once. *)
Definition quiet_key : RateKey := rate_key "crashes" "t" {| sk_project := "p"; sk_source_id := "i" |}.

Definition crash_call (now : Z) : RateCall := CrashesCall now "t" {| sk_project := "p"; sk_source_id := "i" |}.

Definition small_limits : RateLimitConfig :=
  {| logs_per_minute := 1000; logs_burst := 200; crashes_per_minute := 60; crashes_burst := 2 |}.

Definition later_calls : list RateCall :=
  [crash_call (1000 * NANOS_PER_SEC); LogsCall 5 "t" {| sk_project := "p"; sk_source_id := "i" |};
   crash_call (1000 * NANOS_PER_SEC); crash_call (1000 * NANOS_PER_SEC)].

Lemma rate_limit_long_run_witness :
  (inject_Z (Z.of_nat (count_ok (key_outcomes quiet_key
     (limiter_run (limiter_run (F := exactQ) (RateLimiter_new small_limits) [crash_call 0; crash_call 0]).2 later_calls).1)))
   <= inject_Z 2 + (inject_Z 60 / inject_Z 60) * secs (1000 * NANOS_PER_SEC - 1000 * NANOS_PER_SEC))%Q.
Proof.
  apply (rate_limit_long_run small_limits [crash_call 0; crash_call 0] later_calls quiet_key (1000 * NANOS_PER_SEC) (1000 * NANOS_PER_SEC));
    [cbn; lia|cbn; lia|lia| |];
    change (key_instants quiet_key later_calls) with [1000 * NANOS_PER_SEC; 1000 * NANOS_PER_SEC; 1000 * NANOS_PER_SEC].
  - repeat (constructor; try lia).
  - repeat (constructor; try lia).
Defined.
