(* ===== verification/Auth.v ===== *)
(** * detritus-server/src/auth.rs: bearer tokens, security configuration, middleware *)

From Stdlib Require Import Ascii.
From S2P Require Import Prelude RustStd Fs External Instances Json Protocol Metrics Schemas Storage F64 RateLimit.

(** argon2 / password-hash: parsing a PHC string and verifying a password. *)
Class Argon2Api := {
  PasswordHash : Type;
  password_hash_new : string -> Result PasswordHash string;
  verify_password : bytes -> PasswordHash -> bool
}.

(** http: [HeaderValue::to_str]. *)
Class HttpApi := { header_to_str : bytes -> option string }.

Class HttpLaws (H : HttpApi) := {
  header_to_str_text : forall b s, header_to_str b = Some s -> utf8_valid (as_bytes s) = true;
  header_to_str_visible : forall b, forallb (byte_in 32 126) b = true -> header_to_str b = Some (of_bytes b)
}.

Record TokenContext := {
  tc_id : string;
  tc_project : string;
  tc_source_prefix : string;
  tc_secret_hash : string
}.

Record TestToken := {
  tt_id : string;
  tt_secret_hash : string;
  tt_project : string;
  tt_source_prefix : string
}.

Record TokenEntry := {
  te_id : string;
  te_secret : string;
  te_project : string;
  te_source_prefix : string
}.

Record SchemaEntry := { se_project : string; se_kind : SchemaKind; se_path : Path }.

Record TokensConfig := {
  cfg_token : list TokenEntry;
  cfg_rate_limit : option RateLimitConfig;
  cfg_schema : list SchemaEntry;
  cfg_schema_validation : SchemaOptions
}.

(** toml: reading a [TokensConfig]. *)
Class TomlApi := { toml_from_str : string -> Result TokensConfig string }.

Inductive AuthConfigError :=
| AuthIo (e : io_error)
| AuthToml (e : string)
| NoTokens
| InvalidHash (id message : string)
| SchemaProjectMismatch (project : string) (kind : SchemaKind)
| AuthSchema (e : SchemaError).

Record TokenStore := { ts_tokens : list TokenContext }.

(** [TokenContext::permits]; [ct_eq] is equality. *)
Definition permits (t : TokenContext) (source : SourceKey) : bool :=
  String.eqb (sk_project source) (tc_project t)
  && starts_with (tc_source_prefix t) (SourceKey_canonical source).

Definition for_tests (tokens : list TestToken) : TokenStore :=
  {| ts_tokens := (fun t => {| tc_id := tt_id t; tc_project := tt_project t;
       tc_source_prefix := tt_source_prefix t; tc_secret_hash := tt_secret_hash t |}) <$> tokens |}.

Section Auth.
Context `{A2 : Argon2Api} `{HT : HttpApi} `{TM : TomlApi} `{J : JsonText} `{V : JsonSchemaApi}.

Definition verify (t : TokenContext) (presented : string) : bool :=
  match password_hash_new (tc_secret_hash t) with
  | Err _ => false
  | Ok hash => verify_password (as_bytes presented) hash
  end.

Definition authenticate (s : TokenStore) (presented : string) : option TokenContext :=
  find (fun t => verify t presented) (ts_tokens s).

(** One iteration of the token loop of [load] and [from_entries]. *)
Definition entry_to_context (t : TokenEntry) : Result TokenContext AuthConfigError :=
  let? _ := map_err (fun e => InvalidHash (te_id t) e) (password_hash_new (te_secret t)) in
  Ok {| tc_id := te_id t; tc_secret_hash := te_secret t; tc_project := te_project t;
        tc_source_prefix := te_source_prefix t |}.

Definition from_entries (entries : list TokenEntry) : Result TokenStore AuthConfigError :=
  let? tokens := try_map entry_to_context entries in
  match tokens with
  | [] => Err NoTokens
  | _ => Ok {| ts_tokens := tokens |}
  end.

(** [TokenStore::load] *)
Definition TokenStore_load (path : Path) : IO AuthConfigError TokenStore :=
  let! raw := io_map_err AuthIo (fs_read_to_string path) in
  let! config := io_lift (map_err AuthToml (toml_from_str raw)) in
  let! tokens := io_lift (try_map entry_to_context (cfg_token config)) in
  match tokens with
  | [] => io_err NoTokens
  | _ => io_ret {| ts_tokens := tokens |}
  end.

Record SecurityConfig := {
  sec_token_store : TokenStore;
  sec_rate_limit : RateLimitConfig;
  sec_schema_registry : SchemaRegistry
}.

(** The [[schema]] loop: every entry must name the project of a token. *)
Definition resolve_schema_entry (known : gset string) (config_dir : Path) (e : SchemaEntry)
  : Result ProjectSchemaEntry AuthConfigError :=
  if decide (se_project e ∈ known)
  then Ok {| pse_project := se_project e; pse_kind := se_kind e;
             pse_path := join_path config_dir (se_path e) |}
  else Err (SchemaProjectMismatch (se_project e) (se_kind e)).

Definition load_security_config (path : Path) : IO AuthConfigError SecurityConfig :=
  let! raw := io_map_err AuthIo (fs_read_to_string path) in
  let! config := io_lift (map_err AuthToml (toml_from_str raw)) in
  let known_projects : gset string := list_to_set (te_project <$> cfg_token config) in
  let config_dir := default (path_of_string ".") (parent path) in
  let! schema_entries :=
    io_lift (try_map (resolve_schema_entry known_projects config_dir) (cfg_schema config)) in
  let! token_store := io_lift (from_entries (cfg_token config)) in
  let schema_options := {|
    validate_formats := validate_formats (cfg_schema_validation config);
    ignore_unknown_formats := ignore_unknown_formats (cfg_schema_validation config);
    resources := (fun r => {| sre_uri := sre_uri r; sre_path := join_path config_dir (sre_path r) |})
                   <$> resources (cfg_schema_validation config) |} in
  let! registry := io_map_err AuthSchema (load_with_options schema_entries schema_options) in
  io_ret {| sec_token_store := token_store;
            sec_rate_limit := default RateLimitConfig_default (cfg_rate_limit config);
            sec_schema_registry := registry |}.

(** ** The middleware *)

(** What the middleware sees of a request; [req_token] is the request extension. *)
Record Request := {
  req_path : string;
  req_authorization : option bytes;
  req_token : option TokenContext
}.

Record Response := { resp_status : Z; resp_body : Value }.

Definition endpoint_label (path : string) : string :=
  if String.eqb path "/v1/crashes" then "crashes"
  else if String.eqb path "/opentelemetry.proto.collector.logs.v1.LogsService/Export" then "logs"
  else if String.eqb path "/metrics" then "metrics"
  else if String.eqb path "/healthz" then "healthz"
  else "other".

Definition auth_error (status : Z) (message : string) : Response :=
  {| resp_status := status;
     resp_body := Object [("error", Object [("code", Num (PosInt status)); ("message", Str message)])] |}.

(** [Forward r]: the inner service runs on [r]; [Reject]: it does not run. *)
Inductive AuthOutcome :=
| Forward (r : Request)
| Reject (resp : Response).

Definition auth_middleware (store : TokenStore) (m : Metrics) (request : Request) (elapsed : Z)
  : AuthOutcome * Metrics :=
  let path := req_path request in
  if String.eqb path "/healthz" || String.eqb path "/metrics" then (Forward request, m)
  else
    let endpoint := endpoint_label path in
    let unauthorized msg :=
      (Reject (auth_error 401 msg), observe_request m endpoint "401" elapsed) in
    match req_authorization request with
    | None => unauthorized "missing bearer token"
    | Some raw =>
        match header_to_str raw with
        | None => unauthorized "authorization header is not UTF-8"
        | Some value =>
            match strip_prefix "Bearer " value with
            | None => unauthorized "authorization header must use Bearer"
            | Some token =>
                match authenticate store token with
                | None => unauthorized "invalid bearer token"
                | Some context =>
                    (Forward {| req_path := path; req_authorization := req_authorization request;
                                req_token := Some context |}, m)
                end
            end
        end
    end.

(** [token_from_extensions]; the error is gRPC [Unauthenticated]. *)
Definition token_from_extensions (r : Request) : Result TokenContext string :=
  ok_or (req_token r) "missing token context".

(** ** Lemmas *)

Lemma authenticate_Some s presented t :
  authenticate s presented = Some t -> t ∈ ts_tokens s /\ verify t presented = true.
Proof.
  unfold authenticate. intros H. apply find_some in H as [H1 H2].
  by rewrite list_elem_of_In.
Qed.

Lemma from_entries_Ok entries s :
  from_entries entries = Ok s ->
  ts_tokens s <> [] /\ Forall2 (fun e t => entry_to_context e = Ok t) entries (ts_tokens s).
Proof.
  unfold from_entries. destruct (try_map _ _) as [tokens|] eqn:E; [|done].
  apply try_map_Forall2 in E. destruct tokens as [|t ts]; [done|].
  by intros [= <-].
Qed.

(** Loading tokens alone and loading them with the rest read the same store. *)
Lemma TokenStore_load_from_entries path w :
  TokenStore_load path w =
  (let! raw := io_map_err AuthIo (fs_read_to_string path) in
   let! config := io_lift (map_err AuthToml (toml_from_str raw)) in
   io_lift (from_entries (cfg_token config))) w.
Proof.
  unfold TokenStore_load, io_bind, io_lift, from_entries.
  destruct (io_map_err _ _ w) as [[raw|e] w1]; [|done].
  destruct (map_err _ _) as [c|e]; [|done].
  destruct (try_map _ _) as [[|t ts]|e]; done.
Qed.

(** ** Properties *)

Definition open_path (path : string) : Prop := path = "/healthz" \/ path = "/metrics".

(** The bearer token of a request, if its header carries one. *)
Definition presents (r : Request) (token : string) : Prop :=
  exists raw, req_authorization r = Some raw /\ header_to_str raw = Some ("Bearer " +:+ token).

Lemma find_first {A} (f : A -> bool) l x :
  find f l = Some x ->
  exists i, l !! i = Some x /\ f x = true /\ forall j y, (j < i)%nat -> l !! j = Some y -> f y = false.
Proof.
  induction l as [|a l IH]; simpl; [done|]. destruct (f a) eqn:Ea.
  - intros [= ->]. exists 0%nat. repeat split; [done|]. lia.
  - intros (i & Hi & Hx & Hlt)%IH. exists (S i). repeat split; [done|done|].
    intros [|j] y Hj; simpl; [congruence|]. intros Hy. by apply (Hlt j y); [lia|].
Qed.

(** C30. The authentication gate: a request reaches a handler exactly when its
    path is one of the two public ones or it presents a bearer token that some
    configured token verifies; it then carries the context of the first such
    token.  Every other request is answered 401, and counted once under its
    endpoint, without any handler running. *)
Theorem auth_gate store m request elapsed :
  match auth_middleware store m request elapsed with
  | (Forward r, m') =>
      m' = m /\ req_path r = req_path request /\
      ((open_path (req_path request) /\ r = request) \/
       exists token i t, ~ open_path (req_path request) /\ presents request token /\
         ts_tokens store !! i = Some t /\ verify t token = true /\
         (forall j t', (j < i)%nat -> ts_tokens store !! j = Some t' -> verify t' token = false) /\
         req_token r = Some t)
  | (Reject resp, m') =>
      resp_status resp = 401%Z /\ m' = observe_request m (endpoint_label (req_path request)) "401" elapsed /\
      ~ open_path (req_path request) /\
      forall token t, presents request token -> t ∈ ts_tokens store -> verify t token = false
  end.
Proof.
  unfold auth_middleware, open_path, presents.
  destruct (String.eqb_spec (req_path request) "/healthz") as [E1|E1];
    cbn [orb]; [by repeat split; auto|].
  destruct (String.eqb_spec (req_path request) "/metrics") as [E2|E2];
    cbn [orb]; [by repeat split; auto|].
  assert (~ (req_path request = "/healthz" \/ req_path request = "/metrics")) as Hno by tauto.
  destruct (req_authorization request) as [raw|] eqn:Er; [|naive_solver].
  destruct (header_to_str raw) as [v|] eqn:Eh; [|naive_solver].
  destruct (strip_prefix "Bearer " v) as [tok|] eqn:Es.
  2: { repeat split; try done. intros token t (raw' & [= <-] & Hv) _. exfalso.
       rewrite Eh in Hv. injection Hv as ->.
       rewrite (proj2 (strip_prefix_Some "Bearer " _ token)) in Es; done. }
  apply strip_prefix_Some in Es as ->.
  destruct (authenticate store tok) as [t|] eqn:Ea.
  - apply find_first in Ea as (i & Hi & Hv & Hlt). repeat split. right.
    exists tok, i, t. repeat split; eauto.
  - repeat split; try done. intros token t (raw' & [= <-] & Hv) Ht.
    rewrite Eh in Hv. injection Hv as ->.
    apply (find_none _ _ Ea). by apply list_elem_of_In.
Qed.

Definition config_coherent (cfg : SecurityConfig) : Prop :=
  ts_tokens (sec_token_store cfg) <> [] /\
  (exists raw config, toml_from_str raw = Ok config /\
     tc_id <$> ts_tokens (sec_token_store cfg) = te_id <$> cfg_token config) /\
  (forall t, t ∈ ts_tokens (sec_token_store cfg) -> is_ok (password_hash_new (tc_secret_hash t)) = true) /\
  (forall project kind, is_Some (schemas (sec_schema_registry cfg) !! (project, kind)) ->
     exists t, t ∈ ts_tokens (sec_token_store cfg) /\ tc_project t = project).

(** C31. A loaded security configuration is coherent: there is at least one
    token, every stored secret is a parseable Argon2 hash, tokens keep the
    order of the file, and every schema in force belongs to the project of
    some token.  Loading writes nothing. *)
Theorem security_config_sound path w cfg w' :
  load_security_config path w = (Ok cfg, w') ->
  w_fs w' = w_fs w /\ config_coherent cfg.
Proof.
  intros Hrun.
  revert cfg Hrun. enough (wp (load_security_config path) (fun r w' => forall cfg, r = Ok cfg ->
    w_fs w' = w_fs w /\ config_coherent cfg) w) as Hwp.
  { intros cfg Hrun. by apply (wp_run _ _ _ _ _ Hwp Hrun). }
  unfold load_security_config. apply wp_bind, wp_map_err. unfold fs_read_to_string.
  apply wp_bind, wp_fs_read; [|done]. intros c t0 w1 _ Henv1 Hfs1.
  destruct (utf8_valid c); [|done]. apply wp_ret. cbn [map_err].
  apply wp_bind, wp_lift. destruct (toml_from_str (of_bytes c)) as [config|] eqn:Et; [|done].
  cbn [map_err]. apply wp_bind, wp_lift.
  destruct (try_map _ (cfg_schema config)) as [entries|] eqn:Ee; [|done].
  apply wp_bind, wp_lift. destruct (from_entries (cfg_token config)) as [store|] eqn:Es; [|done].
  apply wp_bind, wp_map_err, load_with_options_spec. intros [reg|] w2 Hfs2 Hdom; [|done].
  cbn [map_err]. apply wp_ret. intros cfg0 [= <-]. unfold config_coherent. cbn [sec_token_store sec_schema_registry].
  apply from_entries_Ok in Es as [Hne Hall]. apply try_map_Forall2 in Ee.
  specialize (Hdom reg eq_refl). split; [congruence|]. split; [done|]. split; [|split].
  - exists (of_bytes c), config. split; [done|]. clear -Hall.
    induction Hall as [|e t es ts He _ IH]; [done|]. rewrite !fmap_cons, IH. f_equal.
    unfold entry_to_context in He. by destruct (password_hash_new _); simplify_eq/=.
  - intros t Ht. clear -Hall Ht. induction Hall as [|e t1 es ts He _ IH]; [by apply not_elem_of_nil in Ht|].
    apply elem_of_cons in Ht as [->|Ht]; [|auto].
    unfold entry_to_context in He. destruct (password_hash_new (te_secret e)) eqn:Ep; simplify_eq/=.
    by rewrite Ep.
  - intros project kind Hs. apply elem_of_dom in Hs. rewrite Hdom, elem_of_list_to_set in Hs.
    apply list_elem_of_fmap in Hs as (pe & [= -> ->] & Hpe).
    apply list_elem_of_lookup in Hpe as [i Hi].
    destruct (Forall2_lookup_r _ _ _ _ _ Ee Hi) as (se & _ & Hse).
    unfold resolve_schema_entry in Hse. case_decide as Hk; [|done]. injection Hse as <-. simpl.
    apply elem_of_list_to_set, list_elem_of_fmap in Hk as (te & Hpj & Hte).
    apply list_elem_of_lookup in Hte as [j Hj].
    destruct (Forall2_lookup_l _ _ _ _ _ Hall Hj) as (t & Ht & Het).
    exists t. split; [by apply list_elem_of_lookup; eauto|].
    unfold entry_to_context in Het. by destruct (password_hash_new _); simplify_eq/=.
Qed.
End Auth.

Arguments SecurityConfig {V}.

Section Tenancy.
Context {C : ChronoApi} {CL : ChronoLaws C} {S : Sha256Api} {SL : Sha256Laws S}.

(** C32. Tenant confinement: the log files and the crash indexes of every source
    a token is permitted to write for lie in the directory of the token's own
    project, one level below it per source id. *)
Theorem tenant_confinement t s project source_id k d ts b :
  SourceKey_new project source_id = Ok k -> permits t k = true ->
  log_file s k d = data_dir s ++ ["logs"; tc_project t] ++
    [source_id; naive_date_display d +:+ ".ndjson"] /\
  index_path s k (stamp ts) (sha256_hex b) = data_dir s ++ ["crashes"; "by-source"; tc_project t] ++
    [source_id; stamp ts +:+ "-" +:+ sha256_hex b +:+ ".json"].
Proof using CL SL.
  intros [-> Hv]%SourceKey_new_Ok Hp. unfold permits in Hp.
  apply andb_true_iff in Hp as [Hp%String.eqb_eq _]. simpl in Hp. subst project.
  by rewrite log_file_components, index_path_components.
Qed.
End Tenancy.

(** ** Instances and witnesses *)

#[export] Instance ToyArgon2 : Argon2Api := {
  PasswordHash := string;
  password_hash_new s := if starts_with "$" s then Ok s else Err "not a PHC string";
  verify_password p h := String.eqb (of_bytes p) (default "" (strip_prefix "$" h))
}.

#[export] Instance ToyHttp : HttpApi := {
  header_to_str b := if forallb (byte_in 32 126) b then Some (of_bytes b) else None
}.

#[export] Instance ToyHttpLaws : HttpLaws ToyHttp.
Proof.
  split; [|intros b Hb; cbn [header_to_str ToyHttp]; by rewrite Hb].
  intros b s. cbn [header_to_str ToyHttp]. destruct (forallb (byte_in 32 126) b) eqn:E; [|done].
  intros [= <-]. rewrite as_of_bytes. induction b as [|c b IH]; [done|].
  cbn [forallb] in E. apply andb_true_iff in E as [Hc Hb]. cbn [utf8_valid].
  replace (byte_in 0 127 c) with true; [by apply IH|]. symmetry. unfold byte_in in *.
  rewrite andb_true_iff, !N.leb_le in *. lia.
Defined.

Definition toy_config : TokensConfig := {|
  cfg_token := [{| te_id := "t"; te_secret := "$pw"; te_project := "p"; te_source_prefix := "p/" |}];
  cfg_rate_limit := None;
  cfg_schema := [{| se_project := "p"; se_kind := LogAttributes; se_path := ["s.json"] |}];
  cfg_schema_validation := SchemaOptions_default |}.

#[export] Instance ToyToml : TomlApi := { toml_from_str _ := Ok toy_config }.

Definition config_world : World := {|
  w_fs := {[ ["/"; "tokens.toml"] := File (as_bytes "x") 0;
             ["/"; "s.json"] := File (json_print (Bool true)) 0 ]};
  w_now := 0; w_clock := []; w_faults := []; w_uuids := 0; w_dir_mtime := fun _ => 0%Z |}.

Lemma security_config_sound_witness :
  match load_security_config ["/"; "tokens.toml"] config_world with
  | (Ok cfg, _) => ts_tokens (sec_token_store cfg) <> []
  | (Err _, _) => False
  end.
Proof.
  destruct (load_security_config ["/"; "tokens.toml"] config_world) as [[cfg|er] w'] eqn:E.
  - apply (security_config_sound ["/"; "tokens.toml"] config_world cfg w' E).
  - vm_compute in E. discriminate E.
Defined.

Lemma tenant_confinement_witness :
  let t := {| tc_id := "t"; tc_project := "p"; tc_source_prefix := "p/"; tc_secret_hash := "" |} in
  let k := {| sk_project := "p"; sk_source_id := "i" |} in
  permits t k = true /\
  log_file {| data_dir := ["/"; "d"] |} k (2%nat : NaiveDate) = ["/"; "d"; "logs"; "p"; "i"; "11.ndjson"].
Proof.
  intros t k. split; [reflexivity|].
  apply (tenant_confinement (C := ToyChrono) t {| data_dir := ["/"; "d"] |} "p" "i" k 2%nat 0%nat []);
    reflexivity.
Defined.
