(* ===== verification/State.v ===== *)
(** * detritus-server/src/server.rs: the state the HTTP handlers share

    Handlers run in [App]: computations on the application state and the world.
    The limiter and the metrics are shared by reference in the program, so one
    state value is threaded through all handlers. *)

From S2P Require Import Prelude RustStd Fs External Json Protocol Metrics Schemas Storage F64 RateLimit.

Section State.
Context `{V : JsonSchemaApi}.

Record AppState := {
  storage : StoragePaths;
  max_dump_bytes : Z;
  rate_limiter : RateLimiter binary64;
  metrics : Metrics;
  schema_registry : SchemaRegistry
}.

Definition with_metrics (st : AppState) (f : Metrics -> Metrics) : AppState :=
  {| storage := storage st; max_dump_bytes := max_dump_bytes st;
     rate_limiter := rate_limiter st; metrics := f (metrics st);
     schema_registry := schema_registry st |}.

Definition with_limiter (st : AppState) (rl : RateLimiter binary64) : AppState :=
  {| storage := storage st; max_dump_bytes := max_dump_bytes st;
     rate_limiter := rl; metrics := metrics st; schema_registry := schema_registry st |}.

Definition App (E A : Type) : Type := ST (AppState * World) E A.

(** A file-system program run by a handler. *)
Definition app_io {E A : Type} (m : IO E A) : App E A :=
  fun sw => let (r, w') := m sw.2 in (r, (sw.1, w')).

Definition get_state {E : Type} : App E AppState := fun sw => (Ok sw.1, sw).

Definition modify_metrics {E : Type} (f : Metrics -> Metrics) : App E unit :=
  fun sw => (Ok tt, (with_metrics sw.1 f, sw.2)).

(** A call of the limiter. *)
Definition app_limit {E : Type}
    (f : RateLimiter binary64 -> Result unit RateLimitError * RateLimiter binary64)
    (err : RateLimitError -> E) : App E unit :=
  fun sw => let (r, rl) := f (rate_limiter sw.1) in (map_err err r, (with_limiter sw.1 rl, sw.2)).

(** The parts of the state no handler changes. *)
Definition same_config (st st' : AppState) : Prop :=
  storage st' = storage st /\ max_dump_bytes st' = max_dump_bytes st /\
  schema_registry st' = schema_registry st.

#[export] Instance same_config_preorder : PreOrder same_config.
Proof. split; unfold same_config; [done|]. intros a b c; intuition congruence. Qed.

Lemma wp_app_io {E A : Type} (m : IO E A) (Q : Result A E -> AppState * World -> Prop) st w :
  wp m (fun r w' => Q r (st, w')) w -> wp (app_io m) Q (st, w).
Proof. unfold wp, app_io. simpl. by destruct (m w). Qed.

Lemma wp_modify_metrics {E : Type} f (Q : Result unit E -> AppState * World -> Prop) st w :
  (forall st', same_config st st' -> rate_limiter st' = rate_limiter st ->
     metrics st' = f (metrics st) -> Q (Ok tt) (st', w)) ->
  wp (modify_metrics f) Q (st, w).
Proof. intros H. by apply H. Qed.

Lemma wp_app_limit {E : Type} f (err : RateLimitError -> E) Q st w :
  (forall st', same_config st st' -> metrics st' = metrics st ->
     rate_limiter st' = (f (rate_limiter st)).2 ->
     Q (map_err err (f (rate_limiter st)).1) (st', w)) ->
  wp (app_limit f err) Q (st, w).
Proof.
  intros H. unfold wp, app_limit. simpl.
  specialize (H (with_limiter st (f (rate_limiter st)).2)).
  destruct (f (rate_limiter st)) as [r rl]. by apply H.
Qed.
End State.

Arguments AppState {V}.
