(* ===== verification/Crashes.v ===== *)
(** * detritus-server/src/crashes.rs: crash ingestion

    A request is its content-type header and the data frames of its body.
    Parts are streamed to [tmp/], hashed, and hard-linked into the
    content-addressed store; the index of the crash is written last. *)

From Stdlib Require Import Ascii.
From S2P Require Import Prelude RustStd Fs External Instances Json Protocol Metrics Schemas Storage F64 RateLimit Auth State.

Definition METADATA_MAX_BYTES : Z := 64 * 1024.

Record CrashResponse := { cr_id : string; cr_dedup : bool }.

Record BlobPointer := {
  bp_sha256 : string;
  bp_len : Z;
  bp_path : string;
  bp_dedup : bool;
  bp_content_encoding : option string
}.

Record AttachmentPointer := {
  ap_key : string;
  ap_content_type : string;
  ap_sha256 : string;
  ap_len : Z;
  ap_path : string;
  ap_dedup : bool;
  ap_content_encoding : option string
}.

Record CrashIndex `{UuidApi, ChronoApi} := {
  ci_metadata : CrashMetadata _ _;
  ci_dump : BlobPointer;
  ci_attachments : list AttachmentPointer
}.

(** [Panicked] is not an error of the program: it marks a slice out of range in
    [blob_path].  The other payloads of third-party errors are their texts. *)
Inductive CrashError :=
| BadRequest (message : string)
| MissingPart (name : string)
| ProtocolVersion (actual expected : Z)
| PermissionDenied
| RateLimited
| PayloadTooLarge (max : Z)
| CSchemaValidation (errors : list string)
| Internal (message : string)
| CJson (e : json_error)
| CMultipart (e : string)
| CStorage (e : StorageError)
| CIo (e : io_error)
| Panicked.

Definition status_code (e : CrashError) : Z :=
  match e with
  | BadRequest _ | MissingPart _ | CJson _ | CMultipart _ => 400
  | ProtocolVersion _ _ => 412
  | PermissionDenied => 403
  | RateLimited => 429
  | PayloadTooLarge _ => 413
  | CSchemaValidation _ => 422
  | Internal _ => 500
  | CStorage (InvalidComponent _ _) => 400
  | CStorage (StorageIo _) | CIo _ => 500
  | Panicked => 0
  end.

(** [format!("{kind:?}")] *)
Definition SchemaKind_debug (k : SchemaKind) : string :=
  match k with CrashMetadataKind => "CrashMetadata" | LogAttributes => "LogAttributes" end.

(** [CrashError::from_schema_error], with the [Display] of the other variants. *)
Definition from_schema_error (err : SchemaError) : CrashError :=
  match err with
  | SchemaValidation _ errors => CSchemaValidation errors
  | SchemaIo path e =>
      Internal ("schema I/O error reading `" +:+ path_display path +:+ "`: " +:+ message e)
  | SchemaParse path e =>
      Internal ("schema parse error in `" +:+ path_display path +:+ "`: " +:+ e)
  | UnknownSchema project kind =>
      Internal ("no schema registered for project `" +:+ project +:+ "` / kind `"
                +:+ SchemaKind_debug kind +:+ "`")
  end.

(** [CrashError]'s [Display]. *)
Definition CrashError_display (e : CrashError) : string :=
  match e with
  | BadRequest m => "bad request: " +:+ m
  | MissingPart p => "missing multipart part `" +:+ p +:+ "`"
  | ProtocolVersion actual expected =>
      "protocol version " +:+ Z_to_string actual +:+ " does not match " +:+ Z_to_string expected
  | PermissionDenied => "token is not permitted to write this source"
  | RateLimited => "crash rate limit exceeded"
  | PayloadTooLarge max => "payload exceeds maximum size of " +:+ Z_to_string max +:+ " bytes"
  | CSchemaValidation errors => "metadata schema validation failed: " +:+ join_with "; " errors
  | Internal m => "internal server error: " +:+ m
  | CJson e | CMultipart e => e
  | CStorage e => StorageError_display e
  | CIo e => message e
  | Panicked => ""
  end.

(** [IntoResponse for CrashError] *)
Definition CrashError_into_response (e : CrashError) : Response :=
  let status := status_code e in
  {| resp_status := status;
     resp_body := Object [("error", Object [("code", Num (PosInt status));
                                            ("message", Str (CrashError_display e))])] |}.

(** ** Derived serialization of the index *)

Definition skip_none (name : string) (o : option string) : list (string * Value) :=
  match o with Some s => [(name, Str s)] | None => [] end.

Definition ser_BlobPointer (b : BlobPointer) : Value :=
  Object ([("sha256", Str (bp_sha256 b)); ("len", Num (PosInt (bp_len b)));
           ("path", Str (bp_path b)); ("dedup", Bool (bp_dedup b))]
          ++ skip_none "content_encoding" (bp_content_encoding b)).

Definition ser_AttachmentPointer (a : AttachmentPointer) : Value :=
  Object ([("key", Str (ap_key a)); ("content_type", Str (ap_content_type a));
           ("sha256", Str (ap_sha256 a)); ("len", Num (PosInt (ap_len a)));
           ("path", Str (ap_path a)); ("dedup", Bool (ap_dedup a))]
          ++ skip_none "content_encoding" (ap_content_encoding a)).

Definition ser_CrashIndex `{UuidApi, ChronoApi} (i : CrashIndex) : Value :=
  Object [("metadata", ser_CrashMetadata (ci_metadata i)); ("dump", ser_BlobPointer (ci_dump i));
          ("attachments", Array (ser_AttachmentPointer <$> ci_attachments i))].

Section Crashes.
Context {U : UuidApi} {C : ChronoApi} {S : Sha256Api} {J : JsonText} {M : MulterApi}
  {HT : HttpApi} {V : JsonSchemaApi}.

(** [Uuid::new_v4()] *)
Definition uuid_new_v4 {E : Type} : IO E Uuid :=
  fun w => (Ok (new_v4 (w_uuids w)),
            {| w_fs := w_fs w; w_now := w_now w; w_clock := w_clock w; w_faults := w_faults w;
               w_uuids := w_uuids w + 1; w_dir_mtime := w_dir_mtime w |}).

Definition read_metadata_chunk (acc : bytes) (chunk : Result bytes string)
  : Result bytes CrashError :=
  let? c := map_err CMultipart chunk in
  if (METADATA_MAX_BYTES <? wrap_u64 (len_u64 acc + len_u64 c))%Z
  then Err (PayloadTooLarge METADATA_MAX_BYTES)
  else Ok (acc ++ c).

Definition read_metadata (field : Field) : Result (CrashMetadata U C) CrashError :=
  let? b := try_fold read_metadata_chunk [] (f_chunks field) in
  map_err CJson (metadata_from_slice b).

(** One iteration of the copy loop: the bytes counted and hashed so far. *)
Definition copy_chunk (temp_path : Path) (max_bytes : Z) (acc : Z * bytes)
    (chunk : Result bytes string) : IO CrashError (Z * bytes) :=
  let! c := io_lift (map_err CMultipart chunk) in
  let len := wrap_u64 (acc.1 + len_u64 c) in
  if (max_bytes <? len)%Z then
    io_try (remove_file temp_path);;! io_err (PayloadTooLarge max_bytes)
  else
    io_map_err CIo (write_all temp_path c);;!
    io_ret (len, acc.2 ++ c).

Definition finalize_blob (storage : StoragePaths) (temp_path : Path) (sha256 : string)
  : IO CrashError (string * bool) :=
  let! dest := io_lift (ok_or (blob_path storage sha256) Panicked) in
  match parent dest with
  | Some p => io_map_err CIo (create_dir_all p)
  | None => io_ret tt
  end;;!
  let! exists_ := io_map_err CIo (try_exists dest) in
  let! dedup :=
    if (exists_ : bool) then
      io_map_err CIo (remove_file temp_path);;! io_ret true
    else
      let! linked := io_try (hard_link temp_path dest) in
      match linked with
      | Ok _ => io_map_err CIo (remove_file temp_path);;! io_ret false
      | Err error =>
          if decide (kind error = AlreadyExists) then
            io_map_err CIo (remove_file temp_path);;! io_ret true
          else io_try (remove_file temp_path);;! io_err (CIo error)
      end in
  io_ret (path_display (relative_to_data_dir storage dest), dedup).

Definition temp_path (storage : StoragePaths) (u : Uuid) : Path :=
  join (tmp_dir storage) (uuid_to_string u +:+ ".tmp").

Definition write_part_to_blob (storage : StoragePaths) (field : Field) (max_bytes : Z)
  : IO CrashError BlobPointer :=
  let content_encoding := f_content_encoding field ≫= header_to_str in
  io_map_err CIo (create_dir_all (tmp_dir storage));;!
  let! u := uuid_new_v4 in
  let temp := temp_path storage u in
  io_map_err CIo (file_create temp);;!
  let! acc := io_fold (copy_chunk temp max_bytes) (0%Z, []) (f_chunks field) in
  io_map_err CIo (sync_file temp);;!
  io_map_err CIo (sync_file temp);;!
  let sha256 := sha256_hex acc.2 in
  let! (path, dedup) := finalize_blob storage temp sha256 in
  io_ret {| bp_sha256 := sha256; bp_len := acc.1; bp_path := path; bp_dedup := dedup;
            bp_content_encoding := content_encoding |}.

Definition write_index (storage : StoragePaths) (source : SourceKey) (metadata : CrashMetadata U C)
    (dump : BlobPointer) (attachments : list AttachmentPointer) : IO CrashError unit :=
  let path := index_path storage source (stamp (timestamp metadata)) (bp_sha256 dump) in
  match parent path with
  | Some p => io_map_err CIo (create_dir_all p)
  | None => io_ret tt
  end;;!
  let index := {| ci_metadata := metadata; ci_dump := dump; ci_attachments := attachments |} in
  io_map_err CIo (fs_write path (json_print_pretty (ser_CrashIndex index))).

(** One iteration of the part loop of [crashes_inner]. *)
Definition ingest_part (storage : StoragePaths) (max_bytes : Z)
    (acc : option BlobPointer * list AttachmentPointer) (next : Result Field string)
  : IO CrashError (option BlobPointer * list AttachmentPointer) :=
  let (dump, attachments) := acc in
  let! field := io_lift (map_err CMultipart next) in
  let! name := io_lift (ok_or (f_name field) (BadRequest "multipart part is missing a name")) in
  if String.eqb name "metadata" then
    io_err (BadRequest "metadata part must appear exactly once")
  else if String.eqb name "dump" then
    match dump with
    | Some _ => io_err (BadRequest "dump part must appear exactly once")
    | None =>
        let! pointer := write_part_to_blob storage field max_bytes in
        io_ret (Some pointer, attachments)
    end
  else if starts_with "attach:" name then
    let! key := io_lift (ok_or (strip_prefix "attach:" name) (BadRequest "invalid attachment name")) in
    let content_type := default "application/octet-stream" (f_content_type field) in
    let! pointer := write_part_to_blob storage field max_bytes in
    io_ret (dump, attachments ++ [{| ap_key := key; ap_content_type := content_type;
      ap_sha256 := bp_sha256 pointer; ap_len := bp_len pointer; ap_path := bp_path pointer;
      ap_dedup := bp_dedup pointer; ap_content_encoding := bp_content_encoding pointer |}])
  else io_err (BadRequest ("unexpected part `" +:+ name +:+ "`")).

(** A request: its content-type header and the data frames of its body. *)
Record CrashRequest := { rq_content_type : option bytes; rq_body : list (Result bytes string) }.

(** The parts of the request. *)
Definition request_fields (rq : CrashRequest) : Result (list (Result Field string)) CrashError :=
  let? raw := ok_or (rq_content_type rq) (BadRequest "missing content-type header") in
  let? content_type := ok_or (header_to_str raw) (BadRequest "content-type header is not UTF-8") in
  let? boundary := map_err (fun _ => BadRequest "missing multipart boundary")
                     (parse_boundary content_type) in
  Ok (multipart (rq_body rq) boundary).

(** The first part, up to [read_metadata], and the parts that follow it. *)
Definition first_part (fields : list (Result Field string))
  : Result (CrashMetadata U C * list (Result Field string)) CrashError :=
  match fields with
  | [] => Err (MissingPart "metadata")
  | next :: rest =>
      let? metadata_field := map_err CMultipart next in
      if decide (f_name metadata_field = Some "metadata") then
        let? metadata := read_metadata metadata_field in
        Ok (metadata, rest)
      else Err (BadRequest "first multipart part must be `metadata`")
  end.

(** [now] is the instant of the rate-limit check. *)
Definition crashes_inner (token : TokenContext) (rq : CrashRequest) (now : Z)
  : App CrashError (Z * CrashResponse) :=
  let! st := get_state in
  let! fields := io_lift (request_fields rq) in
  let! (metadata, rest) := io_lift (first_part fields) in
  (if (schema_version metadata =? PROTOCOL_VERSION)%Z then io_ret tt
   else io_err (ProtocolVersion (schema_version metadata) PROTOCOL_VERSION));;!
  let! source := io_lift (map_err CStorage
    (SourceKey_new (src_project (md_source metadata))
                   (uuid_to_string (src_install_id (md_source metadata))))) in
  (if permits token source then io_ret tt else io_err PermissionDenied);;!
  app_limit (fun rl => check_crashes rl now (tc_id token) source) (fun _ => RateLimited);;!
  let metadata_value := metadata_to_value metadata in
  match validate (schema_registry st) (src_project (md_source metadata)) CrashMetadataKind
          metadata_value with
  | Err schema_err =>
      modify_metrics (fun m => observe_validation_failure m "crashes");;!
      io_err (from_schema_error schema_err)
  | Ok _ => io_ret tt
  end;;!
  let! (dump, attachments) :=
    app_io (io_fold (ingest_part (storage st) (max_dump_bytes st)) (None, []) rest) in
  let! dump := io_lift (ok_or dump (MissingPart "dump")) in
  modify_metrics (fun m => observe_bytes m "crashes" (bp_len dump));;!
  modify_metrics (fun m => if bp_dedup dump then observe_dedup_hit m else m);;!
  app_io (write_index (storage st) source metadata dump attachments);;!
  io_ret (201%Z, {| cr_id := bp_sha256 dump; cr_dedup := bp_dedup dump |}).

Definition crashes_handler (token : TokenContext) (rq : CrashRequest) (now elapsed : Z)
  : App CrashError (Z * CrashResponse) :=
  let! result := io_try (crashes_inner token rq now) in
  let status := match result with Ok (status, _) => status | Err e => status_code e end in
  modify_metrics (fun m => observe_request m "crashes" (Z_to_string status) elapsed);;!
  io_lift result.
End Crashes.
