(* ===== verification/CrashStore.v ===== *)
(** * Properties of crash ingestion: the content-addressed store and the index *)

From Stdlib Require Import Ascii.
From S2P Require Import Prelude RustStd Fs External Instances Json Protocol Metrics Schemas Storage F64 RateLimit Auth State Crashes.

Section Store.
Context {U : UuidApi} {UL : UuidLaws U} {C : ChronoApi} {CL : ChronoLaws C}
  {S : Sha256Api} {SL : Sha256Laws S}.
Implicit Types (s : StoragePaths) (q : Path) (fs : gmap Path Node).

Definition is_tmp s q : Prop := exists u, q = temp_path s u.
Definition is_blob s q : Prop := exists b, blob_path s (sha256_hex b) = Some q.

(** The invariant of the store: what lies at the path of a hash is a file whose
    content has that hash. *)
Definition store_ok s fs : Prop :=
  forall b p n, blob_path s (sha256_hex b) = Some p -> fs !! p = Some n ->
    exists c t, n = File c t /\ sha256_hex c = sha256_hex b.

(** How ingestion may change the file system: temporary files, blobs and the
    paths of [X]; blobs are only ever added, and the invariant is kept. *)
Definition evolves s (X : Path -> Prop) fs fs' : Prop :=
  only (fun q => is_tmp s q \/ is_blob s q \/ X q) fs fs' /\
  (forall q n, is_blob s q -> fs !! q = Some n -> fs' !! q = Some n) /\
  (store_ok s fs -> store_ok s fs').

#[export] Instance evolves_refl s X : Reflexive (evolves s X).
Proof. intros fs. split; [reflexivity|]. auto. Qed.

#[export] Instance evolves_trans s X : Transitive (evolves s X).
Proof.
  intros f1 f2 f3 (O1 & B1 & K1) (O2 & B2 & K2).
  split; [by transitivity f2|]. split; auto.
Qed.

Lemma evolves_mono s (X Y : Path -> Prop) fs fs' :
  (forall q, X q -> Y q) -> evolves s X fs fs' -> evolves s Y fs fs'.
Proof.
  intros HXY (O & B & K). split; [|done].
  eapply only_mono; [|done]. simpl. intuition auto.
Qed.

(** ** The three kinds of paths *)

Lemma temp_path_components s u :
  temp_path s u = data_dir s ++ ["tmp"; uuid_to_string u +:+ ".tmp"].
Proof using UL.
  unfold temp_path, tmp_dir.
  destruct (normal_component_ext (uuid_to_string u) "tmp") as [Hn _]; [apply uuid_no_slash|done|done|].
  simpl in Hn. rewrite !join_normal by done. by rewrite <- app_assoc.
Qed.

Lemma tmp_dir_components s : tmp_dir s = data_dir s ++ ["tmp"].
Proof. unfold tmp_dir. by rewrite join_normal. Qed.

Lemma is_blob_components s q :
  is_blob s q -> exists p h, q = data_dir s ++ ["crashes"; "by-hash"; p; h].
Proof using SL.
  intros [b Hb]. destruct (blob_path_components s b) as (p & _ & Hp). simplify_eq. eauto.
Qed.

Lemma blob_path_inj s b b' q :
  blob_path s (sha256_hex b) = Some q -> blob_path s (sha256_hex b') = Some q ->
  sha256_hex b = sha256_hex b'.
Proof using SL.
  destruct (blob_path_components s b) as (p & _ & ->).
  destruct (blob_path_components s b') as (p' & _ & ->).
  intros [= <-] [= H]. apply app_inv_head in H. injection H as _ H.
  symmetry. by apply append_inv_tail in H.
Qed.

Lemma blob_not_prefix s q r :
  is_blob s q -> (forall p h, ~ ["crashes"; "by-hash"; p; h] `prefix_of` r) ->
  ~ q `prefix_of` data_dir s ++ r.
Proof using SL.
  intros (p & h & ->)%is_blob_components Hr Hp. by apply prefix_app_inv in Hp; apply (Hr p h).
Qed.

Lemma blob_not_eq s q r :
  is_blob s q -> (forall p h, ["crashes"; "by-hash"; p; h] <> r) -> q <> data_dir s ++ r.
Proof using SL.
  intros (p & h & ->)%is_blob_components Hr Hp. by apply app_inv_head in Hp; apply (Hr p h).
Qed.

Lemma blob_not_tmp s q u : is_blob s q -> q <> temp_path s u.
Proof using UL SL. rewrite temp_path_components. intros H. by apply blob_not_eq. Qed.

(** ** Steps of an evolution *)

(** A change that leaves every blob path alone. *)
Lemma evolves_frame s X fs fs' :
  only (fun q => is_tmp s q \/ is_blob s q \/ X q) fs fs' ->
  (forall q, is_blob s q -> fs' !! q = fs !! q) -> evolves s X fs fs'.
Proof.
  intros HO HB. split; [done|]. split.
  - intros q n Hq. by rewrite HB.
  - intros Hok b p n Hb. rewrite HB by (by exists b). by apply Hok.
Qed.

Lemma evolves_dirs s X fs fs' r :
  only (fun _ => False) fs fs' ->
  (forall q, ~ q `prefix_of` data_dir s ++ r -> fs' !! q = fs !! q) ->
  (forall p h, ~ ["crashes"; "by-hash"; p; h] `prefix_of` r) -> evolves s X fs fs'.
Proof using SL.
  intros HO Hf Hr. apply evolves_frame; [by eapply only_mono; [|done]|].
  intros q Hq. by apply Hf, blob_not_prefix.
Qed.

Lemma evolves_tmp s X fs fs' u :
  (forall q, q <> temp_path s u -> fs' !! q = fs !! q) -> evolves s X fs fs'.
Proof using UL SL.
  intros Hf. apply evolves_frame.
  - intros q. destruct (decide (q = temp_path s u)) as [->|Hq]; [|by right; left; auto].
    left; left. by exists u.
  - intros q Hq. by apply Hf, blob_not_tmp.
Qed.

(** Linking a new blob under the hash of its content. *)
Lemma evolves_link s X fs q b t :
  blob_path s (sha256_hex b) = Some q -> fs !! q = None ->
  evolves s X fs (<[q := File b t]> fs).
Proof using SL.
  intros Hq Hn. split; [|split].
  - apply only_insert. right; left. by exists b.
  - intros q' n Hq' Hl. destruct (decide (q = q')) as [->|]; [congruence|]. by rewrite lookup_insert_ne.
  - intros Hok b' p n Hp. destruct (decide (q = p)) as [->|Hne].
    + rewrite lookup_insert_eq. intros [= <-]. exists b, t. split; [done|].
      by apply (blob_path_inj s _ _ p).
    + rewrite lookup_insert_ne by done. by apply Hok.
Qed.
End Store.

(** ** One part *)

(** The content of a field whose body arrives without errors. *)
Definition field_bytes (f : Field) : option bytes :=
  match try_map (fun c => c) (f_chunks f) with Ok cs => Some (concat cs) | Err _ => None end.

(** A buffer is at most [isize::MAX] bytes long. *)
Definition chunk_fits (c : Result bytes string) : Prop :=
  match c with Ok b => (len_u64 b < 2 ^ 63)%Z | Err _ => True end.

Definition field_fits (f : Result Field string) : Prop :=
  match f with Ok f => Forall chunk_fits (f_chunks f) | Err _ => True end.

(** The errors storing a part can end in. *)
Definition part_error (e : CrashError) : bool :=
  match e with CMultipart _ | PayloadTooLarge _ | CIo _ => true | _ => false end.

Lemma wrap_small n : (0 <= n < 2 ^ 64)%Z -> wrap_u64 n = n.
Proof. apply Z.mod_small. Qed.

Lemma len_u64_app a b : len_u64 (a ++ b) = (len_u64 a + len_u64 b)%Z.
Proof. unfold len_u64. rewrite length_app. lia. Qed.

Lemma len_u64_nonneg b : (0 <= len_u64 b)%Z.
Proof. unfold len_u64. lia. Qed.

Lemma wrap_len acc c m :
  (len_u64 acc <= m)%Z -> (m < 2 ^ 63)%Z -> (len_u64 c < 2 ^ 63)%Z ->
  wrap_u64 (len_u64 acc + len_u64 c) = len_u64 (acc ++ c).
Proof.
  intros. rewrite len_u64_app. apply wrap_small.
  pose proof (len_u64_nonneg acc). pose proof (len_u64_nonneg c). lia.
Qed.

Lemma append_to_file p b now fs c t :
  fs !! p = Some (File c t) -> append_to p b now fs = <[p := File (c ++ b) now]> fs.
Proof. intros H. unfold append_to. by rewrite H. Qed.

(** The file system away from one path. *)
Definition except (p : Path) (fs fs' : gmap Path Node) : Prop :=
  forall q, q <> p -> fs' !! q = fs !! q.

#[export] Instance except_refl p : Reflexive (except p).
Proof. by intros fs q. Qed.

#[export] Instance except_trans p : Transitive (except p).
Proof. intros f1 f2 f3 H1 H2 q Hq. by rewrite H2, H1. Qed.

Lemma except_insert p n fs : except p fs (<[p := n]> fs).
Proof. intros q Hq. by rewrite lookup_insert_ne. Qed.

Lemma except_delete p fs : except p fs (delete p fs).
Proof. intros q Hq. by rewrite lookup_delete_ne. Qed.

Lemma except_append_to p b now fs : except p fs (append_to p b now fs).
Proof. unfold append_to. destruct (fs !! p) as [[]|]; try reflexivity. apply except_insert. Qed.

#[export] Hint Resolve except_insert except_delete except_append_to : detritus.

(** Removing a file only ever affects that file. *)
Lemma wp_remove_except p Q w :
  (forall r w', w_now w' = w_now w -> except p (w_fs w) (w_fs w') -> Q r w') ->
  wp (remove_file p) Q w.
Proof.
  intros HQ. apply wp_remove_file.
  - intros c t w' _ Henv Hfs. apply HQ; [apply Henv|]. rewrite Hfs. auto with detritus.
  - intros e w' Henv Hfs. apply HQ; [apply Henv|]. by rewrite Hfs.
Qed.

Lemma wp_copy_chunks temp max chunks Q w t :
  (0 <= max < 2 ^ 63)%Z -> Forall chunk_fits chunks ->
  w_fs w !! temp = Some (File [] t) ->
  (forall cs t' w', try_map (fun c => c) chunks = Ok cs -> (len_u64 (concat cs) <= max)%Z ->
     w_now w' = w_now w -> except temp (w_fs w) (w_fs w') ->
     w_fs w' !! temp = Some (File (concat cs) t') ->
     Q (Ok (len_u64 (concat cs), concat cs)) w') ->
  (forall e w', part_error e = true -> w_now w' = w_now w -> except temp (w_fs w) (w_fs w') ->
     Q (Err e) w') ->
  wp (io_fold (copy_chunk temp max) (0%Z, []) chunks) Q w.
Proof.
  intros Hmax Hfits Ht HO HE.
  apply (wp_fold _ (fun acc rest w' => w_now w' = w_now w /\ except temp (w_fs w) (w_fs w') /\
    (exists t', w_fs w' !! temp = Some (File acc.2 t')) /\
    acc.1 = len_u64 acc.2 /\ (acc.1 <= max)%Z /\ Forall chunk_fits rest /\
    exists ds, chunks = (Ok <$> ds) ++ rest /\ acc.2 = concat ds)).
  - intros [len acc] x rest w1 (Hn & Hex & (t1 & Ht1) & Hlen & Hle & Hrest & ds & Hds & Hacc).
    simpl in *. subst len. apply Forall_cons in Hrest as [Hx Hrest].
    unfold copy_chunk. apply wp_bind, wp_lift. destruct x as [c|e]; simpl; [|by apply HE].
    rewrite (wrap_len acc c max) by (simpl in Hx; lia).
    destruct (Z.ltb_spec max (len_u64 (acc ++ c))).
    + apply wp_bind, wp_try, wp_remove_except. intros r w2 Hn2 Hex2. apply wp_err, HE; [done|congruence|].
      by transitivity (w_fs w1).
    + apply wp_bind, wp_map_err, wp_write_all.
      * intros w2 Henv Hfs. simpl. apply wp_ret.
        rewrite (append_to_file _ _ _ _ _ _ Ht1) in Hfs. rewrite Hfs.
        split; [destruct Henv as [-> _]; done|]. split; [etransitivity; [done|auto with detritus]|].
        split; [eexists; apply lookup_insert_eq|]. repeat split; try done.
        exists (ds ++ [c]). rewrite fmap_app, <- app_assoc. split; [done|].
        rewrite concat_app. simpl. by rewrite app_nil_r, <- Hacc.
      * intros e n w2 Henv Hfs. simpl. apply HE; [done|destruct Henv as [-> _]; done|].
        rewrite Hfs. etransitivity; [done|auto with detritus].
  - intros [len acc] w1 (Hn & Hex & (t1 & Ht1) & Hlen & Hle & _ & ds & Hds & Hacc).
    simpl in *. subst len acc. apply HO with t1; try done.
    rewrite Hds, app_nil_r. apply try_map_Forall2. clear. by induction ds; constructor.
  - simpl. repeat split; try done; [by eauto|lia|]. by exists [].
Qed.

Section Parts.
Context {U : UuidApi} {UL : UuidLaws U} {C : ChronoApi} {CL : ChronoLaws C}
  {S : Sha256Api} {SL : Sha256Laws S} {J : JsonText} {M : MulterApi} {HT : HttpApi}
  {V : JsonSchemaApi}.
Implicit Types (s : StoragePaths) (q : Path) (fs : gmap Path Node).

Lemma blob_parent s b dest :
  blob_path s (sha256_hex b) = Some dest ->
  exists p, parent dest = Some (data_dir s ++ ["crashes"; "by-hash"; p]).
Proof using SL.
  destruct (blob_path_components s b) as (p & _ & ->). intros [= <-]. exists p.
  change ["crashes"; "by-hash"; p; sha256_hex b +:+ ".bin"]
    with (["crashes"; "by-hash"; p] ++ [sha256_hex b +:+ ".bin"]).
  rewrite app_assoc. apply parent_snoc.
  intros H. apply (f_equal String.length) in H. rewrite append_length in H. simpl in H. lia.
Qed.

Lemma short_not_blob p h r : (length r < 4)%nat -> ~ ["crashes"; "by-hash"; p; h] `prefix_of` r.
Proof. intros Hr Hp%prefix_length. simpl in Hp. lia. Qed.

(** What a finished blob leaves behind. *)
Definition linked s b dest fs (dedup : bool) fs' : Prop :=
  blob_path s (sha256_hex b) = Some dest /\
  if dedup then is_Some (fs !! dest) else fs !! dest = None /\ exists t, fs' !! dest = Some (File b t).

(** The removal that ends a finalization: only the temporary file goes. *)
Lemma wp_finish s u X (w0 w : World) (dedup : bool) (Q : Result bool CrashError -> World -> Prop) :
  evolves s X (w_fs w0) (w_fs w) -> w_now w = w_now w0 ->
  (forall w', evolves s X (w_fs w0) (w_fs w') -> w_now w' = w_now w0 ->
     except (temp_path s u) (w_fs w) (w_fs w') -> w_fs w' !! temp_path s u = None ->
     Q (Ok dedup) w') ->
  (forall e w', part_error e = true -> evolves s X (w_fs w0) (w_fs w') -> w_now w' = w_now w0 ->
     Q (Err e) w') ->
  wp (io_map_err CIo (remove_file (temp_path s u));;! io_ret dedup) Q w.
Proof using UL SL.
  intros Hev Hn HO HE. apply wp_bind, wp_map_err, wp_remove_file.
  - intros c t w' _ Henv Hfs. simpl. apply wp_ret, HO; rewrite ?Hfs; auto with detritus.
    + etransitivity; [done|]. apply (evolves_tmp s X _ _ u). apply except_delete.
    + destruct Henv as [-> _]; done.
    + apply lookup_delete_eq.
  - intros e w' Henv Hfs. simpl. apply HE; [done|by rewrite Hfs|destruct Henv as [-> _]; done].
Qed.

Lemma wp_finalize_blob s u b t X Q w :
  w_fs w !! temp_path s u = Some (File b t) ->
  (forall dest dedup w', linked s b dest (w_fs w) dedup (w_fs w') -> w_now w' = w_now w ->
     evolves s X (w_fs w) (w_fs w') -> w_fs w' !! temp_path s u = None ->
     Q (Ok (path_display (relative_to_data_dir s dest), dedup)) w') ->
  (forall e w', part_error e = true -> w_now w' = w_now w -> evolves s X (w_fs w) (w_fs w') ->
     Q (Err e) w') ->
  wp (finalize_blob s (temp_path s u) (sha256_hex b)) Q w.
Proof using UL SL.
  intros Ht HO HE. unfold finalize_blob.
  destruct (blob_path_components s b) as (pre & _ & Hdest).
  assert (exists dest, blob_path s (sha256_hex b) = Some dest) as [dest Hd] by eauto.
  rewrite Hd. destruct (blob_parent s b dest Hd) as [p Hp].
  assert (is_blob s dest) as Hblob by (by exists b).
  apply wp_bind, wp_lift. cbn [ok_or]. rewrite Hp.
  apply wp_bind, wp_map_err, wp_create_dir_all. intros r w1 Henv1 Ho1 Hf1 _.
  assert (evolves s X (w_fs w) (w_fs w1)) as Hev1.
  { apply (evolves_dirs s X _ _ ["crashes"; "by-hash"; p]); try done.
    intros. apply short_not_blob; simpl; lia. }
  assert (w_fs w1 !! dest = w_fs w !! dest) as Hdest1.
  { apply Hf1, blob_not_prefix; [done|]. intros. apply short_not_blob; simpl; lia. }
  assert (w_fs w1 !! temp_path s u = Some (File b t)) as Ht1 by (by eapply only_some; [done|tauto|]).
  assert (w_now w1 = w_now w) as Hn1 by apply Henv1.
  destruct r as [[]|e]; [|by apply HE]. cbn [map_err].
  apply wp_bind, wp_map_err, wp_try_exists; [|intros e w2 [Hn2 _] Hfs2; apply HE;
    [done|congruence|by rewrite Hfs2]].
  intros w2 [Hn2 _] Hfs2. cbn [map_err]. apply wp_bind.
  assert (temp_path s u <> dest) as Htd by (intros H; by eapply blob_not_tmp).
  case_bool_decide as Hex.
  - apply (wp_finish s u X w); [by rewrite Hfs2|congruence| |by intros; apply HE].
    intros w3 Hev3 Hn3 _ Hgone. apply wp_ret, HO; try done. split; [done|]. by rewrite <- Hdest1.
  - apply wp_bind, wp_try, wp_hard_link.
    + intros c t' w3 Hsrc _ [Hn3 _] Hfs3. rewrite Hfs2 in Hsrc, Hfs3.
      assert (c = b /\ t' = t) as [-> ->] by (split; congruence).
      assert (w_fs w !! dest = None) as Hnone.
      { rewrite <- Hdest1. by apply eq_None_not_Some. }
      apply (wp_finish s u X w); [|congruence| |by intros; apply HE].
      * rewrite Hfs3. etransitivity; [done|]. apply evolves_link; [done|congruence].
      * intros w4 Hev4 Hn4 Hexc Hgone. apply wp_ret, HO; try done. split; [done|]. split; [done|].
        exists t. rewrite Hexc by done. rewrite Hfs3. apply lookup_insert_eq.
    + intros e w3 He [Hn3 _] Hfs3. case_decide as Hk.
      * exfalso. apply Hex. rewrite <- Hfs2. auto.
      * apply wp_bind, wp_try, wp_remove_except. intros r w4 Hn4 Hex4. apply wp_err, HE; [done|congruence|].
        etransitivity; [done|]. apply (evolves_tmp s X _ _ u). rewrite <- Hfs2, <- Hfs3. apply Hex4.
Qed.

(** A pointer describes a stored content. *)
Definition pointer_for s fs (b : bytes) (p : BlobPointer) : Prop :=
  bp_sha256 p = sha256_hex b /\ bp_len p = len_u64 b /\
  exists dest c t, blob_path s (sha256_hex b) = Some dest /\
    bp_path p = path_display (relative_to_data_dir s dest) /\
    fs !! dest = Some (File c t) /\ sha256_hex c = sha256_hex b /\
    (bp_dedup p = false -> c = b).

(** No blob is changed or removed. *)
Definition keeps_blobs s fs fs' : Prop := forall q n, is_blob s q -> fs !! q = Some n -> fs' !! q = Some n.

Lemma evolves_keeps_blobs s X fs fs' : evolves s X fs fs' -> keeps_blobs s fs fs'.
Proof. by intros (_ & HB & _). Qed.

Lemma pointer_for_kept s fs fs' b p :
  keeps_blobs s fs fs' -> pointer_for s fs b p -> pointer_for s fs' b p.
Proof.
  intros HB (? & ? & dest & c & t & ? & ? & ? & ? & ?).
  repeat split; try done. exists dest, c, t. repeat split; try done. apply HB; [by exists b|done].
Qed.

Lemma wp_write_part s field max X Q w :
  (0 <= max < 2 ^ 63)%Z -> Forall chunk_fits (f_chunks field) -> store_ok s (w_fs w) ->
  (forall b p w', field_bytes field = Some b -> (len_u64 b <= max)%Z ->
     bp_content_encoding p = (f_content_encoding field ≫= header_to_str) ->
     w_now w' = w_now w -> evolves s X (w_fs w) (w_fs w') -> pointer_for s (w_fs w') b p ->
     Q (Ok p) w') ->
  (forall e w', part_error e = true -> w_now w' = w_now w -> evolves s X (w_fs w) (w_fs w') ->
     Q (Err e) w') ->
  wp (write_part_to_blob s field max) Q w.
Proof using UL SL.
  intros Hmax Hfits Hok HO HE. unfold write_part_to_blob. rewrite tmp_dir_components.
  apply wp_bind, wp_map_err, wp_create_dir_all. intros r w1 [Hn1 _] Ho1 Hf1 _.
  assert (evolves s X (w_fs w) (w_fs w1)) as Hev1.
  { apply (evolves_dirs s X _ _ ["tmp"]); try done. intros. apply short_not_blob; simpl; lia. }
  destruct r as [[]|e]; [|by apply HE]. cbn [map_err].
  apply wp_bind. unfold uuid_new_v4, wp at 1. cbn [fst snd]. set (u := new_v4 (w_uuids w1)).
  apply wp_bind, wp_map_err, wp_file_create; cycle 1; cbn [w_fs w_now].
  { intros e w2 [Hn2 _] Hfs2. apply HE; [done|simpl in Hn2; congruence|]. by rewrite Hfs2. }
  intros w2 [Hn2 _] Hfs2. cbn [map_err].
  assert (evolves s X (w_fs w) (w_fs w2)) as Hev2.
  { etransitivity; [done|]. apply (evolves_tmp s X _ _ u). rewrite Hfs2. apply except_insert. }
  apply wp_bind, (wp_copy_chunks _ _ _ _ _ (w_now w1)); [done|done|by rewrite Hfs2, lookup_insert_eq| |].
  2: { intros e w3 He Hn3 Hex3. apply HE; [done|simpl in Hn2; congruence|].
       etransitivity; [exact Hev2|]. by apply (evolves_tmp s X _ _ u). }
  intros cs t w3 Hcs Hle Hn3 Hex3 Ht3.
  assert (evolves s X (w_fs w) (w_fs w3)) as Hev3.
  { etransitivity; [exact Hev2|]. by apply (evolves_tmp s X _ _ u). }
  simpl in Hn2.
  apply wp_bind, wp_map_err, wp_sync_file. intros [[]|e] w4 [Hn4 _] Hfs4; cbn [map_err];
    [|apply HE; [done|congruence|by rewrite Hfs4]].
  apply wp_bind, wp_map_err, wp_sync_file. intros [[]|e] w5 [Hn5 _] Hfs5; cbn [map_err fst snd];
    [|apply HE; [done|congruence|by rewrite Hfs5, Hfs4]].
  rewrite Hfs4 in Hfs5.
  apply wp_bind, (wp_finalize_blob s u (concat cs) t X); [by rewrite Hfs5| |].
  2: { intros e w6 He Hn6 Hev6. apply HE; [done|congruence|]. rewrite Hfs5 in Hev6.
       by transitivity (w_fs w3). }
  intros dest dedup w6 [Hd Hlinked] Hn6 Hev6 _. apply wp_ret. rewrite Hfs5 in Hev6, Hlinked.
  assert (evolves s X (w_fs w) (w_fs w6)) as Hev by (by transitivity (w_fs w3)).
  apply (HO (concat cs)); [by unfold field_bytes; rewrite Hcs|done|done|congruence|done|].
  repeat split; try done. destruct dedup; simpl.
  - destruct Hlinked as [n Hn]. destruct Hev3 as (_ & _ & Hok3).
    destruct (Hok3 Hok _ _ _ Hd Hn) as (c & tc & -> & Hc). exists dest, c, tc.
    repeat split; try done. destruct Hev6 as (_ & HB & _). apply HB; [by eexists|done].
  - destruct Hlinked as [_ [t' Ht']]. exists dest, (concat cs), t'. repeat split; done.
Qed.
End Parts.

(** ** The part loop *)

(** A part as the specification sees it: an attachment's key and content type
    ([None] for the dump), the content and its encoding. *)
Record Part := {
  p_attach : option (string * string);
  p_content : bytes;
  p_encoding : option string
}.

Definition ap_pointer (a : AttachmentPointer) : BlobPointer :=
  {| bp_sha256 := ap_sha256 a; bp_len := ap_len a; bp_path := ap_path a; bp_dedup := ap_dedup a;
     bp_content_encoding := ap_content_encoding a |}.

Section Ingest.
Context {U : UuidApi} {UL : UuidLaws U} {C : ChronoApi} {CL : ChronoLaws C}
  {S : Sha256Api} {SL : Sha256Laws S} {J : JsonText} {M : MulterApi} {HT : HttpApi}
  {V : JsonSchemaApi}.
Implicit Types (s : StoragePaths) (q : Path) (fs : gmap Path Node).

(** What a field after the metadata means. *)
Definition part_of (f : Field) : option Part :=
  name ← f_name f;
  b ← field_bytes f;
  let enc := f_content_encoding f ≫= header_to_str in
  if String.eqb name "dump" then Some {| p_attach := None; p_content := b; p_encoding := enc |}
  else key ← strip_prefix "attach:" name;
       Some {| p_attach := Some (key, default "application/octet-stream" (f_content_type f));
               p_content := b; p_encoding := enc |}.

Definition part_stored s fs (max : Z) (part : Part) (p : BlobPointer) : Prop :=
  pointer_for s fs (p_content part) p /\ bp_content_encoding p = p_encoding part /\
  (len_u64 (p_content part) <= max)%Z.

Definition attachment_stored s fs (max : Z) (part : Part) (a : AttachmentPointer) : Prop :=
  p_attach part = Some (ap_key a, ap_content_type a) /\ part_stored s fs max part (ap_pointer a).

(** The dump is the one part that is no attachment; attachments keep their order. *)
Definition ingested s fs (max : Z) (parts : list Part)
    (dump : option BlobPointer) (atts : list AttachmentPointer) : Prop :=
  Forall2 (part_stored s fs max) (filter (fun p => p_attach p = None) parts) (option_list dump) /\
  Forall2 (attachment_stored s fs max) (filter (fun p => p_attach p <> None) parts) atts.

Lemma part_stored_kept s fs fs' max part p :
  keeps_blobs s fs fs' -> part_stored s fs max part p -> part_stored s fs' max part p.
Proof. intros HB (H1 & H2 & H3). split_and!; [by eapply pointer_for_kept|done|done]. Qed.

Lemma ingested_kept s fs fs' max parts dump atts :
  keeps_blobs s fs fs' -> ingested s fs max parts dump atts -> ingested s fs' max parts dump atts.
Proof.
  intros HB [Hd Ha]. split.
  - eapply Forall2_impl; [exact Hd|]. intros. by eapply part_stored_kept.
  - eapply Forall2_impl; [exact Ha|]. intros p a [Hk Hp]. split; [done|]. by eapply part_stored_kept.
Qed.

Lemma ingested_evolves s X fs fs' max parts dump atts :
  evolves s X fs fs' -> ingested s fs max parts dump atts -> ingested s fs' max parts dump atts.
Proof. intros Hev. by eapply ingested_kept, evolves_keeps_blobs. Qed.

(** The errors the part loop can end in. *)
Definition loop_error (e : CrashError) : bool :=
  match e with BadRequest _ => true | _ => part_error e end.

Lemma loop_error_part e : part_error e = true -> loop_error e = true.
Proof. by destruct e. Qed.

Lemma filter_snoc {A : Type} (P : A -> Prop) `{forall x, Decision (P x)} l x :
  filter P (l ++ [x]) = filter P l ++ (if decide (P x) then [x] else []).
Proof. by rewrite filter_app, filter_cons, filter_nil. Qed.

(** One more part. *)
Lemma ingest_part_spec s max dump atts parts X next Q w :
  (0 <= max < 2 ^ 63)%Z -> field_fits next -> store_ok s (w_fs w) ->
  ingested s (w_fs w) max parts dump atts ->
  (forall f part dump' atts' w', next = Ok f -> part_of f = Some part -> w_now w' = w_now w ->
     evolves s X (w_fs w) (w_fs w') -> ingested s (w_fs w') max (parts ++ [part]) dump' atts' ->
     Q (Ok (dump', atts')) w') ->
  (forall e w', loop_error e = true -> w_now w' = w_now w -> evolves s X (w_fs w) (w_fs w') ->
     Q (Err e) w') ->
  wp (ingest_part s max (dump, atts) next) Q w.
Proof using UL SL.
  intros Hmax Hfits Hok Hing HO HE. unfold ingest_part.
  apply wp_bind, wp_lift. destruct next as [f|e]; [|by apply HE]. cbn [map_err].
  apply wp_bind, wp_lift. destruct (f_name f) as [name|] eqn:En; [|by apply HE]. cbn [ok_or].
  destruct (String.eqb_spec name "metadata"); [by apply wp_err, HE|].
  destruct (String.eqb name "dump") eqn:Ed.
  - destruct dump as [d|]; [by apply wp_err, HE|].
    apply wp_bind, (wp_write_part s f max X); try done; [|by intros; apply HE; [apply loop_error_part|..]].
    intros b p w' Hb Hle Henc Hn Hev Hp. apply wp_ret.
    eapply HO; [done| |done|done|].
    { unfold part_of. rewrite En, Hb. cbn [mbind option_bind]. by rewrite Ed. }
    destruct (ingested_evolves _ _ _ _ _ _ _ _ Hev Hing) as [Hd Ha].
    split; rewrite filter_snoc; simpl; [|by rewrite app_nil_r].
    apply Forall2_nil_inv_r in Hd as ->. apply Forall2_cons.
    split; [|by apply Forall2_nil]. split; [done|]. by split.
  - destruct (starts_with "attach:" name) eqn:Es; [|by apply wp_err, HE].
    apply wp_bind, wp_lift. destruct (strip_prefix "attach:" name) as [key|] eqn:Ek; [|by apply HE].
    cbn [ok_or].
    apply wp_bind, (wp_write_part s f max X); try done; [|by intros; apply HE; [apply loop_error_part|..]].
    intros b p w' Hb Hle Henc Hn Hev Hp. apply wp_ret.
    eapply HO; [done| |done|done|].
    { unfold part_of. rewrite En, Hb. cbn [mbind option_bind]. by rewrite Ed, Ek. }
    destruct (ingested_evolves _ _ _ _ _ _ _ _ Hev Hing) as [Hd Ha].
    split; rewrite filter_snoc; simpl; [by rewrite app_nil_r|].
    apply Forall2_app; [done|]. apply Forall2_cons. split; [|by apply Forall2_nil].
    split; [done|]. destruct p. split; [done|]. by split.
Qed.

Lemma wp_ingest_parts s max rest X Q w :
  (0 <= max < 2 ^ 63)%Z -> Forall field_fits rest -> store_ok s (w_fs w) ->
  (forall fields parts dump atts w', rest = Ok <$> fields -> Forall2 (fun f p => part_of f = Some p) fields parts ->
     w_now w' = w_now w -> evolves s X (w_fs w) (w_fs w') -> ingested s (w_fs w') max parts dump atts ->
     Q (Ok (dump, atts)) w') ->
  (forall e w', loop_error e = true -> w_now w' = w_now w -> evolves s X (w_fs w) (w_fs w') ->
     Q (Err e) w') ->
  wp (io_fold (ingest_part s max) (None, []) rest) Q w.
Proof using UL SL.
  intros Hmax Hfits Hok HO HE.
  apply (wp_fold _ (fun acc todo w' => w_now w' = w_now w /\ evolves s X (w_fs w) (w_fs w') /\
    Forall field_fits todo /\
    exists fields parts, rest = (Ok <$> fields) ++ todo /\
      Forall2 (fun f p => part_of f = Some p) fields parts /\
      ingested s (w_fs w') max parts acc.1 acc.2)).
  - intros [dump atts] x todo w1 (Hn & Hev & Hx & fields & parts & Hrest & Hparts & Hing). simpl in Hing.
    apply Forall_cons in Hx as [Hx Htodo].
    apply (ingest_part_spec s max dump atts parts X); try done; [by apply Hev| |].
    + intros f part dump' atts' w2 -> Hp Hn2 Hev2 Hing2. split; [congruence|].
      split; [by etransitivity|]. split; [done|]. exists (fields ++ [f]), (parts ++ [part]).
      rewrite fmap_app, <- app_assoc. split; [done|]. split; [|done].
      apply Forall2_app; [done|]. by repeat constructor.
    + intros e w2 He Hn2 Hev2. apply HE; [done|congruence|by etransitivity].
  - intros [dump atts] w1 (Hn & Hev & _ & fields & parts & Hrest & Hparts & Hing).
    rewrite app_nil_r in Hrest. by eapply HO.
  - split; [done|]. split; [reflexivity|]. split; [done|]. exists [], [].
    repeat split; constructor.
Qed.
End Ingest.
