(* ===== verification/CrashIngest.v ===== *)
(** * Properties of crash ingestion: the whole request *)

From Stdlib Require Import Ascii.
From S2P Require Import Prelude RustStd Fs External Instances Json Protocol Metrics Schemas Storage F64 RateLimit Auth State Crashes CrashStore.

(** Errors found before anything is written, and after. *)
Definition gate_error (e : CrashError) : bool :=
  match e with
  | CIo _ | CStorage (StorageIo _) | Internal _ | Panicked => false
  | _ => true
  end.

Definition late_error (e : CrashError) : bool :=
  match e with MissingPart _ => true | _ => loop_error e end.

Section Requests.
Context {U : UuidApi} {UL : UuidLaws U} {C : ChronoApi} {CL : ChronoLaws C}
  {S : Sha256Api} {SL : Sha256Laws S} {J : JsonText} {M : MulterApi} {HT : HttpApi}
  {V : JsonSchemaApi}.
Implicit Types (s : StoragePaths) (st : AppState) (w : World) (m : CrashMetadata U C) (k : SourceKey).

(** ** The index *)

Lemma index_parent s k ts b :
  SourceKey_valid k ->
  parent (index_path s k (stamp ts) (sha256_hex b)) =
    Some (data_dir s ++ ["crashes"; "by-source"; sk_project k; sk_source_id k]).
Proof using CL SL.
  intros Hk. rewrite index_path_components by done.
  change ["crashes"; "by-source"; sk_project k; sk_source_id k; stamp ts +:+ "-" +:+ sha256_hex b +:+ ".json"]
    with (["crashes"; "by-source"; sk_project k; sk_source_id k]
          ++ [stamp ts +:+ "-" +:+ sha256_hex b +:+ ".json"]).
  rewrite app_assoc. apply parent_snoc.
  intros H. apply (f_equal String.length) in H. rewrite !append_length in H. simpl in H. lia.
Qed.

Lemma by_source_not_blob p h l : ~ ["crashes"; "by-hash"; p; h] `prefix_of` ("crashes" :: "by-source" :: l).
Proof. intros [r Hr]. discriminate. Qed.

Lemma evolves_index s k ts b fs fs' :
  SourceKey_valid k -> except (index_path s k (stamp ts) (sha256_hex b)) fs fs' ->
  evolves s (fun q => q = index_path s k (stamp ts) (sha256_hex b)) fs fs'.
Proof using CL SL.
  intros Hk Hex. apply evolves_frame.
  - intros q. destruct (decide (q = index_path s k (stamp ts) (sha256_hex b))) as [->|Hq];
      [by auto|]. right; left. auto.
  - intros q Hq. apply Hex. rewrite index_path_components by done. by apply blob_not_eq.
Qed.

Lemma wp_fs_write p b Q w :
  (forall w', w_now w' = w_now w -> except p (w_fs w) (w_fs w') ->
     w_fs w' !! p = Some (File b (w_now w)) -> Q (Ok tt) w') ->
  (forall e w', w_now w' = w_now w -> except p (w_fs w) (w_fs w') ->
     (w_fs w' !! p = w_fs w !! p \/ exists n t, w_fs w' !! p = Some (File (take n b) t)) ->
     Q (Err e) w') ->
  wp (fs_write p b) Q w.
Proof.
  intros HO HE. unfold fs_write. apply wp_bind, wp_file_create.
  2: { intros e w1 [Hn _] Hfs. apply HE; [done|..]; rewrite Hfs; [done|by left]. }
  intros w1 [Hn1 _] Hfs1. apply wp_write_all.
  - intros w2 [Hn2 _] Hfs2. apply HO; [congruence|..]; rewrite Hfs2, Hfs1.
    + transitivity (<[p := File [] (w_now w)]> (w_fs w)); auto with detritus.
    + rewrite (append_to_file _ _ _ _ [] (w_now w)) by apply lookup_insert_eq.
      rewrite lookup_insert_eq. by rewrite Hn1.
  - intros e n w2 [Hn2 _] Hfs2. apply HE; [congruence|..]; rewrite Hfs2, Hfs1.
    + transitivity (<[p := File [] (w_now w)]> (w_fs w)); auto with detritus.
    + right. exists n, (w_now w1).
      rewrite (append_to_file _ _ _ _ [] (w_now w)) by apply lookup_insert_eq.
      by rewrite lookup_insert_eq.
Qed.

Lemma wp_write_index s k m b dump atts Q w :
  SourceKey_valid k -> bp_sha256 dump = sha256_hex b ->
  let path := index_path s k (stamp (timestamp m)) (sha256_hex b) in
  (forall w', w_now w' = w_now w -> evolves s (fun q => q = path) (w_fs w) (w_fs w') ->
     w_fs w' !! path = Some (File (json_print_pretty (ser_CrashIndex
       {| ci_metadata := m; ci_dump := dump; ci_attachments := atts |})) (w_now w)) -> Q (Ok tt) w') ->
  (forall e w', w_now w' = w_now w -> evolves s (fun q => q = path) (w_fs w) (w_fs w') ->
     (forall c t, w_fs w' !! path = Some (File c t) -> w_fs w !! path = Some (File c t) \/
        exists n, c = take n (json_print_pretty (ser_CrashIndex
          {| ci_metadata := m; ci_dump := dump; ci_attachments := atts |}))) ->
     Q (Err (CIo e)) w') ->
  wp (write_index s k m dump atts) Q w.
Proof using CL SL.
  intros Hk Hsha path HO HE. unfold write_index. rewrite Hsha.
  rewrite (index_parent s k (timestamp m) b Hk). fold path.
  apply wp_bind, wp_map_err, wp_create_dir_all. intros r w1 [Hn1 _] Ho1 Hf1 _.
  assert (evolves s (fun q => q = path) (w_fs w) (w_fs w1)) as Hev1.
  { eapply evolves_dirs; [done|done|]. intros. apply by_source_not_blob. }
  assert (forall c t, w_fs w1 !! path = Some (File c t) -> w_fs w !! path = Some (File c t)) as Hold
    by (intros c t Hc; apply (only_file _ _ _ _ _ _ Ho1) in Hc; tauto).
  destruct r as [[]|e]; [|apply HE; try done; by auto]. cbn [map_err].
  apply wp_map_err, wp_fs_write.
  - intros w2 Hn2 Hex2 Hp. apply HO; [congruence| |congruence].
    etransitivity; [done|]. by apply evolves_index.
  - intros e w2 Hn2 Hex2 Hc. apply HE; [congruence|etransitivity; [done|]; by apply evolves_index|].
    intros c t Hct. destruct Hc as [Hc|(n & t' & Hc)]; [left; apply Hold; congruence|].
    right. exists n. congruence.
Qed.

(** ** The gates *)

(** Every check that precedes the first write succeeds, on a request that
    carries metadata [m] of source [k] and then the parts [rest]. *)
Definition admitted st (token : TokenContext) (rq : CrashRequest) (now : Z)
    m (rest : list (Result Field string)) k : Prop :=
  (exists fields, request_fields rq = Ok fields /\ first_part fields = Ok (m, rest)) /\
  schema_version m = PROTOCOL_VERSION /\
  SourceKey_new (src_project (md_source m)) (uuid_to_string (src_install_id (md_source m))) = Ok k /\
  permits token k = true /\
  (check_crashes (rate_limiter st) now (tc_id token) k).1 = Ok tt /\
  validate (schema_registry st) (src_project (md_source m)) CrashMetadataKind
    (metadata_to_value m) = Ok tt.

Definition request_fits (rq : CrashRequest) : Prop :=
  forall fields, request_fields rq = Ok fields -> Forall field_fits fields.

Lemma read_metadata_error (f : Field) e : read_metadata f = Err e -> gate_error e = true.
Proof.
  unfold read_metadata. destruct (try_fold _ _ _) as [b|e'] eqn:E.
  - by destruct (metadata_from_slice b); simpl; intros [= <-].
  - intros [= <-]. revert E. generalize ([] : bytes). induction (f_chunks f) as [|c l IH]; [done|].
    intros acc. cbn [try_fold]. unfold read_metadata_chunk at 1.
    destruct c as [c|]; simpl; [|by intros [= <-]].
    destruct (_ <? _)%Z; [by intros [= <-]|apply IH].
Qed.

Lemma read_metadata_Ok (f : Field) m :
  Forall chunk_fits (f_chunks f) -> read_metadata f = Ok m ->
  exists b, field_bytes f = Some b /\ (len_u64 b <= METADATA_MAX_BYTES)%Z /\
    metadata_from_slice b = Ok m.
Proof.
  intros Hfits. unfold read_metadata, field_bytes.
  enough (forall l acc b, Forall chunk_fits l -> (len_u64 acc <= METADATA_MAX_BYTES)%Z ->
    try_fold read_metadata_chunk acc l = Ok b ->
    exists cs, try_map (fun c => c) l = Ok cs /\ b = acc ++ concat cs /\
      (len_u64 b <= METADATA_MAX_BYTES)%Z) as Hloop.
  { destruct (try_fold _ _ _) as [b|] eqn:E; [|done]. intros H%map_err_Ok.
    destruct (Hloop _ [] b Hfits) as (cs & -> & -> & Hle); [done|done|]. simpl in *. eauto. }
  induction l as [|c l IH]; intros acc b Hl Hacc; cbn [try_fold].
  - intros [= <-]. exists []. by rewrite app_nil_r.
  - apply Forall_cons in Hl as [Hc Hl]. unfold read_metadata_chunk at 1.
    destruct c as [c|]; simpl; [|done]. unfold METADATA_MAX_BYTES in *.
    rewrite (wrap_len acc c (64 * 1024)) by (simpl in Hc; lia).
    destruct (Z.ltb_spec (64 * 1024) (len_u64 (acc ++ c))); [done|].
    intros (cs & Hcs & -> & Hle)%IH; [|done|done].
    exists (c :: cs). rewrite Hcs. simpl. by rewrite app_assoc.
Qed.

Lemma first_part_error fields e : @first_part U C J fields = Err e -> gate_error e = true.
Proof.
  unfold first_part. destruct fields as [|[f|] rest]; simpl; [by intros [= <-]| |by intros [= <-]].
  case_decide; [|by intros [= <-]]. destruct (read_metadata f) eqn:E; [done|].
  intros [= <-]. by eapply read_metadata_error.
Qed.

Lemma request_fields_error (rq : CrashRequest) e : request_fields rq = Err e -> gate_error e = true.
Proof.
  unfold request_fields. destruct (rq_content_type rq); simpl; [|by intros [= <-]].
  destruct (header_to_str _); simpl; [|by intros [= <-]].
  destruct (parse_boundary _); simpl; [done|by intros [= <-]].
Qed.

Lemma SourceKey_new_error p i e : SourceKey_new p i = Err e -> exists n v, e = InvalidComponent n v.
Proof.
  unfold SourceKey_new, validate_component.
  destruct (_ || _); [intros [= <-]; eauto|].
  destruct (_ || _); [intros [= <-]; eauto|done].
Qed.

Lemma first_part_Ok fields m rest :
  @first_part U C J fields = Ok (m, rest) ->
  exists mf, fields = Ok mf :: rest /\ f_name mf = Some "metadata" /\ read_metadata mf = Ok m.
Proof.
  unfold first_part. destruct fields as [|[f|] r]; simpl; [done| |done].
  case_decide; [|done]. destruct (read_metadata f) eqn:E; [|done]. intros [= <- <-]. eauto.
Qed.

(** The index files a request with metadata [m] of source [k] may write. *)
Definition own_index s m k (q : Path) : Prop :=
  exists b, q = index_path s k (stamp (timestamp m)) (sha256_hex b).

(** The handler's body leaves configuration and request counters alone. *)
Definition quiet st st' : Prop :=
  same_config st st' /\ requests_total (metrics st') = requests_total (metrics st).

#[local] Instance quiet_preorder : PreOrder quiet.
Proof. split; unfold quiet; [done|]. intros a b c [? ?] [? ?]. split; [by etransitivity|congruence]. Qed.

(** What an accepted request leaves on disk. *)
Definition recorded s (max : Z) fs m k (parts : list Part) (now : Z) (resp : CrashResponse) : Prop :=
  exists part dump atts,
    filter (fun p => p_attach p = None) parts = [part] /\
    ingested s fs max parts (Some dump) atts /\
    fs !! index_path s k (stamp (timestamp m)) (sha256_hex (p_content part)) =
      Some (File (json_print_pretty (ser_CrashIndex
        {| ci_metadata := m; ci_dump := dump; ci_attachments := atts |})) now) /\
    resp = {| cr_id := sha256_hex (p_content part); cr_dedup := bp_dedup dump |}.

(** Files that appear or change are temporary files, blobs, or this request's
    index (possibly cut short by a failed write), whose parts are stored. *)
Definition follows s (max : Z) (rest : list (Result Field string)) m (fs fs' : gmap Path Node) : Prop :=
  forall q c t, fs' !! q = Some (File c t) ->
    fs !! q = Some (File c t) \/ is_tmp s q \/ is_blob s q \/
    exists fields parts dump atts n, rest = Ok <$> fields /\
      Forall2 (fun f p => part_of f = Some p) fields parts /\
      ingested s fs' max parts (Some dump) atts /\
      c = take n (json_print_pretty (ser_CrashIndex
            {| ci_metadata := m; ci_dump := dump; ci_attachments := atts |})).

Lemma evolves_file s (X : Path -> Prop) (fs fs' : gmap Path Node) q c t :
  evolves s X fs fs' -> ~ X q -> fs' !! q = Some (File c t) ->
  fs !! q = Some (File c t) \/ is_tmp s q \/ is_blob s q.
Proof.
  intros (HO & _) HX Hq. destruct (HO q) as [[?|[?|?]]|[Hs|[_ Hd]]]; [by auto|by auto|done|left; congruence|congruence].
Qed.

(** Storing parts writes no index. *)
Lemma follows_parts s max rest m fs fs' :
  evolves s (fun _ => False) fs fs' -> follows s max rest m fs fs'.
Proof.
  intros Hev q c t Hq.
  destruct (evolves_file _ _ _ _ _ _ _ Hev (fun x => x) Hq) as [?|[?|?]]; auto.
Qed.

(** Writing the index of stored parts. *)
Lemma follows_index s max fields parts dump atts m path fs fs1 fs2 :
  evolves s (fun _ => False) fs fs1 -> evolves s (fun q => q = path) fs1 fs2 ->
  Forall2 (fun f p => part_of f = Some p) fields parts -> ingested s fs1 max parts (Some dump) atts ->
  (forall c t, fs2 !! path = Some (File c t) -> fs1 !! path = Some (File c t) \/
     exists n, c = take n (json_print_pretty (ser_CrashIndex
       {| ci_metadata := m; ci_dump := dump; ci_attachments := atts |}))) ->
  follows s max (Ok <$> fields) m fs fs2.
Proof.
  intros Hev1 Hev2 Hparts Hing Hpath q c t Hq.
  assert (fs1 !! q = Some (File c t) -> fs !! q = Some (File c t) \/ is_tmp s q \/ is_blob s q) as Hold
    by exact (evolves_file _ _ _ _ _ _ _ Hev1 (fun x => x)).
  destruct (decide (q = path)) as [->|Hne].
  - destruct (Hpath c t Hq) as [Hq1|[n Hn]]; [destruct (Hold Hq1) as [?|[?|?]]; auto|].
    right; right; right. exists fields, parts, dump, atts, n. repeat split; try done;
      by eapply ingested_evolves.
  - destruct (evolves_file _ _ _ _ _ _ _ Hev2 Hne Hq) as [Hq1|[?|?]]; auto.
    destruct (Hold Hq1) as [?|[?|?]]; auto.
Qed.

(** The end of a request whose parts are stored: the metrics and the index. *)
Lemma wp_record st st1 m k fields parts dump atts (w w1 : World) Q :
  SourceKey_valid k -> quiet st st1 -> w_now w1 = w_now w ->
  Forall2 (fun f p => part_of f = Some p) fields parts ->
  evolves (storage st) (fun _ => False) (w_fs w) (w_fs w1) ->
  ingested (storage st) (w_fs w1) (max_dump_bytes st) parts (Some dump) atts ->
  (forall e st' w', late_error e = true -> quiet st st' -> w_now w' = w_now w ->
     evolves (storage st) (own_index (storage st) m k) (w_fs w) (w_fs w') ->
     follows (storage st) (max_dump_bytes st) (Ok <$> fields) m (w_fs w) (w_fs w') -> Q (Err e) (st', w')) ->
  (forall resp st' w', quiet st st' -> w_now w' = w_now w ->
     evolves (storage st) (own_index (storage st) m k) (w_fs w) (w_fs w') ->
     follows (storage st) (max_dump_bytes st) (Ok <$> fields) m (w_fs w) (w_fs w') ->
     recorded (storage st) (max_dump_bytes st) (w_fs w') m k parts (w_now w) resp -> Q (Ok (201%Z, resp)) (st', w')) ->
  wp (modify_metrics (fun c => observe_bytes c "crashes" (bp_len dump));;!
      modify_metrics (fun c => if bp_dedup dump then observe_dedup_hit c else c);;!
      app_io (write_index (storage st) k m dump atts);;!
      io_ret (201%Z, {| cr_id := bp_sha256 dump; cr_dedup := bp_dedup dump |})) Q (st1, w1).
Proof using UL CL SL.
  intros Hk Hc1 Hn1 Hparts Hev1 Hing HE HO.
  apply wp_bind, wp_modify_metrics. intros st2 Hc2 _ Hm2.
  apply wp_bind, wp_modify_metrics. intros st3 Hc3 _ Hm3.
  assert (quiet st st3) as Hc.
  { transitivity st1; [done|]. split; [by transitivity st2|]. rewrite Hm3, Hm2. by destruct (bp_dedup dump). }
  pose proof Hing as [Hd _].
  destruct (filter _ parts) as [|part [|]] eqn:Ed; try (by inversion Hd);
    [|by apply Forall2_cons in Hd as [_ Hd]; inversion Hd].
  apply Forall2_cons in Hd as [((Hsha & _) & _) _].
  assert (forall w2, evolves (storage st) (fun q => q = index_path (storage st) k (stamp (timestamp m))
      (sha256_hex (p_content part))) (w_fs w1) (w_fs w2) ->
    evolves (storage st) (own_index (storage st) m k) (w_fs w) (w_fs w2)) as Hev.
  { intros w2 Hev2. etransitivity; [by eapply evolves_mono; [|exact Hev1]|]. eapply evolves_mono; [|done]. intros q ->. by eexists. }
  apply wp_bind, wp_app_io, (wp_write_index _ _ _ (p_content part)); [done|done| |].
  - intros w2 Hn2 Hev2 Hidx. apply wp_ret, HO; [done|congruence|by apply Hev| |].
    + eapply follows_index; try done. intros c t Hq. right. rewrite Hidx in Hq. injection Hq as <- _.
      eexists. by rewrite firstn_all.
    + exists part, dump, atts. split; [done|]. split; [by eapply ingested_evolves|].
      rewrite Hn1 in Hidx. split; [done|]. by rewrite Hsha.
  - intros e w2 Hn2 Hev2 Hpath. eapply HE; try done; [congruence|by apply Hev|by eapply follows_index].
Qed.

Lemma wp_crashes_inner st token rq now Q w :
  (0 <= max_dump_bytes st < 2 ^ 63)%Z -> request_fits rq -> store_ok (storage st) (w_fs w) ->
  (forall e st', gate_error e = true -> quiet st st' -> Q (Err e) (st', w)) ->
  (forall m rest k e st' w', admitted st token rq now m rest k -> late_error e = true ->
     quiet st st' -> w_now w' = w_now w ->
     evolves (storage st) (own_index (storage st) m k) (w_fs w) (w_fs w') ->
     follows (storage st) (max_dump_bytes st) rest m (w_fs w) (w_fs w') -> Q (Err e) (st', w')) ->
  (forall m rest k fields parts resp st' w', admitted st token rq now m rest k ->
     rest = Ok <$> fields -> Forall2 (fun f p => part_of f = Some p) fields parts ->
     quiet st st' -> w_now w' = w_now w ->
     evolves (storage st) (own_index (storage st) m k) (w_fs w) (w_fs w') ->
     follows (storage st) (max_dump_bytes st) rest m (w_fs w) (w_fs w') ->
     recorded (storage st) (max_dump_bytes st) (w_fs w') m k parts (w_now w) resp ->
     Q (Ok (201%Z, resp)) (st', w')) ->
  wp (crashes_inner token rq now) Q (st, w).
Proof using UL CL SL.
  intros Hmax Hfits Hok HG HE HO. unfold crashes_inner.
  apply wp_bind. unfold get_state, wp at 1. cbn [fst snd].
  apply wp_bind, wp_lift. destruct (request_fields rq) as [fields|e] eqn:Ef;
    [|by apply HG; [eapply request_fields_error|]].
  apply wp_bind, wp_lift. destruct (first_part fields) as [[m rest]|e] eqn:Em;
    [|by apply HG; [eapply first_part_error|]].
  apply wp_bind. destruct (Z.eqb_spec (schema_version m) PROTOCOL_VERSION) as [Hv|];
    [|by apply wp_err, HG]. apply wp_ret.
  apply wp_bind, wp_lift. destruct (SourceKey_new _ _) as [k|e] eqn:Ek; cbn [map_err];
    [|by apply SourceKey_new_error in Ek as (? & ? & ->); apply HG].
  apply wp_bind. destruct (permits token k) eqn:Ep; [|by apply wp_err, HG]. apply wp_ret.
  apply wp_bind, wp_app_limit. intros st1 Hc1' Hm1 _.
  assert (quiet st st1) as Hc1 by (split; [done|congruence]).
  destruct ((check_crashes (rate_limiter st) now (tc_id token) k).1) as [[]|] eqn:El; cbn [map_err];
    [|by apply HG].
  apply wp_bind. destruct (validate _ _ _ _) as [[]|e] eqn:Ev.
  2: { apply wp_bind, wp_modify_metrics. intros st2 Hc2' _ Hm2. apply wp_err, HG.
       - apply validate_Err in Ev as (v & _ & -> & _). done.
       - transitivity st1; [done|]. split; [done|]. by rewrite Hm2. }
  apply wp_ret.
  assert (admitted st token rq now m rest k) as Hadm.
  { split; [by eauto|]. done. }
  apply SourceKey_new_Ok in Ek as [_ Hk].
  apply wp_bind, wp_app_io, (wp_ingest_parts _ _ _ (fun _ => False)); [done| |done| |].
  { apply Hfits in Ef. apply first_part_Ok in Em as (mf & -> & _). by apply Forall_cons in Ef as [_ ?]. }
  { intros fs parts dump atts w1 -> Hparts Hn1 Hev1 Hing. apply wp_bind, wp_lift.
    destruct dump as [dump|]; cbn [ok_or]; [by eapply wp_record; eauto|].
    eapply HE; try done; [by eapply evolves_mono; [|exact Hev1]|by apply follows_parts]. }
  intros e w' He Hn Hev. eapply HE; try done; [by destruct e|by eapply evolves_mono; [|exact Hev]|by apply follows_parts].
Qed.
End Requests.

(** ** Properties *)

Section Properties.
Context {U : UuidApi} {UL : UuidLaws U} {C : ChronoApi} {CL : ChronoLaws C}
  {S : Sha256Api} {SL : Sha256Laws S} {J : JsonText} {M : MulterApi} {HT : HttpApi}
  {V : JsonSchemaApi}.
Implicit Types (s : StoragePaths) (st : AppState) (w : World) (m : CrashMetadata U C) (k : SourceKey).

(** An index file of a source the token may write for. *)
Definition permitted_index s (token : TokenContext) (q : Path) : Prop :=
  exists k ts b, permits token k = true /\ SourceKey_valid k /\ q = index_path s k (stamp ts) (sha256_hex b).

Lemma own_index_permitted st token rq now m rest k q :
  admitted st token rq now m rest k -> own_index (storage st) m k q ->
  permitted_index (storage st) token q.
Proof.
  intros (_ & _ & [_ Hk]%SourceKey_new_Ok & Hp & _) [b ->]. by exists k, (timestamp m), b.
Qed.

(** C1. An accepted crash is recorded: for every schedule of I/O failures, if
    the handler answers success then the status is 201 and the disk holds the
    whole crash.  The request's first part was metadata of at most 64 KiB that
    parses, every later part was the single dump or a named attachment, each
    within the size limit; every part's blob lies at the path of its hash with
    content of that hash (byte for byte what was sent unless an equal hash was
    already stored); and the index file of the source holds the metadata, the
    dump's pointer and the attachments' pointers in the order sent. *)
Theorem crash_accepted_recorded st token rq now w status resp st' w' :
  (0 <= max_dump_bytes st < 2 ^ 63)%Z -> request_fits rq -> store_ok (storage st) (w_fs w) ->
  crashes_inner token rq now (st, w) = (Ok (status, resp), (st', w')) ->
  status = 201%Z /\ exists mf fields parts b m k,
    request_fields rq = Ok (Ok <$> (mf :: fields)) /\ f_name mf = Some "metadata" /\
    field_bytes mf = Some b /\ (len_u64 b <= METADATA_MAX_BYTES)%Z /\ metadata_from_slice b = Ok m /\
    admitted st token rq now m (Ok <$> fields) k /\
    Forall2 (fun f p => part_of f = Some p) fields parts /\
    recorded (storage st) (max_dump_bytes st) (w_fs w') m k parts (w_now w) resp.
Proof using UL CL SL.
  intros Hmax Hfits Hok Hrun. revert status resp Hrun.
  enough (wp (crashes_inner token rq now) (fun r sw => forall status resp, r = Ok (status, resp) ->
    status = 201%Z /\ exists mf fields parts b m k,
    request_fields rq = Ok (Ok <$> (mf :: fields)) /\ f_name mf = Some "metadata" /\
    field_bytes mf = Some b /\ (len_u64 b <= METADATA_MAX_BYTES)%Z /\ metadata_from_slice b = Ok m /\
    admitted st token rq now m (Ok <$> fields) k /\
    Forall2 (fun f p => part_of f = Some p) fields parts /\
    recorded (storage st) (max_dump_bytes st) (w_fs sw.2) m k parts (w_now w) resp) (st, w)) as Hwp.
  { intros status resp Hrun. by apply (wp_run _ _ _ _ _ Hwp Hrun). }
  apply wp_crashes_inner; [done|done|done|done|done|].
  intros m rest k fields parts resp0 st1 w1 Hadm -> Hparts _ _ _ _ Hrec status resp [= <- <-].
  split; [done|]. pose proof Hadm as ((fl & Hfl & Hfirst) & _).
  destruct (first_part_Ok _ _ _ Hfirst) as (mf & -> & Hname & Hread).
  pose proof (Hfits _ Hfl) as Hf. apply Forall_cons in Hf as [Hmf _].
  destruct (read_metadata_Ok _ _ Hmf Hread) as (b & ? & ? & ?).
  by exists mf, fields, parts, b, m, k.
Qed.

Lemma crashes_handler_evolves st token rq now elapsed w r st' w' :
  (0 <= max_dump_bytes st < 2 ^ 63)%Z -> request_fits rq -> store_ok (storage st) (w_fs w) ->
  crashes_handler token rq now elapsed (st, w) = (r, (st', w')) ->
  evolves (storage st) (permitted_index (storage st) token) (w_fs w) (w_fs w').
Proof using UL CL SL.
  intros Hmax Hfits Hok. apply (wp_run (crashes_handler token rq now elapsed) (fun _ sw =>
    evolves (storage st) (permitted_index (storage st) token) (w_fs w) (w_fs sw.2))).
  apply wp_bind, wp_try, wp_crashes_inner; try done.
  - intros m rest k e st1 w1 Hadm _ _ _ Hev _. apply wp_bind, wp_modify_metrics. intros st2 _ _ _.
    apply wp_lift. simpl. eapply evolves_mono; [|done]. intros q. by eapply own_index_permitted.
  - intros m rest k fields parts resp st1 w1 Hadm _ _ _ _ Hev _ _. apply wp_bind, wp_modify_metrics.
    intros st2 _ _ _. apply wp_lift. simpl. eapply evolves_mono; [|done]. intros q.
    by eapply own_index_permitted.
Qed.

(** C2. Whatever the outcome and whatever fails, a crash request keeps the
    content-addressed store sound, never changes or removes a stored blob, and
    touches no other file than its temporary files, new blobs, and indexes of
    sources its token may write for. *)
Theorem crash_store_invariant st token rq now elapsed w r st' w' :
  (0 <= max_dump_bytes st < 2 ^ 63)%Z -> request_fits rq -> store_ok (storage st) (w_fs w) ->
  crashes_handler token rq now elapsed (st, w) = (r, (st', w')) ->
  store_ok (storage st) (w_fs w') /\
  (forall q n, is_blob (storage st) q -> w_fs w !! q = Some n -> w_fs w' !! q = Some n) /\
  (forall q c t, w_fs w' !! q = Some (File c t) -> w_fs w !! q = Some (File c t) \/
     is_tmp (storage st) q \/ is_blob (storage st) q \/ permitted_index (storage st) token q) /\
  (forall q c t, w_fs w !! q = Some (File c t) -> w_fs w' !! q = Some (File c t) \/
     is_tmp (storage st) q \/ permitted_index (storage st) token q).
Proof using UL CL SL.
  intros Hmax Hfits Hok Hrun.
  destruct (crashes_handler_evolves _ _ _ _ _ _ _ _ _ Hmax Hfits Hok Hrun) as (HO & HB & HK).
  split; [auto|]. split; [done|]. split; intros q c t Hq; destruct (HO q) as [HS|[Hs|[Hn Hd]]].
  - auto.
  - rewrite Hs in Hq. auto.
  - congruence.
  - destruct HS as [?|[Hb|?]]; auto.
  - rewrite Hs. auto.
  - congruence.
Qed.

(** C26. Nothing is written before every check has passed: if a request changes
    the file system at all, then its metadata parsed, the protocol version
    matched, the source identity was valid, the token permits the source, the
    rate limiter admitted it and the tenant's schema accepted the metadata. *)
Theorem crash_checks_before_writes st token rq now w r st' w' :
  (0 <= max_dump_bytes st < 2 ^ 63)%Z -> request_fits rq -> store_ok (storage st) (w_fs w) ->
  crashes_inner token rq now (st, w) = (r, (st', w')) -> w_fs w' <> w_fs w ->
  exists m rest k, admitted st token rq now m rest k.
Proof using UL CL SL.
  intros Hmax Hfits Hok Hrun.
  enough (wp (crashes_inner token rq now) (fun _ sw => w_fs sw.2 <> w_fs w ->
    exists m rest k, admitted st token rq now m rest k) (st, w)) as Hwp.
  { apply (wp_run _ _ _ _ _ Hwp Hrun). }
  apply wp_crashes_inner; try done; eauto.
Qed.

Lemma handler_error_status e :
  gate_error e = true \/ late_error e = true ->
  status_code e ∈ [201; 400; 403; 412; 413; 422; 429; 500]%Z /\
  (status_code e = 500%Z -> exists i, e = CIo i).
Proof.
  intros He. split.
  - apply (bool_decide_unpack _).
    destruct e as [| | | | | | | | | |[|]| |]; try exact I; destruct He; discriminate.
  - destruct e as [| | | | | | | | | |[|]| |]; simpl; try discriminate; intros _;
      [destruct He; discriminate|destruct He; discriminate|eauto].
Qed.

(** C27. Every crash request is answered with one of the documented statuses and
    counted once under exactly that status; the handler never panics, and
    answers 500 only because a file-system call failed. *)
Theorem crash_status_counted st token rq now elapsed w r st' w' :
  (0 <= max_dump_bytes st < 2 ^ 63)%Z -> request_fits rq -> store_ok (storage st) (w_fs w) ->
  crashes_handler token rq now elapsed (st, w) = (r, (st', w')) ->
  let status := match r with Ok (status, _) => status | Err e => status_code e end in
  status ∈ [201; 400; 403; 412; 413; 422; 429; 500]%Z /\
  (status = 500%Z -> exists e, r = Err (CIo e)) /\
  requests_total (metrics st') =
    inc_label (requests_total (metrics st)) ("crashes", Z_to_string status) 1.
Proof using UL CL SL.
  intros Hmax Hfits Hok Hrun.
  enough (wp (crashes_handler token rq now elapsed) (fun r sw =>
    let status := match r with Ok (status, _) => status | Err e => status_code e end in
    status ∈ [201; 400; 403; 412; 413; 422; 429; 500]%Z /\
    (status = 500%Z -> exists e, r = Err (CIo e)) /\
    requests_total (metrics sw.1) =
      inc_label (requests_total (metrics st)) ("crashes", Z_to_string status) 1) (st, w)) as Hwp.
  { apply (wp_run _ _ _ _ _ Hwp Hrun). }
  assert (forall (r : Result (Z * CrashResponse) CrashError) st1 w1,
    match r with Ok (status, _) => status = 201%Z
               | Err e => gate_error e = true \/ late_error e = true end ->
    quiet st st1 ->
    wp (modify_metrics (fun mt => observe_request mt "crashes"
          (Z_to_string (match r with Ok (status, _) => status | Err e => status_code e end)) elapsed);;!
        io_lift r) (fun r sw =>
    let status := match r with Ok (status, _) => status | Err e => status_code e end in
    status ∈ [201; 400; 403; 412; 413; 422; 429; 500]%Z /\
    (status = 500%Z -> exists e, r = Err (CIo e)) /\
    requests_total (metrics sw.1) =
      inc_label (requests_total (metrics st)) ("crashes", Z_to_string status) 1) (st1, w1)) as Hend.
  { intros r0 st1 w1 Hr [_ Hq]. apply wp_bind, wp_modify_metrics. intros st2 _ _ Hm2. apply wp_lift.
    cbn [fst]. split; [|split]; [| |by rewrite Hm2; cbn; rewrite Hq].
    - destruct r0 as [[status ?]|e]; [subst; by left|]. by apply handler_error_status.
    - destruct r0 as [[status ?]|e]; [by subst|]. intros H5.
      destruct (proj2 (handler_error_status e Hr) H5) as [i ->]. by exists i. }
  apply wp_bind, wp_try, wp_crashes_inner; try done.
  - intros e st1 He Hq. exact (Hend (Err e) st1 w (or_introl He) Hq).
  - intros m rest k e st1 w1 _ He Hq _ _ _. exact (Hend (Err e) st1 w1 (or_intror He) Hq).
  - intros m rest k fields parts resp st1 w1 _ _ _ Hq _ _ _ _. exact (Hend (Ok (201%Z, resp)) st1 w1 eq_refl Hq).
Qed.
End Properties.

(** ** A concrete request *)

(** A text layer that knows one text. *)
Definition SampleJson : JsonText := {|
  json_print _ := [];
  json_print_pretty _ := as_bytes "{}";
  json_parse b := if decide (b = as_bytes "M") then Ok (ser_CrashMetadata sample_metadata)
                  else Err "syntax error"
|}.

#[local] Existing Instance SampleJson.

Definition sample_token : TokenContext :=
  {| tc_id := "t"; tc_project := "app"; tc_source_prefix := "app/"; tc_secret_hash := "" |}.

Definition sample_request : CrashRequest := {|
  rq_content_type := Some (as_bytes "multipart/form-data");
  rq_body := [Ok (as_bytes "metadata=M");
              Ok (as_bytes "dump=core"); Ok (as_bytes "attach:log=line")] |}.

Definition sample_state : AppState := {|
  storage := {| data_dir := ["/"; "d"] |}; max_dump_bytes := 1000;
  rate_limiter := RateLimiter_new RateLimitConfig_default; metrics := Metrics_new;
  schema_registry := SchemaRegistry_empty |}.

Definition empty_world : World := {|
  w_fs := ∅; w_now := 5; w_clock := []; w_faults := []; w_uuids := 0; w_dir_mtime := fun _ => 0%Z |}.

Lemma sample_request_fits : request_fits sample_request.
Proof.
  intros fields Hf. vm_compute in Hf. injection Hf as <-.
  repeat (apply Forall_cons; split; [repeat constructor; vm_compute; reflexivity|]). constructor.
Qed.

Lemma empty_store_ok s : store_ok s ∅.
Proof. intros b p n _ H. by rewrite lookup_empty in H. Qed.

(** The outcome of the sample request. *)
Definition sample_outcome := crashes_inner sample_token sample_request 0 (sample_state, empty_world).

Lemma crash_accepted_recorded_witness :
  match sample_outcome with
  | (Ok (status, resp), (_, w')) => exists m k parts,
      status = 201%Z /\ recorded (storage sample_state) 1000 (w_fs w') m k parts 5 resp
  | _ => False
  end.
Proof.
  destruct sample_outcome as [[[status resp]|e] [st' w']] eqn:E.
  - destruct (crash_accepted_recorded sample_state sample_token sample_request 0 empty_world
                status resp st' w') as (Hs & mf & fields & parts & b & m & k & H);
      [vm_compute; split; congruence|exact sample_request_fits|apply empty_store_ok|exact E|].
    exists m, k, parts. split; [exact Hs|]. apply H.
  - assert (is_ok sample_outcome.1 = true) as H by (vm_compute; reflexivity).
    rewrite E in H. discriminate H.
Defined.

Lemma crash_store_invariant_witness :
  let sw := crashes_handler sample_token sample_request 0 0 (sample_state, empty_world) in
  store_ok (storage sample_state) (w_fs sw.2.2).
Proof.
  intros sw. destruct sw as [r [st' w']] eqn:E.
  apply (crash_store_invariant sample_state sample_token sample_request 0 0 empty_world r st' w');
    [vm_compute; split; congruence|exact sample_request_fits|apply empty_store_ok|exact E].
Defined.

Lemma crash_checks_before_writes_witness :
  exists m rest k, admitted sample_state sample_token sample_request 0 m rest k.
Proof.
  destruct sample_outcome as [r [st' w']] eqn:E.
  apply (crash_checks_before_writes sample_state sample_token sample_request 0 empty_world r st' w');
    [vm_compute; split; congruence|exact sample_request_fits|apply empty_store_ok|exact E|].
  intros Heq. assert (w_fs sample_outcome.2.2 = ∅) as H by (rewrite E; exact Heq).
  assert (bool_decide (w_fs sample_outcome.2.2 = ∅) = false) as Hb by (vm_compute; reflexivity).
  apply bool_decide_eq_false_1 in Hb. exact (Hb H).
Defined.

Lemma crash_status_counted_witness :
  let sw := crashes_handler sample_token sample_request 0 0 (sample_state, empty_world) in
  requests_total (metrics sw.2.1) = {[ ("crashes", "201") := 1%Z ]}.
Proof.
  intros sw. destruct sw as [r [st' w']] eqn:E.
  destruct (crash_status_counted sample_state sample_token sample_request 0 0 empty_world r st' w')
    as (_ & _ & Hc);
    [vm_compute; split; congruence|exact sample_request_fits|apply empty_store_ok|exact E|].
  simpl. rewrite Hc. destruct r as [[status resp]|e].
  - assert (match sw.1 with Ok (x, _) => x | Err _ => 0%Z end = 201%Z) as H by (vm_compute; reflexivity).
    rewrite E in H. simpl in H. rewrite H. vm_compute. reflexivity.
  - exfalso. assert (is_ok sw.1 = true) as H by (vm_compute; reflexivity).
    rewrite E in H. discriminate H.
Defined.
