(* ===== verification/CrashProgress.v ===== *)
(** * Progress of crash ingestion: a well-formed request is accepted

    With no failing system call and nothing in the way in the data directory, a
    request that passes the checks and carries one dump within the limit is
    answered 201 and recorded. *)

From Stdlib Require Import Ascii.
From S2P Require Import Prelude RustStd Fs External Instances Json Protocol Metrics Schemas Storage F64 RateLimit Auth State Crashes CrashStore CrashIngest.

Section Layout.
Implicit Types (s : StoragePaths) (q d : Path) (fs : gmap Path Node).

(** The directories files are put into. *)
Inductive leaf_dir s : Path -> Prop :=
  | leaf_tmp : leaf_dir s (data_dir s ++ ["tmp"])
  | leaf_blobs p : leaf_dir s (data_dir s ++ ["crashes"; "by-hash"; p])
  | leaf_indexes p i : leaf_dir s (data_dir s ++ ["crashes"; "by-source"; p; i]).

(** Nothing is in the way: no file where a directory is needed and no directory
    where a file is. *)
Record clear s fs : Prop := {
  clear_dirs : forall d q, leaf_dir s d -> q `prefix_of` d -> is_file fs q = false;
  clear_files : forall d x, leaf_dir s d -> fs !! (d ++ [x]) <> Some Dir
}.

Lemma leaf_not_empty s d : leaf_dir s d -> d <> [].
Proof. intros []; by destruct (data_dir s). Qed.

(** A file's place is not one of the directories. *)
Lemma leaf_file_not_dir s d d' x : leaf_dir s d -> leaf_dir s d' -> ~ d ++ [x] `prefix_of` d'.
Proof.
  intros [] [] Hp; rewrite <- app_assoc in Hp; apply prefix_app_inv in Hp as [r Hr]; cbn in Hr; discriminate Hr.
Qed.

Lemma clear_mkdir s fs d : leaf_dir s d -> clear s fs -> clear s (foldl add_dir fs (ancestors d)).
Proof.
  intros Hd [H1 H2]. split.
  - intros d' q Hd' Hq. specialize (H1 d' q Hd' Hq). unfold is_file in *. rewrite foldl_add_dir_lookup.
    destruct (fs !! q) as [[]|]; [done|done|]. by case_decide.
  - intros d' x Hd'. rewrite (foldl_add_dir_prefix d); [by apply H2|done|by apply (leaf_file_not_dir s)].
Qed.

Lemma mkdir_dir s fs d : leaf_dir s d -> clear s fs -> foldl add_dir fs (ancestors d) !! d = Some Dir.
Proof.
  intros Hd Hc. pose proof (clear_dirs _ _ Hc d d Hd (reflexivity _)) as H. unfold is_file in H.
  rewrite foldl_add_dir_lookup. destruct (fs !! d) as [[]|]; [done|done|].
  rewrite decide_True; [done|]. by apply ancestors_self, (leaf_not_empty s).
Qed.

Lemma clear_insert s fs d x c t : leaf_dir s d -> clear s fs -> clear s (<[d ++ [x] := File c t]> fs).
Proof.
  intros Hd [H1 H2]. split.
  - intros d' q Hd' Hq. unfold is_file. rewrite lookup_insert_ne; [by apply (H1 d')|].
    intros <-. by apply (leaf_file_not_dir s d d' x).
  - intros d' x' Hd'. destruct (decide (d ++ [x] = d' ++ [x'])) as [<-|H];
      [by rewrite lookup_insert_eq|rewrite lookup_insert_ne by done; by apply H2].
Qed.

Lemma clear_delete s fs q : clear s fs -> clear s (delete q fs).
Proof.
  intros [H1 H2]. split.
  - intros d' q' Hd' Hq'. specialize (H1 d' q' Hd' Hq'). unfold is_file in *.
    destruct (decide (q = q')) as [<-|H]; [by rewrite lookup_delete_eq|by rewrite lookup_delete_ne].
  - intros d' x Hd'. destruct (decide (q = d' ++ [x])) as [<-|H];
      [by rewrite lookup_delete_eq|rewrite lookup_delete_ne by done; by apply H2].
Qed.

(** A world in which the remaining calls succeed. *)
Definition good s (w : World) : Prop := w_faults w = [] /\ clear s (w_fs w).

(** Creating a directory of the layout. *)
Lemma wpn_mkdir s d Q w :
  leaf_dir s d -> good s w ->
  (forall w', good s w' -> w_fs w' = foldl add_dir (w_fs w) (ancestors d) -> w_now w' = w_now w ->
     w_fs w' !! d = Some Dir -> Q (Ok tt) w') ->
  wp (create_dir_all d) Q w.
Proof.
  intros Hd [Hf Hc] HQ. apply wpn_create_dir_all; [done|intros q Hq; by eapply clear_dirs|].
  apply HQ; [split; [done|by apply clear_mkdir]|done|done|by apply (mkdir_dir s)].
Qed.

(** Creating a file in an existing directory of the layout. *)
Lemma wpn_create s d x Q w :
  leaf_dir s d -> x <> "/" -> good s w -> w_fs w !! d = Some Dir ->
  (forall w', good s w' -> w_fs w' = <[d ++ [x] := File [] (w_now w)]> (w_fs w) -> w_now w' = w_now w ->
     Q (Ok tt) w') ->
  wp (file_create (d ++ [x])) Q w.
Proof.
  intros Hd Hx [Hf Hc] Hdir HQ. apply wpn_file_create; [done|by apply (clear_files s)| |].
  - apply (parent_is_dir_of _ _ d); [by apply parent_snoc|done].
  - apply HQ; [split; [done|by apply clear_insert]|done|done].
Qed.
End Layout.

Section Progress.
Context {U : UuidApi} {UL : UuidLaws U} {C : ChronoApi} {CL : ChronoLaws C}
  {S : Sha256Api} {SL : Sha256Laws S} {J : JsonText} {M : MulterApi} {HT : HttpApi}
  {V : JsonSchemaApi}.
Implicit Types (s : StoragePaths) (st : AppState) (w : World) (m : CrashMetadata U C) (k : SourceKey).

Lemma temp_in_tmp s u :
  exists x, x <> "/" /\ temp_path s u = (data_dir s ++ ["tmp"]) ++ [x].
Proof using UL.
  exists (uuid_to_string u +:+ ".tmp"). split.
  - intros H. apply (f_equal String.length) in H. rewrite append_length in H. simpl in H. lia.
  - rewrite temp_path_components. by rewrite <- app_assoc.
Qed.

(** ** One part *)

Lemma wpn_copy s d x max (chunks : list (Result bytes string)) cs t Q w :
  let temp := d ++ [x] in
  leaf_dir s d -> good s w -> (0 <= max < 2 ^ 63)%Z -> Forall chunk_fits chunks ->
  try_map (fun c => c) chunks = Ok cs -> (len_u64 (concat cs) <= max)%Z ->
  w_fs w !! temp = Some (File [] t) ->
  (forall t' w', good s w' -> w_fs w' !! temp = Some (File (concat cs) t') ->
     Q (Ok (len_u64 (concat cs), concat cs)) w') ->
  wp (io_fold (copy_chunk temp max) (0%Z, []) chunks) Q w.
Proof.
  intros temp Hd Hg Hmax Hfits Hcs Hle Ht HQ. apply try_map_Forall2 in Hcs.
  apply (wp_fold _ (fun acc rest w' => good s w' /\ exists done todo,
    cs = done ++ todo /\ Forall2 (fun c b => c = Ok b) rest todo /\ Forall chunk_fits rest /\
    acc = (len_u64 (concat done), concat done) /\ exists t', w_fs w' !! temp = Some (File (concat done) t'))).
  - intros acc c rest w1 ([Hf Hc] & done & todo & Hsp & Hrest & Hrf & -> & t1 & Ht1).
    apply Forall2_cons_inv_l in Hrest as (b & todo' & -> & Hrest & ->).
    apply Forall_cons in Hrf as [Hcf Hrf]. unfold copy_chunk. apply wp_bind, wp_lift. cbn [map_err fst snd].
    assert (len_u64 (concat done ++ b) <= max)%Z as Hb.
    { rewrite Hsp, concat_app in Hle. cbn [concat] in Hle. rewrite !len_u64_app in *.
      pose proof (len_u64_nonneg (concat todo')). lia. }
    assert (len_u64 (concat done) <= max)%Z as Hb0.
    { rewrite len_u64_app in Hb. pose proof (len_u64_nonneg b). lia. }
    rewrite (wrap_len _ _ max) by (cbn in Hcf; lia).
    destruct (Z.ltb_spec max (len_u64 (concat done ++ b))); [lia|].
    apply wp_bind, wp_map_err, wpn_write_all; [done|]. cbn [map_err]. apply wp_ret.
    rewrite (append_to_file _ _ _ _ _ _ Ht1). split; [split; [done|by apply clear_insert]|].
    exists (done ++ [b]), todo'. rewrite <- app_assoc. split_and!; [done|done|done| |].
    + rewrite concat_app. cbn [concat]. by rewrite app_nil_r.
    + exists (w_now w1). cbn [w_fs with_fs]. rewrite lookup_insert_eq, concat_app. cbn [concat]. by rewrite app_nil_r.
  - intros acc w1 (Hg1 & done & todo & Hsp & Hrest & _ & -> & t1 & Ht1).
    apply Forall2_nil_inv_l in Hrest as ->. rewrite app_nil_r in Hsp. subst done. by eapply HQ.
  - split; [done|]. exists [], cs. split_and!; [done|done|done|done|by exists t].
Qed.

Lemma wpn_finalize s u b t Q w :
  good s w -> w_fs w !! temp_path s u = Some (File b t) ->
  (forall path dedup w', good s w' -> Q (Ok (path, dedup)) w') ->
  wp (finalize_blob s (temp_path s u) (sha256_hex b)) Q w.
Proof using UL SL.
  intros Hg Ht HQ. unfold finalize_blob.
  destruct (blob_path_components s b) as (pre & _ & Hdest). rewrite Hdest.
  destruct (blob_parent s b _ Hdest) as [p Hp]. apply wp_bind, wp_lift. cbn [ok_or].
  set (dest := data_dir s ++ _) in *. rewrite Hp.
  assert (temp_path s u <> dest) as Htd by (intros H; eapply (blob_not_tmp s dest); [by exists b|done]).
  apply wp_bind, wp_map_err, (wpn_mkdir s); [apply leaf_blobs|done|].
  intros w1 [Hf1 Hc1] Hfs1 _ Hdir. cbn [map_err].
  assert (w_fs w1 !! temp_path s u = Some (File b t)) as Ht1.
  { by rewrite Hfs1, foldl_add_dir_lookup, Ht. }
  apply wp_bind, wp_map_err, wpn_try_exists; [done|]. cbn [map_err]. apply wp_bind.
  case_bool_decide as Hex.
  - apply wp_bind, wp_map_err, (wpn_remove_file _ b t); [done|done|]. cbn [map_err].
    apply wp_ret, wp_ret, HQ. split; [done|by apply clear_delete].
  - apply wp_bind, wp_try, (wpn_hard_link _ _ b t); [done|done| | |].
    { by apply eq_None_not_Some. }
    { by eapply parent_is_dir_of. }
    apply wp_bind, wp_map_err, (wpn_remove_file _ b t); [done| |].
    { cbn [w_fs with_fs]. by rewrite lookup_insert_ne. }
    cbn [map_err]. apply wp_ret, wp_ret, HQ. split; [done|]. apply clear_delete. cbn [w_fs with_fs].
    unfold dest. change ["crashes"; "by-hash"; pre; sha256_hex b +:+ ".bin"]
      with (["crashes"; "by-hash"; pre] ++ [sha256_hex b +:+ ".bin"]).
    rewrite app_assoc. apply clear_insert; [apply leaf_blobs|done].
Qed.

Lemma wpn_write_part s (field : Field) max b Q w :
  good s w -> (0 <= max < 2 ^ 63)%Z -> Forall chunk_fits (f_chunks field) ->
  field_bytes field = Some b -> (len_u64 b <= max)%Z ->
  (forall p w', good s w' -> bp_sha256 p = sha256_hex b -> Q (Ok p) w') ->
  wp (write_part_to_blob s field max) Q w.
Proof using UL SL.
  intros Hg Hmax Hfits Hb Hle HQ. unfold write_part_to_blob. rewrite tmp_dir_components.
  unfold field_bytes in Hb. destruct (try_map _ _) as [cs|] eqn:Hcs; [|done]. injection Hb as <-.
  apply wp_bind, wp_map_err, (wpn_mkdir s); [apply leaf_tmp|done|].
  intros w1 Hg1 _ _ Hdir. cbn [map_err]. apply wp_bind. unfold uuid_new_v4, wp at 1. cbn [fst snd].
  set (u := new_v4 (w_uuids w1)). destruct (temp_in_tmp s u) as (x & Hx & Htmp). rewrite Htmp.
  apply wp_bind, wp_map_err, (wpn_create s); [apply leaf_tmp|done|done|done|].
  intros w2 Hg2 Hfs2 _. cbn [map_err].
  apply wp_bind, (wpn_copy s _ _ _ _ cs (w_now w1)); [apply leaf_tmp|done|done|done|done|done| |].
  { rewrite Hfs2. apply lookup_insert_eq. }
  intros t w3 Hg3 Ht3. apply wp_bind, wp_map_err, wpn_sync_file; [apply Hg3|]. cbn [map_err].
  apply wp_bind, wp_map_err, wpn_sync_file; [apply Hg3|]. cbn [map_err fst snd].
  rewrite <- Htmp in *. apply wp_bind, (wpn_finalize s u (concat cs) t); [done|done|].
  intros path dedup w4 Hg4. by apply wp_ret, HQ.
Qed.

(** ** The part loop *)

(** A stored dump is named after a content. *)
Definition hashed (dump : option BlobPointer) : Prop :=
  forall d, dump = Some d -> exists b, bp_sha256 d = sha256_hex b.

Lemma wpn_ingest_part s max (dump : option BlobPointer) atts f part Q w :
  good s w -> (0 <= max < 2 ^ 63)%Z -> field_fits (Ok f) -> part_of f = Some part ->
  (len_u64 (p_content part) <= max)%Z -> hashed dump ->
  (p_attach part = None -> dump = None) ->
  (forall dump' atts' w', good s w' -> hashed dump' ->
     length (option_list dump') = (length (option_list dump) + (if decide (p_attach part = None) then 1 else 0))%nat ->
     Q (Ok (dump', atts')) w') ->
  wp (ingest_part s max (dump, atts) (Ok f)) Q w.
Proof using UL SL.
  intros Hg Hmax Hfits Hpart Hle Hh Hd HQ. unfold part_of in Hpart. unfold ingest_part.
  destruct (f_name f) as [name|] eqn:En; [|done]. cbn [mbind option_bind] in Hpart.
  destruct (field_bytes f) as [b|] eqn:Eb; [|done]. cbn [mbind option_bind] in Hpart.
  apply wp_bind, wp_lift. cbn [map_err]. apply wp_bind, wp_lift. rewrite En. cbn [ok_or].
  destruct (String.eqb_spec name "metadata") as [->|_]; [done|].
  destruct (String.eqb name "dump") eqn:Ed.
  - injection Hpart as <-. rewrite Hd in HQ |- * by done.
    apply wp_bind, (wpn_write_part s f max b); [done|done|done|done|done|].
    intros p w' Hg' Hp. apply wp_ret, HQ; [done|by intros ? [= <-]; eauto|done].
  - destruct (strip_prefix "attach:" name) as [key|] eqn:Ek; [|done]. injection Hpart as <-.
    unfold starts_with. rewrite Ek.
    apply wp_bind, wp_lift. cbn [ok_or].
    apply wp_bind, (wpn_write_part s f max b); [done|done|done|done|done|].
    intros p w' Hg' Hp. apply wp_ret, HQ; [done|done|]. cbn [p_attach]. rewrite decide_False by done. lia.
Qed.

(** The parts of a well-formed request: one dump, attachments, all small enough. *)
Definition well_formed (max : Z) (fields : list Field) (parts : list Part) : Prop :=
  Forall2 (fun f p => part_of f = Some p) fields parts /\
  Forall (fun p => (len_u64 (p_content p) <= max)%Z) parts /\
  length (filter (fun p => p_attach p = None) parts) = 1%nat.

Lemma wpn_ingest_parts s max fields parts Q w :
  good s w -> (0 <= max < 2 ^ 63)%Z -> Forall field_fits (Ok <$> fields) -> well_formed max fields parts ->
  (forall dump atts b w', good s w' -> bp_sha256 dump = sha256_hex b -> Q (Ok (Some dump, atts)) w') ->
  wp (io_fold (ingest_part s max) (None, []) (Ok <$> fields)) Q w.
Proof using UL SL.
  intros Hg Hmax Hfits (Hparts & Hle & Hone) HQ.
  apply (wp_fold _ (fun acc rest w' => good s w' /\ Forall field_fits rest /\ exists fs ps,
    rest = Ok <$> fs /\ Forall2 (fun f p => part_of f = Some p) fs ps /\ hashed acc.1 /\
    Forall (fun p => (len_u64 (p_content p) <= max)%Z) ps /\
    (length (option_list acc.1) + length (filter (fun p => p_attach p = None) ps) = 1)%nat)).
  - intros [dump atts] x rest w1 (Hg1 & Hf1 & fs & ps & Hrest & Hps & Hh & Hle1 & Hcount).
    destruct fs as [|f fs]; [done|]. cbn in Hrest. injection Hrest as -> ->.
    apply Forall2_cons_inv_l in Hps as (p & ps' & Hp & Hps & ->).
    apply Forall_cons in Hf1 as [Hf Hf1]. apply Forall_cons in Hle1 as [Hlp Hle1].
    rewrite filter_cons in Hcount. cbn [fst] in Hcount.
    apply (wpn_ingest_part s max dump atts f p); [done|done|done|done|done|done| |].
    + intros Ha. rewrite decide_True in Hcount by done. destruct dump; [cbn in Hcount; lia|done].
    + intros dump' atts' w2 Hg2 Hh2 Hlen. split; [done|]. split; [done|]. exists fs, ps'.
      split_and!; [done|done|done|done|]. cbn [fst]. rewrite Hlen.
      destruct (decide (p_attach p = None)); cbn [length] in Hcount; lia.
  - intros [dump atts] w1 (Hg1 & _ & fs & ps & Hrest & Hps & Hh & _ & Hcount). symmetry in Hrest.
    apply fmap_nil_inv in Hrest as ->. apply Forall2_nil_inv_l in Hps as ->. cbn in Hcount.
    destruct dump as [dump|]; [|done]. destruct (Hh dump eq_refl) as [b Hb]. by eapply HQ.
  - split; [done|]. split; [done|]. exists fields, parts. split_and!; [done|done|by intros ?|done|done].
Qed.

(** ** The index *)

Lemma wpn_write_index s k m b (dump : BlobPointer) atts Q w :
  good s w -> SourceKey_valid k -> bp_sha256 dump = sha256_hex b ->
  (forall w', good s w' -> Q (Ok tt) w') ->
  wp (write_index s k m dump atts) Q w.
Proof using CL SL.
  intros Hg Hk Hsha HQ. unfold write_index. rewrite Hsha, (index_parent s k (timestamp m) b Hk).
  apply wp_bind, wp_map_err, (wpn_mkdir s); [apply leaf_indexes|done|]. intros w1 Hg1 _ _ Hdir. cbn [map_err].
  rewrite index_path_components by done.
  set (x := stamp (timestamp m) +:+ "-" +:+ sha256_hex b +:+ ".json").
  change ["crashes"; "by-source"; sk_project k; sk_source_id k; x]
    with (["crashes"; "by-source"; sk_project k; sk_source_id k] ++ [x]).
  rewrite app_assoc. apply wp_map_err. unfold fs_write.
  apply wp_bind, (wpn_create s); [apply leaf_indexes| |done|done|].
  { intros H. apply (f_equal String.length) in H. unfold x in H. rewrite !append_length in H. simpl in H. lia. }
  intros w2 [Hf2 Hc2] Hfs2 _. apply wpn_write_all; [done|]. cbn [map_err]. apply HQ. split; [done|].
  cbn [w_fs with_fs]. rewrite (append_to_file _ _ _ _ [] (w_now w1)) by (rewrite Hfs2; apply lookup_insert_eq).
  apply clear_insert; [apply leaf_indexes|done].
Qed.

(** ** The whole request *)

Lemma admitted_unique st token rq now m rest k m' rest' k' :
  admitted st token rq now m rest k -> admitted st token rq now m' rest' k' ->
  m = m' /\ rest = rest' /\ k = k'.
Proof.
  intros ((f & Hf & Hp) & _ & Hk & _) ((f' & Hf' & Hp') & _ & Hk' & _).
  rewrite Hf in Hf'. injection Hf' as <-. rewrite Hp in Hp'. injection Hp' as <- <-.
  rewrite Hk in Hk'. by injection Hk' as <-.
Qed.

Lemma wpn_crashes_inner st token rq now m fields k parts Q w :
  (0 <= max_dump_bytes st < 2 ^ 63)%Z -> Forall field_fits (Ok <$> fields) ->
  admitted st token rq now m (Ok <$> fields) k -> well_formed (max_dump_bytes st) fields parts ->
  good (storage st) w ->
  (forall resp st' w', good (storage st) w' -> same_config st st' ->
     rate_limiter st' = (check_crashes (rate_limiter st) now (tc_id token) k).2 -> Q (Ok (201%Z, resp)) (st', w')) ->
  wp (crashes_inner token rq now) Q (st, w).
Proof using UL CL SL.
  intros Hmax Hfits ((fl & Hfl & Hfirst) & Hv & Hk & Hp & Hlim & Hval) Hwf Hg HQ. unfold crashes_inner.
  apply wp_bind. unfold get_state, wp at 1. cbn [fst snd].
  apply wp_bind, wp_lift. rewrite Hfl. apply wp_bind, wp_lift. rewrite Hfirst.
  apply wp_bind. rewrite Hv, Z.eqb_refl. apply wp_ret.
  apply wp_bind, wp_lift. rewrite Hk. cbn [map_err].
  apply wp_bind. rewrite Hp. apply wp_ret.
  apply wp_bind, wp_app_limit. intros st1 Hc1 _ Hl1. rewrite Hlim. cbn [map_err].
  apply wp_bind. rewrite Hval. apply wp_ret.
  apply SourceKey_new_Ok in Hk as [_ Hk].
  apply wp_bind, wp_app_io, (wpn_ingest_parts _ _ _ parts); [done|done|done|done|].
  intros dump atts b w1 Hg1 Hb. apply wp_bind, wp_lift. cbn [ok_or].
  apply wp_bind, wp_modify_metrics. intros st2 Hc2 Hl2 _. apply wp_bind, wp_modify_metrics. intros st3 Hc3 Hl3 _.
  apply wp_bind, wp_app_io, (wpn_write_index _ _ _ b); [done|done|done|].
  intros w2 Hg2. apply wp_ret, HQ; [done|by etrans; [|etrans]|congruence].
Qed.

Lemma run_well_formed st token rq now m fields k parts w :
  (0 <= max_dump_bytes st < 2 ^ 63)%Z -> request_fits rq ->
  admitted st token rq now m (Ok <$> fields) k -> well_formed (max_dump_bytes st) fields parts ->
  store_ok (storage st) (w_fs w) -> good (storage st) w ->
  exists resp st' w', crashes_inner token rq now (st, w) = (Ok (201%Z, resp), (st', w')) /\
    recorded (storage st) (max_dump_bytes st) (w_fs w') m k parts (w_now w) resp /\
    good (storage st) w' /\ same_config st st' /\ rate_limiter st' = (check_crashes (rate_limiter st) now (tc_id token) k).2.
Proof using UL CL SL.
  intros Hmax Hfits Hadm Hwf Hok Hg.
  assert (Forall field_fits (Ok <$> fields)) as Hff.
  { destruct Hadm as ((fl & Hfl & (mf & -> & _)%first_part_Ok) & _).
    by apply Hfits, Forall_cons in Hfl as [_ ?]. }
  assert (wp (crashes_inner token rq now) (fun r sw => (exists resp, r = Ok (201%Z, resp)) /\ good (storage st) sw.2 /\
    same_config st sw.1 /\ rate_limiter sw.1 = (check_crashes (rate_limiter st) now (tc_id token) k).2) (st, w)) as H1.
  { eapply wpn_crashes_inner; try done. intros resp st' w' Hg' Hc' Hl'. split; [by exists resp|done]. }
  assert (wp (crashes_inner token rq now) (fun r sw => forall status resp, r = Ok (status, resp) ->
    recorded (storage st) (max_dump_bytes st) (w_fs sw.2) m k parts (w_now w) resp) (st, w)) as H2.
  { apply wp_crashes_inner; try done.
    intros m' rest' k' fields' parts' resp st' w' Hadm' -> Hparts' _ _ _ _ Hrec status resp' [= <- <-].
    destruct (admitted_unique _ _ _ _ _ _ _ _ _ _ Hadm Hadm') as (<- & Hr & <-).
    apply (list_fmap_eq_inj Ok) in Hr; [|by intros ? ? [= ->]]. subst fields'. destruct Hwf as (Hparts & _).
    assert (parts' = parts) as ->; [|done]. clear -Hparts Hparts'. revert parts Hparts.
    induction Hparts' as [|f p fs ps Hp _ IH]; intros [|p' ps'] H; try by inversion H.
    apply Forall2_cons in H as [Hp' H]. f_equal; [congruence|by apply IH]. }
  unfold wp in H1, H2. destruct (crashes_inner token rq now (st, w)) as [r [st' w']].
  destruct H1 as [[resp Hr] H1]. cbn [fst snd] in *. subst r. exists resp, st', w'. split; [done|]. split; [by eapply H2|done].
Qed.
(** A well-formed crash is accepted: when no file operation fails and nothing
    is in the way in the data directory, a request that passes the checks and whose
    other parts are exactly one dump and any number of named attachments, each
    within the size limit and received without transport errors, is answered 201,
    and the disk then holds every part and the index. *)
Theorem crash_well_formed_accepted st token rq now m fields k parts w :
  (0 <= max_dump_bytes st < 2 ^ 63)%Z -> request_fits rq ->
  admitted st token rq now m (Ok <$> fields) k -> well_formed (max_dump_bytes st) fields parts ->
  store_ok (storage st) (w_fs w) -> good (storage st) w ->
  exists resp st' w', crashes_inner token rq now (st, w) = (Ok (201%Z, resp), (st', w')) /\
    recorded (storage st) (max_dump_bytes st) (w_fs w') m k parts (w_now w) resp.
Proof using UL CL SL.
  intros H1 H2 H3 H4 H5 H6. destruct (run_well_formed st token rq now m fields k parts w) as (resp & st' & w' & ? & ? & _); [done..|].
  by exists resp, st', w'.
Qed.
End Progress.

(** ** A concrete request *)

#[local] Existing Instance SampleJson.

Lemma empty_good s : good s empty_world.
Proof.
  split; [done|]. split; intros; unfold is_file; cbn [w_fs empty_world]; by rewrite lookup_empty.
Qed.

Definition sample_fields : list Field :=
  match request_fields sample_request with
  | Ok (_ :: rest) => omap (fun f => match f with Ok f => Some f | Err _ => None end) rest
  | _ => []
  end.

Definition sample_parts : list Part := omap part_of sample_fields.

Definition sample_key : SourceKey :=
  {| sk_project := "app"; sk_source_id := uuid_to_string (src_install_id (md_source sample_metadata)) |}.

Lemma sample_admitted : admitted sample_state sample_token sample_request 0 sample_metadata
    (Ok <$> sample_fields) sample_key.
Proof.
  split; [|split; [|split; [|split; [|split]]]].
  - destruct (request_fields sample_request) as [fields|e] eqn:E; [|vm_compute in E; discriminate E].
    exists fields. split; [reflexivity|]. vm_compute in E. injection E as <-. reflexivity.
  - vm_compute. reflexivity.
  - vm_compute. reflexivity.
  - vm_compute. reflexivity.
  - vm_compute. reflexivity.
  - vm_compute. reflexivity.
Qed.

Lemma crash_well_formed_accepted_witness :
  exists resp st' w', crashes_inner sample_token sample_request 0 (sample_state, empty_world)
    = (Ok (201%Z, resp), (st', w')).
Proof.
  destruct (crash_well_formed_accepted sample_state sample_token sample_request 0 sample_metadata
    sample_fields sample_key sample_parts empty_world) as (resp & st' & w' & Hrun & _).
  - vm_compute; split; congruence.
  - exact sample_request_fits.
  - exact sample_admitted.
  - split_and!; [repeat (apply Forall2_cons; split; [vm_compute; reflexivity|]); by apply Forall2_nil
      |repeat (apply Forall_cons; split; [vm_compute; congruence|]); apply Forall_nil_2|vm_compute; reflexivity].
  - apply empty_store_ok.
  - apply empty_good.
  - by exists resp, st', w'.
Defined.
