(* ===== verification/Janitor.v ===== *)
(** * detritus-server/src/janitor.rs: retention

    One cycle snapshots the blobs, prunes expired logs and indexes, collects the
    hashes the surviving indexes reference, and sweeps the snapshot's blobs that
    are not referenced.  Counters are [u64] and wrap; [JPanicked] marks the
    subtraction of a duration that leaves the range of [SystemTime], and
    [JFuel] an exhausted bound of the directory walk (proved not to happen). *)

From Stdlib Require Import Ascii.
From S2P Require Import Prelude RustStd Fs External Instances Json Protocol Metrics Storage Crashes.
Open Scope Z_scope.

Record RetentionConfig := {
  logs_ttl_days : Z;
  crashes_ttl_days : Z;
  janitor_interval : Z
}.

(** The interval is in nanoseconds. *)
Definition RetentionConfig_default : RetentionConfig :=
  {| logs_ttl_days := 14; crashes_ttl_days := 90; janitor_interval := 60 * 60 * 1000000000 |}.

Record JanitorStats := {
  logs_deleted : Z;
  indexes_deleted : Z;
  blobs_deleted : Z;
  bytes_freed : Z
}.

Definition JanitorStats_default : JanitorStats :=
  {| logs_deleted := 0; indexes_deleted := 0; blobs_deleted := 0; bytes_freed := 0 |}.

Definition as_metrics (s : JanitorStats) : JanitorMetricStats :=
  {| jm_logs_deleted := logs_deleted s; jm_indexes_deleted := indexes_deleted s;
     jm_blobs_deleted := blobs_deleted s; jm_bytes_freed := bytes_freed s |}.

Inductive JanitorError :=
| JIo (e : io_error)
| JPanicked
| JFuel.

Record CrashDumpRef := { cdr_sha256 : string }.

Record CrashIndexRef := { cir_dump : CrashDumpRef; cir_attachments : list CrashDumpRef }.

Definition de_CrashDumpRef (v : Value) : Result CrashDumpRef json_error :=
  let? a := de_struct ["sha256"] v in
  let? h := field_req de_string a 0 "sha256" in
  Ok {| cdr_sha256 := h |}.

Definition de_CrashIndexRef (v : Value) : Result CrashIndexRef json_error :=
  let? a := de_struct ["dump"; "attachments"] v in
  let? d := field_req de_CrashDumpRef a 0 "dump" in
  let? l := field_default [] (de_vec de_CrashDumpRef) a 1 "attachments" in
  Ok {| cir_dump := d; cir_attachments := l |}.

Definition index_ref_from_slice `{JsonText} (b : bytes) : Result CrashIndexRef json_error :=
  let? v := json_parse b in de_CrashIndexRef v.

(** The hashes one index references. *)
Definition index_refs (i : CrashIndexRef) : list string :=
  cdr_sha256 (cir_dump i) :: (cdr_sha256 <$> cir_attachments i).

Definition has_extension (ext : string) (p : Path) : bool :=
  bool_decide (extension p ≫= to_str = Some ext).

Definition NANOS : Z := 1000000000.

(** [fs::metadata(path)...modified()], then the comparison with the cutoff. *)
Definition is_older_than (path : Path) (ttl_days : Z) : IO JanitorError bool :=
  let! md := io_map_err JIo (fs_metadata path) in
  if ttl_days =? 0 then io_ret true
  else
    let! now := system_time_now in
    let cutoff := now - wrap_u64 (ttl_days * 24 * 60 * 60) * NANOS in
    if cutoff <? - 2 ^ 63 * NANOS then io_err JPanicked
    else io_ret (md_modified md <=? cutoff).

Definition file_len (path : Path) : IO JanitorError Z :=
  let! md := io_try (fs_metadata path) in
  io_ret (match md with Ok md => md_len md | Err _ => 0 end).

Section Janitor.
Context `{OS : Os} `{J : JsonText}.

(** One entry of a directory: the stack of directories (top first) and the files. *)
Definition visit_entry (acc : list Path * list Path) (entry : Path)
  : IO JanitorError (list Path * list Path) :=
  let! ty := io_map_err JIo (file_type entry) in
  match ty with
  | IsDir => io_ret (entry :: acc.1, acc.2)
  | IsFile => io_ret (acc.1, acc.2 ++ [entry])
  end.

Fixpoint collect_loop (fuel : nat) (dirs files : list Path) : IO JanitorError (list Path) :=
  match dirs with
  | [] => io_ret files
  | dir :: rest =>
      match fuel with
      | O => io_err JFuel
      | Datatypes.S fuel' =>
          let! entries := io_map_err JIo (read_dir dir) in
          let! acc := io_fold visit_entry (rest, files) entries in
          collect_loop fuel' acc.1 acc.2
      end
  end.

(** The walk visits each directory once, so the number of nodes bounds it. *)
Definition collect_files (root : Path) : IO JanitorError (list Path) :=
  let! exists_ := io_map_err JIo (try_exists root) in
  if (exists_ : bool)
  then fun w => collect_loop (Datatypes.S (size (w_fs w))) [root] [] w
  else io_ret [].

Definition snapshot_blobs (root : Path) : IO JanitorError (list Path) :=
  let! files := collect_files root in
  io_ret (filter (fun p => has_extension "bin" p) files).

Definition prune_log (ttl_days : Z) (stats : JanitorStats) (file : Path) : IO JanitorError JanitorStats :=
  if negb (has_extension "ndjson" file) then io_ret stats
  else
    let! old := is_older_than file ttl_days in
    if (old : bool) then
      let! len := file_len file in
      io_map_err JIo (remove_file file);;!
      io_ret {| logs_deleted := wrap_u64 (logs_deleted stats + 1);
                indexes_deleted := indexes_deleted stats; blobs_deleted := blobs_deleted stats;
                bytes_freed := wrap_u64 (bytes_freed stats + len) |}
    else io_ret stats.

Definition prune_logs (s : StoragePaths) (ttl_days : Z) (stats : JanitorStats)
  : IO JanitorError JanitorStats :=
  let! files := collect_files (join (data_dir s) "logs") in
  io_fold (prune_log ttl_days) stats files.

Definition prune_index (ttl_days : Z) (acc : JanitorStats * gset string) (file : Path)
  : IO JanitorError (JanitorStats * gset string) :=
  let (stats, referenced) := acc in
  if negb (has_extension "json" file) then io_ret acc
  else
    let! old := is_older_than file ttl_days in
    if (old : bool) then
      let! len := file_len file in
      io_map_err JIo (remove_file file);;!
      io_ret ({| logs_deleted := logs_deleted stats;
                 indexes_deleted := wrap_u64 (indexes_deleted stats + 1);
                 blobs_deleted := blobs_deleted stats;
                 bytes_freed := wrap_u64 (bytes_freed stats + len) |}, referenced)
    else
      let! b := io_map_err JIo (fs_read file) in
      match index_ref_from_slice b with
      | Ok index => io_ret (stats, list_to_set (index_refs index) ∪ referenced)
      | Err _ => io_ret acc
      end.

Definition prune_indexes_and_collect_references (s : StoragePaths) (ttl_days : Z) (stats : JanitorStats)
  : IO JanitorError (JanitorStats * gset string) :=
  let! files := collect_files (join (join (data_dir s) "crashes") "by-source") in
  io_fold (prune_index ttl_days) (stats, ∅) files.

(** The hash in a blob's file name, if it has the form of one. *)
Definition blob_hash (blob : Path) : option string :=
  name ← file_name blob ≫= to_str;
  strip_suffix ".bin" name.

Definition sweep_blob (referenced : gset string) (stats : JanitorStats) (blob : Path)
  : IO JanitorError JanitorStats :=
  match blob_hash blob with
  | None => io_ret stats
  | Some hash =>
      if decide (hash ∈ referenced) then io_ret stats
      else
        let! len := file_len blob in
        let! removed := io_try (remove_file blob) in
        match removed with
        | Ok _ => io_ret {| logs_deleted := logs_deleted stats; indexes_deleted := indexes_deleted stats;
                            blobs_deleted := wrap_u64 (blobs_deleted stats + 1);
                            bytes_freed := wrap_u64 (bytes_freed stats + len) |}
        | Err error => if decide (kind error = NotFound) then io_ret stats else io_err (JIo error)
        end
  end.

Definition sweep_blobs (blob_snapshot : list Path) (referenced : gset string) (stats : JanitorStats)
  : IO JanitorError JanitorStats :=
  io_fold (sweep_blob referenced) stats blob_snapshot.

Definition run_janitor_cycle (s : StoragePaths) (config : RetentionConfig) : IO JanitorError JanitorStats :=
  let! blob_snapshot := snapshot_blobs (join (join (data_dir s) "crashes") "by-hash") in
  let! stats := prune_logs s (logs_ttl_days config) JanitorStats_default in
  let! (stats, referenced) := prune_indexes_and_collect_references s (crashes_ttl_days config) stats in
  sweep_blobs blob_snapshot referenced stats.

(** One tick of the loop of [spawn_janitor]; [None] when a panic ends the task. *)
Definition janitor_tick (s : StoragePaths) (config : RetentionConfig) (elapsed : Z) (m : Metrics) (w : World)
  : option Metrics * World :=
  match run_janitor_cycle s config w with
  | (Ok stats, w') => (Some (observe_janitor m "ok" elapsed (as_metrics stats)), w')
  | (Err JPanicked, w') => (None, w')
  | (Err _, w') => (Some (observe_janitor m "error" elapsed JanitorMetricStats_default), w')
  end.

(** [tokio::time::interval] panics on a zero period: the task ends at once. *)
Definition janitor_starts (config : RetentionConfig) : bool := 0 <? janitor_interval config.
End Janitor.

(** ** The directory walk *)

Section Walk.
Context `{OS : Os}.
Implicit Types (fs : gmap Path Node) (dirs files visited : list Path).

Definition node_is_file fs (q : Path) : Prop := exists c t, fs !! q = Some (File c t).

(** [q] lies below the directory [d]. *)
Definition below (d q : Path) : Prop := exists rest, q = d ++ rest /\ rest <> [] /\ "/" ∉ rest.

Lemma below_dir fs d x rest n :
  fs_wf fs -> fs !! (d ++ x :: rest) = Some n -> rest <> [] -> "/" ∉ x :: rest ->
  fs !! (d ++ [x]) = Some Dir.
Proof.
  intros Hwf. revert n. induction rest as [|y rest IH] using rev_ind; [done|].
  intros n Hn _ Hsl. rewrite app_comm_cons, app_assoc in Hn.
  assert (fs !! (d ++ x :: rest) = Some Dir) as Hd.
  { apply (Hwf _ _ _ Hn); [|by destruct d].
    apply parent_snoc. intros ->. apply Hsl. set_solver. }
  destruct (decide (rest = [])) as [->|Hne]; [done|]. eapply IH; try done. set_solver.
Qed.

(** A file below a directory is its child, or below one of its directories. *)
Lemma below_step fs dir q : fs_wf fs -> node_is_file fs q -> below dir q ->
  (exists x, x <> "/" /\ q = dir ++ [x]) \/
  exists d, (exists x, x <> "/" /\ d = dir ++ [x]) /\ fs !! d = Some Dir /\ below d q.
Proof.
  intros Hwf (c & t & Hq) (tail & -> & Hne & Hsl). destruct tail as [|x tail]; [done|].
  assert (x <> "/") as Hx by set_solver. destruct (decide (tail = [])) as [->|Hne']; [left; by exists x|right].
  exists (dir ++ [x]). split; [by exists x|]. split; [exact (below_dir fs dir x tail _ Hwf Hq Hne' Hsl)|].
  exists tail. rewrite <- app_assoc. split; [done|]. split; [done|]. set_solver.
Qed.

(** The state of the walk: what was visited, what is pending, what was found. *)
Record walking fs (root : Path) (visited dirs files : list Path) : Prop := {
  walk_NoDup : NoDup (visited ++ dirs);
  walk_known : forall d, d ∈ visited ++ dirs -> is_Some (fs !! d) /\ root `prefix_of` d;
  walk_parent : forall d, d ∈ visited ++ dirs -> d = root \/ exists p, p ∈ visited /\ parent d = Some p;
  walk_files : forall q, q ∈ files -> node_is_file fs q /\ root `prefix_of` q;
  walk_files_NoDup : NoDup files;
  walk_files_parent : forall q, q ∈ files -> exists p, p ∈ visited /\ parent q = Some p;
  walk_all : fs_wf fs -> forall q, node_is_file fs q -> below root q ->
    q ∈ files \/ exists d, d ∈ dirs /\ below d q
}.

Lemma walking_bound fs root visited dirs files :
  walking fs root visited dirs files -> (length (visited ++ dirs) <= size fs)%nat.
Proof.
  intros H. replace (size fs) with (length (map_to_list fs).*1)
    by (by rewrite length_fmap, length_map_to_list).
  apply submseteq_length, NoDup_submseteq; [apply (walk_NoDup _ _ _ _ _ H)|].
  intros d Hd. apply (walk_known _ _ _ _ _ H) in Hd as [[n Hn] _].
  apply list_elem_of_fmap. exists (d, n). split; [done|]. by apply elem_of_map_to_list.
Qed.

Lemma wp_visit_entries entries dirs files Q w :
  (forall w', w_fs w' = w_fs w -> times w' = times w ->
     Q (Ok (reverse (filter (fun q => w_fs w !! q = Some Dir) entries) ++ dirs,
            files ++ filter (fun q => w_fs w !! q <> Some Dir) entries)) w') ->
  (forall e w', w_fs w' = w_fs w -> times w' = times w -> Q (Err (JIo e)) w') ->
  wp (io_fold visit_entry (dirs, files) entries) Q w.
Proof.
  revert dirs files w. induction entries as [|q entries IH]; intros dirs files w HO HE; simpl.
  - apply wp_ret. specialize (HO w eq_refl eq_refl). by rewrite app_nil_r in HO.
  - apply wp_bind. unfold visit_entry at 1. apply wp_bind, wp_map_err, wp_file_type; [|by auto].
    intros ty w1 Hfs1 Hn1 Hty. cbn [map_err]. rewrite !filter_cons in HO.
    destruct ty; apply wp_ret, IH; cbn [fst snd]; rewrite ?Hfs1, ?Hn1; intros;
      try (apply HE; congruence).
    + destruct Hty as (c & t & Hty). rewrite Hty in HO. rewrite decide_False in HO by done.
      rewrite decide_True in HO by done. rewrite <- app_assoc. apply HO; congruence.
    + rewrite Hty in HO. rewrite decide_True in HO by done. rewrite decide_False in HO by tauto.
      rewrite reverse_cons, <- app_assoc in HO. apply HO; congruence.
Qed.

(** Popping a directory and pushing its entries keeps the state of the walk. *)
Lemma walking_step fs root visited dir rest files entries :
  walking fs root visited (dir :: rest) files -> entries ≡ₚ children fs dir ->
  walking fs root (visited ++ [dir])
    (reverse (filter (fun q => fs !! q = Some Dir) entries) ++ rest)
    (files ++ filter (fun q => fs !! q <> Some Dir) entries).
Proof.
  intros [Hnd Hknown Hpar Hfiles Hfnd Hfpar Hall] Hent.
  assert (dir ∉ visited) as Hunseen by (intros Hv; apply NoDup_app in Hnd as (_ & Hd & _); apply (Hd dir Hv); set_solver).
  assert (forall q, q ∈ entries <-> parent q = Some dir /\ is_Some (fs !! q)) as Hin.
  { intros q. rewrite Hent. apply elem_of_children. }
  assert (root `prefix_of` dir) as Hroot by (apply Hknown; set_solver).
  assert (forall q, q ∈ entries -> exists x, q = dir ++ [x]) as Hchild.
  { intros q [(x & -> & _)%parent_Some _]%Hin. by exists x. }
  assert (forall q, q ∈ entries -> root `prefix_of` q) as Hpre.
  { intros q Hq. destruct (Hchild q Hq) as [x ->]. by apply prefix_app_r. }
  assert (forall q, q ∈ entries -> q ∉ visited ++ dir :: rest) as Hnew.
  { intros q Hq Hv. destruct (Hpar q Hv) as [->|(p & Hp & Hpq)].
    - destruct (Hchild root Hq) as [x Hx]. apply prefix_length in Hroot.
      apply (f_equal length) in Hx. rewrite length_app in Hx. simpl in Hx. lia.
    - apply Hin in Hq as [Hq _]. rewrite Hpq in Hq. injection Hq as ->.
      by apply Hunseen. }
  assert (visited ++ [dir] ++ reverse (filter (fun q => fs !! q = Some Dir) entries) ++ rest ≡ₚ
    filter (fun q => fs !! q = Some Dir) entries ++ visited ++ dir :: rest) as Hperm.
  { rewrite (reverse_Permutation (filter _ entries)). simpl. solve_Permutation. }
  split.
  - rewrite <- app_assoc, Hperm. apply NoDup_app. split; [|split; [|done]].
    + apply NoDup_filter. rewrite Hent. apply children_NoDup.
    + intros q [_ Hq]%list_elem_of_filter. by apply Hnew.
  - intros d. rewrite <- app_assoc, Hperm, elem_of_app. intros [[_ Hd]%list_elem_of_filter|Hd]; [|auto].
    split; [by apply Hin in Hd as [_ ?]|auto].
  - intros d. rewrite <- app_assoc, Hperm, elem_of_app. intros [[_ Hd]%list_elem_of_filter|Hd].
    + right. exists dir. split; [set_solver|]. by apply Hin in Hd as [? _].
    + destruct (Hpar d Hd) as [?|(p & Hp & ?)]; [by left|]. right. exists p. set_solver.
  - intros q. rewrite elem_of_app, list_elem_of_filter. intros [Hq|[Hnd' Hq]]; [auto|]. split; [|auto].
    apply Hin in Hq as [_ [[c t|] Hn]]; [by exists c, t|congruence].
  - apply NoDup_app. split; [done|]. split.
    + intros q Hq [_ Hq']%list_elem_of_filter. destruct (Hfpar q Hq) as (p & Hp & Hpq).
      apply Hin in Hq' as [Hq' _]. congruence.
    + apply NoDup_filter. rewrite Hent. apply children_NoDup.
  - intros q. rewrite elem_of_app, list_elem_of_filter. intros [Hq|[_ Hq]].
    + destruct (Hfpar q Hq) as (p & Hp & Hpq). exists p. set_solver.
    + exists dir. split; [set_solver|]. by apply Hin in Hq as [? _].
  - intros Hwf q Hq Hb. destruct (Hall Hwf q Hq Hb) as [Hf|(d & Hd & Hdq)]; [set_solver|].
    apply elem_of_cons in Hd as [->|Hd]; [|right; exists d; set_solver].
    destruct (below_step fs dir q Hwf Hq Hdq) as [(x & Hx & ->)|(d & (x & Hx & ->) & Hd & Hdq')].
    + left. apply elem_of_app. right. destruct Hq as (c & t & Hq). apply list_elem_of_filter. split; [congruence|].
      apply Hin. split; [by apply parent_snoc|by eexists].
    + right. exists (dir ++ [x]). split; [|done]. apply elem_of_app. left. apply elem_of_reverse, list_elem_of_filter.
      split; [done|]. apply Hin. split; [by apply parent_snoc|by eexists].
Qed.

Lemma wp_collect_loop fuel root visited dirs files Q w :
  walking (w_fs w) root visited dirs files -> (size (w_fs w) < fuel + length visited)%nat ->
  (forall files' visited' w', w_fs w' = w_fs w -> times w' = times w ->
     walking (w_fs w) root visited' [] files' -> Q (Ok files') w') ->
  (forall e w', w_fs w' = w_fs w -> times w' = times w -> Q (Err (JIo e)) w') ->
  wp (collect_loop fuel dirs files) Q w.
Proof.
  revert visited dirs files w. induction fuel as [|fuel IH]; intros visited dirs files w Hwalk Hfuel HO HE.
  - destruct dirs as [|dir rest]; [by apply wp_ret, (HO _ visited)|]. exfalso.
    apply walking_bound in Hwalk. rewrite length_app in Hwalk. simpl in *. lia.
  - destruct dirs as [|dir rest]; [by apply wp_ret, (HO _ visited)|]. cbn [collect_loop].
    apply wp_bind, wp_map_err, wp_read_dir; [|by auto]. intros entries w1 Hfs1 Hn1 _ Hent.
    cbn [map_err]. apply wp_bind, wp_visit_entries; [|by intros; apply HE; congruence].
    intros w2 Hfs2 Hn2. cbn [fst snd]. rewrite Hfs1 in *.
    apply (IH (visited ++ [dir])); rewrite ?Hfs2.
    + by apply walking_step.
    + rewrite length_app. simpl. lia.
    + intros files' visited' w' Hfs' Hn' Hw. apply (HO _ visited'); [done|congruence|done].
    + intros e w' Hfs' Hn'. apply HE; [done|congruence].
Qed.

Lemma below_root fs root rest n :
  fs_wf fs -> fs !! (root ++ rest) = Some n -> rest <> [] -> "/" ∉ rest -> root <> [] ->
  fs !! root = Some Dir.
Proof.
  intros Hwf Hn Hne Hsl Hr. destruct rest as [|x rest]; [done|].
  assert (exists n', fs !! (root ++ [x]) = Some n') as [n' Hx].
  { destruct (decide (rest = [])) as [->|]; [by eauto|]. exists Dir. by eapply below_dir. }
  apply (Hwf _ _ _ Hx); [|done]. apply parent_snoc. set_solver.
Qed.

(** The walk ends, reads only, and finds every file below the root. *)
Lemma wp_collect_files root Q w :
  root <> [] ->
  (forall files w', w_fs w' = w_fs w -> times w' = times w ->
     (forall q, q ∈ files -> node_is_file (w_fs w) q /\ root `prefix_of` q) -> NoDup files ->
     (fs_wf (w_fs w) -> forall q, node_is_file (w_fs w) q -> below root q -> q ∈ files) ->
     Q (Ok files) w') ->
  (forall e w', w_fs w' = w_fs w -> times w' = times w -> Q (Err (JIo e)) w') ->
  wp (collect_files root) Q w.
Proof.
  intros Hroot HO HE. unfold collect_files. apply wp_bind, wp_map_err, wp_try_exists;
    [|intros e w' Hn%same_env_times Hfs; by apply HE].
  intros w1 Hn1%same_env_times Hfs1. cbn [map_err]. case_bool_decide as Hex.
  - unfold wp at 1. fold (wp (collect_loop (Datatypes.S (size (w_fs w1))) [root] []) Q w1).
    apply (wp_collect_loop _ root []); [|simpl; lia| |by intros; apply HE; congruence].
    + rewrite Hfs1. split; simpl.
      * apply NoDup_singleton.
      * intros d ->%list_elem_of_singleton. done.
      * intros d ->%list_elem_of_singleton. by left.
      * intros q Hq. by apply not_elem_of_nil in Hq.
      * constructor.
      * intros q Hq. by apply not_elem_of_nil in Hq.
      * intros _ q _ Hb. right. exists root. split; [by left|done].
    + intros files' visited' w' Hfs' Hn' [_ _ _ Hf Hnd _ Hall].
      rewrite Hfs1 in Hfs', Hf, Hall. apply HO; [done|congruence|done|done|].
      intros Hwf q Hq Hb. destruct (Hall Hwf q Hq Hb) as [?|(d & Hd & _)]; [done|].
      by apply not_elem_of_nil in Hd.
  - apply wp_ret, HO; [done|done|by intros q Hq%not_elem_of_nil|constructor|].
    intros Hwf q (c & t & Hq) (rest & -> & Hne & Hsl). exfalso. apply Hex. exists Dir.
    by apply (below_root _ _ rest _ Hwf Hq).
Qed.
End Walk.
