(* ===== verification/Retention.v ===== *)
(** * Properties of the janitor: what a retention cycle removes and keeps *)

From Stdlib Require Import Ascii.
From S2P Require Import Prelude RustStd Fs External Instances Json Protocol Metrics Storage Crashes Janitor.
Open Scope Z_scope.

(** Expired at the clock reading [now]. *)
Definition expired (now ttl_days mtime : Z) : bool :=
  (ttl_days =? 0) || (mtime <=? now - wrap_u64 (ttl_days * 24 * 60 * 60) * NANOS).

(** For a retention period that fits the type the product is exact: the age in
    days. *)
Lemma expired_exact now ttl_days mtime : 0 < ttl_days -> ttl_days * 24 * 60 * 60 < 2 ^ 64 ->
  expired now ttl_days mtime = (mtime <=? now - ttl_days * (24 * 60 * 60 * NANOS)).
Proof.
  intros H0 Hmax. unfold expired. destruct (Z.eqb_spec ttl_days 0); [lia|]. cbn [orb]. f_equal.
  unfold wrap_u64. rewrite Z.mod_small by lia. lia.
Qed.

(** [fs'] is [fs] without some of the files that satisfy [P]. *)
Definition pruned (P : Path -> bytes -> Z -> Prop) (fs fs' : gmap Path Node) : Prop :=
  forall q, fs' !! q = fs !! q \/
    (fs' !! q = None /\ exists c t, fs !! q = Some (File c t) /\ P q c t).

#[export] Instance pruned_refl P : Reflexive (pruned P).
Proof. by left. Qed.

#[export] Instance pruned_trans P : Transitive (pruned P).
Proof.
  intros f1 f2 f3 H12 H23 q. destruct (H23 q) as [->|(Hn & c & t & Hq & HP)]; [auto|].
  destruct (H12 q) as [E|(E & _)]; [|congruence]. right. split; [done|].
  exists c, t. split; [congruence|done].
Qed.

Lemma pruned_mono (P P' : Path -> bytes -> Z -> Prop) fs fs' :
  (forall q c t, fs !! q = Some (File c t) -> P q c t -> P' q c t) -> pruned P fs fs' -> pruned P' fs fs'.
Proof. intros HP H q. destruct (H q) as [?|(? & c & t & ? & ?)]; [auto|]. right. eauto 6. Qed.

Lemma pruned_some P fs fs' q n : pruned P fs fs' -> fs' !! q = Some n -> fs !! q = Some n.
Proof. intros H Hq. destruct (H q) as [E|(E & _)]; congruence. Qed.

Lemma pruned_wf P fs fs' : fs_wf fs -> pruned P fs fs' -> fs_wf fs'.
Proof.
  intros Hwf H r p n Hr Hp Hne. apply (pruned_some _ _ _ _ _ H) in Hr.
  pose proof (Hwf _ _ _ Hr Hp Hne) as Hd.
  destruct (H p) as [->|(_ & c & t & Hf & _)]; congruence.
Qed.

Lemma pruned_delete (P : Path -> bytes -> Z -> Prop) fs q c t :
  fs !! q = Some (File c t) -> P q c t -> pruned P fs (delete q fs).
Proof.
  intros Hq HP r. destruct (decide (q = r)) as [<-|]; [|left; by rewrite lookup_delete_ne].
  right. rewrite lookup_delete_eq. eauto.
Qed.

Lemma size_delete_file (fs : gmap Path Node) q n : fs !! q = Some n -> Z.of_nat (size (delete q fs)) = Z.of_nat (size fs) - 1.
Proof.
  intros Hq. rewrite map_size_delete_Some by (by eexists).
  assert (size fs <> 0%nat); [|lia]. intros ->%map_size_empty_inv. by rewrite lookup_empty in Hq.
Qed.

(** ** Ages *)

Lemma wp_is_older_than path ttl Q w :
  (forall b w', w_fs w' = w_fs w -> times w' ⊆ times w ->
     (forall c t, w_fs w !! path = Some (File c t) -> exists now, now ∈ times w /\ b = expired now ttl t) ->
     Q (Ok b) w') ->
  (forall e w', w_fs w' = w_fs w -> Q (Err e) w') ->
  wp (is_older_than path ttl) Q w.
Proof.
  intros HO HE. unfold is_older_than. apply wp_bind, wp_map_err, wp_fs_metadata; [|by intros; apply HE].
  intros md w1 Hfs1 Henv1%same_env_times Hmd. cbn [map_err]. unfold expired in HO.
  destruct (ttl =? 0).
  - apply wp_ret, HO; [done|by rewrite Henv1; reflexivity|]. intros c t _. exists (w_now w). split; [by left|done].
  - apply wp_bind. unfold system_time_now, wp at 1.
    assert (forall now w2, w_fs w2 = w_fs w -> times w2 ⊆ times w -> now ∈ times w ->
      wp (if now - wrap_u64 (ttl * 24 * 60 * 60) * NANOS <? - 2 ^ 63 * NANOS then io_err JPanicked
          else io_ret (md_modified md <=? now - wrap_u64 (ttl * 24 * 60 * 60) * NANOS)) Q w2) as Hend.
    { intros now w2 Hfs2 Ht2 Hnow. destruct (_ <? _); [by apply wp_err, HE|].
      apply wp_ret, HO; [done|done|]. intros c t Hf. exists now. split; [done|].
      by destruct (Hmd c t Hf) as [-> _]. }
    unfold times in Henv1. destruct (w_clock w1) as [|t ts] eqn:Ec; cbn [fst snd].
    + apply Hend; [done|unfold times; rewrite Ec, Henv1; reflexivity|]. unfold times. rewrite <- Henv1. by left.
    + apply Hend; unfold times; cbn [w_fs w_now w_clock]; [done|rewrite <- Henv1; set_solver..].
Qed.

Lemma wp_file_len path Q w :
  (forall n w', w_fs w' = w_fs w -> times w' = times w -> Q (Ok n) w') -> wp (file_len path) Q w.
Proof.
  intros HQ. unfold file_len. apply wp_bind, wp_try, wp_fs_metadata;
    intros ? w1 Hfs1 Henv1%same_env_times; intros; by apply wp_ret, HQ.
Qed.

Lemma wp_remove_one path Q w :
  (forall c t w', w_fs w !! path = Some (File c t) -> times w' = times w ->
     w_fs w' = delete path (w_fs w) -> Q (Ok tt) w') ->
  (forall e w', w_fs w' = w_fs w -> times w' = times w -> Q (Err e) w') ->
  wp (remove_file path) Q w.
Proof.
  intros HO HE. apply wp_remove_file.
  - intros c t w' Hf He%same_env_times Hfs. by eapply HO.
  - intros e w' He%same_env_times Hfs. by apply HE.
Qed.

(** ** One file *)

(** The outcome of pruning one candidate, seen at the clock readings [ts]:
    kept because some reading finds it fresh, or removed because one finds it
    expired. *)
Definition prune_outcome (ext : string) (ttl : Z) (ts : list Z) (file : Path)
    (fs fs' : gmap Path Node) : Prop :=
  (fs' = fs /\ (has_extension ext file = true -> forall c t, fs !! file = Some (File c t) ->
     exists now, now ∈ ts /\ expired now ttl t = false)) \/
  (has_extension ext file = true /\ fs' = delete file fs /\
     exists c t now, fs !! file = Some (File c t) /\ now ∈ ts /\ expired now ttl t = true).

(** The counter [f], a [u64], grows by the number of nodes removed. *)
Definition counted (f : JanitorStats -> Z) (stats stats' : JanitorStats) (fs fs' : gmap Path Node) : Prop :=
  f stats = wrap_u64 (f stats) ->
  f stats' = wrap_u64 (f stats + (Z.of_nat (size fs) - Z.of_nat (size fs'))).

Lemma counted_refl f stats fs : counted f stats stats fs fs.
Proof. intros H. rewrite Z.sub_diag, Z.add_0_r. exact H. Qed.

Lemma counted_trans f s1 s2 s3 fs1 fs2 fs3 :
  counted f s1 s2 fs1 fs2 -> counted f s2 s3 fs2 fs3 -> counted f s1 s3 fs1 fs3.
Proof.
  unfold counted, wrap_u64. intros H1 H2 H. specialize (H1 H). rewrite H2; rewrite H1; [|by rewrite Zmod_mod].
  rewrite Zplus_mod_idemp_l. f_equal. lia.
Qed.

Lemma counted_delete f stats stats' fs q n :
  fs !! q = Some n -> f stats' = wrap_u64 (f stats + 1) -> counted f stats stats' fs (delete q fs).
Proof. intros Hq Hf _. rewrite Hf, (size_delete_file _ _ _ Hq). f_equal. lia. Qed.

(** The nodes of [fs] below [root] that [fs'] does not have. *)
Definition removed_below (root : Path) (fs fs' : gmap Path Node) : gmap Path Node :=
  filter (fun kv => root `prefix_of` kv.1 /\ fs' !! kv.1 = None) fs.

(** What a phase that works below [root] removes. *)
Lemma pruned_removed (P : Path -> bytes -> Z -> Prop) root fs fs' :
  (forall q c t, P q c t -> root `prefix_of` q) -> pruned P fs fs' ->
  Z.of_nat (size (removed_below root fs fs')) = Z.of_nat (size fs) - Z.of_nat (size fs').
Proof.
  intros HP Hp.
  assert (fs = removed_below root fs fs' ∪ fs') as Hu.
  { apply map_eq. intros q. rewrite lookup_union. unfold removed_below. rewrite map_lookup_filter.
    destruct (Hp q) as [Heq|(Hn & c & t & Hq & HPq)].
    - rewrite Heq. destruct (fs !! q) as [n|] eqn:E; [|done]. cbn.
      rewrite option_guard_False; [done|]. intros [_ H]. cbn in H. congruence.
    - rewrite Hn, Hq. cbn. rewrite option_guard_True; [done|]. cbn. split; [by eapply HP|done]. }
  assert (removed_below root fs fs' ##ₘ fs') as Hd.
  { apply map_disjoint_spec. intros q n n' [_ [_ Hno]]%map_lookup_filter_Some Hq. cbn in Hno. congruence. }
  rewrite Hu at 2. rewrite map_size_disj_union by done. lia.
Qed.

(** The nodes below one root are not touched by the work below another. *)
Lemma removed_before (P : Path -> bytes -> Z -> Prop) root fs1 fs2 fs3 :
  (forall q c t, P q c t -> ~ root `prefix_of` q) -> pruned P fs2 fs3 ->
  removed_below root fs1 fs3 = removed_below root fs1 fs2.
Proof.
  intros HP Hp. unfold removed_below. apply map_filter_ext. intros q n _. cbn.
  destruct (Hp q) as [->|(H3 & c & t & H2 & HPq)]; [done|]. split; [|intros [_ ?]; congruence].
  intros [Hr _]. by apply HP in HPq.
Qed.

Lemma removed_after (P : Path -> bytes -> Z -> Prop) root fs1 fs2 fs3 :
  (forall q c t, P q c t -> ~ root `prefix_of` q) -> pruned P fs1 fs2 ->
  removed_below root fs1 fs3 = removed_below root fs2 fs3.
Proof.
  intros HP Hp. apply map_eq. intros q. unfold removed_below. rewrite !map_lookup_filter.
  destruct (Hp q) as [->|(H2 & c & t & H1 & HPq)]; [done|]. rewrite H1, H2. cbn.
  rewrite option_guard_False; [done|]. intros [Hr _]. by apply HP in HPq.
Qed.

Section Prune.
Context `{OS : Os} `{J : JsonText}.

Lemma wp_prune_log ttl stats file Q w :
  (forall stats' w', prune_outcome "ndjson" ttl (times w) file (w_fs w) (w_fs w') ->
     times w' ⊆ times w ->
     counted logs_deleted stats stats' (w_fs w) (w_fs w') ->
     indexes_deleted stats' = indexes_deleted stats -> blobs_deleted stats' = blobs_deleted stats ->
     Q (Ok stats') w') ->
  (forall e w', w_fs w' = w_fs w -> Q (Err e) w') ->
  wp (prune_log ttl stats file) Q w.
Proof.
  intros HO HE. unfold prune_log. destruct (has_extension "ndjson" file) eqn:Ex; cbn [negb].
  2: { apply wp_ret, HO; try done; [|apply counted_refl]. left. split; [done|]. by rewrite Ex. }
  apply wp_bind, wp_is_older_than; [|by auto]. intros b w1 Hfs1 Ht1 Hb. destruct b.
  - apply wp_bind, wp_file_len. intros n w2 Hfs2 Ht2. apply wp_bind, wp_map_err, wp_remove_one.
    + intros c t w3 Hf Ht3 Hfs3. rewrite Hfs2, Hfs1 in Hf, Hfs3. cbn [map_err]. apply wp_ret, HO; try done.
      * right. split; [done|]. split; [done|]. destruct (Hb c t Hf) as (now & Hnow & He).
        by exists c, t, now.
      * by rewrite Ht3, Ht2.
      * rewrite Hfs3. by apply (counted_delete _ _ _ _ _ _ Hf).
    + intros e w3 Hfs3 _. apply HE. congruence.
  - apply wp_ret, HO; try done; [|rewrite Hfs1; apply counted_refl]. left. split; [done|]. intros _ c t Hf.
    destruct (Hb c t Hf) as (now & Hnow & He). eauto.
Qed.

(** An index that stays contributes its references. *)
Definition refs_taken (referenced : gset string) (fs : gmap Path Node) (file : Path) : Prop :=
  forall c t idx, fs !! file = Some (File c t) -> has_extension "json" file = true ->
    index_ref_from_slice c = Ok idx -> forall h, h ∈ index_refs idx -> h ∈ referenced.

(** The index at [file] references the hash [h]. *)
Definition refers (fs : gmap Path Node) (file : Path) (h : string) : Prop :=
  exists c t idx, fs !! file = Some (File c t) /\ has_extension "json" file = true /\
    index_ref_from_slice c = Ok idx /\ h ∈ index_refs idx.

Lemma wp_prune_index ttl stats referenced file Q w :
  (forall stats' referenced' w', prune_outcome "json" ttl (times w) file (w_fs w) (w_fs w') ->
     times w' ⊆ times w -> counted indexes_deleted stats stats' (w_fs w) (w_fs w') ->
     logs_deleted stats' = logs_deleted stats -> blobs_deleted stats' = blobs_deleted stats ->
     referenced ⊆ referenced' -> refs_taken referenced' (w_fs w') file ->
     (forall h, h ∈ referenced' -> h ∈ referenced \/ refers (w_fs w') file h) ->
     Q (Ok (stats', referenced')) w') ->
  (forall e w', w_fs w' = w_fs w -> Q (Err e) w') ->
  wp (prune_index ttl (stats, referenced) file) Q w.
Proof.
  intros HO HE. unfold prune_index. destruct (has_extension "json" file) eqn:Ex; cbn [negb].
  2: { apply wp_ret, HO; try done; [|apply counted_refl| |].
       - left. split; [done|]. by rewrite Ex.
       - intros c t idx _. by rewrite Ex.
       - auto. }
  apply wp_bind, wp_is_older_than; [|by intros; apply HE]. intros b w1 Hfs1 Ht1 Hb. destruct b.
  - apply wp_bind, wp_file_len. intros n w2 Hfs2 Ht2. apply wp_bind, wp_map_err, wp_remove_one.
    + intros c t w3 Hf Ht3 Hfs3. rewrite Hfs2, Hfs1 in Hf, Hfs3. cbn [map_err]. apply wp_ret, HO; try done.
      * right. split; [done|]. split; [done|]. destruct (Hb c t Hf) as (now & Hnow & He).
        by exists c, t, now.
      * by rewrite Ht3, Ht2.
      * rewrite Hfs3. by apply (counted_delete _ _ _ _ _ _ Hf).
      * intros c' t' idx Hf'. rewrite Hfs3, lookup_delete_eq in Hf'. done.
      * auto.
    + intros e w3 Hfs3 _. apply HE. congruence.
  - apply wp_bind, wp_map_err, wp_fs_read; [|intros e w2 _ Hfs2; apply HE; congruence].
    intros c t w2 Hf Henv2%same_env_times Hfs2. cbn [map_err]. rewrite Hfs1 in Hf, Hfs2.
    assert (prune_outcome "json" ttl (times w) file (w_fs w) (w_fs w2)) as Hout.
    { left. split; [done|]. intros _ c' t' Hf'. destruct (Hb c' t' Hf') as (now & ? & ?). eauto. }
    assert (times w2 ⊆ times w) as Ht by (by rewrite Henv2).
    assert (forall c' t', w_fs w2 !! file = Some (File c' t') -> c' = c) as Hsame
      by (intros c' t' Hf'; rewrite Hfs2 in Hf'; congruence).
    destruct (index_ref_from_slice c) as [idx|e] eqn:Ei; apply wp_ret, HO;
      try (rewrite Hfs2; apply counted_refl); try assumption; try reflexivity.
    + apply union_subseteq_r.
    + intros c' t' idx' ->%Hsame _ Hi h Hh. rewrite Ei in Hi. injection Hi as <-.
      by apply elem_of_union_l, elem_of_list_to_set.
    + intros h [Hh%elem_of_list_to_set|Hh]%elem_of_union; [right|by left].
      exists c, t, idx. by rewrite Hfs2.
    + intros c' t' idx' ->%Hsame _ Hi. by rewrite Ei in Hi.
    + auto.
Qed.

(** ** All candidates *)

(** What a pass over the files below [root] with extension [ext] may remove. *)
Definition candidate (root : Path) (ext : string) (ttl : Z) (ts : list Z) (q : Path) (c : bytes) (t : Z) : Prop :=
  root `prefix_of` q /\ has_extension ext q = true /\ exists now, now ∈ ts /\ expired now ttl t = true.

(** What it must remove: every file expired at all its clock readings. *)
Definition all_pruned (ext : string) (ttl : Z) (ts : list Z) (fs fs' : gmap Path Node) (q : Path) : Prop :=
  forall c t, fs !! q = Some (File c t) -> has_extension ext q = true ->
    (forall now, now ∈ ts -> expired now ttl t = true) -> fs' !! q = None.

Lemma wp_prune_fold {A : Type} (f : A -> Path -> IO JanitorError A) (root : Path) (ext : string) (ttl : Z)
    (Inv : A -> list Path -> gmap Path Node -> Prop) (acc : A) (files : list Path)
    (Q : Result A JanitorError -> World -> Prop) (w : World) :
  (forall acc seen file todo w1, files = seen ++ file :: todo -> Inv acc seen (w_fs w1) ->
     wp (f acc file) (fun r w' => match r with
       | Ok acc' => prune_outcome ext ttl (times w1) file (w_fs w1) (w_fs w') /\ times w' ⊆ times w1 /\
                    Inv acc' (seen ++ [file]) (w_fs w')
       | Err _ => w_fs w' = w_fs w1
       end) w1) ->
  (forall q, q ∈ files -> root `prefix_of` q) -> Inv acc [] (w_fs w) ->
  (forall acc' w', Inv acc' files (w_fs w') -> times w' ⊆ times w ->
     pruned (candidate root ext ttl (times w)) (w_fs w) (w_fs w') ->
     (forall q, q ∈ files -> all_pruned ext ttl (times w) (w_fs w) (w_fs w') q) -> Q (Ok acc') w') ->
  (forall e w', pruned (candidate root ext ttl (times w)) (w_fs w) (w_fs w') -> Q (Err e) w') ->
  wp (io_fold f acc files) Q w.
Proof.
  intros Hstep Hroot Hinv HO HE.
  apply (wp_fold _ (fun acc todo w1 => exists seen, files = seen ++ todo /\ Inv acc seen (w_fs w1) /\
    times w1 ⊆ times w /\ pruned (candidate root ext ttl (times w)) (w_fs w) (w_fs w1) /\
    forall q, q ∈ seen -> all_pruned ext ttl (times w) (w_fs w) (w_fs w1) q)).
  - intros acc1 file todo w1 (seen & Hfiles & Hi & Ht & Hp & Hall).
    assert (file ∈ files) as Hin by (rewrite Hfiles; set_solver).
    eapply wp_mono; [apply (Hstep acc1 seen file todo w1 Hfiles Hi)|].
    intros [acc2|e] w2; [|intros Heq; apply HE; by rewrite Heq]. intros (Hout & Ht2 & Hi2).
    assert (pruned (candidate root ext ttl (times w)) (w_fs w1) (w_fs w2)) as Hp2.
    { destruct Hout as [[-> _]|(Hx & -> & c & t & now & Hf & Hnow & He)]; [reflexivity|].
      apply (pruned_delete _ _ _ _ _ Hf). split; [by apply Hroot|]. split; [done|].
      exists now. split; [by apply Ht|done]. }
    exists (seen ++ [file]). rewrite <- app_assoc. split; [done|]. split; [done|].
    split; [by etransitivity|]. split; [by etransitivity|].
    intros q Hq c t Hf Hx Hexp. destruct (w_fs w2 !! q) as [n|] eqn:E; [|done]. exfalso.
    pose proof (pruned_some _ _ _ _ _ Hp2 E) as E1.
    apply elem_of_app in Hq as [Hq|Hq%list_elem_of_singleton].
    + specialize (Hall q Hq c t Hf Hx Hexp). congruence.
    + subst q. pose proof (pruned_some _ _ _ _ _ Hp E1) as E0. rewrite Hf in E0. injection E0 as <-.
      destruct Hout as [[_ Hkeep]|(_ & Heq & _)]; [|by rewrite Heq, lookup_delete_eq in E].
      destruct (Hkeep Hx c t E1) as (now & Hnow & Hno). rewrite Hexp in Hno; [done|]. by apply Ht.
  - intros acc1 w1 (seen & Hfiles & Hi & Ht & Hp & Hall). rewrite app_nil_r in Hfiles. subst seen.
    by apply HO.
  - exists []. split; [done|]. split; [done|]. split; [reflexivity|]. split; [reflexivity|].
    intros q Hq. by apply not_elem_of_nil in Hq.
Qed.

(** ** The phases *)

Definition logs_root (s : StoragePaths) : Path := join (data_dir s) "logs".
Definition index_root (s : StoragePaths) : Path := join (join (data_dir s) "crashes") "by-source".
Definition blob_root (s : StoragePaths) : Path := join (join (data_dir s) "crashes") "by-hash".

Lemma roots_components s :
  logs_root s = data_dir s ++ ["logs"] /\ index_root s = data_dir s ++ ["crashes"; "by-source"] /\
  blob_root s = data_dir s ++ ["crashes"; "by-hash"].
Proof.
  unfold logs_root, index_root, blob_root. rewrite !join_normal by done. by rewrite <- !app_assoc.
Qed.

Lemma app_not_nil (l : Path) x r : l ++ x :: r <> [].
Proof. by destruct l. Qed.

Lemma wp_prune_logs s ttl stats Q w :
  (forall stats' w', times w' ⊆ times w ->
     pruned (candidate (logs_root s) "ndjson" ttl (times w)) (w_fs w) (w_fs w') ->
     (fs_wf (w_fs w) -> forall q, below (logs_root s) q ->
        all_pruned "ndjson" ttl (times w) (w_fs w) (w_fs w') q) ->
     counted logs_deleted stats stats' (w_fs w) (w_fs w') ->
     indexes_deleted stats' = indexes_deleted stats -> blobs_deleted stats' = blobs_deleted stats ->
     Q (Ok stats') w') ->
  (forall e w', pruned (candidate (logs_root s) "ndjson" ttl (times w)) (w_fs w) (w_fs w') ->
     Q (Err e) w') ->
  wp (prune_logs s ttl stats) Q w.
Proof.
  intros HO HE. unfold prune_logs. fold (logs_root s). apply wp_bind, wp_collect_files.
  { rewrite (proj1 (roots_components s)). apply app_not_nil. }
  2: { intros e w1 Hfs1 _. apply HE. by rewrite Hfs1. }
  intros files w1 Hfs1 Ht1 Hfiles Hnd Hall.
  apply (wp_prune_fold _ (logs_root s) "ndjson" ttl (fun st _ fs =>
    counted logs_deleted stats st (w_fs w) fs /\ indexes_deleted st = indexes_deleted stats /\
    blobs_deleted st = blobs_deleted stats)).
  - intros st seen file todo w2 _ (Hc & Hi & Hb). apply wp_prune_log; [|done].
    intros st' w3 Hout Ht Hc' Hi' Hb'. split; [done|]. split; [done|].
    split; [by eapply counted_trans|]. split; congruence.
  - intros q Hq. by apply Hfiles.
  - rewrite Hfs1. split; [apply counted_refl|done].
  - intros st w2 (Hc & Hi & Hb). rewrite Hfs1, Ht1. intros Ht Hp Hd. apply HO; try done.
    intros Hwf q Hbel c t Hf. refine (Hd q _ c t Hf). apply Hall; [done| |done]. by exists c, t.
  - intros e w2 Hp. rewrite Hfs1, Ht1 in Hp. by apply HE.
Qed.

(** Some index below the root references [h]. *)
Definition referenced_by (s : StoragePaths) (fs : gmap Path Node) (h : string) : Prop :=
  exists q, below (index_root s) q /\ refers fs q h.

Lemma wp_prune_indexes s ttl stats Q w :
  (forall stats' referenced w', times w' ⊆ times w ->
     pruned (candidate (index_root s) "json" ttl (times w)) (w_fs w) (w_fs w') ->
     (fs_wf (w_fs w) -> forall q, below (index_root s) q ->
        all_pruned "json" ttl (times w) (w_fs w) (w_fs w') q) ->
     counted indexes_deleted stats stats' (w_fs w) (w_fs w') ->
     logs_deleted stats' = logs_deleted stats -> blobs_deleted stats' = blobs_deleted stats ->
     (fs_wf (w_fs w) -> forall h, referenced_by s (w_fs w') h -> h ∈ referenced) ->
     (forall h, h ∈ referenced -> exists q, index_root s `prefix_of` q /\ refers (w_fs w') q h) ->
     Q (Ok (stats', referenced)) w') ->
  (forall e w', pruned (candidate (index_root s) "json" ttl (times w)) (w_fs w) (w_fs w') ->
     Q (Err e) w') ->
  wp (prune_indexes_and_collect_references s ttl stats) Q w.
Proof.
  intros HO HE. unfold prune_indexes_and_collect_references. fold (index_root s).
  apply wp_bind, wp_collect_files.
  { rewrite (proj1 (proj2 (roots_components s))). apply app_not_nil. }
  2: { intros e w1 Hfs1 _. apply HE. by rewrite Hfs1. }
  intros files w1 Hfs1 Ht1 Hfiles Hnd Hall.
  apply (wp_prune_fold _ (index_root s) "json" ttl (fun acc seen fs =>
    (counted indexes_deleted stats acc.1 (w_fs w) fs /\ logs_deleted acc.1 = logs_deleted stats /\
     blobs_deleted acc.1 = blobs_deleted stats) /\
    (forall q, q ∈ seen -> refs_taken acc.2 fs q) /\
    (forall h, h ∈ acc.2 -> exists q, q ∈ seen /\ refers fs q h))).
  - intros [st refd] seen file todo w2 Hsplit ((Hc & Hi & Hb) & Htaken & Hrefs).
    cbn [fst snd] in *. apply wp_prune_index; [|done].
    intros st' refd' w3 Hout Ht Hc' Hi' Hb' Hsub Hnew Hnewrefs. split; [done|]. split; [done|].
    assert (forall q, q <> file -> w_fs w3 !! q = w_fs w2 !! q) as Hkeep.
    { intros q Hq. destruct Hout as [[-> _]|(_ & -> & _)]; [done|]. by rewrite lookup_delete_ne. }
    assert (file ∉ seen) as Hfresh.
    { rewrite Hsplit in Hnd. apply NoDup_app in Hnd as (_ & Hd & _). intros H. apply (Hd file H). by left. }
    cbn [fst snd]. split; [split; [by eapply counted_trans|split; congruence]|]. split.
    + intros q [Hq| ->%list_elem_of_singleton]%elem_of_app; [|done].
      intros c t idx Hf Hx Hi2 h Hh. apply Hsub. rewrite Hkeep in Hf by (intros ->; done).
      by eapply Htaken.
    + intros h [Hh|Hh]%Hnewrefs; [|exists file; set_solver].
      destruct (Hrefs h Hh) as (q & Hq & c & t & idx & Hf & Hrest). exists q. split; [set_solver|].
      exists c, t, idx. rewrite Hkeep by (intros ->; done). done.
  - intros q Hq. by apply Hfiles.
  - rewrite Hfs1. cbn [fst snd]. split; [split; [apply counted_refl|done]|]. split.
    + intros q Hq. by apply not_elem_of_nil in Hq.
    + intros h Hh. by apply not_elem_of_empty in Hh.
  - intros [st refd] w2 ((Hc & Hi & Hb) & Htaken & Hrefs). rewrite Hfs1, Ht1. intros Ht Hp Hd.
    cbn [fst snd] in *. apply HO; try done.
    + intros Hwf q Hbel c t Hf. refine (Hd q _ c t Hf). apply Hall; [done| |done]. by exists c, t.
    + intros Hwf h (q & Hbel & c & t & idx & Hf & Hx & Hidx & Hh).
      eapply (Htaken q); try done. apply Hall; [done| |done]. exists c, t. by eapply pruned_some.
    + intros h Hh. destruct (Hrefs h Hh) as (q & Hq & Hr). exists q. split; [|done].
      by apply Hfiles.
  - intros e w2 Hp. rewrite Hfs1, Ht1 in Hp. by apply HE.
Qed.
End Prune.

(** ** The sweep *)

Definition unreferenced (snapshot : list Path) (referenced : gset string) (q : Path) (c : bytes) (t : Z) : Prop :=
  q ∈ snapshot /\ exists h, blob_hash q = Some h /\ h ∉ referenced.

Lemma wp_sweep_blobs snapshot referenced stats Q w :
  (forall stats' w',
     pruned (unreferenced snapshot referenced) (w_fs w) (w_fs w') ->
     (forall q h, q ∈ snapshot -> blob_hash q = Some h -> h ∉ referenced -> w_fs w' !! q = None) ->
     counted blobs_deleted stats stats' (w_fs w) (w_fs w') ->
     logs_deleted stats' = logs_deleted stats -> indexes_deleted stats' = indexes_deleted stats ->
     Q (Ok stats') w') ->
  (forall e w', pruned (unreferenced snapshot referenced) (w_fs w) (w_fs w') -> Q (Err e) w') ->
  wp (sweep_blobs snapshot referenced stats) Q w.
Proof.
  intros HO HE. unfold sweep_blobs.
  apply (wp_fold _ (fun st todo w1 => exists seen, snapshot = seen ++ todo /\
    pruned (unreferenced snapshot referenced) (w_fs w) (w_fs w1) /\
    (forall q h, q ∈ seen -> blob_hash q = Some h -> h ∉ referenced -> w_fs w1 !! q = None) /\
    counted blobs_deleted stats st (w_fs w) (w_fs w1) /\
    logs_deleted st = logs_deleted stats /\ indexes_deleted st = indexes_deleted stats)).
  - intros st blob todo w1 (seen & Hsnap & Hp & Hgone & Hc & Hl & Hi).
    assert (blob ∈ snapshot) as Hin by (rewrite Hsnap; set_solver).
    assert (snapshot = (seen ++ [blob]) ++ todo) as Hsnap' by (by rewrite <- app_assoc).
    assert (forall w2 st2, w_fs w2 = w_fs w1 -> st2 = st ->
      (forall h, blob_hash blob = Some h -> h ∉ referenced -> w_fs w1 !! blob = None) ->
      exists seen, snapshot = seen ++ todo /\
        pruned (unreferenced snapshot referenced) (w_fs w) (w_fs w2) /\
        (forall q h, q ∈ seen -> blob_hash q = Some h -> h ∉ referenced -> w_fs w2 !! q = None) /\
        counted blobs_deleted stats st2 (w_fs w) (w_fs w2) /\
        logs_deleted st2 = logs_deleted stats /\ indexes_deleted st2 = indexes_deleted stats) as Hskip.
    { intros w2 st2 Hw2 -> Hb. exists (seen ++ [blob]). rewrite Hw2. split; [done|]. split; [done|].
      split; [|done]. intros q h [Hq| ->%list_elem_of_singleton]%elem_of_app; [by eapply Hgone|by apply Hb]. }
    unfold sweep_blob. destruct (blob_hash blob) as [h|] eqn:Eh; [|by apply wp_ret, Hskip].
    case_decide as Href; [apply wp_ret, Hskip; [done|done|by intros h' [= <-]]|].
    apply wp_bind, wp_file_len. intros n w2 Hfs2 Ht2. apply wp_bind, wp_try, wp_remove_file_kind.
    + intros c t w3 Hf _ Hfs3. rewrite Hfs2 in Hf, Hfs3. apply wp_ret. exists (seen ++ [blob]).
      split; [done|]. rewrite Hfs3.
      split; [etransitivity; [done|]; apply (pruned_delete _ _ _ _ _ Hf); split; [done|by eauto]|].
      split.
      * intros q h' [Hq| ->%list_elem_of_singleton]%elem_of_app; [|by rewrite lookup_delete_eq].
        intros Hh' Hn. destruct (decide (blob = q)) as [->|]; [by rewrite lookup_delete_eq|].
        rewrite lookup_delete_ne by done. by eapply Hgone.
      * split; [|done]. eapply counted_trans; [done|]. by apply (counted_delete _ _ _ _ _ _ Hf).
    + intros e w3 _ Hfs3 Hnf. rewrite Hfs2 in Hfs3, Hnf. case_decide as Hk.
      * apply wp_ret, Hskip; [done|done|]. intros _ _ _. auto.
      * apply wp_err, HE. by rewrite Hfs3.
  - intros st w1 (seen & Hsnap & Hp & Hgone & Hc & Hl & Hi). rewrite app_nil_r in Hsnap. subst seen.
    by apply HO.
  - exists []. split; [done|]. split; [reflexivity|]. split; [by intros q h Hq%not_elem_of_nil|].
    split; [apply counted_refl|done].
Qed.

(** ** A whole cycle *)

Section Cycle.
Context `{OS : Os} `{J : JsonText}.

(** Everything a cycle may remove, given the file system it leaves. *)
Definition removable (s : StoragePaths) (cfg : RetentionConfig) (ts : list Z) (final : gmap Path Node)
    (q : Path) (c : bytes) (t : Z) : Prop :=
  candidate (logs_root s) "ndjson" (logs_ttl_days cfg) ts q c t \/
  candidate (index_root s) "json" (crashes_ttl_days cfg) ts q c t \/
  (blob_root s `prefix_of` q /\ has_extension "bin" q = true /\
   exists h, blob_hash q = Some h /\ ~ referenced_by s final h).

Definition cycle_complete (s : StoragePaths) (cfg : RetentionConfig) (ts : list Z)
    (fs fs' : gmap Path Node) : Prop :=
  (forall q, below (logs_root s) q -> all_pruned "ndjson" (logs_ttl_days cfg) ts fs fs' q) /\
  (forall q, below (index_root s) q -> all_pruned "json" (crashes_ttl_days cfg) ts fs fs' q) /\
  (forall q h, node_is_file fs q -> below (blob_root s) q -> has_extension "bin" q = true ->
     blob_hash q = Some h -> (forall q', index_root s `prefix_of` q' -> ~ refers fs' q' h) ->
     fs' !! q = None).

(** Each counter is the number of files gone below its own root. *)
Definition all_counted (s : StoragePaths) (stats : JanitorStats) (fs fs' : gmap Path Node) : Prop :=
  logs_deleted stats = wrap_u64 (Z.of_nat (size (removed_below (logs_root s) fs fs'))) /\
  indexes_deleted stats = wrap_u64 (Z.of_nat (size (removed_below (index_root s) fs fs'))) /\
  blobs_deleted stats = wrap_u64 (Z.of_nat (size (removed_below (blob_root s) fs fs'))).

(** Files below different roots differ. *)
Lemma below_roots_differ s q r :
  blob_root s `prefix_of` q -> (logs_root s `prefix_of` r \/ index_root s `prefix_of` r) -> q <> r.
Proof.
  destruct (roots_components s) as (-> & -> & ->). intros [x ->] [[y ->]|[y ->]] H;
    rewrite <- !app_assoc in H; apply app_inv_head in H; discriminate.
Qed.

(** The three roots lie beside each other. *)
Lemma roots_apart s q :
  (logs_root s `prefix_of` q -> ~ index_root s `prefix_of` q /\ ~ blob_root s `prefix_of` q) /\
  (index_root s `prefix_of` q -> ~ blob_root s `prefix_of` q).
Proof.
  destruct (roots_components s) as (-> & -> & ->).
  split; [intros [x ->]; split|intros [x ->]]; intros [y H]; rewrite <- !app_assoc in H; apply app_inv_head in H; discriminate.
Qed.

(** The phases one after the other. *)
Lemma phases_counted (P1 P2 P3 : Path -> bytes -> Z -> Prop) s (st2 st3 st4 : JanitorStats) fs1 fs2 fs3 fs4 :
  (forall q c t, P1 q c t -> logs_root s `prefix_of` q) -> (forall q c t, P2 q c t -> index_root s `prefix_of` q) ->
  (forall q c t, P3 q c t -> blob_root s `prefix_of` q) ->
  pruned P1 fs1 fs2 -> pruned P2 fs2 fs3 -> pruned P3 fs3 fs4 ->
  counted logs_deleted JanitorStats_default st2 fs1 fs2 -> counted indexes_deleted st2 st3 fs2 fs3 -> counted blobs_deleted st3 st4 fs3 fs4 ->
  logs_deleted st4 = logs_deleted st2 -> indexes_deleted st2 = 0 -> indexes_deleted st4 = indexes_deleted st3 -> blobs_deleted st3 = 0 ->
  all_counted s st4 fs1 fs4.
Proof.
  intros R1 R2 R3 H1 H2 H3 C1 C2 C3 El Ei Ei' Eb. unfold all_counted. pose proof (roots_apart s) as Hap.
  rewrite (removed_before P3 (logs_root s) fs1 fs3 fs4), (removed_before P2 (logs_root s) fs1 fs2 fs3), (pruned_removed P1) by naive_solver.
  rewrite (removed_after P1 (index_root s) fs1 fs2 fs4), (removed_before P3 (index_root s) fs2 fs3 fs4), (pruned_removed P2) by naive_solver.
  rewrite (removed_after P1 (blob_root s) fs1 fs2 fs4), (removed_after P2 (blob_root s) fs2 fs3 fs4), (pruned_removed P3) by naive_solver.
  split_and!.
  - by rewrite El, C1.
  - rewrite Ei', C2 by (by rewrite Ei). by rewrite Ei.
  - rewrite C3 by (by rewrite Eb). by rewrite Eb.
Qed.

Lemma below_prefix d q : below d q -> d `prefix_of` q.
Proof. intros (r & -> & _). by apply prefix_app_r. Qed.

Lemma refers_pruned P fs fs' q h : pruned P fs fs' -> refers fs' q h -> refers fs q h.
Proof.
  intros Hp (c & t & idx & Hf & H). exists c, t, idx. split; [by eapply pruned_some|done].
Qed.

Lemma refers_kept fs fs' q h : fs' !! q = fs !! q -> refers fs q h -> refers fs' q h.
Proof. intros Hq (c & t & idx & Hf & H). exists c, t, idx. by rewrite Hq. Qed.

Lemma pruned_none P fs fs' q : pruned P fs fs' -> fs !! q = None -> fs' !! q = None.
Proof. intros H Hq. destruct (H q) as [->|(? & _)]; done. Qed.

Lemma candidate_times root ext ttl ts ts' q c t :
  ts ⊆ ts' -> candidate root ext ttl ts q c t -> candidate root ext ttl ts' q c t.
Proof. intros Hts (H1 & H2 & now & H3 & H4). repeat split; try done. exists now. auto. Qed.

(** What the snapshot contains. *)
Lemma wp_snapshot_blobs s Q w :
  (forall snapshot w', w_fs w' = w_fs w -> times w' = times w ->
     (forall q, q ∈ snapshot -> blob_root s `prefix_of` q /\ has_extension "bin" q = true) ->
     (fs_wf (w_fs w) -> forall q, node_is_file (w_fs w) q -> below (blob_root s) q ->
        has_extension "bin" q = true -> q ∈ snapshot) -> Q (Ok snapshot) w') ->
  (forall e w', w_fs w' = w_fs w -> times w' = times w -> Q (Err e) w') ->
  wp (snapshot_blobs (blob_root s)) Q w.
Proof.
  intros HO HE. unfold snapshot_blobs. apply wp_bind, wp_collect_files.
  { rewrite (proj2 (proj2 (roots_components s))). apply app_not_nil. }
  2: { intros e w1 Hfs1 Ht1. by apply HE. }
  intros files w1 Hfs1 Ht1 Hfiles _ Hall. apply wp_ret, HO; [done|done|..].
  - intros q [Hx Hq]%list_elem_of_filter. split; [by apply Hfiles|by apply Is_true_true].
  - intros Hwf q Hf Hb Hx. apply list_elem_of_filter. split; [by apply Is_true_true|by apply Hall].
Qed.

(** A blob removed by the sweep is not referenced in what remains. *)
Lemma unreferenced_removable s cfg ts snapshot referenced fs final :
  (forall q, q ∈ snapshot -> blob_root s `prefix_of` q /\ has_extension "bin" q = true) ->
  (forall h, referenced_by s fs h -> h ∈ referenced) ->
  pruned (unreferenced snapshot referenced) fs final ->
  pruned (removable s cfg ts final) fs final.
Proof.
  intros Hsnap Href Hp. eapply pruned_mono; [|exact Hp]. intros q c t _ (Hq & h & Hh & Hn).
  right; right. destruct (Hsnap q Hq) as [? ?]. split; [done|]. split; [done|]. exists h.
  split; [done|]. intros (q' & Hb & Hr). apply Hn, Href. exists q'. split; [done|].
  by eapply refers_pruned.
Qed.

Lemma wp_janitor_cycle s cfg Q w :
  fs_wf (w_fs w) ->
  (forall stats w', pruned (removable s cfg (times w) (w_fs w')) (w_fs w) (w_fs w') ->
     cycle_complete s cfg (times w) (w_fs w) (w_fs w') ->
     all_counted s stats (w_fs w) (w_fs w') -> Q (Ok stats) w') ->
  (forall e w', pruned (removable s cfg (times w) (w_fs w')) (w_fs w) (w_fs w') -> Q (Err e) w') ->
  wp (run_janitor_cycle s cfg) Q w.
Proof.
  intros Hwf HO HE. unfold run_janitor_cycle. fold (blob_root s).
  apply wp_bind, wp_snapshot_blobs; [|intros e w1 Hfs1 _; apply HE; rewrite Hfs1; reflexivity].
  intros snap w1 Hfs1 Ht1 Hsnap Hsnapall.
  assert (forall f f' final, pruned (candidate (logs_root s) "ndjson" (logs_ttl_days cfg) (times w)) f f' ->
    pruned (removable s cfg (times w) final) f f') as Hlog.
  { intros f f' final Hp. eapply pruned_mono; [|exact Hp]. intros q c t _ H. by left. }
  apply wp_bind, wp_prune_logs; [|intros e w2 Hp; rewrite Hfs1, Ht1 in Hp; apply HE; by apply Hlog].
  intros st2 w2 Ht2 Hp2 Hd2 Hc2 Hi2 Hb2. rewrite Hfs1, Ht1 in *.
  assert (forall f f' final, pruned (candidate (index_root s) "json" (crashes_ttl_days cfg) (times w2)) f f' ->
    pruned (removable s cfg (times w) final) f f') as Hidx.
  { intros f f' final Hp. eapply pruned_mono; [|exact Hp]. intros q c t _ H. right; left.
    by eapply candidate_times. }
  assert (fs_wf (w_fs w2)) as Hwf2 by (by eapply pruned_wf).
  apply wp_bind, wp_prune_indexes;
    [|intros e w3 Hp; apply HE; transitivity (w_fs w2); [by apply Hlog|by apply Hidx]].
  intros st3 refd w3 Ht3 Hp3 Hd3 Hc3 Hl3 Hb3 Href Hrefs.
  assert (forall w4, pruned (unreferenced snap refd) (w_fs w3) (w_fs w4) ->
    pruned (removable s cfg (times w) (w_fs w4)) (w_fs w) (w_fs w4)) as Hall.
  { intros w4 Hp4. transitivity (w_fs w2); [by apply Hlog|]. transitivity (w_fs w3); [by apply Hidx|].
    by eapply unreferenced_removable; [..|exact Hp4]; [done|apply Href]. }
  apply wp_sweep_blobs; [|intros e w4 Hp4; by apply HE, Hall].
  intros st4 w4 Hp4 Hgone Hc4 Hl4 Hi4. apply HO; [by apply Hall| |].
  - split; [|split].
    + intros q Hb c t Hf Hx Hexp. eapply pruned_none, pruned_none; [exact Hp4|exact Hp3|].
      exact (Hd2 Hwf q Hb c t Hf Hx Hexp).
    + intros q Hb c t Hf Hx Hexp. eapply pruned_none; [exact Hp4|].
      destruct (w_fs w2 !! q) as [n|] eqn:E2; [|by eapply pruned_none].
      pose proof (pruned_some _ _ _ _ _ Hp2 E2) as E. rewrite Hf in E. injection E as <-.
      refine (Hd3 Hwf2 q Hb c t E2 Hx _). auto.
    + intros q h Hf Hb Hx Hh Hno. eapply (Hgone q h); [by apply Hsnapall|done|].
      intros (q' & Hq' & Hr)%Hrefs. apply (Hno q' Hq'). eapply refers_kept; [|exact Hr].
      destruct (Hp4 q') as [->|(_ & c & t & _ & Hsn & _)]; [done|]. exfalso.
      eapply below_roots_differ; [apply (Hsnap _ Hsn)|by right|done].
  - eapply (phases_counted _ _ _ s st2 st3 st4); [| | |exact Hp2|exact Hp3|exact Hp4|done|done|done|by rewrite Hl4, Hl3|done|done|by rewrite Hb3, Hb2].
    + by intros q c t [? _].
    + by intros q c t [? _].
    + intros q c t [Hq _]. by apply Hsnap.
Qed.
End Cycle.

(** ** Properties *)

Section Properties.
Context `{OS : Os} `{J : JsonText}.

(** C25. The directory walk terminates on every file system and under every
    pattern of I/O errors (its bound is never reached), changes nothing, and
    when it succeeds returns exactly the files below the root, each once. *)
Theorem collect_files_exact root w r w' :
  root <> [] -> fs_wf (w_fs w) -> collect_files root w = (r, w') ->
  w_fs w' = w_fs w /\
  match r with
  | Ok files => NoDup files /\
      (forall q, below root q -> q ∈ files <-> node_is_file (w_fs w) q) /\
      (forall q, q ∈ files -> root `prefix_of` q)
  | Err e => exists io, e = JIo io
  end.
Proof.
  intros Hroot Hwf Hrun.
  enough (wp (collect_files root) (fun r w' => w_fs w' = w_fs w /\
    match r with
    | Ok files => NoDup files /\
        (forall q, below root q -> q ∈ files <-> node_is_file (w_fs w) q) /\
        (forall q, q ∈ files -> root `prefix_of` q)
    | Err e => exists io, e = JIo io
    end) w) as Hwp by (apply (wp_run _ _ _ _ _ Hwp Hrun)).
  apply wp_collect_files; [done|..].
  - intros files w1 Hfs _ Hf Hnd Hall. split; [done|]. split; [done|]. split; [|by intros q Hq; apply Hf].
    intros q Hb. split; [by intros Hq; apply Hf|]. intros Hq. by apply Hall.
  - intros e w1 Hfs _. eauto.
Qed.

(** C23. What a retention cycle may remove, whatever its outcome and whatever
    fails: nothing is created or modified, and each removed file was a log or
    an index older than its retention period at some clock reading of the
    cycle, or a blob that no remaining index references.  The period is the
    configured number of days in seconds, as a [u64] (exact for all that fit,
    [expired_exact]); a period of zero days makes every file old. *)
Theorem janitor_removes_only s cfg w r w' :
  fs_wf (w_fs w) -> run_janitor_cycle s cfg w = (r, w') ->
  forall q, w_fs w' !! q = w_fs w !! q \/
    (w_fs w' !! q = None /\ exists c t, w_fs w !! q = Some (File c t) /\
       removable s cfg (times w) (w_fs w') q c t).
Proof.
  intros Hwf Hrun.
  enough (wp (run_janitor_cycle s cfg) (fun _ w' => pruned (removable s cfg (times w) (w_fs w')) (w_fs w) (w_fs w')) w)
    as Hwp by (apply (wp_run _ _ _ _ _ Hwp Hrun)).
  by apply wp_janitor_cycle.
Qed.

(** C6. Referential safety of retention: a blob that existed before the cycle
    and whose hash some index left by the cycle references is still there,
    unchanged, also when the cycle stops half-way with an error. *)
Theorem janitor_keeps_referenced s cfg w r w' q h p n :
  fs_wf (w_fs w) -> run_janitor_cycle s cfg w = (r, w') ->
  below (index_root s) q -> refers (w_fs w') q h ->
  blob_root s `prefix_of` p -> blob_hash p = Some h -> w_fs w !! p = Some n ->
  w_fs w' !! p = Some n.
Proof.
  intros Hwf Hrun Hq Href Hp Hh Hn.
  enough (wp (run_janitor_cycle s cfg) (fun _ w' => pruned (removable s cfg (times w) (w_fs w')) (w_fs w) (w_fs w')) w)
    as Hwp.
  - pose proof (wp_run _ _ _ _ _ Hwp Hrun p) as [Heq|(_ & c & t & _ & [Hc|[Hc|Hc]])]; [congruence|..].
    + destruct Hc as [Hc _]. exfalso. by eapply below_roots_differ; [done|left|].
    + destruct Hc as [Hc _]. exfalso. by eapply below_roots_differ; [done|right|].
    + destruct Hc as (_ & _ & h' & Hh' & Hno). exfalso. apply Hno. exists q.
      rewrite Hh in Hh'. injection Hh' as <-. done.
  - by apply wp_janitor_cycle.
Qed.

(** C24. A successful cycle is complete and reports what it did: every log and
    index expired at all its clock readings is gone, every blob present at the
    start that no remaining index references is gone, and the counters are, as
    [u64], the numbers of log files, of indexes and of blobs that are gone. *)
Theorem janitor_cycle_complete s cfg w stats w' :
  fs_wf (w_fs w) -> run_janitor_cycle s cfg w = (Ok stats, w') ->
  cycle_complete s cfg (times w) (w_fs w) (w_fs w') /\ all_counted s stats (w_fs w) (w_fs w').
Proof.
  intros Hwf Hrun.
  enough (wp (run_janitor_cycle s cfg) (fun r w' => forall stats, r = Ok stats ->
    cycle_complete s cfg (times w) (w_fs w) (w_fs w') /\ all_counted s stats (w_fs w) (w_fs w')) w) as Hwp
    by (by apply (wp_run _ _ _ _ _ Hwp Hrun)).
  apply wp_janitor_cycle; [done| |done]. intros st w1 _ Hc Hn st' [= <-]. eauto.
Qed.
End Properties.

(** ** A concrete store *)

Definition day : Z := 24 * 60 * 60 * NANOS.

Definition sample_storage : StoragePaths := {| data_dir := ["/"; "d"] |}.

Definition sample_index (h : string) : bytes :=
  json_print (Object [("dump", Object [("sha256", Str h)])]).

(** Blobs [aa] and [bb]; a fresh index of [aa], an old one of [bb]; an old log. *)
Definition retention_world : World := {|
  w_fs := list_to_map [
    (["/"], Dir); (["/"; "d"], Dir); (["/"; "d"; "logs"], Dir); (["/"; "d"; "logs"; "p"], Dir);
    (["/"; "d"; "logs"; "p"; "1.ndjson"], File [] 0);
    (["/"; "d"; "crashes"], Dir); (["/"; "d"; "crashes"; "by-hash"], Dir);
    (["/"; "d"; "crashes"; "by-hash"; "aa.bin"], File [] 0);
    (["/"; "d"; "crashes"; "by-hash"; "bb.bin"], File [] 0);
    (["/"; "d"; "crashes"; "by-source"], Dir);
    (["/"; "d"; "crashes"; "by-source"; "a.json"], File (sample_index "aa") (99 * day));
    (["/"; "d"; "crashes"; "by-source"; "b.json"], File (sample_index "bb") 0)];
  w_now := 100 * day; w_clock := []; w_faults := []; w_uuids := 0; w_dir_mtime := fun _ => 0 |}.

(** Decides well-formedness of a concrete file system. *)
Definition fs_wf_b (fs : gmap Path Node) : bool :=
  forallb (fun q => match parent q with
                    | Some p => match p with [] => true | _ => is_dir fs p end
                    | None => true
                    end) (map_to_list fs).*1.

Lemma fs_wf_b_ok fs : fs_wf_b fs = true -> fs_wf fs.
Proof.
  unfold fs_wf_b. rewrite forallb_forall. intros H q p n Hq Hp Hne.
  specialize (H q). rewrite Hp in H. destruct p as [|x p]; [done|].
  assert (In q (map_to_list fs).*1) as Hin.
  { apply list_elem_of_In, list_elem_of_fmap. exists (q, n). split; [done|]. by apply elem_of_map_to_list. }
  specialize (H Hin). unfold is_dir in H. by destruct (fs !! _) as [[]|].
Qed.

Lemma retention_world_wf : fs_wf (w_fs retention_world).
Proof. apply fs_wf_b_ok. vm_compute. reflexivity. Qed.

Definition retention_run := run_janitor_cycle sample_storage RetentionConfig_default retention_world.

Lemma collect_files_exact_witness :
  match collect_files ["/"; "d"; "logs"] retention_world with
  | (Ok files, _) => ["/"; "d"; "logs"; "p"; "1.ndjson"] ∈ files
  | _ => False
  end.
Proof.
  destruct (collect_files ["/"; "d"; "logs"] retention_world) as [r w'] eqn:E.
  destruct (collect_files_exact ["/"; "d"; "logs"] retention_world r w') as (_ & H);
    [discriminate|exact retention_world_wf|exact E|].
  destruct r as [files|e].
  - destruct H as (_ & H & _). apply H; [exists ["p"; "1.ndjson"]; split; [reflexivity|split; [discriminate|closed_keys]]|].
    exists [], 0. vm_compute. reflexivity.
  - assert (is_ok (collect_files ["/"; "d"; "logs"] retention_world).1 = true) as Hok by (vm_compute; reflexivity).
    rewrite E in Hok. discriminate Hok.
Defined.

Lemma janitor_removes_only_witness :
  let q := ["/"; "d"; "crashes"; "by-hash"; "bb.bin"] in
  w_fs retention_run.2 !! q = w_fs retention_world !! q \/ w_fs retention_run.2 !! q = None.
Proof.
  intros q. destruct retention_run as [r w'] eqn:E.
  destruct (janitor_removes_only sample_storage RetentionConfig_default retention_world r w'
              retention_world_wf E q) as [H|[H _]]; [left; exact H|right; exact H].
Defined.

Lemma janitor_keeps_referenced_witness :
  w_fs retention_run.2 !! ["/"; "d"; "crashes"; "by-hash"; "aa.bin"] = Some (File [] 0).
Proof.
  destruct retention_run as [r w'] eqn:E.
  apply (janitor_keeps_referenced sample_storage RetentionConfig_default retention_world r w'
           ["/"; "d"; "crashes"; "by-source"; "a.json"] "aa" _ _ retention_world_wf E).
  - exists ["a.json"]. split; [reflexivity|split; [discriminate|closed_keys]].
  - exists (sample_index "aa"), (99 * day), {| cir_dump := {| cdr_sha256 := "aa" |}; cir_attachments := [] |}.
    split; [|split; [vm_compute; reflexivity|split; [vm_compute; reflexivity|left]]].
    assert (w_fs retention_run.2 !! ["/"; "d"; "crashes"; "by-source"; "a.json"] =
      Some (File (sample_index "aa") (99 * day))) as H by (vm_compute; reflexivity).
    rewrite E in H. exact H.
  - exists ["aa.bin"]. reflexivity.
  - reflexivity.
  - vm_compute. reflexivity.
Defined.

Lemma janitor_cycle_complete_witness :
  match retention_run with
  | (Ok stats, w') => w_fs w' !! ["/"; "d"; "logs"; "p"; "1.ndjson"] = None /\
      all_counted sample_storage stats (w_fs retention_world) (w_fs w') /\
      (logs_deleted stats, indexes_deleted stats, blobs_deleted stats) = (1, 1, 1)
  | _ => False
  end.
Proof.
  destruct retention_run as [[stats|e] w'] eqn:E.
  - destruct (janitor_cycle_complete sample_storage RetentionConfig_default retention_world stats w'
                retention_world_wf E) as ((H & _) & Hc).
    split; [|split; [exact Hc|]].
    + apply (H ["/"; "d"; "logs"; "p"; "1.ndjson"]) with [] 0.
      * exists ["p"; "1.ndjson"]. split; [reflexivity|split; [discriminate|closed_keys]].
      * vm_compute. reflexivity.
      * vm_compute. reflexivity.
      * intros now Hn. apply list_elem_of_singleton in Hn as ->. vm_compute. reflexivity.
    + assert (match retention_run.1 with Ok st => (logs_deleted st, indexes_deleted st, blobs_deleted st) = (1, 1, 1) | Err _ => False end)
        as Hn by (vm_compute; reflexivity).
      rewrite E in Hn. exact Hn.
  - assert (is_ok retention_run.1 = true) as Hok by (vm_compute; reflexivity).
    rewrite E in Hok. discriminate Hok.
Defined.
