(* ===== verification/Refs.v ===== *)
(** * What the janitor reads of the indexes the crash handler writes

    The writer ([crashes.rs], [CrashIndex]) and the reader ([janitor.rs],
    [CrashIndexRef]) of an index are different types; here their texts meet. *)

From Stdlib Require Import Ascii.
From S2P Require Import Prelude RustStd Fs External Instances Json Protocol Metrics Schemas Storage F64 RateLimit Auth State Crashes CrashStore CrashIngest Janitor Retention.

(** ** Reading does not depend on the digits of floats *)

Definition erase_access (a : Access) : Access :=
  match a with
  | MapAccess m => MapAccess ((fun kv => (kv.1, erase kv.2)) <$> m)
  | SeqAccess l => SeqAccess (erase <$> l)
  end.

Definition map_ok {A B E : Type} (f : A -> B) (r : Result A E) : Result B E :=
  let? a := r in Ok (f a).

Lemma de_struct_erase names v :
  de_struct names (erase v) = map_ok erase_access (de_struct names v).
Proof.
  destruct v as [| |[]| |l|m]; try done; unfold de_struct; cbn [erase map_ok].
  - rewrite length_fmap. by destruct (Nat.ltb _ _).
  - assert (forall n, key_count n ((fun kv => (kv.1, erase kv.2)) <$> m) = key_count n m) as Hk.
    { intros n. unfold key_count. induction m as [|[k v] m IH]; [done|].
      rewrite fmap_cons, !filter_cons. simpl. destruct (decide _); simpl; by rewrite IH. }
    assert (existsb (fun n => Nat.ltb 1 (key_count n ((fun kv => (kv.1, erase kv.2)) <$> m))) names =
            existsb (fun n => Nat.ltb 1 (key_count n m)) names) as ->.
    { induction names as [|n names IH]; [done|]. cbn [existsb]. by rewrite Hk, IH. }
    by destruct (existsb _ _).
Qed.

Lemma get_field_erase a i name : get_field (erase_access a) i name = erase <$> get_field a i name.
Proof.
  destruct a as [m|l]; cbn [erase_access get_field].
  - unfold obj_get. induction m as [|[k v] m IH]; [done|]. simpl.
    destruct (String.eqb k name); [done|apply IH].
  - apply list_lookup_fmap.
Qed.

(** A reader that ignores the digits of floats. *)
Definition float_blind {A : Type} (de : Value -> Result A json_error) : Prop :=
  forall v, de (erase v) = de v.

Lemma de_string_blind : float_blind de_string.
Proof. by intros [| |[]| | |]. Qed.

Lemma field_req_blind {A : Type} (de : Value -> Result A json_error) a i name :
  float_blind de -> field_req de (erase_access a) i name = field_req de a i name.
Proof.
  intros Hde. unfold field_req. rewrite get_field_erase. destruct (get_field a i name); [apply Hde|done].
Qed.

Lemma field_default_blind {A : Type} d (de : Value -> Result A json_error) a i name :
  float_blind de -> field_default d de (erase_access a) i name = field_default d de a i name.
Proof.
  intros Hde. unfold field_default. rewrite get_field_erase.
  destruct (get_field a i name); [apply Hde|done].
Qed.

Lemma de_vec_blind {A : Type} (de : Value -> Result A json_error) :
  float_blind de -> float_blind (de_vec de).
Proof.
  intros Hde [| |[]| |l|]; try done. cbn [erase de_vec].
  induction l as [|v l IH]; [done|]. cbn [fmap list_fmap try_map]. rewrite Hde.
  destruct (de v); [|done]. by rewrite IH.
Qed.

Lemma de_CrashDumpRef_blind : float_blind de_CrashDumpRef.
Proof.
  intros v. unfold de_CrashDumpRef. rewrite de_struct_erase.
  destruct (de_struct _ v) as [a|]; [|done]. cbn [map_ok].
  by rewrite (field_req_blind _ _ _ _ de_string_blind).
Qed.

Lemma de_CrashIndexRef_blind : float_blind de_CrashIndexRef.
Proof.
  intros v. unfold de_CrashIndexRef. rewrite de_struct_erase.
  destruct (de_struct _ v) as [a|]; [|done]. cbn [map_ok].
  rewrite (field_req_blind _ _ _ _ de_CrashDumpRef_blind).
  by rewrite (field_default_blind _ _ _ _ _ (de_vec_blind _ de_CrashDumpRef_blind)).
Qed.

(** ** The references of a written index *)

Lemma de_ref_BlobPointer b : de_CrashDumpRef (ser_BlobPointer b) = Ok {| cdr_sha256 := bp_sha256 b |}.
Proof.
  unfold de_CrashDumpRef, ser_BlobPointer, skip_none.
  destruct (bp_content_encoding b); rewrite de_struct_NoDup by closed_keys; done.
Qed.

Lemma de_ref_AttachmentPointer a :
  de_CrashDumpRef (ser_AttachmentPointer a) = Ok {| cdr_sha256 := ap_sha256 a |}.
Proof.
  unfold de_CrashDumpRef, ser_AttachmentPointer, skip_none.
  destruct (ap_content_encoding a); rewrite de_struct_NoDup by closed_keys; done.
Qed.

Lemma de_ref_CrashIndex `{U : UuidApi, C : ChronoApi} (i : CrashIndex) :
  de_CrashIndexRef (ser_CrashIndex i) =
    Ok {| cir_dump := {| cdr_sha256 := bp_sha256 (ci_dump i) |};
          cir_attachments := (fun a => {| cdr_sha256 := ap_sha256 a |}) <$> ci_attachments i |}.
Proof.
  unfold de_CrashIndexRef, ser_CrashIndex. rewrite de_struct_NoDup by closed_keys.
  unfold field_req, field_default, get_field. cbn [obj_get find fst snd String.eqb Ascii.eqb Bool.eqb fmap option_fmap option_map].
  rewrite de_ref_BlobPointer. cbn [de_vec].
  assert (try_map de_CrashDumpRef (ser_AttachmentPointer <$> ci_attachments i) =
    Ok ((fun a => {| cdr_sha256 := ap_sha256 a |}) <$> ci_attachments i)) as ->; [|done].
  apply try_map_Forall2. induction (ci_attachments i); constructor; auto using de_ref_AttachmentPointer.
Qed.

(** The hashes an index holds. *)
Definition index_hashes `{UuidApi, ChronoApi} (i : CrashIndex) : list string :=
  bp_sha256 (ci_dump i) :: (ap_sha256 <$> ci_attachments i).

Section Text.
Context {U : UuidApi} {C : ChronoApi} {J : JsonText} {JL : JsonTextLaws J}.

(** What the janitor reads of a written index, whole or cut short by a failed
    write: exactly its hashes, or nothing. *)
Lemma index_text_refs (i : CrashIndex) n r :
  value_ok (ser_CrashIndex i) = true ->
  index_ref_from_slice (take n (json_print_pretty (ser_CrashIndex i))) = Ok r ->
  index_refs r = index_hashes i.
Proof using JL.
  intros Hok Hr. unfold index_ref_from_slice in Hr.
  destruct (decide (n < length (json_print_pretty (ser_CrashIndex i)))%nat) as [Hn|Hn].
  - pose proof (json_pretty_prefix _ n Hn Hok) as Hp. fold (ser_CrashIndex i) in Hp.
    by destruct (json_parse _).
  - rewrite take_ge in Hr by lia.
    destruct (json_parse_pretty_erase _ Hok) as (v & Hv & He). rewrite Hv in Hr.
    rewrite <- de_CrashIndexRef_blind, He, de_CrashIndexRef_blind, de_ref_CrashIndex in Hr.
    injection Hr as <-. unfold index_refs, index_hashes. cbn [cir_dump cir_attachments cdr_sha256].
    by rewrite <- list_fmap_compose.
Qed.

(** A whole index is read. *)
Lemma index_ref_readable (i : CrashIndex) : value_ok (ser_CrashIndex i) = true ->
  exists r, index_ref_from_slice (json_print_pretty (ser_CrashIndex i)) = Ok r /\ index_refs r = index_hashes i.
Proof using JL.
  intros Hok. destruct (json_parse_pretty_erase _ Hok) as (v & Hv & He). unfold index_ref_from_slice. rewrite Hv.
  rewrite <- de_CrashIndexRef_blind, He, de_CrashIndexRef_blind, de_ref_CrashIndex. eexists. split; [done|].
  unfold index_refs, index_hashes. cbn [cir_dump cir_attachments cdr_sha256]. by rewrite <- list_fmap_compose.
Qed.
End Text.

(** ** Everything written is a proper JSON value *)

Definition access_ok (a : Access) : Prop :=
  match a with
  | MapAccess m => value_ok (Object m) = true
  | SeqAccess l => value_ok (Array l) = true
  end.

Lemma de_struct_ok names v a : value_ok v = true -> de_struct names v = Ok a -> access_ok a.
Proof.
  intros Hv. destruct v; unfold de_struct; try done.
  - destruct (Nat.ltb _ _); [done|]. by intros [= <-].
  - destruct (existsb _ _); [done|]. by intros [= <-].
Qed.

Lemma get_field_ok a i name v : access_ok a -> get_field a i name = Some v -> value_ok v = true.
Proof.
  destruct a as [m|l]; cbn [access_ok value_ok get_field]; rewrite forallb_forall.
  - unfold obj_get. intros Hm. destruct (find _ m) as [[k v']|] eqn:E; [|done]. intros [= <-].
    apply find_some in E as [Hin _]. apply Hm in Hin. by apply andb_true_iff in Hin as [_ ?].
  - intros Hl Hi. apply Hl, list_elem_of_In. by eapply list_elem_of_lookup_2.
Qed.

Lemma field_req_ok {A : Type} (de : Value -> Result A json_error) a i name x :
  access_ok a -> field_req de a i name = Ok x -> exists v, value_ok v = true /\ de v = Ok x.
Proof.
  intros Ha. unfold field_req. destruct (get_field a i name) as [v|] eqn:E; [|done].
  intros Hx. exists v. split; [by eapply get_field_ok|done].
Qed.

Lemma field_opt_ok {A : Type} (de : Value -> Result A json_error) a i name x :
  access_ok a -> field_opt de a i name = Ok (Some x) -> exists v, value_ok v = true /\ de v = Ok x.
Proof.
  intros Ha. unfold field_opt. destruct (get_field a i name) as [v|] eqn:E; [|by destruct a].
  intros Hx. exists v. split; [by eapply get_field_ok|]. unfold de_option in Hx.
  by destruct v; try done; destruct (de _); simplify_eq.
Qed.

Lemma de_string_ok v s : value_ok v = true -> de_string v = Ok s -> text_ok s = true.
Proof. destruct v; try done. by intros H [= <-]. Qed.

Lemma de_uint_ok max v n : value_ok v = true -> de_uint max v = Ok n -> (0 <= n <= max)%Z.
Proof.
  destruct v as [| |[z| |]| | |]; try done. cbn [value_ok number_ok de_uint].
  intros [Hz _]%andb_true_iff. destruct (Z.leb_spec z max); [|done]. intros [= <-]. lia.
Qed.

Lemma field_string_ok a i name s :
  access_ok a -> field_req de_string a i name = Ok s -> text_ok s = true.
Proof. intros Ha (v & Hv & Hs)%field_req_ok; [|done]. by eapply de_string_ok. Qed.

Lemma obj_collect_ok m :
  Forall (fun kv => text_ok kv.1 = true /\ value_ok kv.2 = true) m ->
  Forall (fun kv => text_ok kv.1 = true /\ value_ok kv.2 = true) (obj_collect m).
Proof.
  unfold obj_collect. assert (Forall (fun kv : string * Value => text_ok kv.1 = true /\ value_ok kv.2 = true) []) as H0
    by constructor. revert H0. generalize ([] : list (string * Value)) as acc.
  induction m as [|[k v] m IH]; intros acc Hacc Hm; [done|]. simpl.
  apply Forall_cons in Hm as [Hkv Hm]. apply IH; [|done]. clear IH Hm.
  induction Hacc as [|[k' v'] acc Hx Hacc IHa]; simpl;
    [apply Forall_cons; split; [done|apply Forall_nil_2]|].
  destruct (String.compare k k'); rewrite ?Forall_cons; auto.
Qed.

Lemma normalize_ok v : value_ok v = true -> value_ok (normalize v) = true.
Proof.
  induction v as [| | | |l IH|m IH] using Value_nested_ind; try done; cbn [normalize value_ok].
  - rewrite !forallb_forall. intros Hl x Hx. apply list_elem_of_In, list_elem_of_fmap in Hx as (y & -> & Hy).
    rewrite Forall_forall in IH. apply IH; [done|]. by apply Hl, list_elem_of_In.
  - rewrite !forallb_forall. intros Hm kv Hkv.
    assert (Forall (fun kv => text_ok kv.1 = true /\ value_ok kv.2 = true)
      ((fun kv => (kv.1, normalize kv.2)) <$> m)) as Hf.
    { apply Forall_forall. intros x ([k v] & -> & Hin)%list_elem_of_fmap.
      rewrite Forall_forall in IH. pose proof (IH _ Hin) as Hn. apply list_elem_of_In in Hin.
      apply Hm, andb_true_iff in Hin as [? ?]. auto. }
    apply obj_collect_ok in Hf. rewrite Forall_forall in Hf. apply list_elem_of_In in Hkv.
    apply Hf in Hkv as [-> ->]. done.
Qed.

Section Values.
Context {U : UuidApi} {UL : UuidLaws U} {C : ChronoApi} {CL : ChronoLaws C}.

Lemma ser_SourceId_ok v (s : SourceId U) :
  value_ok v = true -> de_SourceId v = Ok s -> value_ok (ser_SourceId s) = true.
Proof using UL.
  intros Hv. unfold de_SourceId. destruct (de_struct _ v) as [a|] eqn:Ea; [|done].
  apply (de_struct_ok _ _ _ Hv) in Ea.
  destruct (field_req de_string a 0 _) as [p|] eqn:E0; [|done].
  destruct (field_req de_string a 1 _) as [pl|] eqn:E1; [|done].
  destruct (field_req de_string a 2 _) as [ve|] eqn:E2; [|done].
  destruct (field_req de_uuid a 3 _) as [i|] eqn:E3; [|done]. intros [= <-].
  apply (field_string_ok _ _ _ _ Ea) in E0, E1, E2.
  unfold ser_SourceId. cbn [value_ok forallb fst snd src_project src_platform src_version src_install_id].
  rewrite E0, E1, E2. unfold text_ok at 5. by rewrite uuid_text.
Qed.

Lemma ser_AttachmentManifest_ok v a :
  value_ok v = true -> de_AttachmentManifest v = Ok a -> value_ok (ser_AttachmentManifest a) = true.
Proof.
  intros Hv. unfold de_AttachmentManifest. destruct (de_struct _ v) as [ac|] eqn:Ea; [|done].
  apply (de_struct_ok _ _ _ Hv) in Ea.
  destruct (field_req de_string ac 0 _) as [k|] eqn:E0; [|done].
  destruct (field_opt de_string ac 1 _) as [f|] eqn:E1; [|done].
  destruct (field_req de_string ac 2 _) as [c|] eqn:E2; [|done].
  destruct (field_req (de_uint _) ac 3 _) as [n|] eqn:E3; [|done]. intros [= <-].
  apply (field_string_ok _ _ _ _ Ea) in E0, E2.
  apply (field_req_ok _ _ _ _ _ Ea) in E3 as (vn & Hvn & En).
  apply (de_uint_ok _ _ _ Hvn) in En as [H0 H1].
  assert (value_ok (ser_option Str f) = true) as Hf.
  { destruct f as [f|]; [|done]. apply (field_opt_ok _ _ _ _ _ Ea) in E1 as (vf & Hvf & Ef).
    by apply (de_string_ok _ _ Hvf) in Ef. }
  unfold ser_AttachmentManifest.
  cbn [value_ok forallb fst snd am_key am_filename am_content_type am_len number_ok].
  rewrite E0, E2, Hf, (proj2 (Z.leb_le _ _) H0), (proj2 (Z.leb_le _ _) H1). done.
Qed.

Lemma ser_BuildInfo_ok v b :
  value_ok v = true -> de_BuildInfo v = Ok b -> value_ok (ser_BuildInfo b) = true.
Proof.
  intros Hv. unfold de_BuildInfo. destruct (de_struct _ v) as [a|] eqn:Ea; [|done].
  apply (de_struct_ok _ _ _ Hv) in Ea.
  destruct (field_req de_string a 0 _) as [g|] eqn:E0; [|done].
  destruct (field_req de_string a 1 _) as [p|] eqn:E1; [|done].
  destruct (field_req de_string a 2 _) as [t|] eqn:E2; [|done]. intros [= <-].
  apply (field_string_ok _ _ _ _ Ea) in E0, E1, E2.
  unfold ser_BuildInfo. cbn [value_ok forallb fst snd git_sha profile target_triple].
  by rewrite E0, E1, E2.
Qed.

(** What the server parsed it can write again. *)
Lemma ser_CrashMetadata_ok v (m : CrashMetadata U C) :
  value_ok v = true -> de_CrashMetadata v = Ok m -> value_ok (ser_CrashMetadata m) = true.
Proof using UL CL.
  intros Hv. unfold de_CrashMetadata. destruct (de_struct _ v) as [a|] eqn:Ea; [|done].
  apply (de_struct_ok _ _ _ Hv) in Ea.
  destruct (field_req (de_uint _) a 0 _) as [sv|] eqn:E0; [|done].
  destruct (field_req de_SourceId a 1 _) as [so|] eqn:E1; [|done].
  destruct (field_req de_datetime a 2 _) as [ts|] eqn:E2; [|done].
  destruct (field_req de_CrashKind a 3 _) as [ki|] eqn:E3; [|done].
  destruct (field_req de_BuildInfo a 4 _) as [bu|] eqn:E4; [|done].
  destruct (field_opt de_string a 5 _) as [pt|] eqn:E5; [|done].
  destruct (field_req (de_value _) a 6 _) as [cx|] eqn:E6; [|done].
  destruct (field_req (de_vec _) a 7 _) as [at_|] eqn:E7; [|done]. intros [= <-].
  apply (field_req_ok _ _ _ _ _ Ea) in E0 as (v0 & V0 & E0), E1 as (v1 & V1 & E1),
    E4 as (v4 & V4 & E4), E6 as (v6 & V6 & E6), E7 as (v7 & V7 & E7).
  apply (de_uint_ok _ _ _ V0) in E0 as [H0 H1]. apply (ser_SourceId_ok _ _ V1) in E1.
  apply (ser_BuildInfo_ok _ _ V4) in E4.
  assert (value_ok (ser_option Str pt) = true) as Hpt.
  { destruct pt as [pt|]; [|done]. apply (field_opt_ok _ _ _ _ _ Ea) in E5 as (vf & Hvf & Ef).
    by apply (de_string_ok _ _ Hvf) in Ef. }
  assert (value_ok cx = true) as Hcx.
  { unfold de_value in E6. destruct (Nat.leb _ _); [|done]. injection E6 as <-. by apply normalize_ok. }
  assert (forallb value_ok (ser_AttachmentManifest <$> at_) = true) as Hat.
  { destruct v7; try done. cbn [de_vec] in E7. apply try_map_Forall2 in E7. cbn [value_ok] in V7.
    revert V7. clear -E7. induction E7 as [|x y l l' Hx _ IH]; [done|]. cbn [forallb fmap list_fmap].
    intros [V V']%andb_true_iff. by rewrite (ser_AttachmentManifest_ok _ _ V Hx), IH. }
  unfold ser_CrashMetadata.
  cbn [schema_version md_source timestamp md_kind build panic_text context md_attachments].
  assert (text_ok (rfc3339 ts) = true) as Hts by apply rfc3339_text.
  assert (text_ok (CrashKind_name ki) = true) as Hki by (by destruct ki).
  unfold U32_MAX in H1.
  assert ((sv <=? U64_MAX)%Z = true) as Hsv by (apply Z.leb_le; unfold U64_MAX; lia).
  cbn [value_ok forallb fst snd number_ok] in *.
  rewrite E1, E4, Hpt, Hcx, Hts, Hki, Hat, (proj2 (Z.leb_le _ _) H0), Hsv. done.
Qed.

End Values.

(** ** ASCII text *)

Definition is_ascii (s : string) : bool := all_chars (byte_in 0 127) s.

Lemma all_chars_app f s t : all_chars f (s +:+ t) = all_chars f s && all_chars f t.
Proof. induction s as [|c s IH]; simpl; [done|]. by rewrite IH, andb_assoc. Qed.

Lemma all_chars_impl (f g : ascii -> bool) s :
  (forall c, f c = true -> g c = true) -> all_chars f s = true -> all_chars g s = true.
Proof.
  intros Hfg. induction s as [|c s IH]; simpl; [done|]. intros [Hc Hs]%andb_true_iff.
  by rewrite (Hfg c Hc), IH.
Qed.

Lemma is_ascii_text s : is_ascii s = true -> text_ok s = true.
Proof. by apply ascii_text. Qed.

Lemma blob_display_text {S : Sha256Api} {SL : Sha256Laws S} s b dest :
  blob_path s (sha256_hex b) = Some dest ->
  text_ok (path_display (relative_to_data_dir s dest)) = true.
Proof.
  destruct (hash_prefix_sha256 b) as (x & y & r & Hh & Hpre & _).
  destruct (blob_path_components s b) as (pre & Hpre' & ->). intros [= <-].
  rewrite Hpre in Hpre'. injection Hpre' as <-.
  unfold relative_to_data_dir. rewrite path_strip_prefix_app. cbn [default from_option id].
  assert (is_ascii (sha256_hex b) = true) as Ha.
  { eapply all_chars_impl; [apply is_lower_hex_ascii|apply sha256_hex_chars]. }
  assert (is_ascii (String x (String y "")) = true) as Hxy.
  { rewrite Hh in Ha. unfold is_ascii in *. cbn [all_chars] in *.
    apply andb_true_iff in Ha as [-> [-> _]%andb_true_iff]. done. }
  change (path_display ["crashes"; "by-hash"; String x (String y ""); sha256_hex b +:+ ".bin"])
    with (join_with "/" ["crashes"; "by-hash"; String x (String y ""); sha256_hex b +:+ ".bin"]).
  apply is_ascii_text. unfold is_ascii in *. cbn [join_with]. rewrite !all_chars_app, Hxy, Ha. done.
Qed.

(** ** The written index *)

Section IndexText.
Context {U : UuidApi} {UL : UuidLaws U} {C : ChronoApi} {CL : ChronoLaws C}
  {S : Sha256Api} {SL : Sha256Laws S} {J : JsonText} {JL : JsonTextLaws J} {HT : HttpApi}.

Definition part_text (p : Part) : Prop :=
  (forall k c, p_attach p = Some (k, c) -> text_ok k = true /\ text_ok c = true) /\
  (forall e, p_encoding p = Some e -> text_ok e = true).

Lemma skip_none_ok name o :
  text_ok name = true -> (forall e, o = Some e -> text_ok e = true) ->
  value_ok (Object (skip_none name o)) = true.
Proof. intros Hn Ho. destruct o as [e|]; simpl; [|done]. by rewrite Hn, (Ho e). Qed.

Lemma pointer_ok s fs max part p :
  (0 <= max < 2 ^ 63)%Z -> part_text part -> part_stored s fs max part p ->
  value_ok (ser_BlobPointer p) = true.
Proof using SL.
  intros Hmax [_ Henc] ((Hsha & Hlen & dest & c & t & Hd & Hpath & _) & He & Hle).
  unfold ser_BlobPointer. cbn [value_ok forallb app fst snd number_ok].
  pose proof (len_u64_nonneg (p_content part)) as H0.
  assert ((bp_len p <=? U64_MAX)%Z = true) as H1 by (apply Z.leb_le; unfold U64_MAX; lia).
  assert ((0 <=? bp_len p)%Z = true) as H2 by (apply Z.leb_le; lia).
  rewrite H1, H2, Hpath, (blob_display_text _ _ _ Hd), Hsha.
  unfold text_ok at 2. rewrite sha256_hex_text. rewrite He.
  pose proof (skip_none_ok "content_encoding" _ eq_refl Henc) as Hs. cbn [value_ok] in Hs.
  rewrite Hs. done.
Qed.

Lemma attachment_ok s fs max part a :
  (0 <= max < 2 ^ 63)%Z -> part_text part -> attachment_stored s fs max part a ->
  value_ok (ser_AttachmentPointer a) = true.
Proof using SL.
  intros Hmax Htext [Hk Hp]. pose proof (pointer_ok _ _ _ _ _ Hmax Htext Hp) as Hok.
  destruct Htext as [Hkc _]. destruct (Hkc _ _ Hk) as [Hkey Hct].
  unfold ser_AttachmentPointer. unfold ser_BlobPointer in Hok.
  cbn [value_ok forallb app fst snd ap_pointer bp_sha256 bp_len bp_path bp_dedup bp_content_encoding] in *.
  rewrite Hkey, Hct. simpl. simpl in Hok. exact Hok.
Qed.

Lemma index_ok s fs max (m : CrashMetadata U C) parts dump atts :
  (0 <= max < 2 ^ 63)%Z -> Forall part_text parts -> value_ok (ser_CrashMetadata m) = true ->
  ingested s fs max parts (Some dump) atts ->
  value_ok (ser_CrashIndex {| ci_metadata := m; ci_dump := dump; ci_attachments := atts |}) = true.
Proof using SL.
  intros Hmax Htext Hm [Hd Ha]. rewrite Forall_forall in Htext.
  assert (value_ok (ser_BlobPointer dump) = true) as Hdump.
  { destruct (filter (fun p => p_attach p = None) parts) as [|part l] eqn:El; [by inversion Hd|].
    apply Forall2_cons in Hd as [Hp _]. apply (pointer_ok s fs max part); try done. apply Htext.
    assert (part ∈ filter (fun p => p_attach p = None) parts) as Hin by (rewrite El; by left).
    by apply list_elem_of_filter in Hin as [_ ?]. }
  assert (forallb value_ok (ser_AttachmentPointer <$> atts) = true) as Hatts.
  { apply forallb_forall. intros v Hv. apply list_elem_of_In, list_elem_of_fmap in Hv as (a & -> & Hin).
    apply list_elem_of_lookup in Hin as [i Hi].
    destruct (Forall2_lookup_r _ _ _ _ _ Ha Hi) as (part & Hpart & Hst).
    apply (attachment_ok s fs max part); [done| |done]. apply Htext.
    apply list_elem_of_lookup_2 in Hpart. by apply list_elem_of_filter in Hpart as [_ ?]. }
  unfold ser_CrashIndex. cbn [value_ok forallb fst snd ci_metadata ci_dump ci_attachments].
  rewrite Hdump, Hatts. cbn [value_ok] in Hm |- *. by rewrite Hm.
Qed.
End IndexText.
