(* ===== verification/System.v ===== *)
(** * The store as a whole: crash requests and retention together

    The invariant of the data directory, kept by every crash request and every
    retention cycle in any order, and what goes wrong when the two interleave. *)

From Stdlib Require Import Ascii.
From S2P Require Import Prelude RustStd Fs External Instances Json Protocol Metrics Schemas Storage F64 RateLimit Auth State Crashes CrashStore CrashIngest Janitor Retention Refs.

Section System.
Context {U : UuidApi} {UL : UuidLaws U} {C : ChronoApi} {CL : ChronoLaws C}
  {S : Sha256Api} {SL : Sha256Laws S} {J : JsonText} {JL : JsonTextLaws J}
  {M : MulterApi} {ML : MulterLaws M} {HT : HttpApi} {HL : HttpLaws HT}
  {V : JsonSchemaApi} {OS : Os}.
Implicit Types (s : StoragePaths) (fs : gmap Path Node).

(** Every hash an index references has a blob with that content hash. *)
Definition refs_ok s fs : Prop :=
  forall q h, below (index_root s) q -> refers fs q h ->
    exists p c t, blob_path s h = Some p /\ fs !! p = Some (File c t) /\ sha256_hex c = h.

Record sound s fs : Prop := {
  sound_wf : fs_wf fs;
  sound_store : store_ok s fs;
  sound_refs : refs_ok s fs
}.

(** ** Retention *)

Lemma blob_hash_blob_path s b p :
  blob_path s (sha256_hex b) = Some p ->
  blob_root s `prefix_of` p /\ blob_hash p = Some (sha256_hex b).
Proof using SL.
  destruct (blob_path_components s b) as (pre & _ & ->). intros [= <-].
  destruct (roots_components s) as (_ & _ & ->). split.
  - exists [pre; sha256_hex b +:+ ".bin"]. by rewrite <- app_assoc.
  - unfold blob_hash.
    change ["crashes"; "by-hash"; pre; sha256_hex b +:+ ".bin"]
      with (["crashes"; "by-hash"; pre] ++ [sha256_hex b +:+ ".bin"]).
    assert (String.length (sha256_hex b +:+ ".bin") = 68%nat) as Hlen
      by (rewrite append_length, sha256_hex_length; done).
    assert (special_component (sha256_hex b +:+ ".bin") = false) as Hsp.
    { generalize dependent (sha256_hex b +:+ ".bin"). intros x Hx. unfold special_component.
      destruct (String.eqb_spec x "/") as [->|_]; [done|].
      destruct (String.eqb_spec x ".") as [->|_]; [done|].
      destruct (String.eqb_spec x "..") as [->|_]; [done|done]. }
    rewrite app_assoc, file_name_snoc by done. cbn [mbind option_bind].
    assert (text_ok (sha256_hex b +:+ ".bin") = true) as Ht.
    { apply is_ascii_text. unfold is_ascii. rewrite all_chars_app.
      rewrite (all_chars_impl is_lower_hex); [done|apply is_lower_hex_ascii|apply sha256_hex_chars]. }
    unfold to_str. unfold text_ok in Ht. rewrite Ht. cbn [mbind option_bind].
    by apply strip_suffix_Some.
Qed.

Lemma janitor_sound s cfg w r w' :
  sound s (w_fs w) -> run_janitor_cycle s cfg w = (r, w') -> sound s (w_fs w').
Proof using SL.
  intros [Hwf Hst Href] Hrun.
  enough (wp (run_janitor_cycle s cfg)
    (fun _ w' => pruned (removable s cfg (times w) (w_fs w')) (w_fs w) (w_fs w')) w) as Hwp.
  2: { by apply wp_janitor_cycle. }
  pose proof (wp_run _ _ _ _ _ Hwp Hrun) as Hp. simpl in Hp. split.
  - by eapply pruned_wf.
  - intros b p n Hb Hn. eapply Hst; [done|]. by eapply pruned_some.
  - intros q h Hq Hr. destruct (Href q h Hq (refers_pruned _ _ _ _ _ Hp Hr)) as (p & c & t & Hb & Hf & Hc).
    exists p, c, t. split; [done|]. split; [|done]. subst h.
    destruct (blob_hash_blob_path s c p Hb) as [Hroot Hh].
    destruct (Hp p) as [->|(_ & c' & t' & _ & [Hx|[Hx|Hx]])]; [done|..].
    + destruct Hx as [Hx _]. exfalso. by eapply below_roots_differ; [done|left|].
    + destruct Hx as [Hx _]. exfalso. by eapply below_roots_differ; [done|right|].
    + destruct Hx as (_ & _ & h' & Hh' & Hno). exfalso. apply Hno. exists q. split; [done|]. congruence.
Qed.

(** ** Crash requests *)

#[local] Instance uuid_new_v4_wf E : Keeps wf_world (@uuid_new_v4 U E).
Proof. by intros w. Qed.

#[local] Instance fs_write_wf p b : Keeps wf_world (fs_write p b).
Proof. apply _. Qed.

#[local] Instance copy_chunk_wf temp max acc c : Keeps wf_world (copy_chunk temp max acc c).
Proof. unfold copy_chunk; cbv zeta; apply _. Qed.

#[local] Instance finalize_blob_wf s temp h : Keeps wf_world (finalize_blob s temp h).
Proof. unfold finalize_blob; cbv zeta; apply _. Qed.

#[local] Instance write_part_wf s field max : Keeps wf_world (write_part_to_blob s field max).
Proof. unfold write_part_to_blob; cbv zeta; apply _. Qed.

#[local] Instance ingest_part_wf s max acc next : Keeps wf_world (ingest_part s max acc next).
Proof. unfold ingest_part; cbv zeta; apply _. Qed.

#[local] Instance write_index_wf s k m dump atts : Keeps wf_world (write_index s k m dump atts).
Proof. unfold write_index; cbv zeta; apply _. Qed.

(** The same for handlers. *)
Definition wf_app (sw : AppState * World) : Prop := wf_world sw.2.

#[local] Instance app_io_wf {E A : Type} (m : IO E A) : Keeps wf_world m -> Keeps wf_app (app_io m).
Proof.
  intros Hm [st w] Hw. unfold app_io, wf_app in *. simpl in *. specialize (Hm w Hw). by destruct (m w).
Qed.

#[local] Instance modify_metrics_wf E f : Keeps wf_app (@modify_metrics V E f).
Proof. by intros [st w]. Qed.

#[local] Instance get_state_wf E : Keeps wf_app (@get_state V E).
Proof. by intros [st w]. Qed.

#[local] Instance app_limit_wf E f err : Keeps wf_app (@app_limit V E f err).
Proof. intros [st w] Hw. unfold app_limit. simpl. by destruct (f _). Qed.

#[local] Instance crashes_handler_wf token rq now elapsed :
  Keeps wf_app (crashes_handler token rq now elapsed).
Proof. unfold crashes_handler, crashes_inner; cbv zeta; apply _. Qed.

Lemma attach_key_text name key :
  text_ok name = true -> strip_prefix "attach:" name = Some key -> text_ok key = true.
Proof. intros Hn ->%strip_prefix_Some. unfold text_ok in *. rewrite as_bytes_app in Hn. exact Hn. Qed.

(** What multer hands over consists of proper strings. *)
Lemma part_of_text body boundary f p :
  Ok f ∈ multipart body boundary -> part_of f = Some p -> part_text p.
Proof using ML HL.
  intros Hf Hp. destruct (multipart_text _ _ _ Hf) as [Hname Hct]. unfold part_of in Hp.
  destruct (f_name f) as [name|]; [|done]. cbn [mbind option_bind] in Hp.
  destruct (field_bytes f) as [b|]; [|done]. cbn [mbind option_bind] in Hp.
  assert (forall e, (f_content_encoding f ≫= header_to_str) = Some e -> text_ok e = true) as Henc.
  { intros e He. destruct (f_content_encoding f) as [raw|]; [|done]. by apply header_to_str_text in He. }
  destruct (String.eqb name "dump").
  - injection Hp as <-. split; [done|exact Henc].
  - destruct (strip_prefix "attach:" name) as [key|] eqn:Ek; [|done]. injection Hp as <-.
    split; [|exact Henc]. intros k c [= <- <-]. split.
    + eapply attach_key_text; [|done]. by apply Hname.
    + destruct (f_content_type f) as [ct|]; [by apply Hct|done].
Qed.

Lemma request_fits_multer rq : request_fits rq.
Proof using ML.
  intros fields. unfold request_fields. destruct (rq_content_type rq) as [raw|]; [|done]. cbn [ok_or].
  destruct (header_to_str raw) as [ct|]; [|done]. cbn [ok_or].
  destruct (parse_boundary ct) as [bd|]; [|done]. cbn [map_err]. intros [= <-].
  apply Forall_forall. intros [f|] Hf; [|done]. apply Forall_forall. intros [b|] Hb; [|done].
  by eapply multipart_chunks.
Qed.

(** The parts of an admitted request are proper strings too. *)
Lemma admitted_parts_text (st : AppState) token rq now m fields k parts :
  admitted st token rq now m (Ok <$> fields) k ->
  Forall2 (fun f p => part_of f = Some p) fields parts -> Forall part_text parts.
Proof using ML HL.
  intros ((all & Hrf & (mf & -> & _)%first_part_Ok) & _) Hparts.
  unfold request_fields in Hrf. destruct (rq_content_type rq) as [raw|]; [|done]. cbn [ok_or] in Hrf.
  destruct (header_to_str raw) as [ct|]; [|done]. cbn [ok_or] in Hrf.
  destruct (parse_boundary ct) as [bd|]; [|done]. cbn [map_err] in Hrf. injection Hrf as Hrf.
  apply Forall_forall. intros p Hp. apply list_elem_of_lookup in Hp as [i Hi].
  destruct (Forall2_lookup_r _ _ _ _ _ Hparts Hi) as (f & Hf & Hpf).
  eapply (part_of_text (rq_body rq) bd f); [|done]. rewrite Hrf. right.
  apply list_elem_of_fmap. exists f. split; [done|]. by eapply list_elem_of_lookup_2.
Qed.

Lemma admitted_metadata_ok (st : AppState) token rq now m rest k :
  admitted st token rq now m rest k -> value_ok (ser_CrashMetadata m) = true.
Proof using UL CL JL.
  intros ((all & _ & (mf & _ & _ & Hread)%first_part_Ok) & _). unfold read_metadata in Hread.
  destruct (try_fold _ _ _) as [b|]; [|done]. apply map_err_Ok in Hread.
  unfold metadata_from_slice in Hread. destruct (json_parse b) as [v|] eqn:Ev; [|done].
  eapply ser_CrashMetadata_ok; [by eapply json_parse_ok|done].
Qed.

(** Each hash of an index whose parts are stored resolves. *)
Lemma ingested_hashes s fs max (m : CrashMetadata U C) parts dump atts h :
  ingested s fs max parts (Some dump) atts ->
  h ∈ index_hashes {| ci_metadata := m; ci_dump := dump; ci_attachments := atts |} ->
  exists p c t, blob_path s h = Some p /\ fs !! p = Some (File c t) /\ sha256_hex c = h.
Proof.
  intros [Hd Ha]. unfold index_hashes. cbn [ci_dump ci_attachments].
  assert (forall part p, part_stored s fs max part p -> exists q c t,
    blob_path s (bp_sha256 p) = Some q /\ fs !! q = Some (File c t) /\ sha256_hex c = bp_sha256 p) as Hone.
  { intros part p ((-> & _ & dest & c & t & Hb & _ & Hf & Hc & _) & _). by exists dest, c, t. }
  intros [->|(a & -> & Hin)%list_elem_of_fmap]%elem_of_cons.
  - apply Forall2_cons_inv_r in Hd as (part & l & Hp & _). by eapply Hone.
  - apply list_elem_of_lookup in Hin as [i Hi].
    destruct (Forall2_lookup_r _ _ _ _ _ Ha Hi) as (part & _ & _ & Hst). by apply Hone in Hst.
Qed.

Lemma not_below_index s q : is_tmp s q \/ is_blob s q -> ~ below (index_root s) q.
Proof using UL SL.
  destruct (roots_components s) as (_ & Hroot & _). rewrite Hroot.
  intros [[u ->]|(p & h & ->)%is_blob_components] (r & Hr & _); [rewrite temp_path_components in Hr|];
    rewrite <- app_assoc in Hr; apply app_inv_head in Hr; discriminate.
Qed.

(** References of the indexes a request leaves behind resolve. *)
Lemma crash_refs_ok (st : AppState) token rq now m rest k X fs fs' :
  (0 <= max_dump_bytes st < 2 ^ 63)%Z -> admitted st token rq now m rest k ->
  evolves (storage st) X fs fs' -> follows (storage st) (max_dump_bytes st) rest m fs fs' ->
  refs_ok (storage st) fs -> refs_ok (storage st) fs'.
Proof using UL CL SL JL ML HL.
  intros Hmax Hadm (_ & HB & _) Hfol Href q h Hq (c & t & idx & Hf & Hx & Hidx & Hh).
  destruct (Hfol q c t Hf) as [Hold|[Ht|[Hb|Hnew]]].
  - destruct (Href q h Hq) as (p & c' & t' & Hp & Hf' & Hc'); [by exists c, t, idx|].
    exists p, c', t'. split; [done|]. split; [|done]. apply HB; [|done]. exists c'. by rewrite Hc'.
  - exfalso. by apply (not_below_index (storage st) q); [left|].
  - exfalso. by apply (not_below_index (storage st) q); [right|].
  - destruct Hnew as (fields & parts & dump & atts & n & -> & Hparts & Hing & ->).
    apply index_text_refs in Hidx; [|eapply index_ok; [done| | |done]].
    + rewrite Hidx in Hh. by eapply ingested_hashes.
    + by eapply admitted_parts_text.
    + by eapply admitted_metadata_ok.
Qed.

Lemma crash_sound (st : AppState) token rq now elapsed w r st' w' :
  (0 <= max_dump_bytes st < 2 ^ 63)%Z -> sound (storage st) (w_fs w) ->
  crashes_handler token rq now elapsed (st, w) = (r, (st', w')) ->
  sound (storage st) (w_fs w') /\ same_config st st'.
Proof using UL CL SL JL ML HL.
  intros Hmax [Hwf Hst Href] Hrun.
  assert (fs_wf (w_fs w')) as Hwf'.
  { pose proof (crashes_handler_wf token rq now elapsed (st, w) Hwf) as H. by rewrite Hrun in H. }
  enough (wp (crashes_handler token rq now elapsed) (fun _ sw =>
    store_ok (storage st) (w_fs sw.2) /\ refs_ok (storage st) (w_fs sw.2) /\ same_config st sw.1) (st, w)) as Hwp.
  { destruct (wp_run _ _ _ _ _ Hwp Hrun) as (H1 & H2 & H3). split; [by split|done]. }
  assert (forall (res : Result (Z * CrashResponse) CrashError) st1 w1, quiet st st1 ->
    store_ok (storage st) (w_fs w1) -> refs_ok (storage st) (w_fs w1) ->
    wp (modify_metrics (fun mt => observe_request mt "crashes"
          (Z_to_string (match res with Ok (status, _) => status | Err e => status_code e end)) elapsed);;!
        io_lift res) (fun _ sw => store_ok (storage st) (w_fs sw.2) /\ refs_ok (storage st) (w_fs sw.2) /\
      same_config st sw.1) (st1, w1)) as Hend.
  { intros res st1 w1 [Hq _] Hs1 Hr1. apply wp_bind, wp_modify_metrics. intros st2 Hc2 _ _. apply wp_lift.
    split; [done|]. split; [done|]. by etransitivity. }
  apply wp_bind, wp_try, wp_crashes_inner; [done|apply request_fits_multer|done|..].
  - intros e st1 _ Hq. by apply (Hend (Err e)).
  - intros m rest k e st1 w1 Hadm _ Hq _ Hev Hfol.
    apply (Hend (Err e)); [done|by apply Hev|by eapply crash_refs_ok].
  - intros m rest k fields parts resp st1 w1 Hadm _ _ Hq _ Hev Hfol _.
    apply (Hend (Ok (201%Z, resp))); [done|by apply Hev|by eapply crash_refs_ok].
Qed.

(** ** Any sequence of requests and cycles *)

(** One step of the server: a crash request, a retention cycle, or the passage
    of time (new clock readings and a new pattern of I/O failures). *)
Inductive step : AppState * World -> AppState * World -> Prop :=
| step_crash token rq now elapsed r st w st' w' :
    crashes_handler token rq now elapsed (st, w) = (r, (st', w')) -> step (st, w) (st', w')
| step_janitor cfg elapsed st w m' w' :
    janitor_tick (storage st) cfg elapsed (metrics st) w = (m', w') ->
    step (st, w) (with_metrics st (fun m => default m m'), w')
| step_time st w w' : w_fs w' = w_fs w -> step (st, w) (st, w').

Lemma step_sound (st : AppState) w st' w' :
  step (st, w) (st', w') -> (0 <= max_dump_bytes st < 2 ^ 63)%Z -> sound (storage st) (w_fs w) ->
  sound (storage st) (w_fs w') /\ same_config st st'.
Proof using UL CL SL JL ML HL.
  intros Hstep. inversion Hstep as [token rq now elapsed r ? ? ? ? Hrun|cfg elapsed ? ? m' ? Hrun|? ? ? Hfs];
    subst; intros Hmax Hs.
  - by eapply crash_sound.
  - split; [|done]. unfold janitor_tick in Hrun.
    destruct (run_janitor_cycle (storage st) cfg w) as [r w1] eqn:E.
    assert (w1 = w') as -> by (by destruct r as [|[]]; injection Hrun). by eapply janitor_sound.
  - split; [by rewrite Hfs|done].
Qed.

(** The store stays sound for ever: from a sound data directory, after any
    sequence of crash requests (accepted, rejected or failed half-way), retention
    cycles and I/O failures, every blob still has the content its name says,
    and every hash that an index on disk references has its blob on disk. *)
Theorem store_sound_forever (st : AppState) w st' w' :
  rtc step (st, w) (st', w') -> (0 <= max_dump_bytes st < 2 ^ 63)%Z -> sound (storage st) (w_fs w) ->
  sound (storage st') (w_fs w').
Proof using UL CL SL JL ML HL.
  intros Hrtc. remember (st, w) as a eqn:Ea. remember (st', w') as b eqn:Eb. revert st w Ea.
  induction Hrtc as [a|a [st1 w1] b Hstep _ IH]; intros st w -> Hmax Hs.
  - by injection Eb as <- <-.
  - destruct (step_sound _ _ _ _ Hstep Hmax Hs) as [Hs1 (Hstor & Hm & _)].
    apply (IH Eb st1 w1 eq_refl); [by rewrite Hm|by rewrite Hstor].
Qed.
End System.

(** ** Interleaving a request with a cycle

    A cycle is not atomic: requests are served while it runs.  Between the
    collection of references and the sweep, an upload of a blob that is on disk
    but not referenced is answered from the blob that the sweep then removes. *)

Section Race.
Context `{OS : Os} `{J : JsonText}.

(** The cycle up to the sweep. *)
Definition janitor_mark (s : StoragePaths) (cfg : RetentionConfig)
  : IO JanitorError (list Path * JanitorStats * gset string) :=
  let! snap := snapshot_blobs (join (join (data_dir s) "crashes") "by-hash") in
  let! stats := prune_logs s (logs_ttl_days cfg) JanitorStats_default in
  let! (stats, referenced) := prune_indexes_and_collect_references s (crashes_ttl_days cfg) stats in
  io_ret (snap, stats, referenced).

Lemma run_janitor_cycle_mark_sweep s cfg w :
  run_janitor_cycle s cfg w =
  (let! (snap, stats, referenced) := janitor_mark s cfg in sweep_blobs snap referenced stats) w.
Proof.
  unfold run_janitor_cycle, janitor_mark, io_bind.
  destruct (snapshot_blobs _ w) as [[snap|e] w1]; [|done].
  destruct (prune_logs _ _ _ w1) as [[st|e] w2]; [|done].
  by destruct (prune_indexes_and_collect_references _ _ _ w2) as [[[st' r]|e] w3].
Qed.

End Race.

Section RaceLoses.
Context {U : UuidApi} {UL : UuidLaws U} {C : ChronoApi} {CL : ChronoLaws C}
  {S : Sha256Api} {SL : Sha256Laws S} {J : JsonText} {JL : JsonTextLaws J}
  {M : MulterApi} {ML : MulterLaws M} {HT : HttpApi} {HL : HttpLaws HT}
  {V : JsonSchemaApi} {OS : Os}.

(** Blobs and indexes lie where the janitor looks, under the extensions it looks
    for. *)
Lemma named_extension d stem ext :
  (2 <= String.length stem)%nat -> contains_char "/" stem = false -> contains_char "/" ext = false -> contains_char "." ext = false ->
  ext <> "" -> text_ok ext = true -> has_extension ext (d ++ [stem +:+ "." +:+ ext]) = true.
Proof.
  intros Hl Hs He Hd Hne Ht. destruct (normal_component_ext stem ext Hs He Hne) as [_ Hsp].
  unfold has_extension. rewrite extension_stem; [|intros ->; cbn in Hl; lia|done|].
  - apply bool_decide_true. cbn [mbind option_bind]. unfold to_str. unfold text_ok in Ht. by rewrite Ht.
  - rewrite Hsp. apply String.eqb_neq. intros H%(f_equal String.length). rewrite !append_length in H.
    destruct ext; [done|]. cbn in H. lia.
Qed.

Lemma slash_component (x : string) : contains_char "/" x = false -> "/" <> x.
Proof. by intros H <-. Qed.

Lemma blob_path_seen s b p : blob_path s (sha256_hex b) = Some p -> below (blob_root s) p /\ has_extension "bin" p = true.
Proof using SL.
  destruct (blob_path_components s b) as (pre & Hpre & ->). intros [= <-].
  destruct (roots_components s) as (_ & _ & ->). pose proof (sha256_hex_no_char "/" b eq_refl) as Hc.
  pose proof (sha256_hex_length b) as Hl. split.
  - exists [pre; sha256_hex b +:+ ".bin"]. split; [by rewrite <- app_assoc|]. split; [done|].
    destruct (hash_prefix_sha256 b) as (x & y & r & _ & Hp & Hs & _). rewrite Hpre in Hp. injection Hp as ->.
    intros [Hx|[Hx|Hx%elem_of_nil]%elem_of_cons]%elem_of_cons; [by apply slash_component in Hx| |done].
    revert Hx. apply slash_component. by rewrite contains_char_app, Hc.
  - change ["crashes"; "by-hash"; pre; sha256_hex b +:+ ".bin"]
      with (["crashes"; "by-hash"; pre] ++ [sha256_hex b +:+ "." +:+ "bin"]). rewrite app_assoc.
    apply named_extension; [lia|done..].
Qed.

Lemma index_path_seen s k t b : SourceKey_valid k ->
  below (index_root s) (index_path s k (stamp t) (sha256_hex b)) /\ has_extension "json" (index_path s k (stamp t) (sha256_hex b)) = true.
Proof using CL SL.
  intros Hk. rewrite index_path_components by done. destruct (roots_components s) as (_ & -> & _).
  pose proof (sha256_hex_no_char "/" b eq_refl) as Hc. pose proof (sha256_hex_length b) as Hl.
  assert (contains_char "/" (stamp t +:+ "-" +:+ sha256_hex b) = false) as Hn by (by rewrite !contains_char_app, stamp_no_slash, Hc).
  split.
  - exists [sk_project k; sk_source_id k; stamp t +:+ "-" +:+ sha256_hex b +:+ ".json"]. split; [by rewrite <- app_assoc|]. split; [done|].
    destruct Hk as (Hp & _ & Hi & _). unfold normal_component in Hp, Hi.
    apply andb_true_iff in Hp as [_ Hp%negb_true_iff]. apply andb_true_iff in Hi as [_ Hi%negb_true_iff].
    intros [Hx|[Hx|[Hx|Hx%elem_of_nil]%elem_of_cons]%elem_of_cons]%elem_of_cons; [| | |done]; revert Hx; apply slash_component; [done|done|].
    by rewrite !contains_char_app, stamp_no_slash, Hc.
  - change ["crashes"; "by-source"; sk_project k; sk_source_id k; stamp t +:+ "-" +:+ sha256_hex b +:+ ".json"]
      with (["crashes"; "by-source"; sk_project k; sk_source_id k] ++ [stamp t +:+ "-" +:+ sha256_hex b +:+ "." +:+ "json"]).
    rewrite app_assoc. pose proof (named_extension (data_dir s ++ ["crashes"; "by-source"; sk_project k; sk_source_id k])
      (stamp t +:+ "-" +:+ sha256_hex b) "json") as H. rewrite !append_assoc in H. apply H; [|done..].
    rewrite !append_length. cbn. lia.
Qed.

(** What marking and sweeping do. *)
Lemma janitor_mark_spec s cfg w snap stats referenced w1 :
  fs_wf (w_fs w) -> janitor_mark s cfg w = (Ok (snap, stats, referenced), w1) ->
  pruned (fun _ _ _ => True) (w_fs w) (w_fs w1) /\
  (forall q, node_is_file (w_fs w) q -> below (blob_root s) q -> has_extension "bin" q = true -> q ∈ snap) /\
  (forall q, q ∈ snap -> blob_root s `prefix_of` q /\ has_extension "bin" q = true) /\
  (forall h, h ∈ referenced -> exists q, index_root s `prefix_of` q /\ refers (w_fs w1) q h).
Proof.
  intros Hwf Hrun. refine (wp_run (janitor_mark s cfg) (fun r w1 => forall snap stats referenced, r = Ok (snap, stats, referenced) ->
    pruned (fun _ _ _ => True) (w_fs w) (w_fs w1) /\
    (forall q, node_is_file (w_fs w) q -> below (blob_root s) q -> has_extension "bin" q = true -> q ∈ snap) /\
    (forall q, q ∈ snap -> blob_root s `prefix_of` q /\ has_extension "bin" q = true) /\
    (forall h, h ∈ referenced -> exists q, index_root s `prefix_of` q /\ refers (w_fs w1) q h)) w _ w1 _ Hrun _ _ _ eq_refl).
  unfold janitor_mark. fold (blob_root s). apply wp_bind, wp_snapshot_blobs; [|done]. intros snap' w2 Hfs2 _ Hroots Hall.
  apply wp_bind, wp_prune_logs; [|done]. intros st3 w3 _ Hp3 _ _ _ _. rewrite Hfs2 in Hp3.
  apply wp_bind, wp_prune_indexes; [|done]. intros st4 refd w4 _ Hp4 _ _ _ _ _ Hrefs. apply wp_ret. intros ? ? ? [= <- <- <-].
  split_and!; [|by apply Hall|done|done]. etransitivity; (eapply pruned_mono; [|done]); done.
Qed.

Lemma sweep_spec snap referenced stats w stats' w' :
  sweep_blobs snap referenced stats w = (Ok stats', w') ->
  pruned (unreferenced snap referenced) (w_fs w) (w_fs w') /\
  forall q h, q ∈ snap -> blob_hash q = Some h -> h ∉ referenced -> w_fs w' !! q = None.
Proof.
  intros Hrun. refine (wp_run (sweep_blobs snap referenced stats) (fun r w' => forall st, r = Ok st ->
    pruned (unreferenced snap referenced) (w_fs w) (w_fs w') /\
    forall q h, q ∈ snap -> blob_hash q = Some h -> h ∉ referenced -> w_fs w' !! q = None) w _ w' _ Hrun _ eq_refl).
  by apply wp_sweep_blobs.
Qed.

Lemma accepted_recorded (st : AppState) token rq now w status resp st' w' :
  (0 <= max_dump_bytes st < 2 ^ 63)%Z -> store_ok (storage st) (w_fs w) ->
  crashes_inner token rq now (st, w) = (Ok (status, resp), (st', w')) ->
  status = 201%Z /\ exists m fields k parts, admitted st token rq now m (Ok <$> fields) k /\
    Forall2 (fun f p => part_of f = Some p) fields parts /\
    recorded (storage st) (max_dump_bytes st) (w_fs w') m k parts (w_now w) resp.
Proof using UL CL SL ML.
  intros Hmax Hok Hrun. refine (wp_run (crashes_inner token rq now) (fun r sw => forall status resp, r = Ok (status, resp) ->
    status = 201%Z /\ exists m fields k parts, admitted st token rq now m (Ok <$> fields) k /\
    Forall2 (fun f p => part_of f = Some p) fields parts /\
    recorded (storage st) (max_dump_bytes st) (w_fs sw.2) m k parts (w_now w) resp) (st, w) _ (st', w') _ Hrun _ _ eq_refl).
  apply wp_crashes_inner; [done|apply request_fits_multer|done|done|done|].
  intros m rest k fields parts resp' st1 w1 Hadm -> Hparts _ _ _ _ Hrec ? ? [= <- <-]. split; [done|].
  by exists m, fields, k, parts.
Qed.

(** The index of an accepted crash is one the janitor reads. *)
Lemma recorded_refers (st : AppState) token rq now m fields k parts max fs t resp s :
  (0 <= max < 2 ^ 63)%Z -> admitted st token rq now m (Ok <$> fields) k ->
  Forall2 (fun f p => part_of f = Some p) fields parts -> recorded s max fs m k parts t resp ->
  exists q b, below (index_root s) q /\ refers fs q (cr_id resp) /\ cr_id resp = sha256_hex b.
Proof using UL CL SL JL ML HL.
  intros Hmax Hadm Hparts (part & dump & atts & Hpart & Hing & Hidx & ->). cbn [cr_id].
  pose proof Hadm as (_ & _ & [_ Hk]%SourceKey_new_Ok & _).
  set (i := {| ci_metadata := m; ci_dump := dump; ci_attachments := atts |}) in *.
  assert (value_ok (ser_CrashIndex i) = true) as Hok
    by (eapply index_ok; [done|by eapply admitted_parts_text|by eapply admitted_metadata_ok|done]).
  destruct (index_path_seen s k (timestamp m) (p_content part) Hk) as [Hb Hx].
  eexists _, (p_content part). split; [exact Hb|]. split; [|done].
  destruct (index_ref_readable i Hok) as (r & Hr & Hrefs). eexists _, _, r. split; [exact Hidx|]. split; [done|]. split; [exact Hr|].
  rewrite Hrefs. unfold index_hashes, i. cbn [ci_dump]. destruct Hing as [Hd _]. rewrite Hpart in Hd.
  apply Forall2_cons in Hd as [((Hsha & _) & _) _]. rewrite Hsha. left.
Qed.

(** C37. A retention cycle is not atomic, and an upload that runs between its
    collection of references and its sweep can lose its dump: whenever the cycle
    has marked, a request is then accepted whose dump the store had when the cycle
    began and no index referenced when the marking was over, and the sweep
    succeeds, the request has been answered 201, its index is on disk and
    references the dump, and the dump is gone.  The phases in this order are one
    cycle, interrupted once ([run_janitor_cycle_mark_sweep]). *)
Theorem retention_race_loses_blob (st : AppState) token rq now cfg w snap stats referenced w1 status resp st2 w2 stats' w3 p c t :
  (0 <= max_dump_bytes st < 2 ^ 63)%Z -> fs_wf (w_fs w) -> store_ok (storage st) (w_fs w) ->
  janitor_mark (storage st) cfg w = (Ok (snap, stats, referenced), w1) ->
  crashes_inner token rq now (st, w1) = (Ok (status, resp), (st2, w2)) ->
  sweep_blobs snap referenced stats w2 = (Ok stats', w3) ->
  blob_path (storage st) (cr_id resp) = Some p -> w_fs w !! p = Some (File c t) ->
  (forall q, index_root (storage st) `prefix_of` q -> ~ refers (w_fs w1) q (cr_id resp)) ->
  status = 201%Z /\ (exists q, below (index_root (storage st)) q /\ refers (w_fs w3) q (cr_id resp)) /\ w_fs w3 !! p = None.
Proof using UL CL SL JL ML HL.
  intros Hmax Hwf Hok Hmark Hreq Hsweep Hp Hfile Hno.
  destruct (janitor_mark_spec (storage st) cfg w snap stats referenced w1 Hwf Hmark) as (Hpr & Hsnap & Hroots & Hrefd).
  assert (store_ok (storage st) (w_fs w1)) as Hok1 by (intros b q n Hb Hn; eapply Hok; [done|by eapply pruned_some]).
  destruct (accepted_recorded st token rq now w1 status resp st2 w2 Hmax Hok1 Hreq) as (-> & m & fields & k & parts & Hadm & Hparts & Hrec).
  destruct (recorded_refers st token rq now m fields k parts _ _ _ resp _ Hmax Hadm Hparts Hrec) as (q & b & Hq & Href & Hid).
  destruct (sweep_spec snap referenced stats w2 stats' w3 Hsweep) as [Hp3 Hgone].
  split; [done|]. rewrite Hid in *. destruct (blob_path_seen _ _ _ Hp) as [Hbel Hext]. destruct (blob_hash_blob_path _ _ _ Hp) as [_ Hhash]. split.
  - exists q. split; [done|]. eapply refers_kept; [|exact Href]. destruct (Hp3 q) as [->|(_ & c' & t' & _ & Hin & _)]; [done|].
    exfalso. eapply below_roots_differ; [apply (Hroots _ Hin)|right; by apply below_prefix|done].
  - apply (Hgone p (sha256_hex b)); [apply Hsnap; [by exists c, t|done|done]|done|]. intros Hin.
    destruct (Hrefd _ Hin) as (q' & Hq' & Hr'). by apply (Hno q').
Qed.
End RaceLoses.

(** ** A concrete run *)

Lemma empty_sound s : sound s ∅.
Proof.
  split.
  - intros q p n H. by rewrite lookup_empty in H.
  - apply empty_store_ok.
  - intros q h _ (c & t & idx & H & _). by rewrite lookup_empty in H.
Qed.

Lemma store_sound_forever_witness :
  let sw := crashes_handler (J := ToyJson) sample_token sample_request 0 0 (sample_state, empty_world) in
  let mw := janitor_tick (J := ToyJson) (storage sw.2.1) RetentionConfig_default 0 (metrics sw.2.1) sw.2.2 in
  sound (J := ToyJson) (storage sw.2.1) (w_fs mw.2).
Proof.
  intros sw mw. destruct sw as [r [st w]] eqn:E. destruct mw as [m' w'] eqn:E'.
  apply (store_sound_forever (J := ToyJson) sample_state empty_world
           (with_metrics st (fun m => default m m')) w').
  - eapply rtc_l; [eapply step_crash; exact E|]. apply rtc_once. eapply step_janitor. exact E'.
  - vm_compute. split; congruence.
  - apply empty_sound.
Defined.

(** *** The race *)

(** A crash whose dump is the text [core]. *)
Definition metadata_text : bytes := json_print (JsonText := ToyJson) (ser_CrashMetadata sample_metadata).

Definition crash_request : CrashRequest := {|
  rq_content_type := Some (as_bytes "multipart/form-data");
  rq_body := [Ok (as_bytes "metadata=" ++ metadata_text); Ok (as_bytes "dump=core")] |}.

(** A store that holds the blob of that text and no index. *)
Definition core_blob : Path := default [] (blob_path sample_storage (sha256_hex (as_bytes "core"))).

Definition unreferenced_world : World := {|
  w_fs := list_to_map [
    (["/"], Dir); (["/"; "d"], Dir); (["/"; "d"; "crashes"], Dir);
    (["/"; "d"; "crashes"; "by-hash"], Dir);
    (["/"; "d"; "crashes"; "by-hash"; String (hex_digit (toy_sum (as_bytes "core")))
        (String (hex_digit (toy_sum (as_bytes "core"))) "")], Dir);
    (core_blob, File (as_bytes "core") 0)];
  w_now := 5; w_clock := []; w_faults := []; w_uuids := 0; w_dir_mtime := fun _ => 0%Z |}.

Definition no_index (_ : Path) (n : Node) : bool := match n with File c _ => bool_decide (c = as_bytes "core") | Dir => true end.

Lemma core_blob_path : blob_path sample_storage (sha256_hex (as_bytes "core")) = Some core_blob.
Proof. vm_compute. reflexivity. Qed.

Lemma core_store_ok : store_ok sample_storage (w_fs unreferenced_world).
Proof.
  intros b p n Hp Hn. set (f := fun (q : Path) (n : Node) => negb (Nat.eqb (length q) 6) || bool_decide (n = File (as_bytes "core") 0 /\ q = core_blob)).
  pose proof (nodes_forall f (w_fs unreferenced_world) ltac:(vm_compute; reflexivity) p n Hn) as H. unfold f in H.
  assert (length p = 6%nat) as Hlen by (destruct (blob_path_components sample_storage b) as (pre & _ & Hc); rewrite Hp in Hc; injection Hc as ->; reflexivity).
  rewrite Hlen in H. cbn [Nat.eqb negb orb] in H. apply bool_decide_eq_true in H as [-> ->]. exists (as_bytes "core"), 0%Z. split; [done|].
  destruct (blob_hash_blob_path _ _ _ Hp) as [_ H1]. destruct (blob_hash_blob_path _ _ _ core_blob_path) as [_ H2]. congruence.
Qed.

Definition core_response : CrashResponse := {| cr_id := sha256_hex (as_bytes "core"); cr_dedup := true |}.

Definition race : bool :=
  match janitor_mark (J := ToyJson) (storage sample_state) RetentionConfig_default unreferenced_world with
  | (Ok (snap, stats, referenced), w1) =>
      match crashes_inner (J := ToyJson) sample_token crash_request 0 (sample_state, w1) with
      | (Ok (status, resp), (_, w2)) =>
          (status =? 201)%Z && String.eqb (cr_id resp) (cr_id core_response) && cr_dedup resp
          && is_ok (sweep_blobs snap referenced stats w2).1
          && forallb (fun kv => no_index kv.1 kv.2) (map_to_list (w_fs w1))
      | _ => false
      end
  | _ => false
  end.

Lemma race_true : race = true.
Proof. vm_compute. reflexivity. Qed.

(** The three phases of the race all succeed, and after the first there is no
    index yet. *)
Lemma race_runs : exists snap stats referenced w1 st2 w2 stats' w3,
  janitor_mark (J := ToyJson) (storage sample_state) RetentionConfig_default unreferenced_world = (Ok (snap, stats, referenced), w1) /\
  crashes_inner (J := ToyJson) sample_token crash_request 0 (sample_state, w1) = (Ok (201%Z, core_response), (st2, w2)) /\
  sweep_blobs snap referenced stats w2 = (Ok stats', w3) /\
  forallb (fun kv => no_index kv.1 kv.2) (map_to_list (w_fs w1)) = true.
Proof.
  pose proof race_true as H. unfold race in H.
  destruct (janitor_mark _ _ _) as [[[[snap stats] referenced]|e] w1]; [|discriminate H].
  destruct (crashes_inner _ _ _ _) as [[[status [id dedup]]|e] [st2 w2]] eqn:Eu; [|discriminate H].
  apply andb_prop in H as [H Hn]. apply andb_prop in H as [H Hs]. apply andb_prop in H as [H Hd]. apply andb_prop in H as [H Hid].
  apply Z.eqb_eq in H as ->. apply String.eqb_eq in Hid. cbn [Crashes.cr_id Crashes.cr_dedup] in Hid, Hd. subst id dedup.
  destruct (sweep_blobs _ _ _ _) as [[stats'|e] w3] eqn:Es; [|discriminate Hs].
  exists snap, stats, referenced, w1, st2, w2, stats', w3. split; [reflexivity|]. split; [exact Eu|]. split; [exact Es|exact Hn].
Qed.

Lemma core_blob_stored : w_fs unreferenced_world !! core_blob = Some (File (as_bytes "core") 0).
Proof. vm_compute. reflexivity. Qed.

Lemma unreferenced_wf : fs_wf (w_fs unreferenced_world).
Proof. apply fs_wf_b_ok. vm_compute. reflexivity. Qed.

Lemma no_index_unreferenced fs q h : forallb (fun kv => no_index kv.1 kv.2) (map_to_list fs) = true -> ~ refers (J := ToyJson) fs q h.
Proof.
  intros Hn (c & t & idx & Hf & _ & Hi & _). pose proof (nodes_forall no_index _ Hn _ _ Hf) as Hc.
  apply bool_decide_eq_true in Hc as ->. vm_compute in Hi. discriminate Hi.
Qed.

Lemma retention_race_loses_blob_witness :
  exists snap stats referenced w1 st2 w2 stats' w3,
    janitor_mark (J := ToyJson) (storage sample_state) RetentionConfig_default unreferenced_world = (Ok (snap, stats, referenced), w1) /\
    crashes_inner (J := ToyJson) sample_token crash_request 0 (sample_state, w1) = (Ok (201%Z, core_response), (st2, w2)) /\
    sweep_blobs snap referenced stats w2 = (Ok stats', w3) /\
    201%Z = 201%Z /\ (exists q, below (index_root (storage sample_state)) q /\ refers (J := ToyJson) (w_fs w3) q (cr_id core_response)) /\
    w_fs w3 !! core_blob = None.
Proof.
  destruct race_runs as (snap & stats & referenced & w1 & st2 & w2 & stats' & w3 & Em & Eu & Es & Hn).
  exists snap, stats, referenced, w1, st2, w2, stats', w3. split; [exact Em|]. split; [exact Eu|]. split; [exact Es|].
  apply (retention_race_loses_blob (J := ToyJson) sample_state sample_token crash_request 0 RetentionConfig_default unreferenced_world snap stats
    referenced w1 201 core_response st2 w2 stats' w3 core_blob (as_bytes "core") 0).
  - cbn. split; [discriminate|reflexivity].
  - exact unreferenced_wf.
  - exact core_store_ok.
  - exact Em.
  - exact Eu.
  - exact Es.
  - exact core_blob_path.
  - exact core_blob_stored.
  - intros q _. by apply no_index_unreferenced.
Defined.
