(* ===== verification/Concurrency.v ===== *)
(** * Concurrent tasks: programs with scheduling points, pools, rely and guarantee

    A request handler is an asynchronous task: between two of its system calls,
    or critical sections of a lock, any other task may run.  [Prog] is a program
    as the tree of its atomic actions; [interp] runs it alone, which gives back
    the sequential definitions.  A pool of tasks runs under a schedule, a list of
    choices of who acts next; steps of the rest of the process are choices too.
    [safe] is the rely-guarantee judgement of one task: what it promises about
    each of its actions and its result, whatever the others do within what it
    relies on.  [RelyGuarantee] is the interface between a component and the
    soundness theorem of the pool. *)

From S2P Require Import Prelude RustStd Fs.

(** ** Programs *)

Inductive Prog (W E A : Type) : Type :=
| Done (r : Result A E)
| Act {F X : Type} (m : ST W F X) (k : Result X F -> Prog W E A).

Arguments Done {W E A} r.
Arguments Act {W E A F X} m k.

(** A single task, without interruption. *)
Fixpoint interp {W E A : Type} (p : Prog W E A) : ST W E A := fun w =>
  match p with
  | Done r => (r, w)
  | Act m k => let (r, w') := m w in interp (k r) w'
  end.

Section Combinators.
Context {W E A : Type}.

Definition act (m : ST W E A) : Prog W E A := Act m Done.

Definition p_ret (a : A) : Prog W E A := Done (Ok a).

Fixpoint p_bind {B : Type} (p : Prog W E A) (k : A -> Prog W E B) : Prog W E B :=
  match p with
  | Done (Ok a) => k a
  | Done (Err e) => Done (Err e)
  | Act m k' => Act m (fun r => p_bind (k' r) k)
  end.

Fixpoint p_map_err {F : Type} (f : E -> F) (p : Prog W E A) : Prog W F A :=
  match p with
  | Done r => Done (map_err f r)
  | Act m k => Act m (fun r => p_map_err f (k r))
  end.

Fixpoint p_try {F : Type} (p : Prog W E A) : Prog W F (Result A E) :=
  match p with
  | Done r => Done (Ok r)
  | Act m k => Act m (fun r => p_try (k r))
  end.

(** A program on a component of the state. *)
Fixpoint p_zoom {V : Type} (f : forall F X, ST W F X -> ST V F X) (p : Prog W E A) : Prog V E A :=
  match p with
  | Done r => Done r
  | Act m k => Act (f _ _ m) (fun r => p_zoom f (k r))
  end.
End Combinators.

Declare Scope prog_scope.
Delimit Scope prog_scope with prog.

Notation "'let+' x ':=' p 'in' k" := (p_bind p (fun x => k))
  (at level 10, x pattern, p at level 100, k at level 200) : prog_scope.
Notation "p ';;+' k" := (p_bind p (fun _ => k))
  (at level 100, right associativity) : prog_scope.

Open Scope prog_scope.

Fixpoint p_fold {W E A S : Type} (f : S -> A -> Prog W E S) (s : S) (l : list A) : Prog W E S :=
  match l with
  | [] => p_ret s
  | x :: xs => let+ s' := f s x in p_fold f s' xs
  end.

(** *** Running alone

    Two computations are the same when they agree on every state; the monad's
    operations respect this, so programs can be rewritten into the sequential
    code. *)

Definition st_eq {W E A : Type} : relation (ST W E A) := pointwise_relation W eq.

#[export] Instance st_eq_equivalence W E A : Equivalence (@st_eq W E A).
Proof. apply _. Qed.

#[export] Instance io_bind_proper W E A B :
  Proper (st_eq ==> pointwise_relation A st_eq ==> st_eq) (@io_bind W E A B).
Proof.
  intros m m' Hm k k' Hk w. unfold io_bind. rewrite (Hm w). destruct (m' w) as [[a|e] w']; [apply Hk|done].
Qed.

#[export] Instance io_map_err_proper W E A F (f : E -> F) :
  Proper (st_eq ==> st_eq) (@io_map_err W E A F f).
Proof. intros m m' Hm w. unfold io_map_err. by rewrite (Hm w). Qed.

#[export] Instance io_try_proper W E A F : Proper (st_eq ==> st_eq) (@io_try W E A F).
Proof. intros m m' Hm w. unfold io_try. by rewrite (Hm w). Qed.

Section Interp.
Context {W E A : Type}.

Lemma interp_act (m : ST W E A) : st_eq (interp (act m)) m.
Proof. intros w. simpl. by destruct (m w). Qed.

Lemma interp_lift (r : Result A E) : st_eq (interp (W := W) (Done r)) (io_lift r).
Proof. done. Qed.

Lemma interp_bind {B : Type} (p : Prog W E A) (k : A -> Prog W E B) :
  st_eq (interp (p_bind p k)) (io_bind (interp p) (fun a => interp (k a))).
Proof.
  induction p as [[a|e]|F X m k' IH]; intros w; [done|done|]. unfold io_bind. simpl.
  destruct (m w) as [r w']. rewrite (IH r w'). done.
Qed.

Lemma interp_map_err {F : Type} (f : E -> F) (p : Prog W E A) :
  st_eq (interp (p_map_err f p)) (io_map_err f (interp p)).
Proof.
  induction p as [[a|e]|G X m k' IH]; intros w; [done|done|]. unfold io_map_err. simpl.
  destruct (m w) as [r w']. rewrite (IH r w'). done.
Qed.

Lemma interp_try {F : Type} (p : Prog W E A) :
  st_eq (interp (p_try (F := F) p)) (io_try (interp p)).
Proof.
  induction p as [r|G X m k' IH]; intros w; [done|]. unfold io_try. simpl.
  destruct (m w) as [r w']. rewrite (IH r w'). done.
Qed.

End Interp.

Lemma interp_fold {W E A S : Type} (f : S -> A -> Prog W E S) g s l :
  (forall s x, st_eq (interp (f s x)) (g s x)) -> st_eq (interp (p_fold f s l)) (io_fold g s l).
Proof.
  intros Hf. revert s. induction l as [|x l IH]; intros s; [done|]. cbn [p_fold io_fold].
  etransitivity; [apply interp_bind|]. apply io_bind_proper; [apply Hf|]. intros s'. apply IH.
Qed.


(** [Runs p m]: alone, the program [p] is the computation [m].  Found by
    instance search along the structure of the code. *)
Class Runs {W E A : Type} (p : Prog W E A) (m : ST W E A) : Prop := runs : st_eq (interp p) m.

#[export] Hint Mode Runs - - - ! - : typeclass_instances.

Section Runs.
Context {W E A : Type}.

#[export] Instance runs_act (m : ST W E A) : Runs (act m) m.
Proof. apply interp_act. Qed.

#[export] Instance runs_ret (a : A) : Runs (W := W) (E := E) (p_ret a) (io_ret a).
Proof. by intros w. Qed.

#[export] Instance runs_err (e : E) : Runs (W := W) (A := A) (Done (Err e)) (io_err e).
Proof. by intros w. Qed.

#[export] Instance runs_lift (r : Result A E) : Runs (W := W) (Done r) (io_lift r) | 10.
Proof. by intros w. Qed.

#[export] Instance runs_bind {B : Type} (p : Prog W E A) (k : A -> Prog W E B) m j :
  Runs p m -> (forall a, Runs (k a) (j a)) -> Runs (p_bind p k) (io_bind m j).
Proof.
  intros Hp Hk. unfold Runs. etransitivity; [apply interp_bind|].
  apply io_bind_proper; [done|]. intros a. apply Hk.
Qed.

#[export] Instance runs_map_err {F : Type} (f : E -> F) (p : Prog W E A) m :
  Runs p m -> Runs (p_map_err f p) (io_map_err f m).
Proof. intros Hp. unfold Runs. etransitivity; [apply interp_map_err|]. by apply io_map_err_proper. Qed.

#[export] Instance runs_try {F : Type} (p : Prog W E A) m :
  Runs p m -> Runs (p_try (F := F) p) (io_try m).
Proof. intros Hp. unfold Runs. etransitivity; [apply interp_try|]. by apply io_try_proper. Qed.

#[export] Instance runs_if (b : bool) (p q : Prog W E A) m n :
  Runs p m -> Runs q n -> Runs (if b then p else q) (if b then m else n).
Proof. by destruct b. Qed.

#[export] Instance runs_decide (P : Prop) (d : Decision P) (p q : Prog W E A) m n :
  Runs p m -> Runs q n -> Runs (if decide P then p else q) (if decide P then m else n).
Proof. by destruct (decide P). Qed.

#[export] Instance runs_option {X : Type} (o : option X) (p : X -> Prog W E A) q m n :
  (forall x, Runs (p x) (m x)) -> Runs q n ->
  Runs (match o with Some x => p x | None => q end) (match o with Some x => m x | None => n end).
Proof. by destruct o. Qed.

#[export] Instance runs_result {X F : Type} (r : Result X F) (p : X -> Prog W E A) q m n :
  (forall x, Runs (p x) (m x)) -> (forall e, Runs (q e) (n e)) ->
  Runs (match r with Ok x => p x | Err e => q e end) (match r with Ok x => m x | Err e => n e end).
Proof. by destruct r. Qed.

#[export] Instance runs_pair {X Y : Type} (xy : X * Y) (p : X -> Y -> Prog W E A) m :
  (forall x y, Runs (p x y) (m x y)) ->
  Runs (let (x, y) := xy in p x y) (let (x, y) := xy in m x y).
Proof. by destruct xy. Qed.
End Runs.

#[export] Instance runs_fold {W E A S : Type} (f : S -> A -> Prog W E S) g s l :
  (forall s x, Runs (f s x) (g s x)) -> Runs (p_fold f s l) (io_fold g s l).
Proof. intros Hf. apply interp_fold. intros. apply Hf. Qed.

(** *** Relations that hold of every action

    [Acts T p]: each action of [p] relates its states by [T], whatever they are. *)

Fixpoint all_acts {W E A : Type} (T : relation W) (p : Prog W E A) : Prop :=
  match p with
  | Done _ => True
  | Act m k => (forall w, T w (m w).2) /\ forall r, all_acts T (k r)
  end.

Class Acts {W E A : Type} (T : relation W) (p : Prog W E A) : Prop := acts : all_acts T p.

(** One action. *)
Class Step {W E A : Type} (T : relation W) (m : ST W E A) : Prop := step_rel : forall w, T w (m w).2.

Section Acts.
Context {W E A : Type} {T : relation W}.

#[export] Instance acts_done (r : Result A E) : Acts T (Done r).
Proof. exact I. Qed.

#[export] Instance acts_ret (a : A) : Acts T (p_ret (E := E) a).
Proof. exact I. Qed.

#[export] Instance acts_act (m : ST W E A) : Step T m -> Acts T (act m).
Proof. by intros Hm. Qed.

#[export] Instance acts_bind {B : Type} (p : Prog W E A) (k : A -> Prog W E B) :
  Acts T p -> (forall a, Acts T (k a)) -> Acts T (p_bind p k).
Proof.
  intros Hp Hk. unfold Acts in *. induction p as [[a|e]|F X m k' IH]; simpl; [apply Hk|done|].
  destruct Hp as [Hm Hk']. split; [done|]. intros r. apply IH, Hk'.
Qed.

#[export] Instance acts_map_err {F : Type} (f : E -> F) (p : Prog W E A) : Acts T p -> Acts T (p_map_err f p).
Proof.
  unfold Acts. induction p as [r|G X m k' IH]; simpl; [done|]. intros [Hm Hk]. split; [done|]. auto.
Qed.

#[export] Instance acts_try {F : Type} (p : Prog W E A) : Acts T p -> Acts T (p_try (F := F) p).
Proof.
  unfold Acts. induction p as [r|G X m k' IH]; simpl; [done|]. intros [Hm Hk]. split; [done|]. auto.
Qed.

#[export] Instance acts_if (b : bool) (p q : Prog W E A) : Acts T p -> Acts T q -> Acts T (if b then p else q).
Proof. by destruct b. Qed.

#[export] Instance acts_decide (P : Prop) (d : Decision P) (p q : Prog W E A) :
  Acts T p -> Acts T q -> Acts T (if decide P then p else q).
Proof. by destruct (decide P). Qed.

#[export] Instance acts_option {X : Type} (o : option X) (p : X -> Prog W E A) q :
  (forall x, Acts T (p x)) -> Acts T q -> Acts T (match o with Some x => p x | None => q end).
Proof. by destruct o. Qed.

#[export] Instance acts_result {X F : Type} (r : Result X F) (p : X -> Prog W E A) q :
  (forall x, Acts T (p x)) -> (forall e, Acts T (q e)) ->
  Acts T (match r with Ok x => p x | Err e => q e end).
Proof. by destruct r. Qed.

#[export] Instance acts_pair {X Y : Type} (xy : X * Y) (p : X -> Y -> Prog W E A) :
  (forall x y, Acts T (p x y)) -> Acts T (let (x, y) := xy in p x y).
Proof. by destruct xy. Qed.
End Acts.

#[export] Instance acts_fold {W E A S : Type} {T : relation W} (f : S -> A -> Prog W E S) s l :
  (forall s x, Acts T (f s x)) -> Acts T (p_fold f s l).
Proof. intros Hf. revert s. induction l as [|x l IH]; intros s; [exact I|]. cbn [p_fold]. apply _. Qed.

(** ** Pools *)

Section Pool.
Context {W E A : Type}.

Definition Pool : Type := list (Prog W E A) * W.

(** Who acts next: a task, or something else in the process. *)
Inductive Choice :=
| Turn (i : nat)
| Env (f : W -> W).

Definition pool_step (pw : Pool) (c : Choice) : Pool :=
  match c with
  | Env f => (pw.1, f pw.2)
  | Turn i =>
      match pw.1 !! i with
      | Some (Act m k) => let (r, w') := m pw.2 in (<[i := k r]> pw.1, w')
      | _ => pw
      end
  end.

Definition run_pool (cs : list Choice) (pw : Pool) : Pool := foldl pool_step pw cs.

(** The result of a task that has ended. *)
Definition result_of (ts : list (Prog W E A)) (i : nat) : option (Result A E) :=
  match ts !! i with Some (Done r) => Some r | _ => None end.

Lemma run_pool_snoc cs c pw : run_pool (cs ++ [c]) pw = pool_step (run_pool cs pw) c.
Proof. unfold run_pool. by rewrite foldl_app. Qed.

Lemma pool_step_length pw c : length (pool_step pw c).1 = length pw.1.
Proof.
  destruct c as [i|f]; [|done]. simpl. destruct (pw.1 !! i) as [[r|F X m k]|]; [done| |done].
  destruct (m pw.2). simpl. apply length_insert.
Qed.

Lemma run_pool_length cs pw : length (run_pool cs pw).1 = length pw.1.
Proof.
  induction cs as [|c cs IH] using rev_ind; [done|]. by rewrite run_pool_snoc, pool_step_length.
Qed.

(** A choice of another task leaves a task as it is. *)
Lemma pool_step_other pw c i : c <> Turn i -> (pool_step pw c).1 !! i = pw.1 !! i.
Proof.
  intros Hc. destruct c as [j|f]; [|done]. simpl. destruct (pw.1 !! j) as [[r|F X m k]|]; [done| |done].
  destruct (m pw.2). simpl. apply list_lookup_insert_ne. congruence.
Qed.

(** An ended task stays ended. *)
Lemma result_of_stable pw c i r :
  result_of pw.1 i = Some r -> result_of (pool_step pw c).1 i = Some r.
Proof.
  unfold result_of. intros H. destruct (pw.1 !! i) as [[r'|F X m k]|] eqn:Ei; [|done|done].
  destruct c as [j|f]; [|simpl; by rewrite Ei].
  destruct (decide (j = i)) as [->|Hji].
  - simpl. rewrite Ei. by rewrite Ei.
  - rewrite pool_step_other by congruence. by rewrite Ei.
Qed.

(** What every action does, the whole run does. *)
Definition env_acts (T : relation W) (c : Choice) : Prop :=
  match c with Turn _ => True | Env f => forall w, T w (f w) end.

Lemma run_pool_acts (T : relation W) `{!PreOrder T} cs pw :
  Forall (Acts T) pw.1 -> Forall (env_acts T) cs ->
  T pw.2 (run_pool cs pw).2 /\ Forall (Acts T) (run_pool cs pw).1.
Proof.
  revert pw. induction cs as [|c cs IH]; intros pw Hts Hcs; [by split; [reflexivity|]|].
  apply Forall_cons in Hcs as [Hc Hcs].
  enough (T pw.2 (pool_step pw c).2 /\ Forall (Acts T) (pool_step pw c).1) as [H1 H2].
  { destruct (IH _ H2 Hcs) as [H3 H4]. split; [by etransitivity|done]. }
  destruct c as [i|f]; [|split; [apply Hc|done]]. simpl.
  destruct (pw.1 !! i) as [[r|F X m k]|] eqn:Ei; [by split|  |by split].
  destruct (proj1 (Forall_lookup _ _) Hts i _ Ei) as [Hm Hk]. specialize (Hm pw.2).
  destruct (m pw.2) as [r w']. split; [done|]. apply Forall_insert; [done|]. apply Hk.
Qed.

(** So every state of a run is related to its end. *)
Lemma run_pool_acts_prefix (T : relation W) `{!PreOrder T} cs1 cs2 pw :
  Forall (Acts T) pw.1 -> Forall (env_acts T) (cs1 ++ cs2) ->
  T (run_pool cs1 pw).2 (run_pool (cs1 ++ cs2) pw).2.
Proof.
  intros Hts [H1 H2]%Forall_app. unfold run_pool at 2. rewrite foldl_app.
  apply (run_pool_acts T cs2 (run_pool cs1 pw)); [|done]. by apply run_pool_acts.
Qed.

(** ** Fair schedules *)

Definition schedule : Type := nat -> Choice.

Definition prefix_run (sigma : schedule) (n : nat) (pw : Pool) : Pool :=
  run_pool (sigma <$> seq 0 n) pw.

(** Every task is chosen again and again. *)
Definition fair (sigma : schedule) (tasks : nat) : Prop :=
  forall i n, (i < tasks)%nat -> exists n', (n <= n')%nat /\ sigma n' = Turn i.

Lemma prefix_run_S sigma n pw : prefix_run sigma (S n) pw = pool_step (prefix_run sigma n pw) (sigma n).
Proof.
  unfold prefix_run. rewrite seq_S, fmap_app. apply run_pool_snoc.
Qed.

Lemma prefix_run_stable sigma n n' pw i r :
  (n <= n')%nat -> result_of (prefix_run sigma n pw).1 i = Some r ->
  result_of (prefix_run sigma n' pw).1 i = Some r.
Proof.
  intros Hn Hr. induction Hn as [|n' _ IH]; [done|]. rewrite prefix_run_S. by apply result_of_stable.
Qed.

(** The next turn of a task finds it as it was. *)
Lemma next_turn sigma n n' pw i p :
  (n <= n')%nat -> sigma n' = Turn i -> (prefix_run sigma n pw).1 !! i = Some p ->
  exists n1, (n <= n1)%nat /\ sigma n1 = Turn i /\ (prefix_run sigma n1 pw).1 !! i = Some p.
Proof.
  intros Hn Hs. remember (n' - n)%nat as d eqn:Hd. revert n Hn Hd.
  induction d as [|d IH]; intros n Hn Hd Hp.
  - exists n. assert (n = n') as -> by lia. done.
  - assert (sigma n = Turn i \/ sigma n <> Turn i) as [Hturn|Hother].
    { destruct (sigma n) as [j|f]; [|by right]. destruct (decide (j = i)) as [->|]; [by left|right; congruence]. }
    + by exists n.
    + destruct (IH (S n)) as (n1 & Hn1 & H); [lia|lia| |exists n1; split; [lia|done]].
      by rewrite prefix_run_S, pool_step_other.
Qed.

Lemma fair_ends_task sigma pw i p n :
  fair sigma (length pw.1) -> (prefix_run sigma n pw).1 !! i = Some p ->
  exists n' r, result_of (prefix_run sigma n' pw).1 i = Some r.
Proof.
  intros Hfair. revert n. induction p as [r|F X m k IH]; intros n Hp.
  - exists n, r. unfold result_of. by rewrite Hp.
  - assert (i < length pw.1)%nat as Hi.
    { apply lookup_lt_Some in Hp. unfold prefix_run in Hp. by rewrite run_pool_length in Hp. }
    destruct (Hfair i n Hi) as (n' & Hn & Hs).
    destruct (next_turn sigma n n' pw i _ Hn Hs Hp) as (n1 & _ & Hs1 & Hp1).
    destruct (m (prefix_run sigma n1 pw).2) as [r w'] eqn:Em.
    apply (IH r (S n1)). rewrite prefix_run_S, Hs1. simpl. rewrite Hp1, Em. simpl.
    apply list_lookup_insert_eq. by eapply lookup_lt_Some.
Qed.

(** Under a fair schedule every task ends: from some moment on each has its
    result. *)
Lemma fair_ends_all sigma pw :
  fair sigma (length pw.1) ->
  exists n, forall i, (i < length pw.1)%nat -> exists r, result_of (prefix_run sigma n pw).1 i = Some r.
Proof.
  intros Hfair.
  enough (forall l, (l <= length pw.1)%nat -> exists n, forall i, (i < l)%nat ->
    exists r, result_of (prefix_run sigma n pw).1 i = Some r) as H by (by apply H).
  induction l as [|l IH]; intros Hl; [by exists 0%nat; lia|].
  destruct IH as [n Hn]; [lia|]. destruct (lookup_lt_is_Some_2 pw.1 l) as [p Hp]; [lia|].
  destruct (fair_ends_task sigma pw l p 0 Hfair Hp) as (n' & r & Hr).
  exists (n `max` n')%nat. intros i Hi. destruct (decide (i = l)) as [->|].
  - exists r. eapply prefix_run_stable; [|done]. lia.
  - destruct (Hn i) as [r' Hr']; [lia|]. exists r'. eapply prefix_run_stable; [|done]. lia.
Qed.
End Pool.

Arguments Choice W : clear implicits.
Arguments Pool W E A : clear implicits.

(** ** Rely and guarantee

    A task owns something, say files.  [rely o] is what it needs of the steps of
    others while it owns [o]; [guar o o'] is what a step of its own does, by
    which it may come to own [o'].  The laws say that a step of one task is among
    those a task with a disjoint owner relies on, as long as the run stays in the
    states considered, [within]. *)

Class RelyGuarantee (W O : Type) := {
  rely : O -> W -> W -> Prop;
  guar : O -> O -> W -> W -> Prop;
  owner_ok : O -> W -> Prop;
  apart : O -> O -> Prop;
  within : W -> Prop
}.

Class RelyGuaranteeLaws (W O : Type) `{RG : RelyGuarantee W O} := {
  rely_preorder o :: PreOrder (rely o);
  apart_sym o1 o2 : apart o1 o2 -> apart o2 o1;
  rely_owner o w w' : rely o w w' -> owner_ok o w -> owner_ok o w';
  guar_owner o o' w w' : guar o o' w w' -> owner_ok o w -> owner_ok o' w';
  guar_rely o o' o2 w w' : within w' -> guar o o' w w' -> owner_ok o2 w -> apart o o2 ->
    rely o2 w w' /\ apart o' o2
}.

Section Safe.
Context {W O : Type} `{RG : RelyGuarantee W O} {RGL : RelyGuaranteeLaws W O}.

(** [safe Q p o w]: from [w], owning [o], every action of [p] is within the
    guarantee and the result is in [Q], whatever the others do. *)
Fixpoint safe {E A : Type} (Q : Result A E -> O -> W -> Prop) (p : Prog W E A) (o : O) (w : W) : Prop :=
  match p with
  | Done r => Q r o w
  | Act m k => forall w1, rely o w w1 ->
      wp m (fun r w2 => exists o', guar o o' w1 w2 /\ safe Q (k r) o' w2) w1
  end.

Section Rules.
Context {E A : Type}.
Implicit Types (Q : Result A E -> O -> W -> Prop).

Lemma safe_mono Q Q' (p : Prog W E A) o w :
  (forall r o' w', Q r o' w' -> Q' r o' w') -> safe Q p o w -> safe Q' p o w.
Proof.
  intros HQ. revert o w. induction p as [r|F X m k IH]; intros o w; simpl; [apply HQ|].
  intros H w1 Hw1. eapply wp_mono; [by apply H|]. intros r w2 (o' & Hg & Hs). exists o'. auto.
Qed.

Lemma safe_done Q r o w : Q r o w -> safe Q (Done r) o w.
Proof. done. Qed.

Lemma safe_act Q (m : ST W E A) o w :
  (forall w1, rely o w w1 -> wp m (fun r w2 => exists o', guar o o' w1 w2 /\ Q r o' w2) w1) ->
  safe Q (act m) o w.
Proof. done. Qed.

Lemma safe_bind {B : Type} (Q : Result B E -> O -> W -> Prop) (p : Prog W E A) (k : A -> Prog W E B) o w :
  safe (fun r o' w' => match r with Ok a => safe Q (k a) o' w' | Err e => Q (Err e) o' w' end) p o w ->
  safe Q (p_bind p k) o w.
Proof.
  revert o w. induction p as [[a|e]|F X m k' IH]; intros o w; simpl; [done|done|].
  intros H w1 Hw1. eapply wp_mono; [by apply H|]. intros r w2 (o' & Hg & Hs). exists o'. auto.
Qed.

Lemma safe_map_err {F : Type} (Q : Result A F -> O -> W -> Prop) (f : E -> F) (p : Prog W E A) o w :
  safe (fun r => Q (map_err f r)) p o w -> safe Q (p_map_err f p) o w.
Proof.
  revert o w. induction p as [r|G X m k' IH]; intros o w; simpl; [done|].
  intros H w1 Hw1. eapply wp_mono; [by apply H|]. intros r w2 (o' & Hg & Hs). exists o'. auto.
Qed.

Lemma safe_try {F : Type} (Q : Result (Result A E) F -> O -> W -> Prop) (p : Prog W E A) o w :
  safe (fun r => Q (Ok r)) p o w -> safe Q (p_try p) o w.
Proof.
  revert o w. induction p as [r|G X m k' IH]; intros o w; simpl; [done|].
  intros H w1 Hw1. eapply wp_mono; [by apply H|]. intros r w2 (o' & Hg & Hs). exists o'. auto.
Qed.
End Rules.

(** A loop with an invariant of the accumulator, the rest, the owner and the
    state. *)
Lemma safe_fold {E A S : Type} (f : S -> A -> Prog W E S) (I : S -> list A -> O -> W -> Prop)
    (Q : Result S E -> O -> W -> Prop) s l o w :
  (forall s x xs o w, I s (x :: xs) o w ->
     safe (fun r o' w' => match r with Ok s' => I s' xs o' w' | Err e => Q (Err e) o' w' end) (f s x) o w) ->
  (forall s o w, I s [] o w -> Q (Ok s) o w) ->
  I s l o w -> safe Q (p_fold f s l) o w.
Proof.
  intros Hstep Hend. revert s o w. induction l as [|x l IH]; intros s o w HI; [by apply Hend|].
  cbn [p_fold]. apply safe_bind. eapply safe_mono; [|by apply Hstep]. intros [s'|e] o' w'; auto.
Qed.


(** One turn. *)
Lemma safe_turn {E A F X : Type} (Q : Result A E -> O -> W -> Prop) (m : ST W F X) k o w0 w r w' :
  safe Q (Act m k) o w0 -> rely o w0 w -> m w = (r, w') ->
  exists o', guar o o' w w' /\ safe Q (k r) o' w'.
Proof. intros Hs Hr Hm. exact (wp_run _ _ _ _ _ (Hs w Hr) Hm). Qed.

(** ** Soundness of the pool *)

Section Soundness.
Context {E A : Type} (post : nat -> Result A E -> O -> W -> Prop).

(** What is known of a running pool: each task is safe from some earlier state,
    and since then only what it relies on has happened. *)
Definition pool_inv (pw : Pool W E A) : Prop :=
  exists os : list O, length os = length pw.1 /\
    (forall i p o, pw.1 !! i = Some p -> os !! i = Some o ->
       owner_ok o pw.2 /\ exists w0, safe (post i) p o w0 /\ rely o w0 pw.2) /\
    (forall i j oi oj, i <> j -> os !! i = Some oi -> os !! j = Some oj -> apart oi oj).

(** What the rest of the process may do. *)
Definition env_fine (c : Choice W) : Prop :=
  match c with Turn _ => True | Env f => forall o w, owner_ok o w -> rely o w (f w) end.

Lemma pool_step_inv pw c :
  env_fine c -> within (pool_step pw c).2 -> pool_inv pw -> pool_inv (pool_step pw c).
Proof using RGL.
  intros Hc Hin (os & Hlen & Hts & Hap). destruct c as [i|f].
  - simpl in Hin |- *. destruct (pw.1 !! i) as [[r|F X m k]|] eqn:Ei; [by exists os| |by exists os].
    destruct (lookup_lt_is_Some_2 os i) as [o Ho]; [rewrite Hlen; by eapply lookup_lt_Some|].
    destruct (Hts i _ o Ei Ho) as (Hok & w0 & Hsafe & Hrely).
    destruct (m pw.2) as [r w'] eqn:Em.
    destruct (safe_turn _ _ _ _ _ _ _ _ Hsafe Hrely Em) as (o' & Hg & Hsafe'). exists (<[i := o']> os). cbn [fst snd]. split_and!.
    + by rewrite !length_insert.
    + intros j p oj Hp Hoj. destruct (decide (i = j)) as [<-|Hij].
      * rewrite list_lookup_insert_eq in Hp by (by eapply lookup_lt_Some).
        rewrite list_lookup_insert_eq in Hoj by (by eapply lookup_lt_Some).
        injection Hp as <-. injection Hoj as <-. split; [by eapply guar_owner|].
        exists w'. split; [done|]. reflexivity.
      * rewrite list_lookup_insert_ne in Hp by done. rewrite list_lookup_insert_ne in Hoj by done.
        destruct (Hts j p oj Hp Hoj) as (Hokj & wj & Hsj & Hrj).
        destruct (guar_rely o o' oj pw.2 w' Hin Hg Hokj) as [Hr _]; [by eapply (Hap i j)|].
        split; [by eapply rely_owner|]. exists wj. split; [done|]. by etransitivity.
    + assert (forall j oj, j <> i -> os !! j = Some oj -> apart o' oj) as Hnew.
      { intros j oj Hji Hoj. destruct (lookup_lt_is_Some_2 pw.1 j) as [p Hp];
          [rewrite <- Hlen; by eapply lookup_lt_Some|].
        destruct (Hts j p oj Hp Hoj) as (Hokj & _).
        eapply (guar_rely o o' oj pw.2 w' Hin Hg Hokj). by eapply (Hap i j). }
      intros j1 j2 o1 o2 Hj H1 H2.
      destruct (decide (i = j1)) as [<-|H1i]; [|destruct (decide (i = j2)) as [<-|H2i]].
      * rewrite list_lookup_insert_eq in H1 by (by eapply lookup_lt_Some). injection H1 as <-.
        rewrite list_lookup_insert_ne in H2 by done. eapply (Hnew j2); [congruence|done].
      * rewrite list_lookup_insert_eq in H2 by (by eapply lookup_lt_Some). injection H2 as <-.
        rewrite list_lookup_insert_ne in H1 by done. eapply apart_sym, (Hnew j1); [congruence|done].
      * rewrite list_lookup_insert_ne in H1 by done. rewrite list_lookup_insert_ne in H2 by done. by apply (Hap j1 j2).
  - exists os. simpl. split_and!; [done| |done]. intros i p o Hp Ho.
    destruct (Hts i p o Hp Ho) as (Hok & w0 & Hsafe & Hrely). specialize (Hc o pw.2 Hok).
    split; [by eapply rely_owner|]. exists w0. split; [done|]. by etransitivity.
Qed.

(** Every state of a run is among those considered. *)
Definition stays_within (cs : list (Choice W)) (pw : Pool W E A) : Prop :=
  forall cs1 cs2, cs = cs1 ++ cs2 -> within (run_pool cs1 pw).2.

Lemma run_pool_inv cs pw :
  Forall env_fine cs -> stays_within cs pw -> pool_inv pw -> pool_inv (run_pool cs pw).
Proof using RGL.
  revert pw. induction cs as [|c cs IH]; intros pw Hcs Hin Hpw; [done|].
  apply Forall_cons in Hcs as [Hc Hcs]. apply IH; [done| |].
  - intros cs1 cs2 ->. by apply (Hin (c :: cs1) cs2).
  - apply pool_step_inv; [done| |done]. by apply (Hin [c] cs).
Qed.

(** A task that has ended is in its postcondition, if the others keep it. *)
Lemma pool_inv_result pw i r :
  (forall r o w w', post i r o w -> rely o w w' -> post i r o w') ->
  pool_inv pw -> result_of pw.1 i = Some r -> exists o, owner_ok o pw.2 /\ post i r o pw.2.
Proof.
  intros Hstable (os & Hlen & Hts & _) Hr. unfold result_of in Hr.
  destruct (pw.1 !! i) as [[r'|F X m k]|] eqn:Ei; [|done|done]. injection Hr as ->.
  destruct (lookup_lt_is_Some_2 os i) as [o Ho]; [rewrite Hlen; by eapply lookup_lt_Some|].
  destruct (Hts i _ o Ei Ho) as (Hok & w0 & Hsafe & Hrely). exists o. split; [done|]. by eapply Hstable.
Qed.

(** A relation that contains all guarantees and the steps of the environment
    holds between the start and any later state. *)
Lemma run_pool_rel (T : relation W) `{!PreOrder T} cs pw :
  (forall o o' w w', owner_ok o w -> guar o o' w w' -> T w w') ->
  Forall (env_acts T) cs -> Forall env_fine cs -> stays_within cs pw -> pool_inv pw -> T pw.2 (run_pool cs pw).2.
Proof using RGL.
  intros HG. induction cs as [|c cs IH] using rev_ind; intros Henv Hcs Hin Hpw; [reflexivity|].
  apply Forall_app in Henv as [Henv Hc']. apply Forall_app in Hcs as [Hcs Hc].
  apply Forall_cons in Hc' as [Hc' _]. assert (stays_within cs pw) as Hin'.
  { intros cs1 cs2 ->. apply (Hin cs1 (cs2 ++ [c])). by rewrite app_assoc. }
  rewrite run_pool_snoc. transitivity (run_pool cs pw).2; [by apply IH|].
  apply (run_pool_inv cs) in Hpw; [|done|done]. destruct (run_pool cs pw) as [ts w].
  destruct c as [i|f]; [|apply Hc']. simpl in *.
  destruct (ts !! i) as [[r|F X m k]|] eqn:Ei; [reflexivity| |reflexivity].
  destruct Hpw as (os & Hlen & Hts & _).
  destruct (lookup_lt_is_Some_2 os i) as [o Ho]; [rewrite Hlen; by eapply lookup_lt_Some|].
  destruct (Hts i _ o Ei Ho) as (Hok & w0 & Hsafe & Hrely).
  destruct (m w) as [r w'] eqn:Em.
  destruct (safe_turn _ _ _ _ _ _ _ _ Hsafe Hrely Em) as (o' & Hg & _). by eapply HG.
Qed.
End Soundness.
End Safe.
