(* ===== verification/CrashTasks.v ===== *)
(** * detritus-server/src/crashes.rs: the crash handler as a task

    The functions of [Crashes] as programs that other tasks may interrupt at every
    system call, at the limiter's lock and at every metric.  The index is written
    through its own handle: [write_first] puts the bytes at offset 0, over what
    another task may have written since the file was truncated.  The temporary
    files have unpredictable names, so appending describes their handle.  Run
    alone the task is the sequential handler. *)

From Stdlib Require Import Ascii.
From S2P Require Import Prelude RustStd Fs External Instances Json Protocol Metrics Schemas Storage F64 RateLimit Auth State Crashes Concurrency.

(** Writing [b] over the start of the file at [p]. *)
Definition overwrite (p : Path) (b : bytes) (now : Z) (fs : gmap Path Node) : gmap Path Node :=
  match fs !! p with
  | Some (File c _) => <[p := File (b ++ drop (length b) c) now]> fs
  | _ => fs
  end.

(** The first [write_all] of a handle opened for writing. *)
Definition write_first (p : Path) (b : bytes) : IO io_error unit :=
  fun w => syscall (fun n fs => overwrite p (take n b) (w_now w) fs)
    (fun w => (Ok tt, overwrite p b (w_now w) (w_fs w))) w.

(** [tokio::fs::write] *)
Definition fs_write_task (p : Path) (b : bytes) : Prog World io_error unit :=
  act (file_create p);;+ act (write_first p b).

Section Tasks.
Context {U : UuidApi} {C : ChronoApi} {S : Sha256Api} {J : JsonText} {M : MulterApi}
  {HT : HttpApi} {V : JsonSchemaApi}.

Definition copy_chunk_task (temp_path : Path) (max_bytes : Z) (acc : Z * bytes)
    (chunk : Result bytes string) : Prog World CrashError (Z * bytes) :=
  let+ c := Done (map_err CMultipart chunk) in
  let len := wrap_u64 (acc.1 + len_u64 c) in
  if (max_bytes <? len)%Z then
    p_try (act (remove_file temp_path));;+ Done (Err (PayloadTooLarge max_bytes))
  else
    p_map_err CIo (act (write_all temp_path c));;+
    p_ret (len, acc.2 ++ c).

Definition finalize_blob_task (storage : StoragePaths) (temp_path : Path) (sha256 : string)
  : Prog World CrashError (string * bool) :=
  let+ dest := Done (ok_or (blob_path storage sha256) Panicked) in
  match parent dest with
  | Some p => p_map_err CIo (act (create_dir_all p))
  | None => p_ret tt
  end;;+
  let+ exists_ := p_map_err CIo (act (try_exists dest)) in
  let+ dedup :=
    if (exists_ : bool) then
      p_map_err CIo (act (remove_file temp_path));;+ p_ret true
    else
      let+ linked := p_try (act (hard_link temp_path dest)) in
      match linked with
      | Ok _ => p_map_err CIo (act (remove_file temp_path));;+ p_ret false
      | Err error =>
          if decide (kind error = AlreadyExists) then
            p_map_err CIo (act (remove_file temp_path));;+ p_ret true
          else p_try (act (remove_file temp_path));;+ Done (Err (CIo error))
      end in
  p_ret (path_display (relative_to_data_dir storage dest), dedup).

Definition write_part_task (storage : StoragePaths) (field : Field) (max_bytes : Z)
  : Prog World CrashError BlobPointer :=
  let content_encoding := f_content_encoding field ≫= header_to_str in
  p_map_err CIo (act (create_dir_all (tmp_dir storage)));;+
  let+ u := act uuid_new_v4 in
  let temp := temp_path storage u in
  p_map_err CIo (act (file_create temp));;+
  let+ acc := p_fold (copy_chunk_task temp max_bytes) (0%Z, []) (f_chunks field) in
  p_map_err CIo (act (sync_file temp));;+
  p_map_err CIo (act (sync_file temp));;+
  let sha256 := sha256_hex acc.2 in
  let+ (path, dedup) := finalize_blob_task storage temp sha256 in
  p_ret {| bp_sha256 := sha256; bp_len := acc.1; bp_path := path; bp_dedup := dedup;
           bp_content_encoding := content_encoding |}.

Definition write_index_task (storage : StoragePaths) (source : SourceKey) (metadata : CrashMetadata U C)
    (dump : BlobPointer) (attachments : list AttachmentPointer) : Prog World CrashError unit :=
  let path := index_path storage source (stamp (timestamp metadata)) (bp_sha256 dump) in
  match parent path with
  | Some p => p_map_err CIo (act (create_dir_all p))
  | None => p_ret tt
  end;;+
  let index := {| ci_metadata := metadata; ci_dump := dump; ci_attachments := attachments |} in
  p_map_err CIo (fs_write_task path (json_print_pretty (ser_CrashIndex index))).

Definition ingest_part_task (storage : StoragePaths) (max_bytes : Z)
    (acc : option BlobPointer * list AttachmentPointer) (next : Result Field string)
  : Prog World CrashError (option BlobPointer * list AttachmentPointer) :=
  let (dump, attachments) := acc in
  let+ field := Done (map_err CMultipart next) in
  let+ name := Done (ok_or (f_name field) (BadRequest "multipart part is missing a name")) in
  if String.eqb name "metadata" then
    Done (Err (BadRequest "metadata part must appear exactly once"))
  else if String.eqb name "dump" then
    match dump with
    | Some _ => Done (Err (BadRequest "dump part must appear exactly once"))
    | None =>
        let+ pointer := write_part_task storage field max_bytes in
        p_ret (Some pointer, attachments)
    end
  else if starts_with "attach:" name then
    let+ key := Done (ok_or (strip_prefix "attach:" name) (BadRequest "invalid attachment name")) in
    let content_type := default "application/octet-stream" (f_content_type field) in
    let+ pointer := write_part_task storage field max_bytes in
    p_ret (dump, attachments ++ [{| ap_key := key; ap_content_type := content_type;
      ap_sha256 := bp_sha256 pointer; ap_len := bp_len pointer; ap_path := bp_path pointer;
      ap_dedup := bp_dedup pointer; ap_content_encoding := bp_content_encoding pointer |}])
  else Done (Err (BadRequest ("unexpected part `" +:+ name +:+ "`"))).

(** A file-system program run by a handler. *)
Definition app_task {E A : Type} (p : Prog World E A) : Prog (AppState * World) E A :=
  p_zoom (fun F X => @app_io V F X) p.

(** [crashes_inner] once the checks have passed. *)
Definition store_task (st : AppState) (source : SourceKey) (metadata : CrashMetadata U C)
    (rest : list (Result Field string)) : Prog (AppState * World) CrashError (Z * CrashResponse) :=
  let+ (dump, attachments) :=
    app_task (p_fold (ingest_part_task (storage st) (max_dump_bytes st)) (None, []) rest) in
  let+ dump := Done (ok_or dump (MissingPart "dump")) in
  act (modify_metrics (fun m => observe_bytes m "crashes" (bp_len dump)));;+
  act (modify_metrics (fun m => if bp_dedup dump then observe_dedup_hit m else m));;+
  app_task (write_index_task (storage st) source metadata dump attachments);;+
  p_ret (201%Z, {| cr_id := bp_sha256 dump; cr_dedup := bp_dedup dump |}).

Definition crashes_inner_task (token : TokenContext) (rq : CrashRequest) (now : Z)
  : Prog (AppState * World) CrashError (Z * CrashResponse) :=
  let+ st := act get_state in
  let+ fields := Done (request_fields rq) in
  let+ (metadata, rest) := Done (first_part fields) in
  (if (schema_version metadata =? PROTOCOL_VERSION)%Z then p_ret tt
   else Done (Err (ProtocolVersion (schema_version metadata) PROTOCOL_VERSION)));;+
  let+ source := Done (map_err CStorage
    (SourceKey_new (src_project (md_source metadata))
                   (uuid_to_string (src_install_id (md_source metadata))))) in
  (if permits token source then p_ret tt else Done (Err PermissionDenied));;+
  act (app_limit (fun rl => check_crashes rl now (tc_id token) source) (fun _ => RateLimited));;+
  let metadata_value := metadata_to_value metadata in
  match validate (schema_registry st) (src_project (md_source metadata)) CrashMetadataKind
          metadata_value with
  | Err schema_err =>
      act (modify_metrics (fun m => observe_validation_failure m "crashes"));;+
      Done (Err (from_schema_error schema_err))
  | Ok _ => p_ret tt
  end;;+
  store_task st source metadata rest.

Definition crashes_handler_task (token : TokenContext) (rq : CrashRequest) (now elapsed : Z)
  : Prog (AppState * World) CrashError (Z * CrashResponse) :=
  let+ result := p_try (crashes_inner_task token rq now) in
  let status := match result with Ok (status, _) => status | Err e => status_code e end in
  act (modify_metrics (fun m => observe_request m "crashes" (Z_to_string status) elapsed));;+
  Done result.

(** ** The task alone is the handler *)

#[export] Instance runs_app {E A : Type} (p : Prog World E A) m : Runs p m -> Runs (app_task p) (app_io m).
Proof.
  unfold Runs. intros Hp [st w]. unfold app_io. cbn [fst snd]. rewrite <- (Hp w). clear Hp m.
  revert w. induction p as [r|F X m k IH]; intros w; [done|]. cbn. unfold app_io at 1. cbn [fst snd].
  destruct (m w) as [r w']. apply IH.
Qed.

(** After the truncation the handle's offset is the end of the file. *)
#[export] Instance fs_write_runs p b : Runs (fs_write_task p b) (fs_write p b).
Proof.
  unfold Runs, fs_write_task, fs_write. etransitivity; [apply interp_bind|]. intros w.
  unfold io_bind. rewrite (interp_act _ w). destruct (file_create p w) as [[[]|e] w'] eqn:Ec; [|done].
  rewrite (interp_act _ w'). enough (exists t, w_fs w' !! p = Some (File [] t)) as [t Ht].
  { unfold write_first, write_all, syscall.
    destruct (next_fault w') as [[f|] w2] eqn:En; apply next_fault_spec in En as (Hfs & _);
      unfold overwrite, append_to; rewrite Hfs, Ht; by rewrite drop_nil, app_nil_r. }
  refine (wp_run (file_create p) (fun r w' => r = Ok tt -> exists t, w_fs w' !! p = Some (File [] t))
    w (Ok tt) w' _ Ec eq_refl). apply wp_file_create; [|done].
  intros w2 _ Hfs _. exists (w_now w). rewrite Hfs. apply lookup_insert_eq.
Qed.

#[export] Instance copy_chunk_runs temp max acc c :
  Runs (copy_chunk_task temp max acc c) (copy_chunk temp max acc c).
Proof. unfold copy_chunk_task, copy_chunk. cbv zeta. apply _. Qed.

#[export] Instance finalize_blob_runs s temp h : Runs (finalize_blob_task s temp h) (finalize_blob s temp h).
Proof. unfold finalize_blob_task, finalize_blob. apply _. Qed.

#[export] Instance write_part_runs s f max : Runs (write_part_task s f max) (write_part_to_blob s f max).
Proof. unfold write_part_task, write_part_to_blob. cbv zeta. apply _. Qed.

#[export] Instance write_index_runs s k m d a : Runs (write_index_task s k m d a) (write_index s k m d a).
Proof. unfold write_index_task, write_index. cbv zeta. apply _. Qed.

#[export] Instance ingest_part_runs s max acc next :
  Runs (ingest_part_task s max acc next) (ingest_part s max acc next).
Proof. unfold ingest_part_task, ingest_part. cbv zeta. apply _. Qed.

#[export] Instance crashes_inner_runs token rq now :
  Runs (crashes_inner_task token rq now) (crashes_inner token rq now).
Proof. unfold crashes_inner_task, store_task, crashes_inner. cbv zeta. apply _. Qed.

(** The crash handler as an interruptible task and the crash handler as one
    computation are the same function when nothing interrupts it: same answer,
    same application state and same world, for every request, every state and
    every schedule of I/O failures. *)
Theorem crashes_task_sequential token rq now elapsed sw :
  interp (crashes_handler_task token rq now elapsed) sw = crashes_handler token rq now elapsed sw.
Proof.
  revert sw. change (Runs (crashes_handler_task token rq now elapsed) (crashes_handler token rq now elapsed)).
  unfold crashes_handler_task, crashes_handler. cbv zeta. apply _.
Qed.
End Tasks.
