(* ===== verification/JanitorTasks.v ===== *)
(** * detritus-server/src/janitor.rs: the janitor as a task

    The functions of [Janitor] as programs that other tasks may interrupt at every
    system call and at every reading of the clock.  A directory that grows while it
    is walked has no bound on the walk that is known beforehand, so the walk gets
    [extra] steps more than there were nodes when it began, and what is proved is
    proved for every [extra].  Run alone, with none, a cycle is the sequential
    cycle. *)

From Stdlib Require Import Ascii.
From S2P Require Import Prelude RustStd Fs External Instances Json Protocol Metrics Schemas Storage F64 RateLimit Auth State Crashes Janitor Concurrency CrashTasks.

(** The number of nodes, the bound of a walk nobody interferes with. *)
Definition count_nodes {E : Type} : IO E nat := fun w => (Ok (size (w_fs w)), w).

Definition is_older_than_task (path : Path) (ttl_days : Z) : Prog World JanitorError bool :=
  let+ md := p_map_err JIo (act (fs_metadata path)) in
  if (ttl_days =? 0)%Z then p_ret true
  else
    let+ now := act system_time_now in
    let cutoff := (now - wrap_u64 (ttl_days * 24 * 60 * 60) * NANOS)%Z in
    if (cutoff <? - 2 ^ 63 * NANOS)%Z then Done (Err JPanicked)
    else p_ret (md_modified md <=? cutoff)%Z.

Definition file_len_task (path : Path) : Prog World JanitorError Z :=
  let+ md := p_try (act (fs_metadata path)) in
  p_ret (match md with Ok md => md_len md | Err _ => 0%Z end).

Section JanitorTasks.
Context `{OS : Os} `{J : JsonText}.

Definition visit_entry_task (acc : list Path * list Path) (entry : Path)
  : Prog World JanitorError (list Path * list Path) :=
  let+ ty := p_map_err JIo (act (file_type entry)) in
  match ty with
  | IsDir => p_ret (entry :: acc.1, acc.2)
  | IsFile => p_ret (acc.1, acc.2 ++ [entry])
  end.

Fixpoint collect_loop_task (fuel : nat) (dirs files : list Path) : Prog World JanitorError (list Path) :=
  match dirs with
  | [] => p_ret files
  | dir :: rest =>
      match fuel with
      | O => Done (Err JFuel)
      | Datatypes.S fuel' =>
          let+ entries := p_map_err JIo (act (read_dir dir)) in
          let+ acc := p_fold visit_entry_task (rest, files) entries in
          collect_loop_task fuel' acc.1 acc.2
      end
  end.

Definition collect_files_task (extra : nat) (root : Path) : Prog World JanitorError (list Path) :=
  let+ exists_ := p_map_err JIo (act (try_exists root)) in
  if (exists_ : bool) then
    let+ nodes := act count_nodes in
    collect_loop_task (Datatypes.S nodes + extra) [root] []
  else p_ret [].

Definition snapshot_blobs_task (extra : nat) (root : Path) : Prog World JanitorError (list Path) :=
  let+ files := collect_files_task extra root in
  p_ret (filter (fun p => has_extension "bin" p) files).

Definition prune_log_task (ttl_days : Z) (stats : JanitorStats) (file : Path) : Prog World JanitorError JanitorStats :=
  if negb (has_extension "ndjson" file) then p_ret stats
  else
    let+ old := is_older_than_task file ttl_days in
    if (old : bool) then
      let+ len := file_len_task file in
      p_map_err JIo (act (remove_file file));;+
      p_ret {| logs_deleted := wrap_u64 (logs_deleted stats + 1);
               indexes_deleted := indexes_deleted stats; blobs_deleted := blobs_deleted stats;
               bytes_freed := wrap_u64 (bytes_freed stats + len) |}
    else p_ret stats.

Definition prune_logs_task (extra : nat) (s : StoragePaths) (ttl_days : Z) (stats : JanitorStats)
  : Prog World JanitorError JanitorStats :=
  let+ files := collect_files_task extra (join (data_dir s) "logs") in
  p_fold (prune_log_task ttl_days) stats files.

Definition prune_index_task (ttl_days : Z) (acc : JanitorStats * gset string) (file : Path)
  : Prog World JanitorError (JanitorStats * gset string) :=
  let (stats, referenced) := acc in
  if negb (has_extension "json" file) then p_ret acc
  else
    let+ old := is_older_than_task file ttl_days in
    if (old : bool) then
      let+ len := file_len_task file in
      p_map_err JIo (act (remove_file file));;+
      p_ret ({| logs_deleted := logs_deleted stats;
                indexes_deleted := wrap_u64 (indexes_deleted stats + 1);
                blobs_deleted := blobs_deleted stats;
                bytes_freed := wrap_u64 (bytes_freed stats + len) |}, referenced)
    else
      let+ b := p_map_err JIo (act (fs_read file)) in
      match index_ref_from_slice b with
      | Ok index => p_ret (stats, list_to_set (index_refs index) ∪ referenced)
      | Err _ => p_ret acc
      end.

Definition prune_indexes_task (extra : nat) (s : StoragePaths) (ttl_days : Z) (stats : JanitorStats)
  : Prog World JanitorError (JanitorStats * gset string) :=
  let+ files := collect_files_task extra (join (join (data_dir s) "crashes") "by-source") in
  p_fold (prune_index_task ttl_days) (stats, ∅) files.

Definition sweep_blob_task (referenced : gset string) (stats : JanitorStats) (blob : Path)
  : Prog World JanitorError JanitorStats :=
  match blob_hash blob with
  | None => p_ret stats
  | Some hash =>
      if decide (hash ∈ referenced) then p_ret stats
      else
        let+ len := file_len_task blob in
        let+ removed := p_try (act (remove_file blob)) in
        match removed with
        | Ok _ => p_ret {| logs_deleted := logs_deleted stats; indexes_deleted := indexes_deleted stats;
                           blobs_deleted := wrap_u64 (blobs_deleted stats + 1);
                           bytes_freed := wrap_u64 (bytes_freed stats + len) |}
        | Err error => if decide (kind error = NotFound) then p_ret stats else Done (Err (JIo error))
        end
  end.

Definition sweep_blobs_task (blob_snapshot : list Path) (referenced : gset string) (stats : JanitorStats)
  : Prog World JanitorError JanitorStats :=
  p_fold (sweep_blob_task referenced) stats blob_snapshot.

Definition run_janitor_cycle_task (extra : nat) (s : StoragePaths) (config : RetentionConfig)
  : Prog World JanitorError JanitorStats :=
  let+ blob_snapshot := snapshot_blobs_task extra (join (join (data_dir s) "crashes") "by-hash") in
  let+ stats := prune_logs_task extra s (logs_ttl_days config) JanitorStats_default in
  let+ (stats, referenced) := prune_indexes_task extra s (crashes_ttl_days config) stats in
  sweep_blobs_task blob_snapshot referenced stats.

(** The loop of [spawn_janitor] for as many ticks as there are in the list, which
    gives the time each took.  A panic ends the task. *)
Fixpoint janitor_task `{V : JsonSchemaApi} {E : Type} (extra : nat) (s : StoragePaths) (config : RetentionConfig)
    (ticks : list Z) : Prog (AppState * World) E unit :=
  match ticks with
  | [] => p_ret tt
  | elapsed :: ticks' =>
      let+ result := p_try (app_task (run_janitor_cycle_task extra s config)) in
      match result with
      | Ok stats =>
          act (modify_metrics (fun m => observe_janitor m "ok" elapsed (as_metrics stats)));;+
          janitor_task extra s config ticks'
      | Err JPanicked => p_ret tt
      | Err _ =>
          act (modify_metrics (fun m => observe_janitor m "error" elapsed JanitorMetricStats_default));;+
          janitor_task extra s config ticks'
      end
  end.

(** ** Alone the task is the sequential cycle *)

#[export] Instance is_older_than_runs path ttl : Runs (is_older_than_task path ttl) (is_older_than path ttl).
Proof. unfold is_older_than_task, is_older_than. cbv zeta. apply _. Qed.

#[export] Instance file_len_runs path : Runs (file_len_task path) (file_len path).
Proof. unfold file_len_task, file_len. apply _. Qed.

#[export] Instance visit_entry_runs acc entry : Runs (visit_entry_task acc entry) (visit_entry acc entry).
Proof. unfold visit_entry_task, visit_entry. apply runs_bind; [apply _|]. intros [|]; apply _. Qed.

#[export] Instance collect_loop_runs fuel dirs files : Runs (collect_loop_task fuel dirs files) (collect_loop fuel dirs files).
Proof.
  revert dirs files. induction fuel as [|fuel IH]; intros [|dir rest] files; cbn [collect_loop_task collect_loop]; apply _.
Qed.

#[export] Instance collect_files_runs root : Runs (collect_files_task 0 root) (collect_files root).
Proof.
  unfold collect_files_task, collect_files. apply runs_bind; [apply _|]. intros exists_. apply runs_if; [|apply _].
  intros w. rewrite (interp_bind _ _ w). unfold io_bind. rewrite (interp_act _ w). cbn [count_nodes].
  rewrite Nat.add_0_r. apply collect_loop_runs.
Qed.

#[export] Instance prune_log_runs ttl stats file : Runs (prune_log_task ttl stats file) (prune_log ttl stats file).
Proof. unfold prune_log_task, prune_log. apply _. Qed.

#[export] Instance prune_index_runs ttl acc file : Runs (prune_index_task ttl acc file) (prune_index ttl acc file).
Proof. unfold prune_index_task, prune_index. apply _. Qed.

#[export] Instance sweep_blob_runs referenced stats blob : Runs (sweep_blob_task referenced stats blob) (sweep_blob referenced stats blob).
Proof. unfold sweep_blob_task, sweep_blob. apply _. Qed.

Lemma run_janitor_cycle_runs s config : Runs (run_janitor_cycle_task 0 s config) (run_janitor_cycle s config).
Proof.
  unfold run_janitor_cycle_task, run_janitor_cycle, snapshot_blobs_task, snapshot_blobs, prune_logs_task, prune_logs,
    prune_indexes_task, prune_indexes_and_collect_references, sweep_blobs_task, sweep_blobs. apply _.
Qed.
End JanitorTasks.
