(* ===== verification/CrashRely.v ===== *)
(** * Concurrent crash requests: what each task relies on and guarantees

    A request owns the temporary files it has drawn a name for and, unless another
    request writes the same one, its index.  Blobs belong to nobody: they are only
    ever added, under the hash of their content, so that tasks that race to link
    the same content end with the same blob. *)

From Stdlib Require Import Ascii.
From S2P Require Import Prelude RustStd Fs External Instances Json Protocol Metrics Schemas Storage F64 RateLimit Auth State Crashes CrashStore CrashIngest CrashProgress Janitor Retention Refs System Concurrency CrashTasks.

(** ** Every system call *)

Lemma syscall_faults {A : Type} (part : nat -> gmap Path Node -> gmap Path Node) (op : World -> Result A io_error * gmap Path Node) w :
  faults_from w (syscall part op w).2.
Proof. intros Hf. rewrite syscall_no_fault by done. done. Qed.

#[export] Instance create_dir_all_faults p : Step faults_from (create_dir_all p).
Proof. intros w. apply syscall_faults. Qed.

#[export] Instance file_create_faults p : Step faults_from (file_create p).
Proof. intros w. apply syscall_faults. Qed.

#[export] Instance write_all_faults p b : Step faults_from (write_all p b).
Proof. intros w. apply syscall_faults. Qed.

#[export] Instance write_first_faults p b : Step faults_from (write_first p b).
Proof. intros w. apply syscall_faults. Qed.

#[export] Instance sync_file_faults p : Step faults_from (sync_file p).
Proof. intros w. apply syscall_faults. Qed.

#[export] Instance try_exists_faults p : Step faults_from (try_exists p).
Proof. intros w. apply syscall_faults. Qed.

#[export] Instance hard_link_faults p q : Step faults_from (hard_link p q).
Proof. intros w. apply syscall_faults. Qed.

#[export] Instance remove_file_faults p : Step faults_from (remove_file p).
Proof. intros w. apply syscall_faults. Qed.

(** A fact of every run joins a postcondition. *)
Lemma wp_step {W E A : Type} (T : relation W) (m : ST W E A) (Q : Result A E -> W -> Prop) w :
  Step T m -> wp m (fun r w' => T w w' -> Q r w') w -> wp m Q w.
Proof. intros HT H. apply H, HT. Qed.

(** So does what holds when a condition on the start is met. *)
Lemma wp_also {W E A : Type} (P : Prop) (m : ST W E A) (R Q : Result A E -> W -> Prop) w :
  (P -> wp m R w) -> wp m (fun r w' => (P -> R r w') -> Q r w') w -> wp m Q w.
Proof. intros HR H. by apply H. Qed.

Section Rely.
Context {U : UuidApi} {UL : UuidLaws U} {C : ChronoApi} {CL : ChronoLaws C}
  {S : Sha256Api} {SL : Sha256Laws S} {J : JsonText} {V : JsonSchemaApi}.

(** The store, the number of names that are drawn at most, and the indexes that
    more than one request writes. *)
Context (s : StoragePaths) (N : nat) (Sh : Path -> Prop).
Implicit Types (q : Path) (fs : gmap Path Node) (w : World) (o : Path -> Prop).

Definition is_index q : Prop :=
  exists k ts b, SourceKey_valid k /\ q = index_path s k (stamp ts) (sha256_hex b).

(** The files tasks own. *)
Definition leaf q : Prop := is_tmp s q \/ is_index q.

(** What any step of a crash request does for the others. *)
Record advances w w' : Prop := {
  adv_uuids : (w_uuids w <= w_uuids w')%nat;
  adv_evolves : evolves s (fun _ => True) (w_fs w) (w_fs w');
  adv_refs : (forall q, ~ Sh q) -> refs_ok s (w_fs w) -> refs_ok s (w_fs w');
  adv_good : good s w -> good s w' /\ forall q, w_fs w !! q = Some Dir -> w_fs w' !! q = Some Dir
}.

#[local] Instance advances_preorder : PreOrder advances.
Proof.
  split.
  - intros w. split; [done|reflexivity|done|done].
  - intros w1 w2 w3 [U1 E1 R1 G1] [U2 E2 R2 G2]. split; [lia|by etransitivity|by auto|].
    intros [Hg2 Hd2]%G1. destruct (G2 Hg2) as [Hg3 Hd3]. split; [done|auto].
Qed.

Definition w_rely o w w' : Prop := advances w w' /\ forall q, o q -> w_fs w' !! q = w_fs w !! q.

Definition w_guar o o' w w' : Prop :=
  advances w w' /\ (forall q, o q -> o' q) /\
  (forall q, o' q -> o q \/ exists n, (w_uuids w <= n < w_uuids w')%nat /\ q = temp_path s (new_v4 n)) /\
  (forall q, leaf q -> ~ o' q -> ~ Sh q -> w_fs w' !! q = w_fs w !! q).

#[local] Instance w_rely_preorder o : PreOrder (w_rely o).
Proof.
  split; [by split; [reflexivity|]|]. intros w1 w2 w3 [A1 K1] [A2 K2].
  split; [by etransitivity|]. intros q Hq. by rewrite K2, K1.
Qed.

Lemma w_rely_mono (o o' : Path -> Prop) w w' : (forall q, o q -> o' q) -> w_rely o' w w' -> w_rely o w w'.
Proof. intros Ho [HA HK]. split; [done|auto]. Qed.

#[local] Instance WorldRely : RelyGuarantee World (Path -> Prop) := {
  rely := w_rely;
  guar := w_guar;
  owner_ok o w := forall q, o q -> ~ Sh q /\
    (is_index q \/ exists n, (n < w_uuids w)%nat /\ q = temp_path s (new_v4 n));
  apart o1 o2 := forall q, o1 q -> o2 q -> False;
  within w := (w_uuids w <= N)%nat
}.

(** The same for handlers, which also leave the configuration alone. *)
#[local] Instance AppRely : RelyGuarantee (AppState * World) (Path -> Prop) := {
  rely o sw sw' := same_config sw.1 sw'.1 /\ rely o sw.2 sw'.2;
  guar o o' sw sw' := same_config sw.1 sw'.1 /\ guar o o' sw.2 sw'.2;
  owner_ok o sw := owner_ok o sw.2;
  apart := apart (W := World);
  within sw := within sw.2
}.

Lemma temp_path_inj u u' : temp_path s u = temp_path s u' -> u = u'.
Proof using UL.
  rewrite !temp_path_components. intros [= H]%app_inv_head. apply append_inv_tail in H.
  pose proof (uuid_parse_to_string u) as H1. rewrite H, uuid_parse_to_string in H1. by injection H1.
Qed.

Lemma index_not_tmp q u : is_index q -> q <> temp_path s u.
Proof using UL CL SL.
  intros (k & ts & b & Hk & ->). rewrite index_path_components, temp_path_components by done.
  intros H. by apply app_inv_head in H.
Qed.

Lemma index_not_blob q : is_index q -> ~ is_blob s q.
Proof using CL SL.
  intros (k & ts & b & Hk & ->) (p & h & H)%is_blob_components. rewrite index_path_components in H by done.
  by apply app_inv_head in H.
Qed.

(** Only indexes are shared, and the names drawn differ. *)
Context (shared_index : forall q, Sh q -> is_index q).
Context (draws_differ : forall n m, (n < m < N)%nat -> new_v4 n <> new_v4 m).

#[local] Instance AppRelyLaws : RelyGuaranteeLaws (AppState * World) (Path -> Prop).
Proof using UL CL SL shared_index draws_differ.
  split; cbn -[same_config w_rely w_guar].
  - intros o. split; [split; reflexivity|]. intros x y z [C1 R1] [C2 R2]. split; by etransitivity.
  - eauto.
  - intros o [st w] [st' w'] [_ [HA _]] Ho q Hq. simpl in *. destruct (Ho q Hq) as [HS [Hi|(n & Hn & ->)]];
      (split; [done|]); [by left|]. right. exists n. split; [|done]. pose proof (adv_uuids _ _ HA). lia.
  - intros o o' [st w] [st' w'] [_ (HA & Hsub & Hnew & _)] Ho q Hq. simpl in *.
    pose proof (adv_uuids _ _ HA). destruct (Hnew q Hq) as [Hold|(n & Hn & ->)].
    + destruct (Ho q Hold) as [HS [Hi|(n & Hn & ->)]]; (split; [done|]); [by left|]. right. exists n.
      split; [lia|done].
    + split; [|right; exists n; split; [lia|done]]. intros Hsh. by apply (index_not_tmp _ (new_v4 n) (shared_index _ Hsh)).
  - intros o o' o2 [st w] [st' w'] HN [Hcfg (HA & Hsub & Hnew & Hfiles)] Ho2 Hap. simpl in *.
    pose proof (adv_uuids _ _ HA).
    assert (forall q, o' q -> o2 q -> False) as Hap'.
    { intros q Hq Hq2. destruct (Hnew q Hq) as [Hold|(n & Hn & ->)]; [by eapply Hap|].
      destruct (Ho2 _ Hq2) as [_ [Hi|(m & Hm & Heq%temp_path_inj)]]; [by eapply index_not_tmp|].
      symmetry in Heq. revert Heq. apply draws_differ. lia. }
    split; [|done]. split; [done|]. split; [done|]. intros q Hq. destruct (Ho2 q Hq) as [HS Hq2].
    apply Hfiles; [|by intros Ho'; apply (Hap' q)|done].
    destruct Hq2 as [Hi|(n & _ & ->)]; [by right|left; by eexists].
Qed.

(** ** Steps that advance *)

Lemma tmp_leaf_dir u : exists x, temp_path s u = (data_dir s ++ ["tmp"]) ++ [x].
Proof using UL. destruct (temp_in_tmp s u) as (x & _ & Hx). eauto. Qed.

Lemma index_leaf_dir q : is_index q -> exists d x, leaf_dir s d /\ q = d ++ [x].
Proof using CL SL.
  intros (k & ts & b & Hk & ->). rewrite index_path_components by done.
  exists (data_dir s ++ ["crashes"; "by-source"; sk_project k; sk_source_id k]), (stamp ts +:+ "-" +:+ sha256_hex b +:+ ".json").
  split; [apply leaf_indexes|]. by rewrite <- app_assoc.
Qed.

Lemma leaf_in_dir q : leaf q -> exists d x, leaf_dir s d /\ q = d ++ [x].
Proof using UL CL SL.
  intros [[u ->]|Hi]; [|by apply index_leaf_dir]. destruct (tmp_leaf_dir u) as [x ->]. eexists _, x.
  split; [apply leaf_tmp|done].
Qed.

Lemma leaf_not_blob q : leaf q -> ~ is_blob s q.
Proof using UL CL SL.
  intros [[u ->]|Hi]; [|by apply index_not_blob]. intros Hb. by apply (blob_not_tmp s _ u Hb).
Qed.

(** References survive when the indexes that refer to more resolve. *)
Definition resolves fs (h : string) : Prop :=
  exists p c t, blob_path s h = Some p /\ fs !! p = Some (File c t) /\ sha256_hex c = h.

Lemma resolves_evolves X fs fs' h : evolves s X fs fs' -> resolves fs h -> resolves fs' h.
Proof.
  intros (_ & HB & _) (p & c & t & Hp & Hf & Hc). exists p, c, t. split; [done|]. split; [|done].
  apply HB; [|done]. exists c. by rewrite Hc.
Qed.

Lemma refs_ok_step X fs fs' :
  evolves s X fs fs' ->
  (forall q h, below (index_root s) q -> refers fs' q h -> refers fs q h \/ resolves fs' h) ->
  refs_ok s fs -> refs_ok s fs'.
Proof.
  intros Hev Hq Href q h Hb Hr. destruct (Hq q h Hb Hr) as [Hold|Hnew]; [|done].
  eapply resolves_evolves; [done|]. by apply (Href q h).
Qed.

(** Files that are no indexes do not matter. *)
Lemma refers_same fs fs' q h : fs' !! q = fs !! q -> refers fs' q h -> refers fs q h.
Proof. intros Heq (c & t & idx & Hf & H). exists c, t, idx. rewrite <- Heq. done. Qed.

Lemma advances_same w w' :
  w_fs w' = w_fs w -> (w_uuids w <= w_uuids w')%nat -> faults_from w w' -> advances w w'.
Proof.
  intros Hfs Hu Hf. split; rewrite ?Hfs; [done|reflexivity|done|].
  intros [Hf0 Hc]. split; [|done]. split; [by apply Hf|by rewrite Hfs].
Qed.

(** Creating a directory of the layout. *)
Lemma advances_dirs d w w' :
  leaf_dir s d -> only (fun _ => False) (w_fs w) (w_fs w') ->
  (forall q, ~ q `prefix_of` d -> w_fs w' !! q = w_fs w !! q) ->
  (w_uuids w <= w_uuids w')%nat -> faults_from w w' -> advances w w'.
Proof using UL CL SL.
  intros Hd Ho Hf Hu Hfl.
  assert (evolves s (fun _ => True) (w_fs w) (w_fs w')) as Hev.
  { destruct Hd; eapply evolves_dirs; try done;
      intros; try apply by_source_not_blob; apply short_not_blob; simpl; lia. }
  split; [done|done| |].
  - intros _. apply (refs_ok_step _ _ _ Hev). intros q h _ Hr. left.
    destruct Hr as (c & t & idx & Hq & H). apply (only_file _ _ _ _ _ _ Ho) in Hq; [|tauto]. by exists c, t, idx.
  - intros [Hf0 Hc]. split; [split; [by apply Hfl|split]|].
    + intros d' q Hd' Hq. pose proof (clear_dirs _ _ Hc d' q Hd' Hq) as H. unfold is_file in *.
      destruct (Ho q) as [[]|[->|[_ ->]]]; done.
    + intros d' x Hd'. rewrite Hf; [by apply (clear_files s)|by apply (leaf_file_not_dir s)].
    + intros q Hq. by eapply (only_some (fun _ => False)); [done|tauto|].
Qed.

(** Changing one owned file. *)
Lemma advances_leaf q0 w w' :
  leaf q0 -> except q0 (w_fs w) (w_fs w') -> (w_fs w' !! q0 = Some Dir -> w_fs w !! q0 = Some Dir) ->
  (w_uuids w <= w_uuids w')%nat -> faults_from w w' ->
  (is_tmp s q0 \/ ((forall q, ~ Sh q) -> forall h, refers (w_fs w') q0 h -> refers (w_fs w) q0 h \/ resolves (w_fs w') h)) ->
  advances w w'.
Proof using UL CL SL.
  intros Hl Hex Hdir Hu Hfl Hidx.
  assert (evolves s (fun _ => True) (w_fs w) (w_fs w')) as Hev.
  { apply evolves_frame; [intros q; by auto|]. intros q Hq. apply Hex. intros ->. by apply (leaf_not_blob q0). }
  split; [done|done| |].
  - intros HS. apply (refs_ok_step _ _ _ Hev). intros q h Hb Hr. destruct (decide (q = q0)) as [->|Hq].
    + destruct Hidx as [Ht|Hidx]; [|by apply Hidx]. exfalso. by apply (not_below_index s q0); [left|].
    + left. eapply refers_same; [|done]. by apply Hex.
  - intros [Hf0 Hc]. destruct (leaf_in_dir q0 Hl) as (d & x & Hd & Hq0).
    assert (forall q, w_fs w !! q = Some Dir -> q <> q0) as Hne.
    { intros q Hq ->. rewrite Hq0 in Hq. by apply (clear_files s _ Hc d x). }
    split; [split; [by apply Hfl|split]|].
    + intros d' q Hd' Hq. unfold is_file. rewrite Hex; [by apply (clear_dirs s _ Hc d')|].
      intros ->. rewrite Hq0 in Hq. by apply (leaf_file_not_dir s d d' x).
    + intros d' x' Hd' H. destruct (decide (d' ++ [x'] = q0)) as [E|E].
      * rewrite E in H. apply Hdir in H. rewrite <- E in H. by apply (clear_files s _ Hc d' x').
      * rewrite Hex in H by done. by apply (clear_files s _ Hc d' x').
    + intros q Hq. rewrite Hex; [done|]. by apply Hne.
Qed.

(** Linking a blob. *)
Lemma advances_link dest b t w w' :
  blob_path s (sha256_hex b) = Some dest -> w_fs w !! dest = None ->
  w_fs w' = <[dest := File b t]> (w_fs w) -> (w_uuids w <= w_uuids w')%nat -> faults_from w w' ->
  advances w w'.
Proof using UL CL SL.
  intros Hd Hn Hfs Hu Hfl. assert (is_blob s dest) as Hb by (by exists b).
  assert (evolves s (fun _ => True) (w_fs w) (w_fs w')) as Hev by (rewrite Hfs; by apply evolves_link).
  split; [done|done| |].
  - intros _. apply (refs_ok_step _ _ _ Hev). intros q h Hq Hr. left. eapply refers_same; [|done].
    rewrite Hfs, lookup_insert_ne; [done|]. intros <-. by apply (not_below_index s dest); [right|].
  - intros [Hf0 Hc]. split; [split; [by apply Hfl|]|].
    + destruct (is_blob_components s dest Hb) as (p & h & ->). rewrite Hfs.
      change ["crashes"; "by-hash"; p; h] with (["crashes"; "by-hash"; p] ++ [h]). rewrite app_assoc.
      apply clear_insert; [apply leaf_blobs|done].
    + intros q Hq. rewrite Hfs, lookup_insert_ne; [done|]. congruence.
Qed.

(** ** Rules for the system calls

    Each rule gives the continuation what is known when the call returns: [w_rely]
    for the files that are still as they were. *)

Lemma guar_same (o : Path -> Prop) w w' :
  advances w w' -> (forall q, leaf q -> ~ o q -> w_fs w' !! q = w_fs w !! q) -> w_guar o o w w'.
Proof. intros HA Hq. split_and!; [done|done|by left|auto]. Qed.

(** A call that owned files do not notice. *)
Lemma safe_unseen {A : Type} (m : IO io_error A) (Q : Result A io_error -> (Path -> Prop) -> World -> Prop) o w :
  (forall q, o q -> leaf q) ->
  (forall w1, w_rely o w w1 -> wp m (fun r w2 => advances w1 w2 /\
     (forall q, leaf q -> w_fs w2 !! q = w_fs w1 !! q) /\ (w_rely o w w2 -> Q r o w2)) w1) ->
  safe Q (act m) o w.
Proof.
  intros Ho Hm. apply safe_act. intros w1 Hr. eapply wp_mono; [by apply Hm|].
  intros r w2 (HA & Hf & HQ). exists o. split; [by apply guar_same; auto|].
  apply HQ. etransitivity; [exact Hr|]. split; [done|]. auto.
Qed.

Lemma same_env_uuids w w' : same_env w w' -> (w_uuids w <= w_uuids w')%nat.
Proof. intros (_ & _ & -> & _). done. Qed.

#[local] Hint Resolve same_env_uuids : detritus.

Lemma leaf_not_prefix q d : leaf q -> leaf_dir s d -> ~ q `prefix_of` d.
Proof using UL CL SL. intros (d' & x & Hd' & ->)%leaf_in_dir Hd. by apply (leaf_file_not_dir s). Qed.

Lemma safe_mkdir d (Q : Result unit io_error -> (Path -> Prop) -> World -> Prop) o w :
  leaf_dir s d -> (forall q, o q -> leaf q) ->
  (forall r w', w_rely o w w' -> (good s w -> r = Ok tt /\ w_fs w' !! d = Some Dir) -> Q r o w') ->
  safe Q (act (create_dir_all d)) o w.
Proof using UL CL SL.
  intros Hd Ho HQ. apply safe_unseen; [done|]. intros w1 Hr.
  apply (wp_step faults_from); [apply _|].
  apply (wp_also (good s w1) _ (fun r w2 => r = Ok tt /\ w_fs w2 !! d = Some Dir)).
  { intros Hg. apply (wpn_mkdir s); [done|done|]. auto. }
  apply wp_create_dir_all. intros r w2 Henv Ho2 Hf2 _ Hgood Hfl. split; [|split].
  - by apply (advances_dirs d); auto with detritus.
  - intros q Hq. by apply Hf2, leaf_not_prefix.
  - intros Hr2. apply HQ; [done|]. intros Hg. apply Hgood. by apply Hr.
Qed.

Lemma safe_sync p (Q : Result unit io_error -> (Path -> Prop) -> World -> Prop) o w :
  (forall q, o q -> leaf q) ->
  (forall r w', w_rely o w w' -> (good s w -> r = Ok tt) -> Q r o w') ->
  safe Q (act (sync_file p)) o w.
Proof.
  intros Ho HQ. apply safe_unseen; [done|]. intros w1 Hr. apply (wp_step faults_from); [apply _|].
  apply (wp_also (good s w1) _ (fun r w2 => r = Ok tt)).
  { intros Hg. apply wpn_sync_file; [apply Hg|done]. }
  apply wp_sync_file. intros r w2 Henv Hfs Hgood Hfl. split; [|split].
  - by apply advances_same; auto with detritus.
  - intros q _. by rewrite Hfs.
  - intros Hr2. apply HQ; [done|]. intros Hg. apply Hgood. by apply Hr.
Qed.

Lemma safe_exists p (Q : Result bool io_error -> (Path -> Prop) -> World -> Prop) o w :
  (forall q, o q -> leaf q) ->
  (forall w', w_rely o w w' -> Q (Ok (bool_decide (is_Some (w_fs w' !! p)))) o w') ->
  (forall e w', w_rely o w w' -> ~ good s w -> Q (Err e) o w') ->
  safe Q (act (try_exists p)) o w.
Proof.
  intros Ho HO HE. apply safe_unseen; [done|]. intros w1 Hr. apply (wp_step faults_from); [apply _|].
  apply (wp_also (good s w1) _ (fun r w2 => is_ok r = true)).
  { intros Hg. apply wpn_try_exists; [apply Hg|done]. }
  apply wp_try_exists.
  - intros w2 Henv Hfs _ Hfl. split; [by apply advances_same; auto with detritus|].
    split; [intros q _; by rewrite Hfs|]. intros Hr2. rewrite <- Hfs. by apply HO.
  - intros e w2 Henv Hfs Hgood Hfl. split; [by apply advances_same; auto with detritus|].
    split; [intros q _; by rewrite Hfs|]. intros Hr2. apply HE; [done|]. intros Hg.
    assert (good s w1) as Hg1 by (by apply Hr). by apply Hgood in Hg1.
Qed.

(** Drawing a name: the file of that name is owned from here on. *)
Lemma safe_draw {E : Type} (Q : Result Uuid E -> (Path -> Prop) -> World -> Prop) o w :
  (forall u w', w_rely o w w' -> Q (Ok u) (fun q => o q \/ q = temp_path s u) w') ->
  safe Q (act uuid_new_v4) o w.
Proof.
  intros HQ. apply safe_act. intros w1 Hr. unfold uuid_new_v4, wp. cbn [fst snd].
  set (u := new_v4 (w_uuids w1)). set (w2 := mkWorld _ _ _ _ _ _).
  assert (advances w1 w2) as HA by (apply advances_same; [done|simpl; lia|by intros H]).
  exists (fun q => o q \/ q = temp_path s u). split.
  - split_and!; [done|by left| |done]. intros q [Hq| ->]; [by left|]. right. exists (w_uuids w1).
    split; [simpl; lia|done].
  - apply HQ. etransitivity; [exact Hr|]. by split.
Qed.

(** The owned files but one. *)
Definition minus o (p : Path) : Path -> Prop := fun q => o q /\ q <> p.

(** A call on one owned file. *)
Lemma safe_leaf {A : Type} (m : IO io_error A) p (Q : Result A io_error -> (Path -> Prop) -> World -> Prop) o w :
  leaf p -> (~ Sh p -> o p) ->
  (forall w1, w_rely o w w1 -> wp m (fun r w2 => except p (w_fs w1) (w_fs w2) /\
     (w_fs w2 !! p = Some Dir -> w_fs w1 !! p = Some Dir) /\ same_env w1 w2 /\ faults_from w1 w2 /\
     (is_tmp s p \/ ((forall q, ~ Sh q) -> forall h, refers (w_fs w2) p h ->
        refers (w_fs w1) p h \/ resolves (w_fs w2) h)) /\
     (w_rely (minus o p) w w2 -> Q r o w2)) w1) ->
  safe Q (act m) o w.
Proof using UL CL SL.
  intros Hl Hp Hm. apply safe_act. intros w1 Hr. eapply wp_mono; [by apply Hm|].
  intros r w2 (Hex & Hdir & Henv & Hfl & Hidx & HQ). exists o.
  assert (advances w1 w2) as HA by (apply (advances_leaf p); auto with detritus). split.
  - split_and!; [done|done|by left|]. intros q _ Hno HnS. apply Hex. intros ->. by apply Hno, Hp.
  - apply HQ. transitivity w1; [eapply w_rely_mono; [|exact Hr]; by intros q [? _]|].
    split; [done|]. intros q [_ Hq]. by apply Hex.
Qed.

Lemma temp_leaf u : leaf (temp_path s u).
Proof. left. by exists u. Qed.

Lemma safe_create_temp u (Q : Result unit io_error -> (Path -> Prop) -> World -> Prop) o w :
  o (temp_path s u) ->
  (forall t w', w_rely (minus o (temp_path s u)) w w' -> w_fs w' !! temp_path s u = Some (File [] t) ->
     Q (Ok tt) o w') ->
  (forall e w', w_rely (minus o (temp_path s u)) w w' ->
     (good s w -> w_fs w !! (data_dir s ++ ["tmp"]) = Some Dir -> False) -> Q (Err e) o w') ->
  safe Q (act (file_create (temp_path s u))) o w.
Proof using UL CL SL.
  intros Hu HO HE. apply (safe_leaf _ (temp_path s u)); [apply temp_leaf|done|]. intros w1 Hr.
  apply (wp_step faults_from); [apply _|].
  apply (wp_also (good s w1 /\ w_fs w1 !! (data_dir s ++ ["tmp"]) = Some Dir) _ (fun r w2 => is_ok r = true)).
  { intros [Hg Hd]. destruct (temp_in_tmp s u) as (x & Hx & ->).
    apply (wpn_create s); [apply leaf_tmp|done|done|done|done]. }
  apply wp_file_create.
  - intros w2 Henv Hfs _ Hfl. rewrite Hfs, lookup_insert_eq. split_and!; [by auto with detritus|by intros [=]|done|done|left; by exists u|].
    intros Hr2. apply (HO (w_now w1)); [done|]. rewrite Hfs. apply lookup_insert_eq.
  - intros e w2 Henv Hfs Hgood Hfl. rewrite Hfs. split_and!; [done|done|done|done|left; by exists u|].
    intros Hr2. apply HE; [done|]. intros Hg Hd. destruct (adv_good _ _ (proj1 Hr) Hg) as [Hg1 Hd1].
    enough (is_ok (A := unit) (Err e) = true) by done. apply Hgood. split; [done|by apply Hd1].
Qed.

Lemma safe_write_temp u c b t (Q : Result unit io_error -> (Path -> Prop) -> World -> Prop) o w :
  o (temp_path s u) -> w_fs w !! temp_path s u = Some (File c t) ->
  (forall t' w', w_rely (minus o (temp_path s u)) w w' ->
     w_fs w' !! temp_path s u = Some (File (c ++ b) t') -> Q (Ok tt) o w') ->
  (forall e w', w_rely (minus o (temp_path s u)) w w' -> ~ good s w -> Q (Err e) o w') ->
  safe Q (act (write_all (temp_path s u) b)) o w.
Proof using UL CL SL.
  intros Hu Ht HO HE. apply (safe_leaf _ (temp_path s u)); [apply temp_leaf|done|]. intros w1 Hr.
  assert (w_fs w1 !! temp_path s u = Some (File c t)) as Ht1 by (rewrite (proj2 Hr); done).
  apply (wp_step faults_from); [apply _|].
  apply (wp_also (good s w1) _ (fun r w2 => is_ok r = true)).
  { intros Hg. apply wpn_write_all; [apply Hg|done]. }
  apply wp_write_all.
  - intros w2 Henv Hfs _ Hfl. rewrite (append_to_file _ _ _ _ _ _ Ht1) in Hfs.
    rewrite Hfs, lookup_insert_eq. split_and!; [by auto with detritus|by intros [=]|done|done|left; by exists u|].
    intros Hr2. apply (HO (w_now w1)); [done|]. rewrite Hfs. apply lookup_insert_eq.
  - intros e n w2 Henv Hfs Hgood Hfl. rewrite (append_to_file _ _ _ _ _ _ Ht1) in Hfs.
    rewrite Hfs, lookup_insert_eq. split_and!; [by auto with detritus|by intros [=]|done|done|left; by exists u|].
    intros Hr2. apply HE; [done|]. intros Hg. assert (good s w1) as Hg1 by (by apply Hr). by apply Hgood in Hg1.
Qed.

Lemma safe_remove_temp u (Q : Result unit io_error -> (Path -> Prop) -> World -> Prop) o w :
  o (temp_path s u) ->
  (forall r w', w_rely (minus o (temp_path s u)) w w' ->
     (good s w -> (exists c t, w_fs w !! temp_path s u = Some (File c t)) -> r = Ok tt) -> Q r o w') ->
  safe Q (act (remove_file (temp_path s u))) o w.
Proof using UL CL SL.
  intros Hu HQ. apply (safe_leaf _ (temp_path s u)); [apply temp_leaf|done|]. intros w1 Hr.
  apply (wp_step faults_from); [apply _|].
  apply (wp_also (good s w1 /\ exists c t, w_fs w1 !! temp_path s u = Some (File c t)) _ (fun r w2 => r = Ok tt)).
  { intros [Hg (c & t & Ht)]. apply (wpn_remove_file _ c t); [apply Hg|done|done]. }
  assert (forall r w2, same_env w1 w2 -> except (temp_path s u) (w_fs w1) (w_fs w2) ->
    (w_fs w2 !! temp_path s u = Some Dir -> w_fs w1 !! temp_path s u = Some Dir) ->
    ((good s w1 /\ exists c t, w_fs w1 !! temp_path s u = Some (File c t)) -> r = Ok tt) ->
    w_rely (minus o (temp_path s u)) w w2 -> Q r o w2) as Hfin.
  { intros r w2 _ _ _ Hgood Hr2. apply HQ; [done|]. intros Hg (c & t & Ht). apply Hgood.
    split; [by apply Hr|]. exists c, t. by rewrite (proj2 Hr). }
  apply wp_remove_file.
  - intros c t w2 _ Henv Hfs Hgood Hfl. rewrite Hfs in *. rewrite lookup_delete_eq.
    split_and!; [by auto with detritus|by intros [=]|done|done|left; by exists u|].
    apply Hfin; rewrite ?Hfs, ?lookup_delete_eq; auto with detritus; done.
  - intros e w2 Henv Hfs Hgood Hfl. rewrite Hfs in *. split_and!; [done|done|done|done|left; by exists u|].
    apply Hfin; rewrite ?Hfs; auto; done.
Qed.

Lemma safe_link u b t dest (Q : Result unit io_error -> (Path -> Prop) -> World -> Prop) o w :
  o (temp_path s u) -> (forall q, o q -> leaf q) -> w_fs w !! temp_path s u = Some (File b t) ->
  blob_path s (sha256_hex b) = Some dest ->
  (forall w', w_rely o w w' -> w_fs w' !! dest = Some (File b t) -> Q (Ok tt) o w') ->
  (forall e w', w_rely o w w' -> (kind e = AlreadyExists -> is_Some (w_fs w' !! dest)) ->
     (good s w -> (forall d, parent dest = Some d -> w_fs w !! d = Some Dir) -> kind e = AlreadyExists) ->
     Q (Err e) o w') ->
  safe Q (act (hard_link (temp_path s u) dest)) o w.
Proof using UL CL SL.
  intros Hu Ho Ht Hdest HO HE. apply safe_unseen; [done|]. intros w1 Hr.
  assert (is_blob s dest) as Hb by (by exists b).
  assert (w_fs w1 !! temp_path s u = Some (File b t)) as Ht1 by (rewrite (proj2 Hr); done).
  assert (forall q, leaf q -> q <> dest) as Hld by (intros q Hq ->; by apply (leaf_not_blob dest)).
  apply (wp_step faults_from); [apply _|].
  apply (wp_also (good s w1 /\ (forall d, parent dest = Some d -> w_fs w1 !! d = Some Dir)) _
    (fun r w2 => forall e, r = Err e -> kind e = AlreadyExists)).
  { intros [[Hf _] Hpar]. unfold wp, hard_link. rewrite syscall_no_fault by done. rewrite Ht1.
    destruct (w_fs w1 !! dest); [by intros e [= <-]|].
    destruct (blob_parent s b dest Hdest) as [p Hp].
    by rewrite (parent_is_dir_of _ _ _ Hp (Hpar _ Hp)). }
  apply wp_hard_link.
  - intros c t' w2 Hsrc Hnone Henv Hfs _ Hfl. rewrite Ht1 in Hsrc. injection Hsrc as <- <-. split; [|split].
    + apply (advances_link dest b t); auto with detritus.
    + intros q Hq. rewrite Hfs, lookup_insert_ne; [done|]. by apply not_eq_sym, Hld.
    + intros Hr2. apply HO; [done|]. rewrite Hfs. apply lookup_insert_eq.
  - intros e w2 Hk Henv Hfs Hgood Hfl. split; [by apply advances_same; auto with detritus|].
    split; [intros q _; by rewrite Hfs|]. intros Hr2. apply HE; [done|by rewrite Hfs|]. intros Hg Hpar.
    destruct (adv_good _ _ (proj1 Hr) Hg) as [Hg1 Hd1]. apply Hgood; [|done]. split; [done|]. auto.
Qed.
End Rely.
