(* ===== verification/CrashParallel.v ===== *)
(** * Concurrent crash requests: each task is safe

    The programs of [CrashTasks] against the rely and the guarantee of
    [CrashRely].  Each lemma says what is known when the program ends, on success
    and on failure; on failure also that something went wrong: a call failed,
    something was in the way, or the request was not well formed. *)

From Stdlib Require Import Ascii.
From S2P Require Import Prelude RustStd Fs External Instances Json Protocol Metrics Schemas Storage F64 RateLimit Auth State Crashes CrashStore CrashIngest CrashProgress Janitor Retention Refs System Concurrency CrashTasks CrashRely.

Section Parallel.
Context {U : UuidApi} {UL : UuidLaws U} {C : ChronoApi} {CL : ChronoLaws C}
  {S : Sha256Api} {SL : Sha256Laws S} {J : JsonText} {JL : JsonTextLaws J}
  {M : MulterApi} {ML : MulterLaws M} {HT : HttpApi} {HL : HttpLaws HT} {V : JsonSchemaApi}.
Context (s : StoragePaths) (N : nat) (Sh : Path -> Prop).
Implicit Types (q : Path) (w : World) (o : Path -> Prop).

#[local] Hint Extern 0 (RelyGuarantee World _) => exact (WorldRely s N Sh) : typeclass_instances.
#[local] Hint Extern 0 (RelyGuarantee (AppState * World) _) => exact (AppRely s N Sh) : typeclass_instances.
#[local] Existing Instance advances_preorder.
#[local] Existing Instance w_rely_preorder.
Local Abbreviation advances := (advances s Sh).
Local Abbreviation w_rely := (w_rely s Sh).
Local Abbreviation leaf := (leaf s).

(** Postconditions of programs on the world. *)
Local Abbreviation Post A := (Result A CrashError -> (Path -> Prop) -> World -> Prop).

Lemma rely_advances o w w' : w_rely o w w' -> advances w w'.
Proof. by intros [H _]. Qed.

Lemma advances_good w w' : advances w w' -> good s w -> good s w'.
Proof. intros H Hg. by apply (adv_good _ _ _ _ H). Qed.

#[local] Hint Resolve rely_advances advances_good : detritus.

Lemma concat_chunks (chunks : list (Result bytes string)) ds c rest cs :
  chunks = (Ok <$> ds) ++ c :: rest -> try_map (fun c => c) chunks = Ok cs ->
  exists b, c = Ok b /\ (len_u64 (concat ds ++ b) <= len_u64 (concat cs))%Z.
Proof.
  intros -> Hcs%try_map_Forall2. apply Forall2_app_inv_l in Hcs as (c1 & c2 & H1 & H2 & ->).
  apply Forall2_cons_inv_l in H2 as (b & c3 & Hb & H3 & ->). exists b. split; [done|].
  assert (c1 = ds) as ->.
  { clear -H1. revert c1 H1. induction ds as [|d ds IH]; intros [|x c1] H1; try by inversion H1.
    apply Forall2_cons in H1 as [H1 H2]. injection H1 as ->. f_equal. by apply IH. }
  rewrite concat_app. cbn [concat]. rewrite !len_u64_app. pose proof (len_u64_nonneg (concat c3)). lia.
Qed.

Lemma safe_copy_chunk u max chunks ds c rest t o (Q : Post (Z * bytes)) w :
  (0 <= max < 2 ^ 63)%Z -> chunks = (Ok <$> ds) ++ c :: rest -> chunk_fits c ->
  (len_u64 (concat ds) <= max)%Z -> o (temp_path s u) -> w_fs w !! temp_path s u = Some (File (concat ds) t) ->
  (forall b t' w', c = Ok b -> (len_u64 (concat (ds ++ [b])) <= max)%Z -> advances w w' ->
     w_fs w' !! temp_path s u = Some (File (concat (ds ++ [b])) t') ->
     Q (Ok (len_u64 (concat (ds ++ [b])), concat (ds ++ [b]))) o w') ->
  (forall e w', part_error e = true -> advances w w' ->
     (good s w -> forall cs, try_map (fun c => c) chunks = Ok cs -> (len_u64 (concat cs) <= max)%Z -> False) ->
     Q (Err e) o w') ->
  safe Q (copy_chunk_task (temp_path s u) max (len_u64 (concat ds), concat ds) c) o w.
Proof using UL CL SL.
  intros Hmax Hch Hc Hle Hu Ht HO HE. unfold copy_chunk_task. apply safe_bind, safe_done.
  destruct c as [b|e]; cbn [map_err].
  2: { apply HE; [done|reflexivity|]. intros _ cs Hcs. by destruct (concat_chunks _ _ _ _ _ Hch Hcs) as (? & ? & _). }
  cbn [fst snd]. cbn in Hc. rewrite (wrap_len _ _ max) by lia.
  assert (concat (ds ++ [b]) = concat ds ++ b) as Hcat.
  { rewrite concat_app. cbn [concat]. by rewrite app_nil_r. }
  rewrite <- Hcat. destruct (Z.ltb_spec max (len_u64 (concat (ds ++ [b])))).
  - apply safe_bind, safe_try, safe_remove_temp; [done|]. intros r w' Hr _.
    apply HE; [done|by eauto with detritus|].
    intros _ cs Hcs Hle'. destruct (concat_chunks _ _ _ _ _ Hch Hcs) as (b' & [= <-] & Hb). rewrite <- Hcat in Hb. lia.
  - apply safe_bind, safe_map_err, (safe_write_temp _ _ _ _ (concat ds) b t); [done|done| |].
    + intros t' w' Hr Ht'. cbn [map_err]. rewrite <- Hcat in Ht'. eapply HO; [done|done| |done]. eauto with detritus.
    + intros e w' Hr Hbad. cbn [map_err]. apply HE; [done|by eauto with detritus|done].
Qed.

Lemma safe_copy u max chunks t o (Q : Post (Z * bytes)) w :
  (0 <= max < 2 ^ 63)%Z -> Forall chunk_fits chunks ->
  o (temp_path s u) -> w_fs w !! temp_path s u = Some (File [] t) ->
  (forall cs t' w', try_map (fun c => c) chunks = Ok cs -> (len_u64 (concat cs) <= max)%Z -> advances w w' ->
     w_fs w' !! temp_path s u = Some (File (concat cs) t') -> Q (Ok (len_u64 (concat cs), concat cs)) o w') ->
  (forall e w', part_error e = true -> advances w w' ->
     (good s w -> forall cs, try_map (fun c => c) chunks = Ok cs -> (len_u64 (concat cs) <= max)%Z -> False) ->
     Q (Err e) o w') ->
  safe Q (p_fold (copy_chunk_task (temp_path s u) max) (0%Z, []) chunks) o w.
Proof using UL CL SL.
  intros Hmax Hfits Hu Ht HO HE.
  apply (safe_fold _ (fun acc rest o' w' => o' = o /\ advances w w' /\ exists ds t',
    chunks = (Ok <$> ds) ++ rest /\ acc = (len_u64 (concat ds), concat ds) /\
    (len_u64 (concat ds) <= max)%Z /\ w_fs w' !! temp_path s u = Some (File (concat ds) t'))).
  - intros acc c rest o' w1 (-> & HA & ds & t1 & Hch & -> & Hle & Ht1).
    eapply (safe_copy_chunk u max chunks ds c rest t1); try done.
    + rewrite Hch in Hfits. by apply Forall_app in Hfits as [_ [? _]%Forall_cons].
    + intros b t' w2 -> Hle2 HA2 Ht2. split; [done|]. split; [by etransitivity|]. exists (ds ++ [b]), t'.
      split; [|done]. by rewrite fmap_app, <- app_assoc.
    + intros e w2 He HA2 Hbad. apply HE; [done|by etransitivity|]. intros Hg. apply Hbad. eauto with detritus.
  - intros acc o' w1 (-> & HA & ds & t1 & Hch & -> & Hle & Ht1). rewrite app_nil_r in Hch.
    eapply HO; try done. rewrite Hch. apply try_map_Forall2. clear. by induction ds; constructor.
  - split; [done|]. split; [reflexivity|]. exists [], t. split_and!; [done|done|apply Hmax|done].
Qed.

(** ** One blob *)

(** The result of a finished blob, at the time it ends: whoever linked it. *)
Definition stored (b : bytes) (dest : Path) (dedup : bool) (fs : gmap Path Node) : Prop :=
  if dedup then is_Some (fs !! dest) else exists t, fs !! dest = Some (File b t).

Lemma stored_advances b dest dedup w w' :
  is_blob s dest -> advances w w' -> stored b dest dedup (w_fs w) -> stored b dest dedup (w_fs w').
Proof.
  intros Hb HA. destruct (adv_evolves _ _ _ _ HA) as (_ & HB & _). destruct dedup; simpl.
  - intros [n Hn]. exists n. by apply HB.
  - intros [t Ht]. exists t. by apply HB.
Qed.

(** The removal that ends a finalization. *)
Lemma safe_finish u b dest t dedup o (Q : Post bool) w :
  o (temp_path s u) -> w_fs w !! temp_path s u = Some (File b t) -> is_blob s dest ->
  stored b dest dedup (w_fs w) ->
  (forall w', advances w w' -> stored b dest dedup (w_fs w') -> Q (Ok dedup) o w') ->
  (forall e w', part_error e = true -> advances w w' -> ~ good s w -> Q (Err e) o w') ->
  safe Q (p_map_err CIo (act (remove_file (temp_path s u)));;+ p_ret dedup) o w.
Proof using UL CL SL.
  intros Hu Ht Hb Hst HO HE. apply safe_bind, safe_map_err, safe_remove_temp; [done|].
  intros [[]|e] w' Hr Hgood; cbn [map_err].
  - apply safe_done, HO; [by eauto with detritus|]. eapply stored_advances; eauto with detritus.
  - apply HE; [done|by eauto with detritus|]. intros Hg. by apply Hgood in Hg; [|eauto].
Qed.

Lemma safe_finalize u b t o (Q : Post (string * bool)) w :
  o (temp_path s u) -> (forall q, o q -> leaf q) -> w_fs w !! temp_path s u = Some (File b t) ->
  (forall dest dedup w', blob_path s (sha256_hex b) = Some dest -> advances w w' ->
     stored b dest dedup (w_fs w') -> Q (Ok (path_display (relative_to_data_dir s dest), dedup)) o w') ->
  (forall e w', part_error e = true -> advances w w' -> ~ good s w -> Q (Err e) o w') ->
  safe Q (finalize_blob_task s (temp_path s u) (sha256_hex b)) o w.
Proof using UL CL SL.
  intros Hu Ho Ht HO HE. unfold finalize_blob_task.
  destruct (blob_path_components s b) as (pre & _ & Hdest).
  assert (exists dest, blob_path s (sha256_hex b) = Some dest) as [dest Hd] by eauto. clear Hdest.
  rewrite Hd. destruct (blob_parent s b dest Hd) as [p Hp].
  assert (is_blob s dest) as Hb by (by exists b).
  apply safe_bind, safe_done. cbn [ok_or]. rewrite Hp.
  apply safe_bind, safe_map_err, safe_mkdir; [apply leaf_blobs|done|].
  intros r w1 Hr1 Hgood1. destruct r as [[]|e]; cbn [map_err];
    [|apply HE; [done|by eauto with detritus|]; intros Hg; by apply Hgood1 in Hg as []].
  apply safe_bind, safe_map_err, safe_exists; [done| |].
  2: { intros e w2 Hr2 Hbad. cbn [map_err]. apply HE; [done|etransitivity; eauto with detritus|].
       intros Hg. apply Hbad. eauto with detritus. }
  intros w2 Hr2. cbn [map_err]. apply safe_bind.
  assert (w_rely o w w2) as Hr by (by etransitivity).
  assert (w_fs w2 !! temp_path s u = Some (File b t)) as Ht2 by (by rewrite (proj2 Hr)).
  assert (forall w', advances w2 w' -> advances w w') as Hto by (intros; etransitivity; eauto with detritus).
  assert (forall dedup w3, advances w2 w3 -> w_fs w3 !! temp_path s u = Some (File b t) ->
    stored b dest dedup (w_fs w3) ->
    safe (fun r o' w' => match r with
      | Ok a => safe Q (p_ret (path_display (relative_to_data_dir s dest), a)) o' w'
      | Err e => Q (Err e) o' w' end)
      (p_map_err CIo (act (remove_file (temp_path s u)));;+ p_ret dedup) o w3) as Hfin.
  { intros dedup w3 HA3 Ht3 Hst. apply (safe_finish u b dest t); try done.
    - intros w4 HA4 Hst4. apply safe_done, HO; [done|apply Hto; by etransitivity|done].
    - intros e w4 He HA4 Hbad. apply HE; [done|apply Hto; by etransitivity|].
      intros Hg. apply Hbad. eauto 6 with detritus. }
  case_bool_decide as Hex; [by apply Hfin; [reflexivity|..]|].
  apply safe_bind, safe_try, (safe_link _ _ _ u b t dest); try done.
  - intros w3 Hr3 Hl3. apply Hfin; [by eauto with detritus|by rewrite (proj2 Hr3)|by exists t].
  - intros e w3 Hr3 Hk Hgood3. case_decide as Hae.
    + apply Hfin; [by eauto with detritus|by rewrite (proj2 Hr3)|by apply Hk].
    + apply safe_bind, safe_try, safe_remove_temp; [done|]. intros r w4 Hr4 _. apply safe_done, HE; [done| |].
      * apply Hto. transitivity w3; eauto with detritus.
      * intros Hg. apply Hae, Hgood3; [eauto with detritus|]. intros d. rewrite Hp. intros [= <-].
        apply (adv_good _ _ _ _ (proj1 Hr2)); [eauto with detritus|]. by apply Hgood1.
Qed.

(** ** One part *)

Lemma pointer_for_stored b dest dedup w enc :
  blob_path s (sha256_hex b) = Some dest -> stored b dest dedup (w_fs w) -> store_ok s (w_fs w) ->
  pointer_for s (w_fs w) b {| bp_sha256 := sha256_hex b; bp_len := len_u64 b;
    bp_path := path_display (relative_to_data_dir s dest); bp_dedup := dedup; bp_content_encoding := enc |}.
Proof.
  intros Hd Hst Hok. split_and!; [done|done|]. destruct dedup; simpl in Hst.
  - destruct Hst as [n Hn]. destruct (Hok _ _ _ Hd Hn) as (c & tc & -> & Hc). by exists dest, c, tc.
  - destruct Hst as [t Ht]. by exists dest, b, t.
Qed.

Lemma safe_write_part (field : Field) max o (Q : Post BlobPointer) w :
  (0 <= max < 2 ^ 63)%Z -> Forall chunk_fits (f_chunks field) -> store_ok s (w_fs w) ->
  (forall q, o q -> leaf q) ->
  (forall b p o' w', field_bytes field = Some b -> (len_u64 b <= max)%Z ->
     bp_content_encoding p = (f_content_encoding field ≫= header_to_str) ->
     (forall q, o q -> o' q) -> (forall q, o' q -> leaf q) ->
     advances w w' -> pointer_for s (w_fs w') b p -> Q (Ok p) o' w') ->
  (forall e o' w', part_error e = true -> (forall q, o q -> o' q) -> advances w w' ->
     (good s w -> forall b, field_bytes field = Some b -> (len_u64 b <= max)%Z -> False) -> Q (Err e) o' w') ->
  safe Q (write_part_task s field max) o w.
Proof using UL CL SL.
  intros Hmax Hfits Hok Ho HO HE. unfold write_part_task. rewrite tmp_dir_components.
  apply safe_bind, safe_map_err, safe_mkdir; [apply leaf_tmp|done|].
  intros r w1 Hr1 Hgood1. destruct r as [[]|e]; cbn [map_err];
    [|apply HE; [done|done|by eauto with detritus|]; intros Hg; by apply Hgood1 in Hg as []].
  apply safe_bind, safe_draw. intros u w2 Hr2.
  set (o' := fun q => o q \/ q = temp_path s u).
  assert (forall q, o q -> o' q) as Hsub by (by left).
  assert (forall q, o' q -> leaf q) as Ho' by (intros q [Hq| ->]; [by apply Ho|apply temp_leaf]).
  assert (o' (temp_path s u)) as Hu by (by right).
  assert (advances w w2) as HA2 by (etransitivity; eauto with detritus).
  apply safe_bind, safe_map_err, safe_create_temp; [done| |].
  2: { intros e w3 Hr3 Hbad. cbn [map_err]. apply HE; [done|done|etransitivity; eauto with detritus|].
       intros Hg. exfalso. apply Hbad; [eauto with detritus|].
       apply (adv_good _ _ _ _ (proj1 Hr2)); [eauto with detritus|]. by apply Hgood1. }
  intros t w3 Hr3 Ht3. cbn [map_err].
  assert (advances w w3) as HA3 by (etransitivity; eauto with detritus).
  apply safe_bind, (safe_copy u max _ t); try done.
  2: { intros e w4 He HA4 Hbad. apply HE; [done|done|by etransitivity|]. intros Hg b Hb Hle.
       unfold field_bytes in Hb. destruct (try_map _ _) as [cs|] eqn:Hcs; [|done]. injection Hb as <-.
       eapply Hbad; eauto with detritus. }
  intros cs t' w4 Hcs Hle HA4 Ht4.
  assert (advances w w4) as HA4' by (by etransitivity).
  apply safe_bind, safe_map_err, safe_sync; [done|]. intros [[]|e] w5 Hr5 Hgood5; cbn [map_err];
    [|apply HE; [done|done|etransitivity; eauto with detritus|]; intros Hg; by discriminate Hgood5; eauto with detritus].
  apply safe_bind, safe_map_err, safe_sync; [done|]. intros [[]|e] w6 Hr6 Hgood6; cbn [map_err fst snd].
  2: { apply HE; [done|done|do 2 (etransitivity; eauto with detritus)|]. intros Hg.
       discriminate Hgood6. eauto 6 with detritus. }
  assert (w_rely o' w4 w6) as Hr46 by (by etransitivity).
  assert (advances w w6) as HA6 by (etransitivity; eauto with detritus).
  apply safe_bind, (safe_finalize u (concat cs) t'); [done|done|by rewrite (proj2 Hr46)| |].
  2: { intros e w7 He HA7 Hbad. apply HE; [done|done|by etransitivity|]. intros Hg. exfalso. apply Hbad. eauto with detritus. }
  intros dest dedup w7 Hd HA7 Hst. assert (advances w w7) as HA by (by etransitivity).
  apply safe_done, (HO (concat cs)); try done; [by unfold field_bytes; rewrite Hcs|].
  apply pointer_for_stored; try done. by apply (adv_evolves _ _ _ _ HA).
Qed.

(** ** The part loop *)

Lemma advances_store w w' : advances w w' -> store_ok s (w_fs w) -> store_ok s (w_fs w').
Proof. intros HA. apply (adv_evolves _ _ _ _ HA). Qed.

Lemma advances_ingested w w' max parts dump atts :
  advances w w' -> ingested s (w_fs w) max parts dump atts -> ingested s (w_fs w') max parts dump atts.
Proof. intros HA. eapply ingested_evolves. apply (adv_evolves _ _ _ _ HA). Qed.

#[local] Hint Resolve advances_store advances_ingested : detritus.

Lemma safe_ingest_part max dump atts parts next o (Q : Post (option BlobPointer * list AttachmentPointer)) w :
  (0 <= max < 2 ^ 63)%Z -> field_fits next -> store_ok s (w_fs w) -> (forall q, o q -> leaf q) ->
  ingested s (w_fs w) max parts dump atts ->
  (forall f part dump' atts' o' w', next = Ok f -> part_of f = Some part ->
     (forall q, o q -> o' q) -> (forall q, o' q -> leaf q) -> advances w w' ->
     ingested s (w_fs w') max (parts ++ [part]) dump' atts' -> Q (Ok (dump', atts')) o' w') ->
  (forall e o' w', loop_error e = true -> (forall q, o q -> o' q) -> advances w w' ->
     (good s w -> forall f part, next = Ok f -> part_of f = Some part -> (len_u64 (p_content part) <= max)%Z ->
        (p_attach part = None -> dump = None) -> False) -> Q (Err e) o' w') ->
  safe Q (ingest_part_task s max (dump, atts) next) o w.
Proof using UL CL SL.
  intros Hmax Hfits Hok Ho Hing HO HE. unfold ingest_part_task.
  apply safe_bind, safe_done. destruct next as [f|e]; [|by apply HE; [done|done|reflexivity|]]. cbn [map_err].
  apply safe_bind, safe_done. destruct (f_name f) as [name|] eqn:En; cbn [ok_or].
  2: { apply HE; [done|done|reflexivity|]. intros _ f' part [= <-] Hp. unfold part_of in Hp. by rewrite En in Hp. }
  assert (forall b p, part_of f = Some p -> field_bytes f = Some b -> p_content p = b) as Hcontent.
  { intros b p Hp Hb. unfold part_of in Hp. rewrite En, Hb in Hp. cbn [mbind option_bind] in Hp.
    destruct (String.eqb name "dump"); [by injection Hp as <-|]. destruct (strip_prefix _ _); [by injection Hp as <-|done]. }
  assert (forall e (o' : Path -> Prop) w', part_error e = true -> (forall q, o q -> o' q) -> advances w w' ->
     (good s w -> forall b, field_bytes f = Some b -> (len_u64 b <= max)%Z -> False) -> Q (Err e) o' w') as HE'.
  { intros e o' w' He Hsub HA Hbad. apply HE; [by apply loop_error_part|done|done|].
    intros Hg f' part [= <-] Hp Hle _. destruct (field_bytes f) as [b|] eqn:Eb.
    - apply (Hbad Hg b eq_refl). by rewrite <- (Hcontent b part).
    - unfold part_of in Hp. by rewrite En, Eb in Hp. }
  destruct (String.eqb_spec name "metadata") as [->|_].
  { apply HE; [done|done|reflexivity|]. intros _ f' part [= <-] Hp. unfold part_of in Hp. rewrite En in Hp.
    by destruct (field_bytes f). }
  destruct (String.eqb name "dump") eqn:Ed.
  - destruct dump as [d|].
    { apply HE; [done|done|reflexivity|]. intros _ f' part [= <-] Hp _ Hd. unfold part_of in Hp. rewrite En in Hp.
      cbn [mbind option_bind] in Hp. destruct (field_bytes f); [|done]. cbn [mbind option_bind] in Hp.
      rewrite Ed in Hp. injection Hp as <-. by specialize (Hd eq_refl). }
    apply safe_bind, safe_write_part; try done.
    intros b p o' w' Hb Hle Henc Hsub Ho' HA Hp. apply safe_done.
    eapply HO; [done| |done|done|done|].
    { unfold part_of. rewrite En, Hb. cbn [mbind option_bind]. by rewrite Ed. }
    destruct (advances_ingested _ _ _ _ _ _ HA Hing) as [Hd Ha].
    split; rewrite filter_snoc; simpl; [|by rewrite app_nil_r].
    apply Forall2_nil_inv_r in Hd as ->. apply Forall2_cons. split; [by split|by apply Forall2_nil].
  - destruct (starts_with "attach:" name) eqn:Es.
    2: { apply HE; [done|done|reflexivity|]. intros _ f' part [= <-] Hp. unfold part_of in Hp. rewrite En in Hp.
         cbn [mbind option_bind] in Hp. destruct (field_bytes f); [|done]. cbn [mbind option_bind] in Hp.
         rewrite Ed in Hp. unfold starts_with in Es. by destruct (strip_prefix _ _). }
    unfold starts_with in Es. destruct (strip_prefix "attach:" name) as [key|] eqn:Ek; [|done].
    apply safe_bind, safe_done. cbn [ok_or].
    apply safe_bind, safe_write_part; try done.
    intros b p o' w' Hb Hle Henc Hsub Ho' HA Hp. apply safe_done.
    eapply HO; [done| |done|done|done|].
    { unfold part_of. rewrite En, Hb. cbn [mbind option_bind]. by rewrite Ed, Ek. }
    destruct (advances_ingested _ _ _ _ _ _ HA Hing) as [Hd Ha].
    split; rewrite filter_snoc; simpl; [by rewrite app_nil_r|].
    apply Forall2_app; [done|]. apply Forall2_cons. split; [|by apply Forall2_nil].
    split; [done|]. destruct p. by split.
Qed.

(** A well-formed rest after stored parts: what is next is fine too. *)
Lemma well_formed_next max fields parts f todo fields' parts' dump atts w :
  (Ok <$> fields) ++ Ok f :: todo = (Ok <$> fields') ++ ([] : list (Result Field string)) ->
  Forall2 (fun f p => part_of f = Some p) fields parts -> ingested s (w_fs w) max parts dump atts ->
  well_formed max fields' parts' ->
  exists part, part_of f = Some part /\ (len_u64 (p_content part) <= max)%Z /\
    (p_attach part = None -> dump = None).
Proof.
  rewrite app_nil_r. intros Heq Hparts [Hd _] (Hp' & Hle & Hone).
  assert (exists rest, fields' = fields ++ f :: rest) as [rest ->].
  { symmetry in Heq. apply fmap_app_inv in Heq as (l1 & l2 & H1 & H2 & ->).
    apply (list_fmap_eq_inj Ok) in H1 as ->; [|by intros ? ? [= ->]]. symmetry in H2.
    apply fmap_cons_inv in H2 as (f' & l3 & [= ->] & _ & ->). by exists l3. }
  apply Forall2_app_inv_l in Hp' as (p1 & p2 & H1 & H2 & ->).
  apply Forall2_cons_inv_l in H2 as (part & p3 & Hpart & _ & ->). exists part. split; [done|].
  apply Forall_app in Hle as [_ [Hle _]%Forall_cons]. split; [done|]. intros Ha.
  assert (p1 = parts) as ->.
  { clear -H1 Hparts. revert p1 H1. induction Hparts as [|x y l k Hxy _ IH]; intros p1 H1; [by inversion H1|].
    apply Forall2_cons_inv_l in H1 as (y' & k' & Hy & Hk & ->). f_equal; [congruence|by apply IH]. }
  rewrite filter_app, filter_cons, decide_True, length_app in Hone by done. simpl in Hone.
  apply Forall2_length in Hd. destruct dump; [|done]. simpl in Hd. lia.
Qed.

Lemma safe_ingest_parts max rest o (Q : Post (option BlobPointer * list AttachmentPointer)) w :
  (0 <= max < 2 ^ 63)%Z -> Forall field_fits rest -> store_ok s (w_fs w) -> (forall q, o q -> leaf q) ->
  (forall fields parts dump atts o' w', rest = Ok <$> fields ->
     Forall2 (fun f p => part_of f = Some p) fields parts ->
     (forall q, o q -> o' q) -> (forall q, o' q -> leaf q) -> advances w w' ->
     ingested s (w_fs w') max parts dump atts -> Q (Ok (dump, atts)) o' w') ->
  (forall e o' w', loop_error e = true -> (forall q, o q -> o' q) -> advances w w' ->
     (good s w -> forall fields parts, rest = Ok <$> fields -> well_formed max fields parts -> False) ->
     Q (Err e) o' w') ->
  safe Q (p_fold (ingest_part_task s max) (None, []) rest) o w.
Proof using UL CL SL.
  intros Hmax Hfits Hok Ho HO HE.
  apply (safe_fold _ (fun acc todo o' w' => (forall q, o q -> o' q) /\ (forall q, o' q -> leaf q) /\
    advances w w' /\ Forall field_fits todo /\
    exists fields parts, rest = (Ok <$> fields) ++ todo /\
      Forall2 (fun f p => part_of f = Some p) fields parts /\
      ingested s (w_fs w') max parts acc.1 acc.2)).
  - intros [dump atts] x todo o1 w1 (Hsub & Ho1 & HA & Hx & fields & parts & Hrest & Hparts & Hing). simpl in Hing.
    apply Forall_cons in Hx as [Hx Htodo].
    apply (safe_ingest_part max dump atts parts); try done; [by eauto with detritus| |].
    + intros f part dump' atts' o2 w2 -> Hp Hsub2 Ho2 HA2 Hing2. split_and!; [auto|done|by etransitivity|done|].
      exists (fields ++ [f]), (parts ++ [part]). rewrite fmap_app, <- app_assoc. split; [done|]. split; [|done].
      apply Forall2_app; [done|]. by repeat constructor.
    + intros e o2 w2 He Hsub2 HA2 Hbad. apply HE; [done|auto|by etransitivity|].
      intros Hg fields' parts' Hrest' Hwf. rewrite Hrest in Hrest'. destruct x as [f|e'].
      * rewrite <- (app_nil_r (Ok <$> fields')) in Hrest'.
        destruct (well_formed_next _ _ _ _ _ _ _ _ _ _ Hrest' Hparts Hing Hwf) as (part & Hp & Hle & Hd).
        eapply Hbad; eauto with detritus.
      * assert (Err e' ∈ Ok (E := string) <$> fields') as Hin by (rewrite <- Hrest'; apply elem_of_app; right; left).
        by apply list_elem_of_fmap in Hin as (? & [=] & _).
  - intros [dump atts] o1 w1 (Hsub & Ho1 & HA & _ & fields & parts & Hrest & Hparts & Hing).
    rewrite app_nil_r in Hrest. by eapply HO.
  - split; [done|]. split; [done|]. split; [reflexivity|]. split; [done|]. exists [], [].
    split; [done|]. split; [by apply Forall2_nil|]. split; by apply Forall2_nil.
Qed.

(** ** The index *)

Lemma except_overwrite p b now fs : except p fs (overwrite p b now fs).
Proof. unfold overwrite. destruct (fs !! p) as [[]|]; try reflexivity. apply except_insert. Qed.

Lemma overwrite_dir p b now fs : overwrite p b now fs !! p = Some Dir -> fs !! p = Some Dir.
Proof. unfold overwrite. destruct (fs !! p) as [[c t|]|] eqn:E; rewrite ?lookup_insert_eq, ?E; done. Qed.

Lemma overwrite_empty p b now fs t :
  fs !! p = Some (File [] t) -> overwrite p b now fs !! p = Some (File b now).
Proof. intros H. unfold overwrite. by rewrite H, lookup_insert_eq, drop_nil, app_nil_r. Qed.

Lemma wp_write_first p b Q w :
  (forall w', same_env w w' -> w_fs w' = overwrite p b (w_now w) (w_fs w) -> Q (Ok tt) w') ->
  (forall e n w', same_env w w' -> w_faults w <> [] -> w_fs w' = overwrite p (take n b) (w_now w) (w_fs w) ->
     Q (Err e) w') ->
  wp (write_first p b) Q w.
Proof.
  intros HO HE. unfold write_first, wp. apply wp_syscall; [intros; by eapply HE|].
  intros w1 Hfs Henv _. rewrite Hfs. assert (w_now w1 = w_now w) as -> by apply Henv. simpl.
  apply HO; auto with detritus.
Qed.

Section Index.
Context (k : SourceKey) (ts : DateTime) (b text : bytes) (Hk : SourceKey_valid k).
Let path := index_path s k (stamp ts) (sha256_hex b).

(** What the janitor may read of the text, whole or cut short, resolves. *)
Definition readable (fs : gmap Path Node) : Prop :=
  forall n r h, index_ref_from_slice (take n text) = Ok r -> h ∈ index_refs r -> resolves s fs h.

Lemma readable_evolves X fs fs' : evolves s X fs fs' -> readable fs -> readable fs'.
Proof. intros Hev Hr n r h Hn Hh. by eapply resolves_evolves; [|eapply Hr]. Qed.

Lemma readable_step w1 w2 n t h :
  readable (w_fs w1) -> except path (w_fs w1) (w_fs w2) -> w_fs w2 !! path = Some (File (take n text) t) ->
  refers (w_fs w2) path h -> resolves s (w_fs w2) h.
Proof using U CL SL Hk.
  intros Hr Hex Hp (c & t' & r & Hc & _ & Hs & Hh). rewrite Hp in Hc. injection Hc as <- <-.
  eapply (readable_evolves _ (w_fs w1)); [|done..]. by apply (evolves_index s k ts b).
Qed.

Lemma path_leaf : leaf path.
Proof using Hk. right. by exists k, ts, b. Qed.

Lemma safe_create_index o (Q : Result unit io_error -> (Path -> Prop) -> World -> Prop) w :
  (~ Sh path -> o path) -> readable (w_fs w) ->
  (forall w', advances w w' -> (~ Sh path -> exists t, w_fs w' !! path = Some (File [] t)) -> Q (Ok tt) o w') ->
  (forall e w', advances w w' ->
     (good s w -> w_fs w !! (data_dir s ++ ["crashes"; "by-source"; sk_project k; sk_source_id k]) = Some Dir -> False) ->
     Q (Err e) o w') ->
  safe Q (act (file_create path)) o w.
Proof using UL CL SL Hk.
  intros Ho Hread HO HE. apply (safe_leaf _ _ _ _ path); [apply path_leaf|done|]. intros w1 Hr.
  set (d := data_dir s ++ ["crashes"; "by-source"; sk_project k; sk_source_id k]) in *.
  apply (wp_step faults_from); [apply _|].
  apply (wp_also (good s w1 /\ w_fs w1 !! d = Some Dir) _ (fun r w2 => is_ok r = true)).
  { intros [Hg Hd]. unfold path. rewrite index_path_components by done.
    set (x := stamp ts +:+ "-" +:+ sha256_hex b +:+ ".json").
    change ["crashes"; "by-source"; sk_project k; sk_source_id k; x]
      with (["crashes"; "by-source"; sk_project k; sk_source_id k] ++ [x]).
    rewrite app_assoc. apply (wpn_create s); [apply leaf_indexes| |done|done|done].
    intros H. apply (f_equal String.length) in H. unfold x in H. rewrite !append_length in H. simpl in H. lia. }
  assert (forall w2, w_rely (minus o path) w w2 -> advances w w2) as Hto by (by intros w2 [H _]).
  apply wp_file_create.
  - intros w2 Henv Hfs _ Hfl. assert (w_fs w2 !! path = Some (File [] (w_now w1))) as Hp2
      by (rewrite Hfs; apply lookup_insert_eq).
    assert (except path (w_fs w1) (w_fs w2)) as Hex by (rewrite Hfs; apply except_insert).
    split_and!; [done|by rewrite Hp2|done|done| |].
    + right. intros _ h Hh. right. eapply (readable_step w1 w2 0); [|done|done|done].
      eapply readable_evolves; [|done]. apply (adv_evolves _ _ _ _ (proj1 Hr)).
    + intros Hr2. apply HO; [by apply Hto|]. by exists (w_now w1).
  - intros e w2 Henv Hfs Hgood Hfl. rewrite Hfs. split_and!; [done|done|done|done|by right; left|].
    intros Hr2. apply HE; [by apply Hto|]. intros Hg Hd. destruct (adv_good _ _ _ _ (proj1 Hr) Hg) as [Hg1 Hd1].
    enough (is_ok (A := unit) (Err e) = true) by done. apply Hgood. split; [done|by apply Hd1].
Qed.

Lemma safe_write_first o (Q : Result unit io_error -> (Path -> Prop) -> World -> Prop) w :
  (~ Sh path -> o path) -> readable (w_fs w) ->
  (~ Sh path -> exists t, w_fs w !! path = Some (File [] t)) ->
  (forall w', advances w w' -> (~ Sh path -> exists t, w_fs w' !! path = Some (File text t)) -> Q (Ok tt) o w') ->
  (forall e w', advances w w' -> ~ good s w -> Q (Err e) o w') ->
  safe Q (act (write_first path text)) o w.
Proof using UL CL SL Hk.
  intros Ho Hread Hp HO HE. apply (safe_leaf _ _ _ _ path); [apply path_leaf|done|]. intros w1 Hr.
  assert (~ Sh path -> exists t, w_fs w1 !! path = Some (File [] t)) as Hp1.
  { intros HS. destruct (Hp HS) as [t Ht]. exists t. rewrite (proj2 Hr); auto. }
  assert (forall n w2, w_fs w2 = overwrite path (take n text) (w_now w1) (w_fs w1) ->
    except path (w_fs w1) (w_fs w2) /\ (w_fs w2 !! path = Some Dir -> w_fs w1 !! path = Some Dir) /\
    (is_tmp s path \/ ((forall q, ~ Sh q) -> forall h, refers (w_fs w2) path h ->
       refers (w_fs w1) path h \/ resolves s (w_fs w2) h))) as Hstep.
  { intros n w2 Hfs. assert (except path (w_fs w1) (w_fs w2)) as Hex by (rewrite Hfs; apply except_overwrite).
    split; [done|]. split; [rewrite Hfs; apply overwrite_dir|]. right. intros HS h Hh. right.
    destruct (Hp1 (HS path)) as [t Ht]. eapply (readable_step w1 w2 n); [|done| |done].
    - eapply readable_evolves; [|done]. apply (adv_evolves _ _ _ _ (proj1 Hr)).
    - rewrite Hfs. by eapply overwrite_empty. }
  apply (wp_step faults_from); [apply _|]. apply wp_write_first.
  - intros w2 Henv Hfs Hfl. pose proof (Hstep (length text) w2) as Hs. rewrite firstn_all in Hs.
    destruct (Hs Hfs) as (H1 & H2 & H3). split_and!; [done|done|done|done|done|].
    intros [HA _]. apply HO; [done|]. intros HS. destruct (Hp1 HS) as [t Ht]. exists (w_now w1).
    rewrite Hfs. by eapply overwrite_empty.
  - intros e n w2 Henv Hbad Hfs Hfl. destruct (Hstep n w2 Hfs) as (H1 & H2 & H3).
    split_and!; [done|done|done|done|done|]. intros [HA _]. apply HE; [done|]. intros Hg. apply Hbad.
    by destruct (adv_good _ _ _ _ (proj1 Hr) Hg) as [[? _] _].
Qed.
End Index.

Lemma safe_write_index k (m : CrashMetadata U C) b dump atts o (Q : Post unit) w :
  let path := index_path s k (stamp (timestamp m)) (sha256_hex b) in
  let text := json_print_pretty (ser_CrashIndex {| ci_metadata := m; ci_dump := dump; ci_attachments := atts |}) in
  SourceKey_valid k -> bp_sha256 dump = sha256_hex b -> (forall q, o q -> leaf q) ->
  (~ Sh path -> o path) -> readable text (w_fs w) ->
  (forall w', advances w w' -> (~ Sh path -> exists t, w_fs w' !! path = Some (File text t)) -> Q (Ok tt) o w') ->
  (forall e w', advances w w' -> ~ good s w -> Q (Err (CIo e)) o w') ->
  safe Q (write_index_task s k m dump atts) o w.
Proof using UL CL SL.
  intros path text Hk Hsha Ho Hp Hread HO HE. unfold write_index_task. rewrite Hsha.
  rewrite (index_parent s k (timestamp m) b Hk). fold path text.
  apply safe_bind, safe_map_err, safe_mkdir; [apply leaf_indexes|done|].
  intros r w1 Hr1 Hgood1. destruct r as [[]|e]; cbn [map_err];
    [|apply HE; [by eauto with detritus|]; intros Hg; by apply Hgood1 in Hg as []].
  assert (readable text (w_fs w1)) as Hread1.
  { eapply readable_evolves; [|done]. apply (adv_evolves _ _ _ _ (proj1 Hr1)). }
  apply safe_map_err. unfold fs_write_task. apply safe_bind.
  apply (safe_create_index k (timestamp m) b text Hk); [done|done| |].
  - intros w2 HA2 Hp2. apply (safe_write_first k (timestamp m) b text Hk); [done| |done| |].
    + eapply readable_evolves; [|done]. apply (adv_evolves _ _ _ _ HA2).
    + intros w3 HA3 Hp3. cbn [map_err]. apply HO; [|done]. do 2 (etransitivity; eauto with detritus).
    + intros e w3 HA3 Hbad. cbn [map_err]. apply HE; [do 2 (etransitivity; eauto with detritus)|].
      intros Hg. apply Hbad. eauto 6 with detritus.
  - intros e w2 HA2 Hbad. cbn [map_err]. apply HE; [etransitivity; eauto with detritus|].
    intros Hg. apply Hbad; [eauto with detritus|]. by apply Hgood1.
Qed.

(** ** Handlers *)

Lemma safe_app {E A : Type} (p : Prog World E A) o (Q : Result A E -> (Path -> Prop) -> AppState * World -> Prop) st w :
  safe (fun r o' w' => forall st', same_config st st' -> Q r o' (st', w')) p o w -> safe Q (app_task p) o (st, w).
Proof.
  revert st o w. induction p as [r|F X m k IH]; intros st o w Hs; [by apply Hs|].
  intros [st1 w1] [Hc Hr]. apply wp_app_io. eapply wp_mono; [by apply Hs|].
  intros r w2 (o' & Hg & Hs2). exists o'. split; [by split|]. apply IH. eapply safe_mono; [|done].
  intros r' o2 w3 HQ st' Hst'. apply HQ. cbn [fst] in Hc. by etransitivity.
Qed.

(** An action on the application state. *)
Lemma safe_app_act {E A : Type} (m : App E A) (Q : Result A E -> (Path -> Prop) -> AppState * World -> Prop) o st w :
  (forall st1 w1, same_config st st1 -> w_rely o w w1 ->
     wp m (fun r sw => same_config st1 sw.1 /\ sw.2 = w1 /\ Q r o sw) (st1, w1)) ->
  safe Q (act m) o (st, w).
Proof.
  intros Hm. apply safe_act. intros [st1 w1] [Hc Hr]. eapply wp_mono; [by apply Hm|].
  intros r [st2 w2] (Hc2 & Hw2 & HQ). cbn [fst snd] in *. subst w2. exists o. split; [|done].
  split; [done|]. apply guar_same; [reflexivity|done].
Qed.

(** The index a request writes if it is accepted. *)
Definition target (rq : CrashRequest) (q : Path) : Prop :=
  exists fields m rest k f b, request_fields rq = Ok fields /\ first_part fields = Ok (m, rest) /\
    SourceKey_new (src_project (md_source m)) (uuid_to_string (src_install_id (md_source m))) = Ok k /\
    Ok f ∈ rest /\ f_name f = Some "dump" /\ field_bytes f = Some b /\
    q = index_path s k (stamp (timestamp m)) (sha256_hex b).

(** The checks that do not depend on earlier requests. *)
Definition passes (st : AppState) (token : TokenContext) (rq : CrashRequest)
    (m : CrashMetadata U C) (rest : list (Result Field string)) (k : SourceKey) : Prop :=
  (exists fields, request_fields rq = Ok fields /\ first_part fields = Ok (m, rest)) /\
  schema_version m = PROTOCOL_VERSION /\
  SourceKey_new (src_project (md_source m)) (uuid_to_string (src_install_id (md_source m))) = Ok k /\
  permits token k = true /\
  validate (schema_registry st) (src_project (md_source m)) CrashMetadataKind (metadata_to_value m) = Ok tt.

(** What an accepted request has left on disk, whatever the others do: its parts,
    and its index when no other request writes it. *)
Definition recorded_by o fs (max : Z) (m : CrashMetadata U C) (k : SourceKey) (parts : list Part)
    (resp : CrashResponse) : Prop :=
  exists part dump atts,
    filter (fun p => p_attach p = None) parts = [part] /\
    ingested s fs max parts (Some dump) atts /\
    resp = {| cr_id := sha256_hex (p_content part); cr_dedup := bp_dedup dump |} /\
    let path := index_path s k (stamp (timestamp m)) (sha256_hex (p_content part)) in
    (~ Sh path -> o path /\ exists t, fs !! path = Some (File (json_print_pretty (ser_CrashIndex
       {| ci_metadata := m; ci_dump := dump; ci_attachments := atts |})) t)).

Lemma recorded_by_rely o w w' max m k parts resp :
  w_rely o w w' -> recorded_by o (w_fs w) max m k parts resp -> recorded_by o (w_fs w') max m k parts resp.
Proof.
  intros Hr (part & dump & atts & Hf & Hing & Hresp & Hidx). exists part, dump, atts.
  split_and!; [done|by eauto with detritus|done|]. intros path HS. destruct (Hidx HS) as (Ho & t & Ht).
  split; [done|]. exists t. by rewrite (proj2 Hr).
Qed.

(** The dump of a request gives its index. *)
Lemma dump_target rq fields m rest fl parts part k :
  request_fields rq = Ok fields -> first_part fields = Ok (m, rest) ->
  SourceKey_new (src_project (md_source m)) (uuid_to_string (src_install_id (md_source m))) = Ok k ->
  rest = Ok <$> fl -> Forall2 (fun f p => part_of f = Some p) fl parts ->
  part ∈ parts -> p_attach part = None ->
  target rq (index_path s k (stamp (timestamp m)) (sha256_hex (p_content part))).
Proof.
  intros Hf Hfirst Hk -> Hparts Hin Ha. apply list_elem_of_lookup in Hin as [i Hi].
  destruct (Forall2_lookup_r _ _ _ _ _ Hparts Hi) as (f & Hfl & Hp).
  exists fields, m, (Ok <$> fl), k, f, (p_content part). split_and!; try done.
  - apply list_elem_of_fmap. exists f. split; [done|]. by eapply list_elem_of_lookup_2.
  - unfold part_of in Hp. destruct (f_name f) as [name|]; [|done]. cbn [mbind option_bind] in Hp.
    destruct (field_bytes f); [|done]. cbn [mbind option_bind] in Hp.
    destruct (String.eqb_spec name "dump") as [->|]; [done|]. destruct (strip_prefix _ _); [|done].
    by injection Hp as <-.
  - unfold part_of in Hp. destruct (f_name f) as [name|]; [|done]. cbn [mbind option_bind] in Hp.
    destruct (field_bytes f); [|done]. cbn [mbind option_bind] in Hp.
    destruct (String.eqb name "dump"); [by injection Hp as <-|]. destruct (strip_prefix _ _); [|done].
    by injection Hp as <-.
Qed.

Lemma index_readable (st1 : AppState) token rq now m fl k parts dump atts max fs :
  (0 <= max < 2 ^ 63)%Z -> admitted st1 token rq now m (Ok <$> fl) k ->
  Forall2 (fun f p => part_of f = Some p) fl parts -> ingested s fs max parts (Some dump) atts ->
  readable (json_print_pretty (ser_CrashIndex {| ci_metadata := m; ci_dump := dump; ci_attachments := atts |})) fs.
Proof using UL CL SL JL ML HL.
  intros Hmax Hadm Hparts Hing n r h Hr Hh. apply index_text_refs in Hr.
  - rewrite Hr in Hh. by eapply ingested_hashes.
  - eapply index_ok; [exact Hmax|by eapply admitted_parts_text|by eapply admitted_metadata_ok|done].
Qed.

Local Abbreviation AppPost A := (Result A CrashError -> (Path -> Prop) -> AppState * World -> Prop).

Lemma parts_unique fl parts parts' :
  Forall2 (fun (f : Field) p => part_of f = Some p) fl parts -> Forall2 (fun f p => part_of f = Some p) fl parts' ->
  parts = parts'.
Proof.
  intros H. revert parts'. induction H as [|x y l l' Hxy _ IH]; intros ps H'; [by inversion H'|].
  apply Forall2_cons_inv_l in H' as (y' & l2 & Hy & Hl & ->). f_equal; [congruence|by apply IH].
Qed.

(** The dump's part, when there is a dump. *)
Lemma ingested_dump fs max parts dump atts :
  ingested s fs max parts (Some dump) atts ->
  exists part, filter (fun p => p_attach p = None) parts = [part] /\ part ∈ parts /\ p_attach part = None /\
    bp_sha256 dump = sha256_hex (p_content part).
Proof.
  intros [Hd _]. simpl in Hd. apply Forall2_cons_inv_r in Hd as (part & l & ((Hsha & _) & _) & Hl & Heq).
  apply Forall2_nil_inv_r in Hl as ->. exists part. split; [done|].
  assert (part ∈ filter (fun p => p_attach p = None) parts) as Hin by (rewrite Heq; left).
  by apply list_elem_of_filter in Hin as [? ?].
Qed.

(** The checks have passed: storing. *)
Lemma safe_store (sp st st1 : AppState) token rq now m rest k o (Q : AppPost (Z * CrashResponse)) w :
  storage sp = s -> (0 <= max_dump_bytes sp < 2 ^ 63)%Z -> store_ok s (w_fs w) -> (forall q, o q -> leaf q) ->
  admitted st1 token rq now m rest k -> (forall q, target rq q -> ~ Sh q -> o q) ->
  (forall fl parts resp st' o' w', rest = Ok <$> fl ->
     Forall2 (fun f p => part_of f = Some p) fl parts -> same_config st st' -> advances w w' ->
     recorded_by o' (w_fs w') (max_dump_bytes sp) m k parts resp -> Q (Ok (201%Z, resp)) o' (st', w')) ->
  (forall e st' o' w', same_config st st' -> advances w w' ->
     (good s w -> forall fl parts, rest = Ok <$> fl -> well_formed (max_dump_bytes sp) fl parts -> False) ->
     Q (Err e) o' (st', w')) ->
  safe Q (store_task sp k m rest) o (st, w).
Proof using UL CL SL JL ML HL.
  intros Hs Hmax Hok Ho Hadm Htgt HO HE. unfold store_task. rewrite Hs.
  pose proof Hadm as ((fields & Ef & Em) & _ & Ek & _). pose proof (SourceKey_new_Ok _ _ _ Ek) as [_ Hk].
  apply safe_bind, safe_app, safe_ingest_parts; [done| |done|done| |].
  { pose proof (request_fits_multer rq _ Ef) as Hfit. apply first_part_Ok in Em as (mf & -> & _).
    by apply Forall_cons in Hfit as [_ ?]. }
  2: { intros e o' w1 _ _ HA1 Hbad st2 Hc2. by apply HE. }
  intros fl parts dump atts o' w1 Hrest Hparts Hsub Ho' HA1 Hing st2 Hc2.
  apply safe_bind, safe_done. destruct dump as [dump|]; cbn [ok_or].
  2: { apply HE; [done|done|]. intros _ fl' parts' Heq (Hparts' & _ & Hone). rewrite Hrest in Heq.
       apply (list_fmap_eq_inj Ok) in Heq as ->; [|by intros ? ? [= ->]].
       rewrite (parts_unique _ _ _ Hparts Hparts') in *. destruct Hing as [Hd _]. apply Forall2_length in Hd.
       simpl in Hd. lia. }
  destruct (ingested_dump _ _ _ _ _ Hing) as (part & Hpart & Hin & Hatt & Hsha).
  assert (~ Sh (index_path s k (stamp (timestamp m)) (sha256_hex (p_content part))) ->
    o' (index_path s k (stamp (timestamp m)) (sha256_hex (p_content part)))) as Hown.
  { intros HS. apply Hsub, Htgt; [|done]. by eapply dump_target. }
  apply safe_bind, safe_app_act. intros st3 w3 Hc3 Hr3. apply wp_modify_metrics. intros st4 Hc4 _ _.
  cbn [fst snd]. split; [done|]. split; [done|].
  apply safe_bind, safe_app_act. intros st5 w5 Hc5 Hr5. apply wp_modify_metrics. intros st6 Hc6 _ _.
  cbn [fst snd]. split; [done|]. split; [done|].
  assert (same_config st st6) as Hc by (do 5 (etransitivity; [eassumption|]); reflexivity).
  assert (advances w1 w5) as HA5 by (etransitivity; eauto with detritus).
  apply (advances_ingested _ _ _ _ _ _ HA5) in Hing.
  apply safe_bind, safe_app, (safe_write_index _ _ (p_content part)); [done|done|done|done| | |].
  - rewrite Hrest in Hadm. by eapply index_readable.
  - intros w6 HA6 Hidx st7 Hc7. rewrite Hsha. eapply HO; [done|done|by etransitivity|by do 2 (etransitivity; [eassumption|])|].
    exists part, dump, atts. split_and!; [done|by eauto with detritus|done|]. intros path HS. split; [by apply Hown|by apply Hidx].
  - intros e w6 HA6 Hbad st7 Hc7. apply HE; [by etransitivity|by do 2 (etransitivity; [eassumption|])|].
    intros Hg. exfalso. apply Hbad. eauto with detritus.
Qed.

(** Which checks a request passes is determined by the request. *)
Lemma passes_unique (st : AppState) token rq fields m rest m' rest' k' :
  request_fields rq = Ok fields -> first_part fields = Ok (m, rest) -> passes st token rq m' rest' k' ->
  m' = m /\ rest' = rest.
Proof.
  intros Ef Em ((f & Hf & Hp) & _). rewrite Ef in Hf. injection Hf as <-. rewrite Em in Hp. by injection Hp.
Qed.

(** A request that stops at a check is not among those that pass. *)
Ltac refuse HE :=
  apply HE; [done|done|]; intros _ m' fl' k' parts' Hp';
  lazymatch goal with
  | Em : first_part _ = Ok (_, _), Ef : request_fields _ = Ok _ |- _ =>
      destruct (passes_unique _ _ _ _ _ _ _ _ _ Ef Em Hp') as [-> _]
  | _ => idtac
  end;
  destruct Hp' as ((f' & Hf' & Hm') & Hv' & Hk' & Hpm' & Hval'); simplify_eq; congruence.

Lemma safe_crashes_inner (st : AppState) token rq now o (Q : AppPost (Z * CrashResponse)) w :
  storage st = s -> (0 <= max_dump_bytes st < 2 ^ 63)%Z -> store_ok s (w_fs w) -> (forall q, o q -> leaf q) ->
  (forall q, target rq q -> ~ Sh q -> o q) ->
  (forall st1 m fl k parts resp st' o' w', same_config st st1 -> admitted st1 token rq now m (Ok <$> fl) k ->
     Forall2 (fun f p => part_of f = Some p) fl parts -> same_config st st' -> advances w w' ->
     recorded_by o' (w_fs w') (max_dump_bytes st) m k parts resp -> Q (Ok (201%Z, resp)) o' (st', w')) ->
  (forall e st' o' w', same_config st st' -> advances w w' ->
     (good s w -> forall m fl k parts, passes st token rq m (Ok <$> fl) k ->
        well_formed (max_dump_bytes st) fl parts -> e = RateLimited) -> Q (Err e) o' (st', w')) ->
  safe Q (crashes_inner_task token rq now) o (st, w).
Proof using UL CL SL JL ML HL.
  intros Hs Hmax Hok Ho Htgt HO HE. unfold crashes_inner_task.
  apply safe_bind, safe_app_act. intros st1 w1 Hc1 Hr1. unfold get_state, wp. cbn [fst snd].
  split; [reflexivity|]. split; [done|]. pose proof Hc1 as (Hs1 & Hm1 & Hreg1).
  pose proof (rely_advances _ _ _ Hr1) as HA1.
  apply safe_bind, safe_done. destruct (request_fields rq) as [fields|e] eqn:Ef; [|refuse HE].
  apply safe_bind, safe_done. destruct (first_part fields) as [[m rest]|e] eqn:Em; [|refuse HE].
  apply safe_bind. destruct (Z.eqb_spec (schema_version m) PROTOCOL_VERSION) as [Hv|Hv]; apply safe_done; [|refuse HE].
  apply safe_bind, safe_done. destruct (SourceKey_new _ _) as [k|e] eqn:Ek; cbn [map_err]; [|refuse HE].
  apply safe_bind. destruct (permits token k) eqn:Ep; apply safe_done; [|refuse HE].
  apply safe_bind, safe_app_act. intros st2 w2 Hc2 Hr2. apply wp_app_limit. intros st3 Hc3 _ _.
  assert (same_config st st2) as Hc02 by (by etransitivity).
  assert (same_config st st3) as Hc03 by (by etransitivity).
  assert (advances w w2) as HA2 by (etransitivity; eauto with detritus).
  cbn [fst snd]. split; [done|]. split; [done|].
  destruct ((check_crashes (rate_limiter st2) now (tc_id token) k).1) as [[]|] eqn:El; cbn [map_err];
    [|by apply HE].
  rewrite Hreg1. apply safe_bind. destruct (validate _ _ _ _) as [[]|e] eqn:Ev.
  2: { apply safe_bind, safe_app_act. intros st4 w4 Hc4 Hr4. apply wp_modify_metrics. intros st5 Hc5 _ _.
       assert (same_config st st5) by (do 2 (etransitivity; [eassumption|]); done).
       assert (advances w w4) by (etransitivity; eauto with detritus).
       cbn [fst snd]. split; [done|]. split; [done|]. apply safe_done. refuse HE. }
  assert (admitted st2 token rq now m rest k) as Hadm.
  { split; [by eauto|]. split; [done|]. split; [done|]. split; [done|]. split; [done|].
    by destruct Hc02 as (_ & _ & ->). }
  apply safe_done. eapply (safe_store st1 st3 st2 token rq now); rewrite ?Hs1, ?Hm1; [done|done| |done|done|done| |].
  - eauto with detritus.
  - intros fl parts resp st' o' w' -> Hparts Hc' HA' Hrec.
    eapply (HO st2); [done|exact Hadm|done|by etransitivity|by etransitivity|done].
  - intros e st' o' w' Hc' HA' Hbad. apply HE; [by etransitivity|by etransitivity|].
    intros Hg m' fl k' parts Hp Hwf. destruct (passes_unique _ _ _ _ _ _ _ _ _ Ef Em Hp) as [-> Hrest].
    exfalso. eapply Hbad; eauto with detritus.
Qed.

Lemma safe_crashes_handler (st : AppState) token rq now elapsed o (Q : AppPost (Z * CrashResponse)) w :
  storage st = s -> (0 <= max_dump_bytes st < 2 ^ 63)%Z -> store_ok s (w_fs w) -> (forall q, o q -> leaf q) ->
  (forall q, target rq q -> ~ Sh q -> o q) ->
  (forall st1 m fl k parts resp st' o' w', same_config st st1 -> admitted st1 token rq now m (Ok <$> fl) k ->
     Forall2 (fun f p => part_of f = Some p) fl parts -> same_config st st' -> advances w w' ->
     recorded_by o' (w_fs w') (max_dump_bytes st) m k parts resp -> Q (Ok (201%Z, resp)) o' (st', w')) ->
  (forall e st' o' w', same_config st st' -> advances w w' ->
     (good s w -> forall m fl k parts, passes st token rq m (Ok <$> fl) k ->
        well_formed (max_dump_bytes st) fl parts -> e = RateLimited) -> Q (Err e) o' (st', w')) ->
  safe Q (crashes_handler_task token rq now elapsed) o (st, w).
Proof using UL CL SL JL ML HL.
  intros Hs Hmax Hok Ho Htgt HO HE. unfold crashes_handler_task. apply safe_bind, safe_try.
  apply safe_crashes_inner; try done.
  - intros st1 m fl k parts resp st2 o2 w2 Hc1 Hadm Hparts Hc2 HA2 Hrec.
    apply safe_bind, safe_app_act. intros st3 w3 Hc3 Hr3. apply wp_modify_metrics. intros st4 Hc4 _ _.
    cbn [fst snd]. split; [done|]. split; [done|]. apply safe_done.
    eapply (HO st1); [done|exact Hadm|done|do 2 (etransitivity; [eassumption|]); done|etransitivity; eauto with detritus|].
    by eapply recorded_by_rely.
  - intros e st2 o2 w2 Hc2 HA2 Hbad.
    apply safe_bind, safe_app_act. intros st3 w3 Hc3 Hr3. apply wp_modify_metrics. intros st4 Hc4 _ _.
    cbn [fst snd]. split; [done|]. split; [done|]. apply safe_done.
    apply HE; [do 2 (etransitivity; [eassumption|]); done|etransitivity; eauto with detritus|done].
Qed.
End Parallel.
