(* ===== verification/CrashConcurrent.v ===== *)
(** * Concurrent crash requests: the properties

    Any number of requests served at the same time, interleaved at every system
    call by any schedule, with the rest of the process acting in between. *)

From Stdlib Require Import Ascii.
From S2P Require Import Prelude RustStd Fs External Instances Json Protocol Metrics Schemas Storage F64 RateLimit Auth State Crashes CrashStore CrashIngest CrashProgress Janitor Retention Refs System Concurrency CrashTasks CrashRely CrashParallel.

(** ** What every action does: names are only drawn, and files lie in directories *)

Definition tidy (w w' : World) : Prop :=
  (w_uuids w <= w_uuids w')%nat /\ (wf_world w -> wf_world w').

#[export] Instance tidy_preorder : PreOrder tidy.
Proof. split; unfold tidy; [done|]. intros a b c [? ?] [? ?]. split; [lia|auto]. Qed.

Lemma syscall_uuids {A : Type} (part : nat -> gmap Path Node -> gmap Path Node)
    (op : World -> Result A io_error * gmap Path Node) w : w_uuids (syscall part op w).2 = w_uuids w.
Proof.
  unfold syscall, next_fault. destruct (w_faults w) as [|[f|] fl]; [|done|];
    match goal with |- context [op ?x] => by destruct (op x) end.
Qed.

Lemma tidy_step {A : Type} (m : IO io_error A) :
  (forall w, w_uuids (m w).2 = w_uuids w) -> Keeps wf_world m -> Step tidy m.
Proof. intros Hu Hw w. split; [by rewrite Hu|apply Hw]. Qed.

Lemma fs_wf_overwrite p b now fs : fs_wf fs -> fs_wf (overwrite p b now fs).
Proof.
  intros Hwf. unfold overwrite. destruct (fs !! p) as [[c t|]|] eqn:Ep; [|done|done].
  intros r q n Hr Hp Hne. assert (fs !! q = Some Dir) as Hdir.
  { destruct (decide (p = r)) as [<-|]; [by eapply Hwf|]. rewrite lookup_insert_ne in Hr by done. by eapply Hwf. }
  rewrite lookup_insert_ne; [done|congruence].
Qed.

#[export] Instance write_first_wf p b : Keeps wf_world (write_first p b).
Proof. intros w. apply keeps_syscall; intros; simpl; by apply fs_wf_overwrite. Qed.

#[export] Instance create_dir_all_tidy p : Step tidy (create_dir_all p).
Proof. apply tidy_step; [intros w; apply syscall_uuids|apply _]. Qed.

#[export] Instance file_create_tidy p : Step tidy (file_create p).
Proof. apply tidy_step; [intros w; apply syscall_uuids|apply _]. Qed.

#[export] Instance write_all_tidy p b : Step tidy (write_all p b).
Proof. apply tidy_step; [intros w; apply syscall_uuids|apply _]. Qed.

#[export] Instance write_first_tidy p b : Step tidy (write_first p b).
Proof. apply tidy_step; [intros w; apply syscall_uuids|apply _]. Qed.

#[export] Instance sync_file_tidy p : Step tidy (sync_file p).
Proof. apply tidy_step; [intros w; apply syscall_uuids|apply _]. Qed.

#[export] Instance try_exists_tidy p : Step tidy (try_exists p).
Proof. apply tidy_step; [intros w; apply syscall_uuids|apply _]. Qed.

#[export] Instance hard_link_tidy p q : Step tidy (hard_link p q).
Proof. apply tidy_step; [intros w; apply syscall_uuids|apply _]. Qed.

#[export] Instance remove_file_tidy p : Step tidy (remove_file p).
Proof. apply tidy_step; [intros w; apply syscall_uuids|apply _]. Qed.

Section Concurrent.
Context {U : UuidApi} {UL : UuidLaws U} {C : ChronoApi} {CL : ChronoLaws C}
  {S : Sha256Api} {SL : Sha256Laws S} {J : JsonText} {JL : JsonTextLaws J}
  {M : MulterApi} {ML : MulterLaws M} {HT : HttpApi} {HL : HttpLaws HT} {V : JsonSchemaApi}.

#[export] Instance uuid_tidy E : Step tidy (@uuid_new_v4 U E).
Proof. intros w. split; [simpl; lia|done]. Qed.

Definition app_tidy (sw sw' : AppState * World) : Prop := tidy sw.2 sw'.2.

#[export] Instance app_tidy_preorder : PreOrder app_tidy.
Proof. split; unfold app_tidy; [intros a; reflexivity|]. intros a b c ? ?. by etransitivity. Qed.

#[export] Instance app_task_tidy {E A : Type} (p : Prog World E A) : Acts tidy p -> Acts app_tidy (app_task p).
Proof.
  unfold Acts. induction p as [r|F X m k IH]; [done|]. intros [Hm Hk]. split; [|intros r; apply IH, Hk].
  intros [st w]. unfold app_io, app_tidy. simpl. specialize (Hm w). by destruct (m w).
Qed.

#[export] Instance modify_metrics_tidy E f : Step app_tidy (@modify_metrics V E f).
Proof. intros sw. unfold app_tidy. simpl. reflexivity. Qed.

#[export] Instance get_state_tidy E : Step app_tidy (@get_state V E).
Proof. intros sw. unfold app_tidy. simpl. reflexivity. Qed.

#[export] Instance app_limit_tidy E f err : Step app_tidy (@app_limit V E f err).
Proof. intros sw. unfold app_tidy, app_limit. destruct (f _). simpl. reflexivity. Qed.

#[export] Instance write_part_tidy s f max : Acts tidy (write_part_task s f max).
Proof. unfold write_part_task, finalize_blob_task, copy_chunk_task. cbv zeta. apply _. Qed.

#[export] Instance ingest_part_tidy s max acc next : Acts tidy (ingest_part_task s max acc next).
Proof. unfold ingest_part_task. cbv zeta. apply _. Qed.

#[export] Instance write_index_tidy s k m d a : Acts tidy (write_index_task s k m d a).
Proof. unfold write_index_task, fs_write_task. cbv zeta. apply _. Qed.

#[export] Instance crashes_handler_tidy token rq now elapsed :
  Acts app_tidy (crashes_handler_task token rq now elapsed).
Proof. unfold crashes_handler_task, crashes_inner_task, store_task. cbv zeta. apply _. Qed.

(** ** Pools of uploads *)

Record Upload := {
  up_token : TokenContext;
  up_request : CrashRequest;
  up_now : Z;
  up_elapsed : Z
}.

Definition upload_task (u : Upload) : Prog (AppState * World) CrashError (Z * CrashResponse) :=
  crashes_handler_task (up_token u) (up_request u) (up_now u) (up_elapsed u).

(** The requests served at the same time, in a state of the server. *)
Definition serving_pool (ups : list Upload) (st : AppState) (w : World)
  : Pool (AppState * World) CrashError (Z * CrashResponse) := (upload_task <$> ups, (st, w)).

(** The names drawn up to here differ. *)
Definition names_differ (n : nat) : Prop := forall a b, (a < b < n)%nat -> new_v4 a <> new_v4 b.

(** An index that two of the requests write. *)
Definition contested (s : StoragePaths) (ups : list Upload) (q : Path) : Prop :=
  exists i j u v, i <> j /\ ups !! i = Some u /\ ups !! j = Some v /\
    target s (up_request u) q /\ target s (up_request v) q.

(** Steps of the rest of the process: they stay out of [tmp] and [crashes]. *)
Definition in_area (s : StoragePaths) (q : Path) : Prop :=
  (data_dir s ++ ["tmp"]) `prefix_of` q \/ (data_dir s ++ ["crashes"]) `prefix_of` q.

Record bystander (s : StoragePaths) (f : AppState * World -> AppState * World) : Prop := {
  by_config sw : same_config sw.1 (f sw).1;
  by_tidy sw : tidy sw.2 (f sw).2;
  by_area sw q : in_area s q -> w_fs (f sw).2 !! q = w_fs sw.2 !! q;
  by_good sw : good s sw.2 -> good s (f sw).2 /\
    forall q, w_fs sw.2 !! q = Some Dir -> w_fs (f sw).2 !! q = Some Dir
}.

Definition fine_choice (s : StoragePaths) (c : Choice (AppState * World)) : Prop :=
  match c with Turn _ => True | Env f => bystander s f end.

(** What is known of a request that has ended. *)
Definition upload_post (s : StoragePaths) (ups : list Upload) (st : AppState) (w : World)
    (i : nat) (r : Result (Z * CrashResponse) CrashError) (o : Path -> Prop) (sw : AppState * World) : Prop :=
  forall u, ups !! i = Some u ->
  match r with
  | Ok (status, resp) => status = 201%Z /\ exists st1 m fl k parts,
      same_config st st1 /\ admitted st1 (up_token u) (up_request u) (up_now u) m (Ok <$> fl) k /\
      Forall2 (fun f p => part_of f = Some p) fl parts /\
      recorded_by s (contested s ups) o (w_fs sw.2) (max_dump_bytes st) m k parts resp
  | Err e => good s w -> forall m fl k parts, passes st (up_token u) (up_request u) m (Ok <$> fl) k ->
      well_formed (max_dump_bytes st) fl parts -> e = RateLimited
  end.

Section Run.
Context (s : StoragePaths) (N : nat) (ups : list Upload) (st : AppState) (w : World).
Context (Hst : storage st = s) (Hmax : (0 <= max_dump_bytes st < 2 ^ 63)%Z) (Hok : store_ok s (w_fs w)).
Context (Hnames : names_differ N).

Lemma target_index rq q : target s rq q -> is_index s q.
Proof.
  intros (fields & m & rest & k & f & b & _ & _ & [_ Hk]%SourceKey_new_Ok & _ & _ & _ & ->).
  by exists k, (timestamp m), b.
Qed.

Lemma contested_index q : contested s ups q -> is_index s q.
Proof. intros (i & j & u & v & _ & _ & _ & Ht & _). by eapply target_index. Qed.

#[local] Hint Extern 0 (RelyGuarantee (AppState * World) _) =>
  exact (AppRely s N (contested s ups)) : typeclass_instances.

Lemma serving_laws : RelyGuaranteeLaws (AppState * World) (Path -> Prop).
Proof using UL CL SL Hnames. apply AppRelyLaws; [apply contested_index|apply Hnames]. Qed.

#[local] Existing Instance serving_laws.

(** The requests start safe, each owning its index if it is not contested. *)
Lemma serving_pool_inv : pool_inv (upload_post s ups st w) (serving_pool ups st w).
Proof using UL CL SL JL ML HL Hst Hmax Hok Hnames.
  exists ((fun u q => target s (up_request u) q /\ ~ contested s ups q) <$> ups).
  unfold serving_pool. cbn [fst snd]. rewrite !length_fmap. split_and!; [done| |].
  - intros i p o Hp Ho. apply list_lookup_fmap_Some in Hp as (u & -> & Hu).
    rewrite list_lookup_fmap, Hu in Ho. injection Ho as <-. split.
    + intros q [Ht Hc]. split; [done|]. left. by eapply target_index.
    + exists (st, w). split; [|reflexivity].
      apply safe_crashes_handler; [done|done|done|by intros q [Ht%target_index _]; right|by split| |].
      * intros st1 m fl k parts resp st' o' w' Hc1 Hadm Hparts _ _ Hrec u' Hu'.
        rewrite Hu in Hu'. injection Hu' as <-. split; [done|]. by exists st1, m, fl, k, parts.
      * intros e st' o' w' _ _ Hbad u' Hu'. rewrite Hu in Hu'. injection Hu' as <-. done.
  - intros i j oi oj Hij Hi Hj q Hqi Hqj.
    apply list_lookup_fmap_Some in Hi as (u & -> & Hu). apply list_lookup_fmap_Some in Hj as (v & -> & Hv).
    destruct Hqi as [Ht Hnc], Hqj as [Ht' _]. apply Hnc. by exists i, j, u, v.
Qed.

(** A bystander is what every request relies on. *)
Lemma leaf_in_area q : leaf s q -> in_area s q.
Proof using UL CL SL.
  intros [[u ->]|(k & ts & b & Hk & ->)]; [left; rewrite temp_path_components|right; rewrite index_path_components by done];
    eexists; by rewrite <- app_assoc.
Qed.

Lemma blob_in_area q : is_blob s q -> in_area s q.
Proof using SL. intros (p & h & ->)%is_blob_components. right. eexists. by rewrite <- app_assoc. Qed.

Lemma bystander_advances f sw : bystander s f -> advances s (contested s ups) sw.2 (f sw).2.
Proof using UL CL SL.
  intros Hf. assert (evolves s (fun _ => True) (w_fs sw.2) (w_fs (f sw).2)) as Hev.
  { apply evolves_frame; [intros q; by auto|]. intros q Hq. by apply (by_area _ _ Hf), blob_in_area. }
  split; [apply (by_tidy _ _ Hf)|done| |apply (by_good _ _ Hf)].
  intros _. apply (refs_ok_step _ _ _ _ Hev). intros q h (r & -> & _) Hr. left. eapply refers_same; [|done].
  apply (by_area _ _ Hf). right. destruct (roots_components s) as (_ & -> & _).
  exists ("by-source" :: r). by rewrite <- !app_assoc.
Qed.

Lemma fine_env c : fine_choice s c -> env_fine c.
Proof using UL CL SL.
  destruct c as [i|f]; [done|]. intros Hf o sw Ho. split; [apply (by_config _ _ Hf)|].
  split; [by apply bystander_advances|]. intros q Hq. apply (by_area _ _ Hf), leaf_in_area.
  destruct (Ho q Hq) as [_ [Hi|(n & _ & ->)]]; [by right|left; by eexists].
Qed.

Lemma upload_post_stable i r o sw sw' :
  upload_post s ups st w i r o sw -> rely o sw sw' -> upload_post s ups st w i r o sw'.
Proof.
  intros Hp [_ Hr] u Hu. specialize (Hp u Hu). destruct r as [[status resp]|e]; [|done].
  destruct Hp as (Hs & st1 & m & fl & k & parts & Hc & Hadm & Hparts & Hrec). split; [done|].
  exists st1, m, fl, k, parts. split_and!; [done|done|done|].
  exact (recorded_by_rely s (contested s ups) o sw.2 sw'.2 _ _ _ _ _ Hr Hrec).
Qed.

Lemma serving_acts : Forall (Acts app_tidy) (serving_pool ups st w).1.
Proof. apply Forall_forall. intros p Hp. apply list_elem_of_fmap in Hp as (u & -> & _). apply crashes_handler_tidy. Qed.

Lemma fine_tidy cs : Forall (fine_choice s) cs -> Forall (env_acts app_tidy) cs.
Proof.
  intros Hcs. eapply Forall_impl; [exact Hcs|]. intros [i|f] Hf; [done|]. intros sw. apply (by_tidy _ _ Hf).
Qed.

Definition app_advances (sw sw' : AppState * World) : Prop := advances s (contested s ups) sw.2 sw'.2.

#[local] Instance app_advances_preorder : PreOrder app_advances.
Proof.
  pose proof (advances_preorder s (contested s ups)). split; unfold app_advances; [intros a; reflexivity|].
  intros a b c ? ?. by etransitivity.
Qed.

(** The invariant at the end of a run, and what the run did on the whole. *)
Lemma serving_run cs :
  let fin := run_pool cs (serving_pool ups st w) in
  Forall (fine_choice s) cs -> (w_uuids fin.2.2 <= N)%nat ->
  pool_inv (upload_post s ups st w) fin /\ advances s (contested s ups) w fin.2.2 /\ tidy w fin.2.2.
Proof using UL CL SL JL ML HL Hst Hmax Hok Hnames.
  intros fin Hcs HN. pose proof serving_acts as Hacts. pose proof (fine_tidy cs Hcs) as Henv.
  assert (stays_within cs (serving_pool ups st w)) as Hin.
  { intros cs1 cs2 Heq. subst cs.
    destruct (run_pool_acts_prefix app_tidy cs1 cs2 _ Hacts Henv) as [Hle _].
    exact (Nat.le_trans _ _ _ Hle HN). }
  assert (Forall env_fine cs) as Hfine by (eapply Forall_impl; [exact Hcs|apply fine_env]).
  split; [by apply run_pool_inv; [..|apply serving_pool_inv]|]. split.
  - apply (run_pool_rel (upload_post s ups st w) app_advances cs (serving_pool ups st w)); [| |done|done|apply serving_pool_inv].
    + by intros o o' sw sw' _ [_ [HA _]].
    + eapply Forall_impl; [exact Hcs|]. intros [i|f] Hf; [done|]. intros sw. by apply bystander_advances.
  - apply (run_pool_acts app_tidy cs _ Hacts Henv).
Qed.
End Run.

(** ** Properties *)

(** What an accepted upload has left on disk: every part in the store, and, when
    no other of the requests writes the same index, the index. *)
Definition upload_recorded (s : StoragePaths) (ups : list Upload) (fs : gmap Path Node) (max : Z)
    (m : CrashMetadata U C) (k : SourceKey) (parts : list Part) (resp : CrashResponse) : Prop :=
  exists part dump atts,
    filter (fun p => p_attach p = None) parts = [part] /\
    ingested s fs max parts (Some dump) atts /\
    resp = {| cr_id := sha256_hex (p_content part); cr_dedup := bp_dedup dump |} /\
    let path := index_path s k (stamp (timestamp m)) (sha256_hex (p_content part)) in
    (~ contested s ups path -> exists t, fs !! path = Some (File (json_print_pretty (ser_CrashIndex
       {| ci_metadata := m; ci_dump := dump; ci_attachments := atts |})) t)).

Lemma recorded_by_upload s ups o fs max m k parts resp :
  recorded_by s (contested s ups) o fs max m k parts resp -> upload_recorded s ups fs max m k parts resp.
Proof.
  intros (part & dump & atts & Hf & Hing & Hresp & Hidx). exists part, dump, atts. split_and!; try done.
  intros path Hc. by destruct (Hidx Hc) as [_ ?].
Qed.

(** C4. Concurrent uploads are recorded: any number of crash requests are served
    at the same time, interleaved at every system call by any schedule, with any
    calls failing and the rest of the process acting in between outside the crash
    store.  At every moment the store is sound and no blob has been changed or
    removed; if no two requests write the same index, the whole data directory is
    sound.  A request that has been answered with success passed its checks, and
    all its parts are in the store, also when several requests raced to store the
    same content; its index is there, complete, unless another of the requests
    writes the same index.  The names of the temporary files are assumed to
    differ. *)
Theorem concurrent_uploads_recorded st w ups cs :
  let s := storage st in
  let fin := run_pool cs (serving_pool ups st w) in
  (0 <= max_dump_bytes st < 2 ^ 63)%Z -> store_ok s (w_fs w) -> Forall (fine_choice s) cs ->
  names_differ (w_uuids fin.2.2) ->
  store_ok s (w_fs fin.2.2) /\
  (forall q n, is_blob s q -> w_fs w !! q = Some n -> w_fs fin.2.2 !! q = Some n) /\
  ((forall q, ~ contested s ups q) -> sound s (w_fs w) -> sound s (w_fs fin.2.2)) /\
  (forall i u status resp, ups !! i = Some u -> result_of fin.1 i = Some (Ok (status, resp)) ->
     status = 201%Z /\ exists st1 m fl k parts,
       same_config st st1 /\ admitted st1 (up_token u) (up_request u) (up_now u) m (Ok <$> fl) k /\
       Forall2 (fun f p => part_of f = Some p) fl parts /\
       upload_recorded s ups (w_fs fin.2.2) (max_dump_bytes st) m k parts resp).
Proof using UL CL SL JL ML HL.
  intros s fin Hmax Hok Hcs Hnames.
  destruct (serving_run s (w_uuids fin.2.2) ups st w eq_refl Hmax Hok Hnames cs Hcs) as (Hinv & HA & _ & Hwf);
    [done|]. fold fin in Hinv, HA, Hwf. pose proof (adv_evolves _ _ _ _ HA) as (_ & HB & HK). split_and!.
  - by apply HK.
  - done.
  - intros Hnc [H1 H2 H3]. split; [by apply Hwf|by apply HK|by apply (adv_refs _ _ _ _ HA)].
  - intros i u status resp Hu Hr.
    destruct (pool_inv_result _ _ _ _ (upload_post_stable s (w_uuids fin.2.2) ups st w i) Hinv Hr) as (o & _ & Hp).
    destruct (Hp u Hu) as (Hs & st1 & m & fl & k & parts & Hc & Hadm & Hparts & Hrec). split; [done|].
    exists st1, m, fl, k, parts. split_and!; [done|done|done|]. by eapply recorded_by_upload.
Qed.

(** C5. Concurrent uploads are all served: any number of crash requests, under any
    fair schedule that interleaves them at every system call, the rest of the
    process acting in between outside the crash store.  There is a moment from
    which on each has been answered.  If no call fails, the store is sound, nothing
    is in the way in the data directory and the names of the temporary files
    differ, every request that passes the checks and carries one dump and
    attachments within the size limit has then been answered 201, or 429 because
    the limiter refused it, however the requests interfere. *)
Theorem concurrent_uploads_served st w ups (sigma : nat -> Choice (AppState * World)) :
  let s := storage st in
  let fin n := prefix_run sigma n (serving_pool ups st w) in
  (0 <= max_dump_bytes st < 2 ^ 63)%Z -> (forall n, fine_choice s (sigma n)) -> fair sigma (length ups) ->
  exists n, forall n', (n <= n')%nat -> forall i u, ups !! i = Some u ->
    exists r, result_of (fin n').1 i = Some r /\
      (store_ok s (w_fs w) -> good s w -> names_differ (w_uuids (fin n').2.2) ->
       forall m fl k parts, passes st (up_token u) (up_request u) m (Ok <$> fl) k ->
         well_formed (max_dump_bytes st) fl parts ->
         r = Err RateLimited \/ exists resp, r = Ok (201%Z, resp)).
Proof using UL CL SL JL ML HL.
  intros s fin Hmax Hfine Hfair.
  destruct (fair_ends_all sigma (serving_pool ups st w)) as [n Hn].
  { unfold serving_pool. cbn [fst]. by rewrite length_fmap. }
  exists n. intros n' Hle i u Hu. destruct (Hn i) as [r Hr].
  { unfold serving_pool. cbn [fst]. rewrite length_fmap. by eapply lookup_lt_Some. }
  apply (prefix_run_stable sigma n n') in Hr; [|done]. exists r. split; [done|].
  intros Hok Hgood Hnames m fl k parts Hpass Hwf.
  assert (Forall (fine_choice s) (sigma <$> seq 0 n')) as Hcs.
  { apply Forall_forall. intros c Hc. apply list_elem_of_fmap in Hc as (x & -> & _). apply Hfine. }
  destruct (serving_run s (w_uuids (fin n').2.2) ups st w eq_refl Hmax Hok Hnames _ Hcs) as (Hinv & _); [done|].
  destruct (pool_inv_result _ _ _ _ (upload_post_stable s (w_uuids (fin n').2.2) ups st w i) Hinv Hr) as (o & _ & Hp).
  specialize (Hp u Hu). destruct r as [[status resp]|e].
  - destruct Hp as [-> _]. right. by exists resp.
  - left. f_equal. by apply (Hp Hgood m fl k parts).
Qed.
End Concurrent.

(** ** Concrete runs *)

Definition crash_upload : Upload :=
  {| up_token := sample_token; up_request := crash_request; up_now := 0; up_elapsed := 0 |}.

Definition turns (i n : nat) : list (Choice (AppState * World)) := replicate n (Turn i).

(** Both requests check for the blob before either links it. *)
Definition alternating : list (Choice (AppState * World)) := concat (replicate 20 [Turn 0; Turn 1]).

Definition two_uploads (cs : list (Choice (AppState * World))) :=
  run_pool cs (serving_pool (J := ToyJson) [crash_upload; crash_upload] sample_state empty_world).

Lemma toy_names_differ : names_differ 2.
Proof.
  intros a b Hab H. assert (a = 0 /\ b = 1)%nat as [-> ->] by lia.
  apply (f_equal uuid_to_string) in H. vm_compute in H. discriminate H.
Qed.

Lemma turns_fine s cs : Forall (fun c : Choice (AppState * World) => match c with Turn _ => True | Env _ => False end) cs ->
  Forall (fine_choice s) cs.
Proof. intros H. eapply Forall_impl; [exact H|]. by intros [i|f]. Qed.

(** Two uploads of one crash race to link its dump: both are accepted, the second
    to link as a duplicate, and the store is sound. *)
Lemma concurrent_uploads_recorded_witness :
  let fin := two_uploads alternating in
  (exists resp, result_of fin.1 0 = Some (Ok (201%Z, resp)) /\ cr_dedup resp = false) /\
  (exists resp, result_of fin.1 1 = Some (Ok (201%Z, resp)) /\ cr_dedup resp = true) /\
  store_ok sample_storage (w_fs fin.2.2).
Proof.
  split; [eexists; split; vm_compute; reflexivity|]. split; [eexists; split; vm_compute; reflexivity|].
  destruct (concurrent_uploads_recorded (J := ToyJson) sample_state empty_world [crash_upload; crash_upload] alternating)
    as [Hok _]; [| | | |exact Hok].
  - vm_compute. split; congruence.
  - apply empty_store_ok.
  - apply turns_fine. vm_compute. repeat constructor.
  - replace (w_uuids _) with 2%nat by (vm_compute; reflexivity). exact toy_names_differ.
Defined.

(** The parts after the metadata, and what they mean. *)
Definition crash_fields : list Field :=
  match toy_field (as_bytes "dump=core") with Ok f => [f] | Err _ => [] end.

Definition crash_parts : list Part := [{| p_attach := None; p_content := as_bytes "core"; p_encoding := None |}].

Lemma crash_request_passes :
  passes (J := ToyJson) sample_state sample_token crash_request sample_metadata (Ok <$> crash_fields) sample_key.
Proof.
  split; [|split_and!; vm_compute; reflexivity].
  exists (multipart (rq_body crash_request) "multipart/form-data"). split; [reflexivity|].
  assert (toy_field (as_bytes "metadata=" ++ metadata_text) =
    Ok {| f_name := Some "metadata"; f_content_type := None; f_content_encoding := None; f_chunks := [Ok metadata_text] |}) as Hf
    by (vm_compute; reflexivity).
  cbn [multipart ToyMulter rq_body crash_request fmap list_fmap]. rewrite Hf. unfold first_part.
  cbn [map_err]. rewrite decide_True by done. unfold read_metadata. cbn [f_chunks try_fold].
  unfold read_metadata_chunk. cbn [map_err app].
  replace (METADATA_MAX_BYTES <? _)%Z with false by (vm_compute; reflexivity).
  unfold metadata_text. change (json_print (ser_CrashMetadata sample_metadata)) with (@metadata_to_vec _ _ ToyJson sample_metadata).
  rewrite metadata_from_to_vec; [reflexivity| |reflexivity|unfold context_fits, RECURSION_LIMIT; simpl; lia|reflexivity].
  split; [unfold U32_MAX; simpl; lia|]. split; [reflexivity|]. repeat constructor; unfold U64_MAX; simpl; lia.
Qed.

(** Two requests that take turns for ever are both answered. *)
Lemma concurrent_uploads_served_witness :
  exists n, forall i, (i < 2)%nat ->
    let fin := prefix_run (fun t => Turn (t mod 2)) n
                 (serving_pool (J := ToyJson) [crash_upload; crash_upload] sample_state empty_world) in
    exists r, result_of fin.1 i = Some r /\
    (names_differ (w_uuids fin.2.2) -> r = Err RateLimited \/ exists resp, r = Ok (201%Z, resp)).
Proof.
  destruct (concurrent_uploads_served (J := ToyJson) sample_state empty_world [crash_upload; crash_upload]
    (fun t => Turn (t mod 2))) as [n Hn].
  - vm_compute. split; congruence.
  - done.
  - intros i m Hi. exists (2 * m + i)%nat. split; [lia|]. f_equal.
    rewrite Nat.mul_comm, Nat.add_comm, Nat.Div0.mod_add. apply Nat.mod_small. exact Hi.
  - exists n. intros i Hi. destruct (Hn n (le_n n) i crash_upload) as (r & Hr & Hgood).
    { destruct i as [|[|i]]; [reflexivity|reflexivity|lia]. }
    exists r. split; [exact Hr|]. intros Hd. apply (Hgood (empty_store_ok _) (empty_good _) Hd sample_metadata crash_fields sample_key crash_parts).
    + exact crash_request_passes.
    + split; [|split]; [repeat constructor|repeat constructor; vm_compute; congruence|reflexivity].
Defined.

(** The first request creates the index, the second creates it too, the first
    writes, the second writes. *)
Definition racing : list (Choice (AppState * World)) :=
  turns 0 16 ++ turns 1 15 ++ turns 0 5 ++ turns 1 5.

Definition crash_index : Path :=
  index_path sample_storage {| sk_project := "app"; sk_source_id := "00000000-0000-0000-0000-000000000000" |}
    (stamp (7%nat : DateTime)) (sha256_hex (as_bytes "core")).

(** Two uploads of the same crash at the same time can destroy its index: both
    are answered 201, but both truncated the index before either wrote it, and
    the text of the second to write, which records a duplicate, is shorter, so
    the end of the first one's text stays behind it.  The file is no index the
    janitor can read, and the next retention cycle removes the blob. *)
Theorem same_crash_race_loses_blob :
  let fin := two_uploads racing in
  let swept := run_janitor_cycle (J := ToyJson) sample_storage RetentionConfig_default fin.2.2 in
  let blob := default [] (blob_path sample_storage (sha256_hex (as_bytes "core"))) in
  result_of fin.1 0 = Some (Ok (201%Z, {| cr_id := sha256_hex (as_bytes "core"); cr_dedup := false |})) /\
  result_of fin.1 1 = Some (Ok (201%Z, {| cr_id := sha256_hex (as_bytes "core"); cr_dedup := true |})) /\
  match w_fs fin.2.2 !! crash_index with
  | Some (File c _) => is_ok (index_ref_from_slice (H := ToyJson) c) = false
  | _ => False
  end /\
  is_file (w_fs fin.2.2) blob = true /\ w_fs swept.2 !! blob = None.
Proof. split_and!; vm_compute; reflexivity. Qed.
