(* ===== verification/RetentionRely.v ===== *)
(** * Retention beside uploads: what the tasks rely on and guarantee

    The janitor removes blobs, so the tasks can rely on less than when only uploads
    run: an upload on its own temporary files, the janitor on the indexes it keeps
    an eye on, which nobody writes any more.  Every task guarantees that the store
    stays sound; an upload also that it removes no blob and changes no index but
    its own, and the janitor that it removes only expired indexes and no blob that
    a remaining index of those references. *)

From Stdlib Require Import Ascii.
From S2P Require Import Prelude RustStd Fs External Instances Json Protocol Metrics Schemas Storage F64 RateLimit Auth State Crashes CrashStore CrashIngest CrashProgress Janitor Retention Refs System Concurrency CrashTasks CrashRely CrashParallel CrashConcurrent JanitorTasks.

(** ** Every system call *)

(** Names are only drawn, the clock is only read, files lie in directories, and a
    directory stays. *)
Record steady (w w' : World) : Prop := {
  st_tidy : tidy w w';
  st_times : forall t, t ∈ times w' -> t ∈ times w;
  st_dirs : forall q, w_fs w !! q = Some Dir -> w_fs w' !! q = Some Dir
}.

#[export] Instance steady_preorder : PreOrder steady.
Proof.
  split; [intros w; split; [reflexivity|done|done]|]. intros a b c [A1 A2 A3] [B1 B2 B3].
  split; [by etransitivity|auto|auto].
Qed.

Definition keeps_dirs (fs fs' : gmap Path Node) : Prop := forall q, fs !! q = Some Dir -> fs' !! q = Some Dir.

Lemma steady_syscall {A : Type} (part : nat -> gmap Path Node -> gmap Path Node)
    (op : World -> Result A io_error * gmap Path Node) w :
  tidy w (syscall part op w).2 -> (forall n fs, keeps_dirs fs (part n fs)) ->
  (forall w1, keeps_dirs (w_fs w1) (op w1).2) -> steady w (syscall part op w).2.
Proof.
  intros Ht Hp Ho. split; [done|..]; clear Ht; unfold syscall, next_fault; destruct (w_faults w) as [|[f|] fl]; cbn.
  - by destruct (op w).
  - done.
  - by destruct (op _).
  - specialize (Ho w). by destruct (op w).
  - apply Hp.
  - specialize (Ho (with_faults w fl)). by destruct (op _).
Qed.

#[export] Instance keeps_dirs_refl : Reflexive keeps_dirs.
Proof. by intros fs q. Qed.

Lemma keeps_dirs_add fs l : keeps_dirs fs (foldl add_dir fs l).
Proof. intros q Hq. by rewrite foldl_add_dir_lookup, Hq. Qed.

Lemma keeps_dirs_insert fs p n : fs !! p <> Some Dir -> keeps_dirs fs (<[p := n]> fs).
Proof. intros Hp q Hq. rewrite lookup_insert_ne; [done|congruence]. Qed.

Lemma keeps_dirs_append fs p b now : keeps_dirs fs (append_to p b now fs).
Proof. unfold append_to. destruct (fs !! p) as [[c t|]|] eqn:E; [|done|done]. apply keeps_dirs_insert. congruence. Qed.

Lemma keeps_dirs_overwrite fs p b now : keeps_dirs fs (overwrite p b now fs).
Proof. unfold overwrite. destruct (fs !! p) as [[c t|]|] eqn:E; [|done|done]. apply keeps_dirs_insert. congruence. Qed.

Lemma keeps_dirs_delete fs p c t : fs !! p = Some (File c t) -> keeps_dirs fs (delete p fs).
Proof. intros Hp q Hq. rewrite lookup_delete_ne; [done|congruence]. Qed.

#[local] Hint Resolve keeps_dirs_refl keeps_dirs_add keeps_dirs_append keeps_dirs_overwrite : detritus.

#[export] Instance create_dir_all_steady p : Step steady (create_dir_all p).
Proof.
  intros w. apply steady_syscall; [apply create_dir_all_tidy|intros n fs|intros w1]; destruct (existsb _ _); cbn; auto with detritus.
Qed.

#[export] Instance file_create_steady p : Step steady (file_create p).
Proof.
  intros w. apply steady_syscall; [apply file_create_tidy|done|intros w1]. unfold is_dir.
  destruct (w_fs w1 !! p) as [[c t|]|] eqn:E; cbn; [|done|]; (destruct (parent_is_dir _ _); [|done]); apply keeps_dirs_insert; congruence.
Qed.

#[export] Instance write_all_steady p b : Step steady (write_all p b).
Proof. intros w. apply steady_syscall; [apply (write_all_tidy p b w)|intros n fs|intros w1]; cbn; auto with detritus. Qed.

#[export] Instance write_first_steady p b : Step steady (write_first p b).
Proof. intros w. apply steady_syscall; [apply (write_first_tidy p b w)|intros n fs|intros w1]; cbn; auto with detritus. Qed.

#[export] Instance sync_file_steady p : Step steady (sync_file p).
Proof. intros w. by apply steady_syscall; [exact (sync_file_tidy p w)|..]. Qed.

#[export] Instance try_exists_steady p : Step steady (try_exists p).
Proof. intros w. by apply steady_syscall; [exact (try_exists_tidy p w)|..]. Qed.

#[export] Instance hard_link_steady p q : Step steady (hard_link p q).
Proof.
  intros w. apply steady_syscall; [exact (hard_link_tidy p q w)|done|intros w1].
  destruct (w_fs w1 !! p) as [[c t|]|]; [|done|done]. destruct (w_fs w1 !! q) eqn:E; [done|].
  destruct (parent_is_dir _ _); [|done]. apply keeps_dirs_insert. congruence.
Qed.

#[export] Instance remove_file_steady p : Step steady (remove_file p).
Proof.
  intros w. apply steady_syscall; [exact (remove_file_tidy p w)|done|intros w1].
  destruct (w_fs w1 !! p) as [[c t|]|] eqn:E; [|done|done]. by eapply keeps_dirs_delete.
Qed.

(** Calls that only read. *)
Lemma steady_reads {A : Type} (m : World -> Result A io_error) w :
  steady w (syscall no_part (fun w => (m w, w_fs w)) w).2.
Proof.
  apply steady_syscall; [|done|done]. split; [by rewrite syscall_uuids|].
  unfold syscall, next_fault, wf_world. by destruct (w_faults w) as [|[f|] fl].
Qed.

#[export] Instance fs_metadata_steady p : Step steady (fs_metadata p).
Proof. intros w. apply steady_reads. Qed.

#[export] Instance fs_read_steady p : Step steady (fs_read p).
Proof. intros w. apply steady_reads. Qed.

#[export] Instance file_type_steady p : Step steady (file_type p).
Proof. intros w. apply steady_reads. Qed.

#[export] Instance read_dir_steady `{Os} p : Step steady (read_dir p).
Proof. intros w. apply steady_reads. Qed.

#[export] Instance count_nodes_steady E : Step steady (@count_nodes E).
Proof. intros w. reflexivity. Qed.

#[export] Instance system_time_now_steady E : Step steady (@system_time_now E).
Proof.
  intros w. unfold system_time_now. destruct (w_clock w) as [|t ts] eqn:Ec; [reflexivity|].
  split; [by split|unfold times; cbn; rewrite Ec; by right|done].
Qed.

#[export] Instance uuid_steady `{UuidApi} E : Step steady (@uuid_new_v4 _ E).
Proof. intros w. split; [split; [simpl; lia|done]|done|done]. Qed.

(** ** The janitor and the uploads together *)

(** What a task owns: the temporary files it has drawn names for.  An upload also
    has the indexes it may write; only the janitor sweeps. *)
Record Owner := {
  temps : Path -> Prop;
  writes : Path -> Prop;
  sweeps : bool
}.

Section Coexist.
Context {U : UuidApi} {UL : UuidLaws U} {C : ChronoApi} {CL : ChronoLaws C}
  {S : Sha256Api} {SL : Sha256Laws S} {J : JsonText} {V : JsonSchemaApi}.

(** The store, the number of names that are drawn at most, the retention time of
    crashes, the readings of the clock and the indexes that are watched. *)
Context (s : StoragePaths) (N : nat) (ttl : Z) (readings : list Z).
Implicit Types (q p : Path) (K : Path -> Prop) (fs : gmap Path Node) (w : World) (o : Owner).

(** What every step does, of whatever task. *)
Record coexist K w w' : Prop := {
  co_steady : steady w w';
  co_store : store_ok s (w_fs w) -> store_ok s (w_fs w');
  co_new : forall q c t, K q -> w_fs w' !! q = Some (File c t) -> w_fs w !! q = Some (File c t);
  co_old : forall q c t, K q -> w_fs w !! q = Some (File c t) ->
    w_fs w' !! q = Some (File c t) \/ exists now, now ∈ readings /\ expired now ttl t = true;
  co_refs : forall q h, K q -> refers (w_fs w') q h -> resolves s (w_fs w) h -> resolves s (w_fs w') h
}.

Lemma refers_back K w w' q h : coexist K w w' -> K q -> refers (w_fs w') q h -> refers (w_fs w) q h.
Proof. intros H Hq (c & t & idx & Hf & Hr). exists c, t, idx. split; [|done]. by apply (co_new _ _ _ H). Qed.

#[export] Instance coexist_preorder K : PreOrder (coexist K).
Proof.
  split; [intros w; split; [reflexivity|..]; auto|]. intros a b c H1 H2. split.
  - etransitivity; [apply (co_steady _ _ _ H1)|apply (co_steady _ _ _ H2)].
  - intros H. by apply (co_store _ _ _ H2), (co_store _ _ _ H1).
  - intros q d t Hq H. by apply (co_new _ _ _ H1), (co_new _ _ _ H2).
  - intros q d t Hq H. destruct (co_old _ _ _ H1 q d t Hq H) as [H'|]; [|by right]. by apply (co_old _ _ _ H2).
  - intros q h Hq Hr Hres. apply (co_refs _ _ _ H2 q h Hq Hr). apply (co_refs _ _ _ H1 q h Hq); [|done].
    by eapply refers_back.
Qed.

(** What a step that sweeps nothing does to the indexes outside [X] and the blobs. *)
Definition calm (X : Path -> Prop) w w' : Prop :=
  (forall q c t, below (index_root s) q -> ~ X q ->
     w_fs w' !! q = Some (File c t) <-> w_fs w !! q = Some (File c t)) /\
  (forall q n, is_blob s q -> w_fs w !! q = Some n -> w_fs w' !! q = Some n).

Definition c_rely K o w w' : Prop := coexist K w w' /\ forall q, temps o q -> w_fs w' !! q = w_fs w !! q.

Definition c_guar K o o' w w' : Prop :=
  coexist K w w' /\ writes o' = writes o /\ sweeps o' = sweeps o /\
  (forall q, temps o q -> temps o' q) /\
  (forall q, temps o' q -> temps o q \/ exists n, (w_uuids w <= n < w_uuids w')%nat /\ q = temp_path s (new_v4 n)) /\
  (forall q, is_tmp s q -> ~ temps o' q -> w_fs w' !! q = w_fs w !! q) /\
  (sweeps o = false -> calm (writes o) w w').

Definition WorldCoexist K : RelyGuarantee World Owner := {|
  rely := c_rely K;
  guar := c_guar K;
  owner_ok o w := forall q, temps o q -> exists n, (n < w_uuids w)%nat /\ q = temp_path s (new_v4 n);
  apart o1 o2 := forall q, temps o1 q -> temps o2 q -> False;
  within w := (w_uuids w <= N)%nat
|}.

Definition AppCoexist K : RelyGuarantee (AppState * World) Owner := {|
  rely o sw sw' := same_config sw.1 sw'.1 /\ c_rely K o sw.2 sw'.2;
  guar o o' sw sw' := same_config sw.1 sw'.1 /\ c_guar K o o' sw.2 sw'.2;
  owner_ok o sw := owner_ok (RelyGuarantee := WorldCoexist K) o sw.2;
  apart := apart (RelyGuarantee := WorldCoexist K);
  within sw := within (RelyGuarantee := WorldCoexist K) sw.2
|}.

#[export] Instance c_rely_preorder K o : PreOrder (c_rely K o).
Proof.
  split; [by split; [reflexivity|]|]. intros w1 w2 w3 [A1 K1] [A2 K2].
  split; [by etransitivity|]. intros q Hq. by rewrite K2, K1.
Qed.

Lemma coexist_uuids K w w' : coexist K w w' -> (w_uuids w <= w_uuids w')%nat.
Proof. intros H. apply (st_tidy _ _ (co_steady _ _ _ H)). Qed.

Lemma AppCoexistLaws K : (forall n m, (n < m < N)%nat -> new_v4 n <> new_v4 m) ->
  @RelyGuaranteeLaws _ _ (AppCoexist K).
Proof using UL CL SL.
  intros draws_differ. split; cbn -[same_config c_rely c_guar].
  - intros o. split; [split; reflexivity|]. intros x y z [C1 R1] [C2 R2]. split; by etransitivity.
  - eauto.
  - intros o [st w] [st' w'] [_ [HA _]] Ho q Hq. cbn in *. destruct (Ho q Hq) as (n & Hn & ->).
    exists n. split; [|done]. pose proof (coexist_uuids _ _ _ HA). lia.
  - intros o o' [st w] [st' w'] [_ (HA & _ & _ & _ & Hnew & _)] Ho q Hq. cbn in *.
    pose proof (coexist_uuids _ _ _ HA). destruct (Hnew q Hq) as [Hold|(n & Hn & ->)].
    + destruct (Ho q Hold) as (n & Hn & ->). exists n. split; [lia|done].
    + exists n. split; [lia|done].
  - intros o o' o2 [st w] [st' w'] HN [Hcfg (HA & _ & _ & _ & Hnew & Hfiles & _)] Ho2 Hap. cbn in *.
    pose proof (coexist_uuids _ _ _ HA).
    assert (forall q, temps o' q -> temps o2 q -> False) as Hap'.
    { intros q Hq Hq2. destruct (Hnew q Hq) as [Hold|(n & Hn & ->)]; [by eapply Hap|].
      destruct (Ho2 _ Hq2) as (m & Hm & Heq%temp_path_inj).
      symmetry in Heq. revert Heq. apply draws_differ. lia. }
    split; [|done]. split; [done|]. split; [done|]. intros q Hq.
    apply Hfiles; [|by intros Ho'; apply (Hap' q)]. destruct (Ho2 q Hq) as (n & _ & ->). by eexists.
Qed.

(** ** From no watched indexes to some

    A task that sweeps nothing and writes no watched index is as safe when indexes
    are watched. *)

Definition nothing : Path -> Prop := fun _ => False.

Lemma coexist_nothing K w w' : coexist K w w' -> coexist nothing w w'.
Proof. intros H. split; [apply H|apply H|by intros ? ? ? []..|by intros ? ? []]. Qed.

Lemma resolves_calm X w w' h : calm X w w' -> resolves s (w_fs w) h -> resolves s (w_fs w') h.
Proof.
  intros [_ HB] (p & c & t & Hp & Hf & Hc). exists p, c, t. split; [done|]. split; [|done].
  apply HB; [|done]. exists c. by rewrite Hc.
Qed.

Lemma coexist_watch K X w w' :
  (forall q, K q -> below (index_root s) q /\ ~ X q) -> coexist nothing w w' -> calm X w w' -> coexist K w w'.
Proof.
  intros HK H Hcalm. pose proof Hcalm as [Hi _]. split; [apply H|apply H|..].
  - intros q c t [Hb Hx]%HK Hf. by apply Hi.
  - intros q c t [Hb Hx]%HK Hf. left. by apply Hi.
  - intros q h _ _ Hres. by eapply resolves_calm.
Qed.

Lemma safe_watch {E A : Type} K (Q : Result A E -> Owner -> AppState * World -> Prop) (p : Prog _ E A) o sw :
  sweeps o = false -> (forall q, K q -> below (index_root s) q /\ ~ writes o q) ->
  @safe _ _ (AppCoexist nothing) _ _ Q p o sw -> @safe _ _ (AppCoexist K) _ _ Q p o sw.
Proof.
  revert o sw. induction p as [r|F X m k IH]; intros o sw Hsw HK Hs; [done|].
  intros sw1 [Hc [HA Ht]]. eapply wp_mono.
  { apply (Hs sw1). split; [done|]. split; [by eapply coexist_nothing|done]. }
  intros r sw2 (o' & (Hc2 & HA2 & Hw & Hsw2 & Hsub & Hnew & Hfiles & Hcalm) & Hk). exists o'. split.
  - split; [done|]. split_and!; try done. eapply coexist_watch; [exact HK|done|by apply Hcalm].
  - apply IH; [congruence|by rewrite Hw|done].
Qed.

(** A program on the files, run by a handler. *)
Lemma app_safe {E A : Type} K (p : Prog World E A) (R : Result A E -> Owner -> World -> Prop) o
    (Q : Result A E -> Owner -> AppState * World -> Prop) st w :
  @safe _ _ (WorldCoexist K) _ _ R p o w ->
  (forall r o' st' w', R r o' w' -> same_config st st' -> Q r o' (st', w')) ->
  @safe _ _ (AppCoexist K) _ _ Q (app_task p) o (st, w).
Proof.
  revert st o w. induction p as [r|F Y m k IH]; intros st o w Hs HQ; [by apply HQ|].
  intros [st1 w1] [Hc Hr]. apply wp_app_io. eapply wp_mono; [by apply Hs|].
  intros r w2 (o' & Hg & Hs2). exists o'. split; [by split|]. apply IH; [done|].
  intros r' o2 st' w3 HR Hst'. apply HQ; [done|]. cbn [fst] in Hc. by etransitivity.
Qed.

(** A task keeps the indexes it may write to the end, so what its result says of
    them is so from the start. *)
Lemma safe_owner {E A : Type} K (P : (Path -> Prop) -> bool -> Prop) (Q : Result A E -> Owner -> AppState * World -> Prop) (p : Prog _ E A) o sw :
  (forall r o' sw', Q r o' sw' -> P (writes o') (sweeps o')) ->
  @safe _ _ (AppCoexist K) _ _ Q p o sw -> P (writes o) (sweeps o).
Proof.
  intros HQ. revert o sw. induction p as [r|F X m k IH]; intros o sw Hs; [by eapply HQ|].
  assert (@rely _ _ (AppCoexist K) o sw sw) as Hr by (split; [reflexivity|split; [reflexivity|done]]).
  destruct (Hs sw Hr) as (o' & (_ & _ & Hw & Hsw & _) & Hk). apply IH in Hk. by rewrite Hw, Hsw in Hk.
Qed.
End Coexist.
