(* ===== verification/RetentionUploads.v ===== *)
(** * Retention beside uploads: the crash requests

    An upload beside the janitor: blobs may vanish under it, but what it links is
    its own temporary file, whose content it has hashed, so the store stays sound
    and no index but its own changes. *)

From Stdlib Require Import Ascii.
From S2P Require Import Prelude RustStd Fs External Instances Json Protocol Metrics Schemas Storage F64 RateLimit Auth State Crashes CrashStore CrashIngest CrashProgress Janitor Retention Refs System Concurrency CrashTasks CrashRely CrashParallel CrashConcurrent JanitorTasks RetentionRely.

Section Uploads.
Context {U : UuidApi} {UL : UuidLaws U} {C : ChronoApi} {CL : ChronoLaws C}
  {S : Sha256Api} {SL : Sha256Laws S} {J : JsonText} {M : MulterApi} {HT : HttpApi} {V : JsonSchemaApi}.
Context (s : StoragePaths) (N : nat) (ttl : Z) (readings : list Z).

(** The indexes the request may write. *)
Context (X : Path -> Prop) (HX : forall q, X q -> is_index s q).
Implicit Types (q p : Path) (w : World) (o : Owner).

#[local] Hint Extern 0 (RelyGuarantee World _) => exact (WorldCoexist s N ttl readings nothing) : typeclass_instances.
#[local] Hint Extern 0 (RelyGuarantee (AppState * World) _) => exact (AppCoexist s N ttl readings nothing) : typeclass_instances.

Definition mine o : Prop := writes o = X /\ sweeps o = false.

(** What an upload's step has to do to be within its guarantee. *)
Lemma upload_guar o w w' :
  mine o -> steady w w' -> evolves s (fun _ => True) (w_fs w) (w_fs w') ->
  (forall q c t, below (index_root s) q -> ~ X q ->
     w_fs w' !! q = Some (File c t) <-> w_fs w !! q = Some (File c t)) ->
  (forall q, is_tmp s q -> ~ temps o q -> w_fs w' !! q = w_fs w !! q) ->
  c_guar s ttl readings nothing o o w w'.
Proof.
  intros [Hw Hs] Hst (_ & HB & HK) Hi Ht. split_and!; [split; [done|done|by intros ? ? ? []..|by intros ? ? []]|done|done|done|by left|done|].
  intros _. rewrite Hw. by split.
Qed.

Lemma guar_same_fs o w w' : mine o -> steady w w' -> w_fs w' = w_fs w -> c_guar s ttl readings nothing o o w w'.
Proof. intros Ho Hst Hfs. apply upload_guar; rewrite ?Hfs; [done|done|reflexivity|done|done]. Qed.

(** ** The system calls *)

(** A call that leaves the files alone. *)
Lemma up_reads {A : Type} (m : IO io_error A) (Q : Result A io_error -> Owner -> World -> Prop) o w :
  mine o -> Step steady m -> (forall w1, w_fs (m w1).2 = w_fs w1) ->
  (forall r w', (forall q, temps o q -> w_fs w' !! q = w_fs w !! q) -> Q r o w') -> safe Q (act m) o w.
Proof.
  intros Ho Hst Hfs HQ. apply safe_act. intros w1 [_ Hr]. exists o. split; [by apply guar_same_fs|].
  apply HQ. intros q Hq. rewrite Hfs. by apply Hr.
Qed.

Lemma up_mkdir d (Q : Result unit io_error -> Owner -> World -> Prop) o w :
  mine o -> leaf_dir s d -> (forall q, temps o q -> is_tmp s q) ->
  (forall r w', (forall q, temps o q -> w_fs w' !! q = w_fs w !! q) -> Q r o w') -> safe Q (act (create_dir_all d)) o w.
Proof using UL CL SL.
  intros Ho Hd Htmp HQ. apply safe_act. intros w1 [_ Hr]. apply (wp_step steady); [apply _|].
  apply wp_create_dir_all. intros r w2 _ Honly Hf _ Hst. exists o.
  assert (forall q, is_tmp s q -> w_fs w2 !! q = w_fs w1 !! q) as Hsame.
  { intros q Hq. apply Hf, (leaf_not_prefix s); [by left|done]. }
  split; [apply upload_guar; [done|done| | |by auto]|].
  - destruct Hd; eapply evolves_dirs; try done; intros; try apply by_source_not_blob; apply short_not_blob; simpl; lia.
  - intros q c t _ _. apply (only_file (fun _ => False)); [done|tauto].
  - apply HQ. intros q Hq. rewrite Hsame by auto. by apply Hr.
Qed.

(** A call on an own temporary file or on an index that may be written. *)
Lemma up_touch {A : Type} (m : IO io_error A) p (Q : Result A io_error -> Owner -> World -> Prop) o w :
  mine o -> (is_tmp s p /\ temps o p \/ X p) -> Step steady m -> (forall w1, except p (w_fs w1) (w_fs (m w1).2)) ->
  (forall w1, (forall q, temps o q -> w_fs w1 !! q = w_fs w !! q) -> wp m (fun r w2 => Q r o w2) w1) ->
  safe Q (act m) o w.
Proof using UL CL SL HX.
  intros Ho Hp Hst Hex HQ. apply safe_act. intros w1 [_ Hr]. exists o.
  assert (leaf s p) as Hl by (destruct Hp as [[? _]|Hx]; [by left|right; by apply HX]).
  split; [|by apply HQ]. apply upload_guar; [done|by apply Hst| | |].
  - apply evolves_frame; [intros q; by auto|]. intros q Hq. apply Hex. intros ->. by apply (leaf_not_blob s p).
  - intros q c t Hb Hno. rewrite Hex; [done|]. intros ->. destruct Hp as [[Ht _]|Hx]; [|done].
    by apply (not_below_index s p); [left|].
  - intros q Hq Hno. apply Hex. intros ->. destruct Hp as [[_ Ht]|Hx]; [done|].
    destruct Hq as [u ->]. by apply (index_not_tmp s (temp_path s u) u); [apply HX|].
Qed.

Lemma up_link u b t dest (Q : Result unit io_error -> Owner -> World -> Prop) o w :
  mine o -> temps o (temp_path s u) -> (forall q, temps o q -> is_tmp s q) ->
  w_fs w !! temp_path s u = Some (File b t) -> blob_path s (sha256_hex b) = Some dest ->
  (forall r w', (forall q, temps o q -> w_fs w' !! q = w_fs w !! q) -> Q r o w') ->
  safe Q (act (hard_link (temp_path s u) dest)) o w.
Proof using UL CL SL.
  intros Ho Hu Htmp Ht Hd HQ. apply safe_act. intros w1 [_ Hr]. apply (wp_step steady); [apply _|].
  assert (is_blob s dest) as Hb by (by exists b).
  assert (forall q, is_tmp s q -> q <> dest) as Hne by (intros q [v ->] <-; by apply (blob_not_tmp s _ v Hb)).
  apply wp_hard_link.
  - intros c t' w2 Hsrc Hnone _ Hfs Hst. rewrite Hr, Ht in Hsrc by done. injection Hsrc as <- <-. exists o. split.
    + apply upload_guar; rewrite ?Hfs; [done|done|by apply evolves_link| |].
      * intros q c t' Hq _. rewrite lookup_insert_ne; [done|]. intros <-. by apply (not_below_index s dest); [right|].
      * intros q Hq _. rewrite lookup_insert_ne; [done|]. by apply not_eq_sym, Hne.
    + apply HQ. intros q Hq. rewrite Hfs, lookup_insert_ne; [by apply Hr|]. by apply not_eq_sym, Hne, Htmp.
  - intros e w2 _ _ Hfs Hst. exists o. split; [by apply guar_same_fs|]. apply HQ. intros q Hq. rewrite Hfs. by apply Hr.
Qed.

Definition also o p : Owner := {| temps := fun q => temps o q \/ q = p; writes := writes o; sweeps := sweeps o |}.

Lemma up_draw {E : Type} (Q : Result Uuid E -> Owner -> World -> Prop) o w :
  mine o -> (forall u w', Q (Ok u) (also o (temp_path s u)) w') -> safe Q (act uuid_new_v4) o w.
Proof.
  intros Ho HQ. apply safe_act. intros w1 _. pose proof (uuid_steady E w1) as Hst. unfold uuid_new_v4, wp in *. cbn [fst snd] in *.
  set (w2 := mkWorld _ _ _ _ _ _) in *. exists (also o (temp_path s (new_v4 (w_uuids w1)))).
  destruct (guar_same_fs o w1 w2 Ho Hst eq_refl) as (H1 & H2 & H3 & H4 & H5 & H6 & H7). split; [|apply HQ].
  split_and!; [done|done|done|by left| |done|done]. intros q [Hq| ->]; [by left|]. right. exists (w_uuids w1).
  split; [simpl; lia|done].
Qed.
(** ** Programs

    [Tame R p]: from any state [p] stays within the guarantee, and a result it
    returns satisfies [R]. *)

Definition own o : Prop := mine o /\ forall q, temps o q -> is_tmp s q.

Definition ends {E A W : Type} (R : A -> Prop) (r : Result A E) o (w : W) : Prop :=
  own o /\ match r with Ok a => R a | Err _ => True end.

Class Tame {E A : Type} (R : A -> Prop) (p : Prog World E A) : Prop :=
  tame : forall o w, own o -> safe (ends R) p o w.

Definition any {A : Type} : A -> Prop := fun _ => True.

Lemma tame_bind {E A B : Type} (R : A -> Prop) (R' : B -> Prop) (p : Prog World E A) (k : A -> Prog World E B) :
  Tame R p -> (forall a, R a -> Tame R' (k a)) -> Tame R' (p_bind p k).
Proof.
  intros Hp Hk o w Ho. apply safe_bind. eapply safe_mono; [|by apply Hp]. intros [a|e] o' w' [Ho' HR]; [|done].
  by apply Hk.
Qed.

Lemma tame_map_err {E F A : Type} (R : A -> Prop) (f : E -> F) (p : Prog World E A) : Tame R p -> Tame R (p_map_err f p).
Proof. intros Hp o w Ho. apply safe_map_err. eapply safe_mono; [|by apply Hp]. by intros [a|e] o' w' [Ho' HR]. Qed.

Lemma tame_done {E A : Type} (R : A -> Prop) (r : Result A E) : (forall a, r = Ok a -> R a) -> Tame R (Done (W := World) r).
Proof. intros HR o w Ho. split; [done|]. destruct r; [by apply HR|done]. Qed.

Lemma tame_fold {E A B : Type} (f : B -> A -> Prog World E B) (I : B -> Prop) b (l : list A) :
  (forall b x, I b -> x ∈ l -> Tame I (f b x)) -> I b -> Tame I (p_fold f b l).
Proof.
  revert b. induction l as [|x l IH]; intros b Hf Hb; [apply tame_done; by intros a [= <-]|].
  cbn [p_fold]. eapply tame_bind; [apply Hf; [done|left]|]. intros b' Hb'. apply IH; [|done].
  intros b2 y H2 Hy. apply Hf; [done|by right].
Qed.

Lemma syscall_fs {A : Type} (r : World -> Result A io_error) w : w_fs (syscall no_part (fun w => (r w, w_fs w)) w).2 = w_fs w.
Proof. unfold syscall, next_fault. by destruct (w_faults w) as [|[f|] fl]. Qed.

(** Calls that touch one file only. *)
Lemma remove_file_except p w : except p (w_fs w) (w_fs (remove_file p w).2).
Proof.
  change (wp (remove_file p) (fun _ w' => except p (w_fs w) (w_fs w')) w). apply wp_remove_file.
  - intros c t w' _ _ ->. apply except_delete.
  - by intros e w' _ ->.
Qed.

Lemma file_create_except p w : except p (w_fs w) (w_fs (file_create p w).2).
Proof.
  change (wp (file_create p) (fun _ w' => except p (w_fs w) (w_fs w')) w). apply wp_file_create.
  - intros w' _ ->. apply except_insert.
  - by intros e w' _ ->.
Qed.

Lemma write_all_except p b w : except p (w_fs w) (w_fs (write_all p b w).2).
Proof.
  change (wp (write_all p b) (fun _ w' => except p (w_fs w) (w_fs w')) w). apply wp_write_all.
  - intros w' _ ->. apply except_append_to.
  - intros e n w' _ ->. apply except_append_to.
Qed.

Lemma write_first_except p b w : except p (w_fs w) (w_fs (write_first p b w).2).
Proof.
  change (wp (write_first p b) (fun _ w' => except p (w_fs w) (w_fs w')) w). apply wp_write_first.
  - intros w' _ ->. apply except_overwrite.
  - intros e n w' _ _ ->. apply except_overwrite.
Qed.

(** ** One part *)

(** The removal of the temporary file, which may fail. *)
Lemma tame_remove u o w (Q : Result unit io_error -> Owner -> World -> Prop) :
  own o -> temps o (temp_path s u) -> (forall r w', Q r o w') -> safe Q (act (remove_file (temp_path s u))) o w.
Proof using UL CL SL HX.
  intros [Ho _] Hu HQ. apply (up_touch _ (temp_path s u)); [done|left; split; [by exists u|done]|apply _|apply remove_file_except|].
  intros w1 _. apply HQ.
Qed.

Lemma safe_chunks u (chunks : list (Result bytes string)) max o w t (Q : Result (Z * bytes) CrashError -> Owner -> World -> Prop) :
  own o -> temps o (temp_path s u) -> w_fs w !! temp_path s u = Some (File [] t) ->
  (forall cs acc t' w', try_map (fun c => c) chunks = Ok cs -> acc.2 = concat cs ->
     w_fs w' !! temp_path s u = Some (File (concat cs) t') -> Q (Ok acc) o w') ->
  (forall e w', Q (Err e) o w') ->
  safe Q (p_fold (copy_chunk_task (temp_path s u) max) (0%Z, []) chunks) o w.
Proof using UL CL SL HX.
  intros Ho Hu Ht HO HE. apply (safe_fold _ (fun acc rest o' w' => o' = o /\ exists ds t', chunks = (Ok <$> ds) ++ rest /\
    acc.2 = concat ds /\ w_fs w' !! temp_path s u = Some (File (concat ds) t'))).
  - intros acc c rest o' w1 (-> & ds & t1 & Hch & Hacc & Ht1). unfold copy_chunk_task. apply safe_bind, safe_done.
    destruct c as [b|e]; cbn [map_err]; [|apply HE]. destruct (max <? _)%Z.
    + apply safe_bind, safe_try, tame_remove; [done|done|]. intros r w2. apply safe_done, HE.
    + apply safe_bind, safe_map_err, (up_touch _ (temp_path s u));
        [apply Ho|left; split; [by exists u|done]|apply _|apply write_all_except|].
      intros w2 Hr. apply wp_write_all; [|by intros; apply HE]. intros w3 _ Hfs. cbn [map_err]. split; [done|].
      exists (ds ++ [b]), (w_now w2). rewrite fmap_app, <- app_assoc. split; [done|]. rewrite concat_app, Hacc. cbn [concat snd].
      rewrite app_nil_r. split; [done|]. rewrite Hfs, (append_to_file _ _ _ _ (concat ds) t1) by (by rewrite Hr).
      apply lookup_insert_eq.
  - intros acc o' w1 (-> & ds & t1 & Hch & Hacc & Ht1). rewrite app_nil_r in Hch. eapply HO; [|done|done].
    rewrite Hch. apply try_map_Forall2. clear. by induction ds; constructor.
  - split; [done|]. by exists [], t.
Qed.

#[local] Hint Extern 0 (own _) => assumption : detritus.

(** The link is of the file whose content was hashed. *)
Lemma safe_finalize_beside u b t o w (Q : Result (string * bool) CrashError -> Owner -> World -> Prop) :
  own o -> temps o (temp_path s u) -> w_fs w !! temp_path s u = Some (File b t) -> (forall r w', Q r o w') ->
  safe Q (finalize_blob_task s (temp_path s u) (sha256_hex b)) o w.
Proof using UL CL SL HX.
  intros Ho Hu Ht HQ. unfold finalize_blob_task. destruct (blob_path_components s b) as (pre & _ & Hdest).
  assert (exists dest, blob_path s (sha256_hex b) = Some dest) as [dest Hd] by eauto. clear Hdest.
  rewrite Hd. destruct (blob_parent s b dest Hd) as [p Hp]. apply safe_bind, safe_done. cbn [ok_or]. rewrite Hp.
  apply safe_bind, safe_map_err, up_mkdir; [apply Ho|apply leaf_blobs|apply Ho|].
  intros [[]|e] w1 Hr1; cbn [map_err]; [|apply HQ].
  apply safe_bind, safe_map_err, up_reads; [apply Ho|apply _|intros; apply syscall_fs|].
  intros [ex|e] w2 Hr2; cbn [map_err]; [|apply HQ]. apply safe_bind.
  assert (forall dedup w', safe (fun r o' w' => match r with
      | Ok a => safe Q (p_ret (path_display (relative_to_data_dir s dest), a)) o' w'
      | Err e => Q (Err e) o' w' end) (p_map_err CIo (act (remove_file (temp_path s u)));;+ p_ret dedup) o w') as Hfin.
  { intros dedup w'. apply safe_bind, safe_map_err, tame_remove; [done|done|]. intros [[]|e] w3; apply HQ. }
  destruct ex; [apply Hfin|]. apply safe_bind, safe_try, (up_link u b t); [apply Ho|done|apply Ho|by rewrite Hr2, Hr1|done|].
  intros [[]|e] w3 _; [apply Hfin|]. case_decide; [apply Hfin|].
  apply safe_bind, safe_try, tame_remove; [done|done|]. intros r w4. apply safe_done, HQ.
Qed.

Lemma tame_write_part (field : Field) max :
  Tame (fun d : BlobPointer => exists b, field_bytes field = Some b /\ bp_sha256 d = sha256_hex b) (write_part_task s field max).
Proof using UL CL SL HX.
  intros o w Ho. unfold write_part_task. rewrite tmp_dir_components.
  apply safe_bind, safe_map_err, up_mkdir; [apply Ho|apply leaf_tmp|apply Ho|]. intros [[]|e] w1 _; [|done].
  apply safe_bind, up_draw; [apply Ho|]. intros u w2. set (o' := also o (temp_path s u)).
  assert (own o') as Ho' by (split; [apply Ho|]; intros q [Hq| ->]; [by apply Ho|by exists u]).
  assert (temps o' (temp_path s u)) as Hu by (by right).
  apply safe_bind, safe_map_err, (up_touch _ (temp_path s u));
    [apply Ho'|left; split; [by exists u|done]|apply _|apply file_create_except|].
  intros w3 _. apply wp_file_create; [|by intros]. intros w4 _ Hfs4. cbn [map_err].
  apply safe_bind, (safe_chunks u _ _ _ _ (w_now w3)); [done|done|rewrite Hfs4; apply lookup_insert_eq| |done].
  intros cs acc t w5 Hcs Hacc Ht5.
  apply safe_bind, safe_map_err, up_reads; [apply Ho'|apply _|intros; apply syscall_fs|]. intros [[]|e] w6 Hr6; [|done].
  apply safe_bind, safe_map_err, up_reads; [apply Ho'|apply _|intros; apply syscall_fs|]. intros [[]|e] w7 Hr7; [|done].
  cbn [map_err]. rewrite Hacc. apply safe_bind, (safe_finalize_beside u (concat cs) t); [done|done|by rewrite Hr7, Hr6|].
  intros [[path dedup]|e] w8; [|done]. split; [done|]. exists (concat cs). split; [|done]. unfold field_bytes. by rewrite Hcs.
Qed.

(** ** The parts and the index *)

(** The dump so far is one of the parts named [dump]. *)
Definition dump_from (rest : list (Result Field string)) (acc : option BlobPointer * list AttachmentPointer) : Prop :=
  forall d, acc.1 = Some d -> exists f b, Ok f ∈ rest /\ f_name f = Some "dump" /\ field_bytes f = Some b /\
    bp_sha256 d = sha256_hex b.

Lemma tame_ingest_part max rest acc next :
  dump_from rest acc -> next ∈ rest -> Tame (dump_from rest) (ingest_part_task s max acc next).
Proof using UL CL SL HX.
  destruct acc as [dump atts]. intros Hacc Hin. unfold ingest_part_task.
  destruct next as [f|e]; [|by apply tame_done]. cbn [map_err p_bind].
  destruct (f_name f) as [name|] eqn:En; [|by apply tame_done]. cbn [ok_or p_bind].
  destruct (String.eqb name "metadata"); [by apply tame_done|].
  destruct (String.eqb_spec name "dump") as [->|_].
  - destruct dump as [d|]; [by apply tame_done|]. eapply tame_bind; [apply tame_write_part|]. intros d (b & Hb & Hd).
    apply tame_done. intros a [= <-] d' [= <-]. by exists f, b.
  - destruct (starts_with _ _); [|by apply tame_done]. destruct (strip_prefix _ _) as [key|]; [|by apply tame_done].
    cbn [ok_or p_bind]. eapply tame_bind; [apply tame_write_part|]. intros d _. apply tame_done. by intros a [= <-].
Qed.

Lemma tame_ingest max rest : Tame (dump_from rest) (p_fold (ingest_part_task s max) (None, []) rest).
Proof using UL CL SL HX. apply tame_fold; [|by intros d]. intros acc next Hacc Hin. by apply tame_ingest_part. Qed.

Lemma tame_write_index k (m : CrashMetadata U C) b dump atts :
  SourceKey_valid k -> bp_sha256 dump = sha256_hex b -> X (index_path s k (stamp (timestamp m)) (sha256_hex b)) ->
  Tame any (write_index_task s k m dump atts).
Proof using UL CL SL HX.
  intros Hk Hsha Hx o w Ho. unfold write_index_task. rewrite Hsha, (index_parent s k (timestamp m) b Hk).
  apply safe_bind, safe_map_err, up_mkdir; [apply Ho|apply leaf_indexes|apply Ho|]. intros [[]|e] w1 _; [|done].
  apply safe_map_err. unfold fs_write_task. apply safe_bind, (up_touch _ _ _ _ _ (proj1 Ho) (or_intror Hx)); [apply _|apply file_create_except|].
  intros w2 _. apply wp_file_create; [|by intros]. intros w3 _ _.
  apply (up_touch _ _ _ _ _ (proj1 Ho) (or_intror Hx)); [apply _|apply write_first_except|].
  intros w4 _. by apply wp_write_first; intros.
Qed.

(** ** The handler *)

Lemma app_tame {E A : Type} (R : A -> Prop) (p : Prog World E A) o (Q : Result A E -> Owner -> AppState * World -> Prop) st w :
  Tame R p -> own o ->
  (forall r o' st' w', own o' -> same_config st st' -> match r with Ok a => R a | Err _ => True end -> Q r o' (st', w')) ->
  safe Q (app_task p) o (st, w).
Proof.
  intros Hp Ho HQ. eapply app_safe; [by apply Hp|]. intros r o' st' w' [Ho' HR] Hst'. by apply HQ.
Qed.

(** An action on the application state. *)
Lemma app_act {E A : Type} (m : App E A) (Q : Result A E -> Owner -> AppState * World -> Prop) o st w :
  own o -> (forall st1 w1, same_config st st1 ->
     wp m (fun r sw => same_config st1 sw.1 /\ sw.2 = w1 /\ Q r o sw) (st1, w1)) -> safe Q (act m) o (st, w).
Proof.
  intros Ho Hm. apply safe_act. intros [st1 w1] [Hc Hr]. eapply wp_mono; [by apply Hm|].
  intros r [st2 w2] (Hc2 & Hw2 & HQ). cbn [fst snd] in *. subst w2. exists o. split; [|done].
  split; [done|]. apply guar_same_fs; [apply Ho|reflexivity|done].
Qed.

Lemma app_metrics {E : Type} f (Q : Result unit E -> Owner -> AppState * World -> Prop) o st w :
  own o -> (forall st' w', same_config st st' -> Q (Ok tt) o (st', w')) -> safe Q (act (modify_metrics f)) o (st, w).
Proof.
  intros Ho HQ. apply app_act; [done|]. intros st1 w1 Hc. apply wp_modify_metrics. intros st2 Hc2 _ _. cbn [fst snd].
  split; [done|]. split; [done|]. apply HQ. by etransitivity.
Qed.

Lemma safe_inner_beside token rq now o (Q : Result (Z * CrashResponse) CrashError -> Owner -> AppState * World -> Prop) st w :
  storage st = s -> (forall q, target s rq q -> X q) -> own o -> (forall r o' st' w', own o' -> Q r o' (st', w')) ->
  safe Q (crashes_inner_task token rq now) o (st, w).
Proof using UL CL SL HX.
  intros Hs Htgt Ho Hend.
  unfold crashes_inner_task. apply safe_bind, app_act; [done|]. intros st1 w1 Hc1. unfold get_state, wp. cbn [fst snd].
  split; [reflexivity|]. split; [done|]. assert (storage st1 = s) as Hs1 by (destruct Hc1 as (Hc & _); congruence).
  apply safe_bind, safe_done. destruct (request_fields rq) as [fields|e] eqn:Ef; [|by apply Hend].
  apply safe_bind, safe_done. destruct (first_part fields) as [[m rest]|e] eqn:Em; [|by apply Hend].
  apply safe_bind. destruct (schema_version m =? PROTOCOL_VERSION)%Z; apply safe_done; [|by apply Hend].
  apply safe_bind, safe_done. destruct (SourceKey_new _ _) as [k|e] eqn:Ek; cbn [map_err]; [|by apply Hend].
  apply safe_bind. destruct (permits token k); apply safe_done; [|by apply Hend].
  apply safe_bind, app_act; [done|]. intros st2 w2 Hc2. apply wp_app_limit. intros st3 Hc3 _ _. cbn [fst snd].
  split; [done|]. split; [done|]. destruct ((check_crashes (rate_limiter st2) now (tc_id token) k).1) as [[]|]; cbn [map_err]; [|by apply Hend].
  apply safe_bind. destruct (validate _ _ _ _) as [[]|e].
  2: { apply safe_bind, app_metrics; [done|]. intros st4 w4 _. apply safe_done. by apply Hend. }
  apply safe_done. unfold store_task. rewrite Hs1. apply safe_bind, (app_tame _ _ _ _ _ _ (tame_ingest _ rest)); [done|].
  intros [[dump atts]|e] o2 st4 w4 Ho2 _ HR; [|by apply Hend]. apply safe_bind, safe_done.
  destruct dump as [d|]; cbn [ok_or]; [|by apply Hend]. destruct (HR d eq_refl) as (f & b & Hf & Hname & Hb & Hd).
  apply safe_bind, app_metrics; [done|]. intros st5 w5 _. apply safe_bind, app_metrics; [done|]. intros st6 w6 _.
  pose proof (SourceKey_new_Ok _ _ _ Ek) as [_ Hk].
  apply safe_bind, (app_tame _ _ _ _ _ _ (tame_write_index k m b d atts Hk Hd (Htgt _ ltac:(by exists fields, m, rest, k, f, b)))); [done|].
  intros [[]|e] o3 st7 w7 Ho3 _ _; by apply Hend.
Qed.

Lemma safe_crash_beside token rq now elapsed o (Q : Result (Z * CrashResponse) CrashError -> Owner -> AppState * World -> Prop) st w :
  storage st = s -> (forall q, target s rq q -> X q) -> own o -> (forall r o' st' w', own o' -> Q r o' (st', w')) ->
  safe Q (crashes_handler_task token rq now elapsed) o (st, w).
Proof using UL CL SL HX.
  intros Hs Htgt Ho HQ. unfold crashes_handler_task. apply safe_bind, safe_try, safe_inner_beside; [done|done|done|].
  intros r o' st' w' Ho'. apply safe_bind, app_metrics; [done|]. intros st2 w2 _. by apply HQ.
Qed.
End Uploads.
