(* ===== verification/RetentionJanitor.v ===== *)
(** * Retention beside uploads: the janitor

    A cycle that uploads interrupt.  The watched indexes are those nobody writes
    any more: they can only vanish, so the walk finds every one that is still there
    at its end, the references collected from them stay complete, and the sweep
    removes no blob that one of them references. *)

From Stdlib Require Import Ascii.
From S2P Require Import Prelude RustStd Fs External Instances Json Protocol Metrics Schemas Storage F64 RateLimit Auth State Crashes CrashStore CrashIngest CrashProgress Janitor Retention Refs System Concurrency CrashTasks CrashRely CrashParallel CrashConcurrent JanitorTasks RetentionRely RetentionUploads.

Section Sweeper.
Context {U : UuidApi} {UL : UuidLaws U} {S : Sha256Api} {SL : Sha256Laws S} {J : JsonText} {V : JsonSchemaApi} {OS : Os}.
Context (s : StoragePaths) (N : nat) (ttl : Z) (readings : list Z).

(** The watched indexes. *)
Context (K : Path -> Prop) (HK : forall q, K q -> below (index_root s) q).
Implicit Types (q p root dir : Path) (w : World).

#[local] Hint Extern 0 (RelyGuarantee World _) => exact (WorldCoexist s N ttl readings K) : typeclass_instances.
#[local] Hint Extern 0 (RelyGuarantee (AppState * World) _) => exact (AppCoexist s N ttl readings K) : typeclass_instances.
Local Abbreviation coexist := (coexist s ttl readings K).

(** The janitor owns no files. *)
Definition sweeper : Owner := {| temps := nothing; writes := nothing; sweeps := true |}.

(** Readings of the clock are among those considered. *)
Definition clocked w : Prop := forall t, t ∈ times w -> t ∈ readings.

Lemma coexist_clocked w w' : coexist w w' -> clocked w -> clocked w'.
Proof. intros H Hc t Ht. by apply Hc, (st_times _ _ (co_steady _ _ _ _ _ _ H)). Qed.

Lemma coexist_wf w w' : coexist w w' -> fs_wf (w_fs w) -> fs_wf (w_fs w').
Proof. intros H. apply (st_tidy _ _ (co_steady _ _ _ _ _ _ H)). Qed.

Lemma coexist_same w w' : steady w w' -> w_fs w' = w_fs w -> coexist w w'.
Proof. intros Hst Hfs. split; rewrite ?Hfs; auto. Qed.

(** Removing a file. *)
Lemma coexist_remove p c t w w' :
  steady w w' -> w_fs w !! p = Some (File c t) -> w_fs w' = delete p (w_fs w) ->
  (K p -> exists now, now ∈ readings /\ expired now ttl t = true) ->
  (forall q, K q -> ~ (refers (w_fs w') q (sha256_hex c) /\ blob_path s (sha256_hex c) = Some p)) -> coexist w w'.
Proof.
  intros Hst Hp Hfs Hexp Href.
  assert (forall q n, w_fs w' !! q = Some n -> w_fs w !! q = Some n) as Hsub.
  { intros q n. rewrite Hfs. by intros [_ ?]%lookup_delete_Some. }
  split; [done|..].
  - intros Hok b r n Hb Hn. eapply Hok; [done|]. by apply Hsub.
  - intros q c' t' _. apply Hsub.
  - intros q c' t' Hq Hf. destruct (decide (q = p)) as [->|Hne].
    + right. rewrite Hp in Hf. injection Hf as <- <-. by apply Hexp.
    + left. by rewrite Hfs, lookup_delete_ne.
  - intros q h Hq Hr (r & c' & t' & Hb & Hf & Hh). exists r, c', t'. split; [done|]. split; [|done].
    rewrite Hfs, lookup_delete_ne; [done|]. intros <-. rewrite Hp in Hf. injection Hf as -> ->. subst h. by apply (Href q).
Qed.

Lemma sweeper_guar w w' :
  coexist w w' -> (forall q, is_tmp s q -> w_fs w' !! q = w_fs w !! q) -> c_guar s ttl readings K sweeper sweeper w w'.
Proof. intros HA Ht. split_and!; [done|done|done|done|by left|by auto|done]. Qed.

(** ** The system calls *)

Lemma jan_reads {E A : Type} (m : IO E A) (Q : Result A E -> Owner -> World -> Prop) w :
  Step steady m -> (forall w1, w_fs (m w1).2 = w_fs w1) ->
  (forall w1, coexist w w1 -> wp m (fun r w2 => coexist w w2 -> w_fs w2 = w_fs w1 -> Q r sweeper w2) w1) ->
  safe Q (act m) sweeper w.
Proof.
  intros Hst Hfs HQ. apply safe_act. intros w1 [HA _]. exists sweeper.
  assert (coexist w1 (m w1).2) as HA2 by (apply coexist_same; [apply Hst|apply Hfs]). split.
  - apply sweeper_guar; [done|]. intros q _. by rewrite Hfs.
  - apply HQ; [done|by etransitivity|apply Hfs].
Qed.

Lemma jan_remove p (Q : Result unit io_error -> Owner -> World -> Prop) w :
  ~ is_tmp s p ->
  (forall w1 c t, coexist w w1 -> w_fs w1 !! p = Some (File c t) -> K p -> exists now, now ∈ readings /\ expired now ttl t = true) ->
  (forall w1 q c, coexist w w1 -> K q -> ~ (refers (w_fs w1) q (sha256_hex c) /\ blob_path s (sha256_hex c) = Some p)) ->
  (forall r w', coexist w w' -> (r = Ok tt -> w_fs w' !! p = None) -> Q r sweeper w') ->
  safe Q (act (remove_file p)) sweeper w.
Proof.
  intros Hnt Hexp Href HQ. apply safe_act. intros w1 [HA _]. apply (wp_step steady); [apply _|]. apply wp_remove_file.
  - intros c t w2 Hp _ Hfs Hst. exists sweeper. assert (coexist w1 w2) as HA2.
    { apply (coexist_remove p c t); [done|done|done|by eauto|]. intros q Hq [Hr Hb]. apply (Href w1 q c HA Hq). split; [|done].
      destruct Hr as (c' & t' & idx & Hf & Hr). exists c', t', idx. split; [|done]. rewrite Hfs in Hf.
      by apply lookup_delete_Some in Hf as [_ ?]. }
    split; [apply sweeper_guar; [done|]|].
    + intros q Hq. rewrite Hfs, lookup_delete_ne; [done|]. by intros <-.
    + apply HQ; [by etransitivity|]. intros _. by rewrite Hfs, lookup_delete_eq.
  - intros e w2 _ Hfs Hst. exists sweeper. assert (coexist w1 w2) as HA2 by (by apply coexist_same). split.
    + apply sweeper_guar; [done|]. intros q _. by rewrite Hfs.
    + apply HQ; [by etransitivity|done].
Qed.

(** Where the janitor removes files. *)
Lemma root_not_tmp root p :
  root = logs_root s \/ root = index_root s \/ root = blob_root s -> root `prefix_of` p -> ~ is_tmp s p.
Proof using UL.
  destruct (roots_components s) as (-> & -> & ->). intros [-> |[-> | ->]] [x ->] [u Hu];
    rewrite temp_path_components, <- app_assoc in Hu; apply app_inv_head in Hu; discriminate Hu.
Qed.

(** ** Ages *)

Lemma safe_older p days (Q : Result bool JanitorError -> Owner -> World -> Prop) w :
  clocked w ->
  (forall b w', coexist w w' -> (b = true -> forall w1 c t, coexist w' w1 -> K p -> w_fs w1 !! p = Some (File c t) ->
     exists now, now ∈ readings /\ expired now days t = true) -> Q (Ok b) sweeper w') ->
  (forall e w', coexist w w' -> Q (Err e) sweeper w') ->
  safe Q (is_older_than_task p days) sweeper w.
Proof.
  intros Hc HO HE. unfold is_older_than_task. apply safe_bind, safe_map_err, jan_reads; [apply _|intros; apply syscall_fs|].
  intros w1 HA1. apply wp_fs_metadata; [|intros e w2 _ _ HA2 _; by apply HE]. intros md w2 Hfs2 _ Hmd HA2 _. cbn [map_err].
  assert (forall w3 c t, coexist w2 w3 -> K p -> w_fs w3 !! p = Some (File c t) -> md_modified md = t) as Hmod.
  { intros w3 c t HA3 Hp Hf. apply (Hmd c t). rewrite <- Hfs2. by apply (co_new _ _ _ _ _ _ HA3). }
  destruct (days =? 0)%Z eqn:E0.
  - apply safe_done, HO; [done|]. intros _ w3 c t _ _ _. exists (w_now w). split; [apply Hc; by left|].
    unfold expired. by rewrite E0.
  - apply safe_bind, jan_reads; [apply _|intros w3; unfold system_time_now; by destruct (w_clock w3)|].
    intros w3 HA3. assert (clocked w3) as Hc3 by (apply (coexist_clocked w); [by etransitivity|done]).
    unfold system_time_now, wp.
    assert (forall now w4, now ∈ readings -> coexist w2 w4 -> safe Q
      (if (now - wrap_u64 (days * 24 * 60 * 60) * NANOS <? - 2 ^ 63 * NANOS)%Z then Done (Err JPanicked)
       else p_ret (md_modified md <=? now - wrap_u64 (days * 24 * 60 * 60) * NANOS)%Z) sweeper w4) as Hend.
    { intros now w4 Hnow HA4. destruct (_ <? _)%Z; apply safe_done; [apply HE; by etransitivity|].
      apply HO; [by etransitivity|]. intros Hold w5 c t HA5 Hp Hf. exists now. split; [done|]. unfold expired. rewrite E0. cbn [orb].
      rewrite <- (Hmod w5 c t); [done| |done|done]. by etransitivity. }
    destruct (w_clock w3) as [|t ts] eqn:Ec; cbn [fst snd]; intros HA4 _; apply Hend; try done; apply Hc3; unfold times;
      rewrite ?Ec; set_solver.
Qed.

Lemma safe_len p (Q : Result Z JanitorError -> Owner -> World -> Prop) w :
  (forall n w', coexist w w' -> Q (Ok n) sweeper w') -> safe Q (file_len_task p) sweeper w.
Proof.
  intros HQ. unfold file_len_task. apply safe_bind, safe_try, jan_reads; [apply _|intros; apply syscall_fs|].
  intros w1 HA1. by apply wp_fs_metadata; intros; apply safe_done, HQ.
Qed.
(** ** The walk *)

(** What is left to find of the watched files below [root]. *)
Definition found root (dirs files todo : list Path) (fs : gmap Path Node) : Prop :=
  forall q c t, K q -> fs !! q = Some (File c t) -> below root q ->
    q ∈ files \/ (exists d, d ∈ dirs /\ below d q) \/ q ∈ todo \/ (exists d, d ∈ todo /\ fs !! d = Some Dir /\ below d q).

Lemma found_coexist root dirs files todo w w' :
  coexist w w' -> found root dirs files todo (w_fs w) -> found root dirs files todo (w_fs w').
Proof.
  intros HA Hf q c t Hq Hq' Hb. destruct (Hf q c t Hq) as [H|[H|[H|(d & Hd & Hdir & Hdq)]]]; [by apply (co_new _ _ _ _ _ _ HA)|done|auto..].
  right; right; right. exists d. split; [done|]. split; [|done]. by apply (st_dirs _ _ (co_steady _ _ _ _ _ _ HA)).
Qed.

Definition under root (l : list Path) : Prop := forall q, q ∈ l -> root `prefix_of` q.

Lemma safe_visit root acc q todo (Q : Result (list Path * list Path) JanitorError -> Owner -> World -> Prop) w :
  under root acc.1 -> under root acc.2 -> root `prefix_of` q -> found root acc.1 acc.2 (q :: todo) (w_fs w) ->
  (forall acc' w', coexist w w' -> under root acc'.1 -> under root acc'.2 -> found root acc'.1 acc'.2 todo (w_fs w') ->
     Q (Ok acc') sweeper w') ->
  (forall e w', coexist w w' -> Q (Err e) sweeper w') ->
  safe Q (visit_entry_task acc q) sweeper w.
Proof.
  intros Hd Hf Hq Hfound HO HE. unfold visit_entry_task. apply safe_bind, safe_map_err, jan_reads; [apply _|intros; apply syscall_fs|].
  intros w1 HA1. apply wp_file_type; [|intros e w2 _ _ HA2 _; by apply HE]. intros ty w2 Hfs2 _ Hty HA2 _. cbn [map_err].
  apply (found_coexist _ _ _ _ _ _ HA2) in Hfound. rewrite <- Hfs2 in Hty.
  destruct ty; apply safe_done, HO; cbn [fst snd]; try done.
  - intros r [Hr| ->%list_elem_of_singleton]%elem_of_app; [by apply Hf|done].
  - intros r c t Hr Hrf Hb. destruct (Hfound r c t Hr Hrf Hb) as [H|[H|[H|(d & H & Hdir & Hdr)]]].
    + left. by apply elem_of_app; left.
    + by right; left.
    + apply elem_of_cons in H as [->|H]; [left; apply elem_of_app; right; by left|by right; right; left].
    + apply elem_of_cons in H as [->|H]; [|right; right; right; by exists d]. destruct Hty as (c' & t' & Hty). congruence.
  - intros r [->|Hr]%elem_of_cons; [done|by apply Hd].
  - intros r c t Hr Hrf Hb. destruct (Hfound r c t Hr Hrf Hb) as [H|[(d & H & Hdr)|[H|(d & H & Hdir & Hdr)]]].
    + by left.
    + right; left. exists d. split; [by right|done].
    + apply elem_of_cons in H as [->|H]; [congruence|by right; right; left].
    + apply elem_of_cons in H as [->|H]; [right; left; exists q; split; [by left|done]|right; right; right; by exists d].
Qed.

Lemma safe_visits root acc entries (Q : Result (list Path * list Path) JanitorError -> Owner -> World -> Prop) w :
  under root acc.1 -> under root acc.2 -> under root entries -> found root acc.1 acc.2 entries (w_fs w) ->
  (forall acc' w', coexist w w' -> under root acc'.1 -> under root acc'.2 -> found root acc'.1 acc'.2 [] (w_fs w') ->
     Q (Ok acc') sweeper w') ->
  (forall e w', coexist w w' -> Q (Err e) sweeper w') ->
  safe Q (p_fold visit_entry_task acc entries) sweeper w.
Proof.
  intros Hd Hf He Hfound HO HE.
  apply (safe_fold _ (fun acc todo o w' => o = sweeper /\ coexist w w' /\ under root acc.1 /\ under root acc.2 /\ under root todo /\
    found root acc.1 acc.2 todo (w_fs w'))); [| |done].
  - intros a q todo o w1 (-> & HA & Hd1 & Hf1 & He1 & Hfound1).
    apply (safe_visit root a q todo); [done|done|apply He1; by left|done| |].
    + intros a' w2 HA2 Hd2 Hf2 Hfound2. split_and!; try done; [by etransitivity|]. intros r Hr. apply He1. by right.
    + intros e w2 HA2. apply HE. by etransitivity.
  - intros a o w1 (-> & HA & Hd1 & Hf1 & _ & Hfound1). by apply HO.
Qed.

(** Reading a directory moves what lies below it to its entries. *)
Lemma found_read root dir rest files entries w :
  fs_wf (w_fs w) -> entries ≡ₚ children (w_fs w) dir -> found root (dir :: rest) files [] (w_fs w) ->
  found root rest files entries (w_fs w).
Proof.
  intros Hwf Hent Hf q c t Hq Hqf Hb.
  assert (forall r, r ∈ entries <-> parent r = Some dir /\ is_Some (w_fs w !! r)) as Hin by (intros r; rewrite Hent; apply elem_of_children).
  destruct (Hf q c t Hq Hqf Hb) as [H|[(d & Hd & Hdq)|[H|(d & H & _)]]]; [by left| |by apply not_elem_of_nil in H..].
  apply elem_of_cons in Hd as [->|Hd]; [|right; left; by exists d].
  destruct (below_step (w_fs w) dir q Hwf) as [(x & Hx & ->)|(d & (x & Hx & ->) & Hd & Hdq')]; [by exists c, t|done|..].
  - right; right; left. apply Hin. split; [by apply parent_snoc|by eexists].
  - right; right; right. exists (dir ++ [x]). split; [|done]. apply Hin. split; [by apply parent_snoc|by eexists].
Qed.

Lemma safe_walk fuel root dirs files (Q : Result (list Path) JanitorError -> Owner -> World -> Prop) w :
  fs_wf (w_fs w) -> under root dirs -> under root files -> found root dirs files [] (w_fs w) ->
  (forall files' w', coexist w w' -> under root files' ->
     (forall q c t, K q -> w_fs w' !! q = Some (File c t) -> below root q -> q ∈ files') -> Q (Ok files') sweeper w') ->
  (forall e w', coexist w w' -> Q (Err e) sweeper w') ->
  safe Q (collect_loop_task fuel dirs files) sweeper w.
Proof.
  revert dirs files w. induction fuel as [|fuel IH]; intros [|dir rest] files w Hwf Hd Hf Hfound HO HE.
  1,3: apply HO; [reflexivity|done|]; intros q c t Hq Hqf Hb;
    destruct (Hfound q c t Hq Hqf Hb) as [H|[(d & H & _)|[H|(d & H & _)]]]; [done|by apply not_elem_of_nil in H..].
  - apply HE. reflexivity.
  - cbn [collect_loop_task]. apply safe_bind, safe_map_err, jan_reads; [apply _|intros; apply syscall_fs|].
    intros w1 HA1. apply wp_read_dir; [|intros e w2 _ _ HA2 _; by apply HE].
    intros entries w2 Hfs2 _ _ Hent HA2 _. cbn [map_err]. rewrite <- Hfs2 in Hent.
    pose proof (coexist_wf _ _ HA2 Hwf) as Hwf2.
    apply safe_bind, (safe_visits root).
    + intros q Hq. apply Hd. by right.
    + done.
    + intros q Hq. rewrite Hent in Hq. apply elem_of_children in Hq as [(x & -> & _)%parent_Some _].
      apply prefix_app_r, Hd. by left.
    + cbn [fst snd]. apply (found_read root dir); [done|done|]. by eapply found_coexist.
    + intros [dirs' files'] w3 HA3 Hd3 Hf3 Hfound3. cbn [fst snd] in *.
      apply IH; [by apply (coexist_wf w2)|done|done|done| |].
      * intros files4 w4 HA4. apply HO. etransitivity; [exact HA2|]. by etransitivity.
      * intros e w4 HA4. apply HE. etransitivity; [exact HA2|]. by etransitivity.
    + intros e w3 HA3. apply HE. by etransitivity.
Qed.

Lemma safe_collect extra root (Q : Result (list Path) JanitorError -> Owner -> World -> Prop) w :
  root <> [] -> fs_wf (w_fs w) ->
  (forall files w', coexist w w' -> under root files ->
     (forall q c t, K q -> w_fs w' !! q = Some (File c t) -> below root q -> q ∈ files) -> Q (Ok files) sweeper w') ->
  (forall e w', coexist w w' -> Q (Err e) sweeper w') ->
  safe Q (collect_files_task extra root) sweeper w.
Proof.
  intros Hroot Hwf HO HE. unfold collect_files_task. apply safe_bind, safe_map_err, jan_reads; [apply _|intros; apply syscall_fs|].
  intros w1 HA1. apply wp_try_exists; [|intros e w2 _ _ HA2 _; by apply HE]. intros w2 _ _ HA2 Hfs2. cbn [map_err].
  pose proof (coexist_wf _ _ HA2 Hwf) as Hwf2. case_bool_decide as Hex.
  - apply safe_bind, jan_reads; [apply _|done|]. intros w3 HA3. unfold count_nodes, wp. cbn [fst snd]. intros _ _.
    assert (coexist w w3) as HA by (by etransitivity). apply (safe_walk _ root); [by apply (coexist_wf w)| | | | |].
    + by intros q ->%list_elem_of_singleton.
    + by intros q Hq%not_elem_of_nil.
    + intros q c t _ _ Hb. right; left. exists root. split; [by left|done].
    + intros files w4 HA4. apply HO. by etransitivity.
    + intros e w4 HA4. apply HE. by etransitivity.
  - apply safe_done, HO; [done|by intros q Hq%not_elem_of_nil|]. intros q c t _ Hq (rest & -> & Hne & Hsl). exfalso. apply Hex.
    rewrite <- Hfs2. exists Dir. by apply (below_root _ _ rest _ Hwf2 Hq).
Qed.
(** ** Pruning *)

Lemma safe_prune_log days stats p (Q : Result JanitorStats JanitorError -> Owner -> World -> Prop) w :
  clocked w -> logs_root s `prefix_of` p -> (forall r w', coexist w w' -> Q r sweeper w') ->
  safe Q (prune_log_task days stats p) sweeper w.
Proof using UL SL HK.
  intros Hc Hp HQ. unfold prune_log_task. destruct (negb _); [apply HQ; reflexivity|].
  apply safe_bind, safe_older; [done| |by auto]. intros b w1 HA1 _. destruct b; [|by apply HQ].
  apply safe_bind, safe_len. intros n w2 HA2. destruct (proj1 (roots_apart s p) Hp) as [Hni Hnb].
  apply safe_bind, safe_map_err, jan_remove.
  - eapply root_not_tmp; [|exact Hp]. by left.
  - intros w3 c t _ _ Hk. exfalso. by apply Hni, below_prefix, HK.
  - intros w3 q c _ _ [_ Hb]. apply blob_hash_blob_path in Hb as [Hb _]. by apply Hnb.
  - intros r w3 HA3 _. assert (coexist w w3) by (etransitivity; [exact HA1|]; by etransitivity).
    destruct r; cbn [map_err]; by apply HQ.
Qed.

(** The references of the watched indexes that are still to be read, or taken. *)
Definition collected (todo : list Path) (referenced : gset string) (fs : gmap Path Node) : Prop :=
  forall q h, K q -> refers fs q h -> q ∈ todo \/ h ∈ referenced.

Lemma collected_coexist todo referenced w w' :
  coexist w w' -> collected todo referenced (w_fs w) -> collected todo referenced (w_fs w').
Proof. intros HA Hc q h Hq Hr. apply Hc; [done|]. by eapply refers_back. Qed.

Lemma collected_skip p todo referenced referenced' fs :
  collected (p :: todo) referenced fs -> referenced ⊆ referenced' ->
  (forall h, refers fs p h -> h ∈ referenced') -> collected todo referenced' fs.
Proof.
  intros Hc Hsub Hp q h Hq Hr. destruct (Hc q h Hq Hr) as [[->|H]%elem_of_cons|H]; [right; by apply Hp|by left|right; by apply Hsub].
Qed.

Lemma safe_prune_index stats referenced p todo (Q : Result (JanitorStats * gset string) JanitorError -> Owner -> World -> Prop) w :
  clocked w -> index_root s `prefix_of` p -> collected (p :: todo) referenced (w_fs w) ->
  (forall stats' referenced' w', coexist w w' -> collected todo referenced' (w_fs w') -> Q (Ok (stats', referenced')) sweeper w') ->
  (forall e w', coexist w w' -> Q (Err e) sweeper w') ->
  safe Q (prune_index_task ttl (stats, referenced) p) sweeper w.
Proof using UL SL HK.
  intros Hc Hp Hcol HO HE. unfold prune_index_task. destruct (has_extension "json" p) eqn:Ex; cbn [negb].
  2: { apply HO; [reflexivity|]. eapply collected_skip; [done|done|]. intros h (c & t & idx & _ & Hx & _). congruence. }
  apply safe_bind, safe_older; [done| |done]. intros b w1 HA1 Hold. apply (collected_coexist _ _ _ _ HA1) in Hcol. destruct b.
  - apply safe_bind, safe_len. intros n w2 HA2. apply (collected_coexist _ _ _ _ HA2) in Hcol.
    apply safe_bind, safe_map_err, jan_remove.
    + eapply root_not_tmp; [|exact Hp]. by right; left.
    + intros w3 c t HA3 Hf Hk. eapply (Hold eq_refl w3); [by etransitivity|done|done].
    + intros w3 q c _ _ [_ Hb]. apply blob_hash_blob_path in Hb as [Hb _]. by apply (roots_apart s p).
    + intros r w3 HA3 Hgone. assert (coexist w w3) as HA by (etransitivity; [exact HA1|]; by etransitivity).
      destruct r as [[]|e]; cbn [map_err]; [|by apply HE]. apply safe_done, HO; [done|].
      eapply collected_skip; [exact (collected_coexist _ _ _ _ HA3 Hcol)|done|]. intros h (c & t & idx & Hf & _). by rewrite Hgone in Hf.
  - apply safe_bind, safe_map_err, jan_reads; [apply _|intros; apply syscall_fs|]. intros w2 HA2.
    apply wp_fs_read; [|intros e w3 _ _ HA3 _; apply HE; by etransitivity].
    intros c t w3 Hf _ _ HA3 Hfs3. cbn [map_err]. apply (collected_coexist _ _ _ _ HA3) in Hcol. rewrite <- Hfs3 in Hf.
    assert (forall c' t', w_fs w3 !! p = Some (File c' t') -> c' = c) as Hsame by (intros c' t' Hf'; congruence).
    assert (coexist w w3) as HA by (by etransitivity).
    destruct (index_ref_from_slice c) as [idx|e] eqn:Ei; apply safe_done, HO; try done.
    + eapply collected_skip; [done|apply union_subseteq_r|]. intros h (c' & t' & idx' & ->%Hsame & _ & Hi & Hh).
      rewrite Ei in Hi. injection Hi as <-. by apply elem_of_union_l, elem_of_list_to_set.
    + eapply collected_skip; [done|done|]. intros h (c' & t' & idx' & ->%Hsame & _ & Hi & _). congruence.
Qed.

(** ** The sweep *)

Lemma safe_sweep_blob referenced stats p (Q : Result JanitorStats JanitorError -> Owner -> World -> Prop) w :
  blob_root s `prefix_of` p -> collected [] referenced (w_fs w) -> (forall r w', coexist w w' -> Q r sweeper w') ->
  safe Q (sweep_blob_task referenced stats p) sweeper w.
Proof using UL SL HK.
  intros Hp Hcol HQ. unfold sweep_blob_task. destruct (blob_hash p) as [h|] eqn:Eh; [|apply HQ; reflexivity].
  case_decide as Hh; [apply HQ; reflexivity|]. apply safe_bind, safe_len. intros n w1 HA1.
  apply (collected_coexist _ _ _ _ HA1) in Hcol. apply safe_bind, safe_try, jan_remove.
  - eapply root_not_tmp; [|exact Hp]. by right; right.
  - intros w2 c t _ _ Hk. exfalso. by apply (roots_apart s p); [apply below_prefix, HK|].
  - intros w2 q c HA2 Hq [Hr Hb]. apply blob_hash_blob_path in Hb as [_ Hb]. rewrite Eh in Hb. injection Hb as ->.
    apply (collected_coexist _ _ _ _ HA2) in Hcol. destruct (Hcol q _ Hq Hr) as [H|H]; [by apply not_elem_of_nil in H|done].
  - intros r w2 HA2 _. assert (coexist w w2) by (by etransitivity). destruct r as [[]|e]; [by apply HQ|].
    case_decide; by apply HQ.
Qed.

(** ** A cycle *)

Lemma safe_cycle extra cfg (Q : Result JanitorStats JanitorError -> Owner -> World -> Prop) w :
  crashes_ttl_days cfg = ttl -> clocked w -> fs_wf (w_fs w) -> (forall r w', coexist w w' -> Q r sweeper w') ->
  safe Q (run_janitor_cycle_task extra s cfg) sweeper w.
Proof using UL SL HK.
  intros Httl Hc Hwf HQ. unfold run_janitor_cycle_task, snapshot_blobs_task, prune_logs_task, prune_indexes_task.
  fold (logs_root s) (index_root s) (blob_root s).
  destruct (roots_components s) as (Hl & Hi & Hb).
  assert (logs_root s <> [] /\ index_root s <> [] /\ blob_root s <> []) as (Hl0 & Hi0 & Hb0)
    by (rewrite Hl, Hi, Hb; split_and!; apply app_not_nil).
  apply safe_bind, safe_bind, safe_collect; [done|done| |by auto]. intros blobs w1 HA1 Hblobs _. apply safe_done.
  apply safe_bind, safe_bind, safe_collect; [done|by apply (coexist_wf w)| |intros e w2 HA2; apply HQ; by etransitivity].
  intros logs w2 HA2 Hlogs _. assert (coexist w w2) as HA by (by etransitivity).
  apply (safe_fold _ (fun _ todo o w' => o = sweeper /\ coexist w w' /\ under (logs_root s) todo)); [| |done].
  { intros stats p todo o w3 (-> & HA3 & Hu). apply safe_prune_log; [by apply (coexist_clocked w)|apply Hu; by left|].
    intros [stats'|e] w4 HA4; [|apply HQ; by etransitivity]. split; [done|]. split; [by etransitivity|].
    intros q Hq. apply Hu. by right. }
  intros stats o w3 (-> & HA3 & _).
  apply safe_bind, safe_bind, safe_collect; [done|by apply (coexist_wf w)| |intros e w4 HA4; apply HQ; by etransitivity].
  intros indexes w4 HA4 Hidx Hall. assert (coexist w w4) as HA4' by (by etransitivity). rewrite Httl.
  apply (safe_fold _ (fun acc todo o w' => o = sweeper /\ coexist w w' /\ under (index_root s) todo /\ collected todo acc.2 (w_fs w'))).
  { intros [stats' referenced] p todo o w5 (-> & HA5 & Hu & Hcol).
    apply (safe_prune_index _ _ _ todo); [by apply (coexist_clocked w)|apply Hu; by left|done| |intros e w6 HA6; apply HQ; by etransitivity].
    intros stats2 referenced2 w6 HA6 Hcol6. split_and!; [done|by etransitivity| |done]. intros q Hq. apply Hu. by right. }
  2: { split_and!; [done|done|done|]. intros q h Hq Hr. left. destruct Hr as (c & t & idx & Hf & _). by apply (Hall q c t), HK. }
  intros [stats' referenced] o w5 (-> & HA5 & _ & Hcol). cbn [snd] in Hcol.
  apply (safe_fold _ (fun _ todo o w' => o = sweeper /\ coexist w w' /\ under (blob_root s) todo /\ collected [] referenced (w_fs w'))).
  - intros st p todo o w6 (-> & HA6 & Hu & Hcol6). apply safe_sweep_blob; [apply Hu; by left|done|].
    intros [st'|e] w7 HA7; [|apply HQ; by etransitivity]. split_and!; [done|by etransitivity| |by eapply collected_coexist].
    intros q Hq. apply Hu. by right.
  - intros st o w6 (-> & HA6 & _). by apply HQ.
  - split_and!; [done|done| |done]. intros q Hq. apply list_elem_of_filter in Hq as [_ Hq]. by apply Hblobs.
Qed.

(** The loop keeps to this for as many ticks as there are. *)
Lemma safe_janitor {E : Type} extra cfg ticks (Q : Result unit E -> Owner -> AppState * World -> Prop) st w :
  crashes_ttl_days cfg = ttl -> clocked w -> fs_wf (w_fs w) -> (forall r sw, Q r sweeper sw) ->
  safe Q (janitor_task extra s cfg ticks) sweeper (st, w).
Proof using UL SL HK.
  intros Httl Hc Hwf HQ. revert st w Hc Hwf. induction ticks as [|elapsed ticks IH]; intros st w Hc Hwf; [apply HQ|].
  cbn [janitor_task]. apply safe_bind, safe_try.
  assert (forall f st' w', coexist w w' -> safe Q (act (modify_metrics f);;+ janitor_task extra s cfg ticks) sweeper (st', w')) as Hnext.
  { intros f st' w' HA. apply safe_bind, safe_act. intros [st2 w2] [_ [HA2 _]]. apply wp_modify_metrics. intros st3 Hc3 _ _.
    exists sweeper. cbn [snd] in HA2. assert (coexist w w2) by (by etransitivity). split.
    - split; [done|]. by apply sweeper_guar; [reflexivity|].
    - apply IH; [by apply (coexist_clocked w)|by apply (coexist_wf w)]. }
  enough (safe (fun (r : Result JanitorStats JanitorError) o w' => o = sweeper /\ coexist w w') (run_janitor_cycle_task extra s cfg) sweeper w) as H.
  2: { apply safe_cycle; [done|done|done|]. by intros r w' HA. }
  eapply app_safe; [exact H|]. intros r o st' w' [-> HA] _. destruct r as [stats|[e| |]]; [by apply Hnext|by apply Hnext|apply HQ|by apply Hnext].
Qed.
End Sweeper.
