(* ===== verification/RetentionConcurrent.v ===== *)
(** * Retention beside uploads: the properties

    Any number of crash requests and the janitor's loop, interleaved at every system
    call by any schedule, with the rest of the process acting in between. *)

From Stdlib Require Import Ascii.
From S2P Require Import Prelude RustStd Fs External Instances Json Protocol Metrics Schemas Storage F64 RateLimit Auth State Crashes CrashStore CrashIngest CrashProgress Janitor Retention Refs System Concurrency CrashTasks CrashRely CrashParallel CrashConcurrent JanitorTasks RetentionRely RetentionUploads RetentionJanitor.

(** ** What every action of the janitor does *)

#[export] Instance steady_tidy {E A : Type} (m : IO E A) : Step steady m -> Step tidy m | 10.
Proof. intros Hm w. apply st_tidy, Hm. Qed.

Section Beside.
Context {U : UuidApi} {UL : UuidLaws U} {C : ChronoApi} {CL : ChronoLaws C}
  {S : Sha256Api} {SL : Sha256Laws S} {J : JsonText} {M : MulterApi} {HT : HttpApi} {V : JsonSchemaApi} {OS : Os}.

#[export] Instance visit_entry_tidy acc entry : Acts tidy (visit_entry_task acc entry).
Proof. unfold visit_entry_task. apply acts_bind; [apply _|]. intros [|]; apply _. Qed.

#[export] Instance collect_loop_tidy fuel dirs files : Acts tidy (collect_loop_task fuel dirs files).
Proof. revert dirs files. induction fuel as [|fuel IH]; intros [|dir rest] files; cbn [collect_loop_task]; apply _. Qed.

#[export] Instance cycle_tidy extra s cfg : Acts tidy (run_janitor_cycle_task extra s cfg).
Proof.
  unfold run_janitor_cycle_task, snapshot_blobs_task, prune_logs_task, prune_indexes_task, sweep_blobs_task, collect_files_task,
    prune_log_task, prune_index_task, sweep_blob_task, is_older_than_task, file_len_task. cbv zeta. apply _.
Qed.

#[export] Instance janitor_tidy E extra s cfg ticks : Acts app_tidy (janitor_task (E := E) extra s cfg ticks).
Proof.
  induction ticks as [|elapsed ticks IH]; cbn [janitor_task]; [apply _|]. apply acts_bind; [apply _|].
  intros [stats|[e| |]]; apply _.
Qed.

(** ** The pool *)

(** What a task ends with. *)
Inductive Outcome :=
| Answered (r : Result (Z * CrashResponse) CrashError)
| Retained.

Definition request_task (u : Upload) : Prog (AppState * World) Empty_set Outcome :=
  let+ r := p_try (upload_task u) in p_ret (Answered r).

Definition retention_task (extra : nat) (s : StoragePaths) (cfg : RetentionConfig) (ticks : list Z)
  : Prog (AppState * World) Empty_set Outcome :=
  janitor_task extra s cfg ticks;;+ p_ret Retained.

(** The requests, and the janitor after them. *)
Definition store_pool (ups : list Upload) (extra : nat) (cfg : RetentionConfig) (ticks : list Z) (st : AppState) (w : World)
  : Pool (AppState * World) Empty_set Outcome :=
  ((request_task <$> ups) ++ [retention_task extra (storage st) cfg ticks], (st, w)).

(** Steps of the rest of the process: they stay out of [tmp] and [crashes], remove
    no directory and only read the clock. *)
Record neighbour (s : StoragePaths) (f : AppState * World -> AppState * World) : Prop := {
  nb_config sw : same_config sw.1 (f sw).1;
  nb_steady sw : steady sw.2 (f sw).2;
  nb_area sw q : in_area s q -> w_fs (f sw).2 !! q = w_fs sw.2 !! q
}.

Definition neighbourly (s : StoragePaths) (c : Choice (AppState * World)) : Prop :=
  match c with Turn _ => True | Env f => neighbour s f end.

Lemma neighbour_tidy s cs : Forall (neighbourly s) cs -> Forall (env_acts app_tidy) cs.
Proof. intros H. eapply Forall_impl; [exact H|]. intros [i|f] Hf; [done|]. intros sw. apply (nb_steady _ _ Hf). Qed.

Lemma store_pool_acts ups extra cfg ticks st w : Forall (Acts app_tidy) (store_pool ups extra cfg ticks st w).1.
Proof.
  apply Forall_app. split.
  - apply Forall_forall. intros p Hp. apply list_elem_of_fmap in Hp as (u & -> & _). unfold request_task, upload_task. apply _.
  - apply Forall_singleton. unfold retention_task. apply _.
Qed.

Section Watch.
Context (s : StoragePaths) (N : nat) (ttl : Z) (readings : list Z) (Hnames : names_differ N).
Context (K : Path -> Prop) (HK : forall q, K q -> below (index_root s) q).

#[local] Hint Extern 0 (RelyGuarantee (AppState * World) _) => exact (AppCoexist s N ttl readings K) : typeclass_instances.

Definition app_coexist (sw sw' : AppState * World) : Prop := coexist s ttl readings K sw.2 sw'.2.

#[local] Instance app_coexist_preorder : PreOrder app_coexist.
Proof. split; unfold app_coexist; [intros a; reflexivity|]. intros a b c ? ?. by etransitivity. Qed.

Lemma index_in_area q : below (index_root s) q -> in_area s q.
Proof.
  intros (r & -> & _). right. destruct (roots_components s) as (_ & -> & _). exists ("by-source" :: r).
  by rewrite <- !app_assoc.
Qed.

Lemma neighbour_coexist f sw : neighbour s f -> coexist s ttl readings K sw.2 (f sw).2.
Proof using SL HK.
  intros Hf. assert (forall q, is_blob s q -> w_fs (f sw).2 !! q = w_fs sw.2 !! q) as Hb.
  { intros q Hq. by apply (nb_area _ _ Hf), blob_in_area. }
  assert (forall q, K q -> w_fs (f sw).2 !! q = w_fs sw.2 !! q) as Hk.
  { intros q Hq. by apply (nb_area _ _ Hf), index_in_area, HK. }
  split; [apply (nb_steady _ _ Hf)|..].
  - intros Hok b p n Hp. rewrite Hb by (by exists b). by apply Hok.
  - intros q c t Hq. by rewrite Hk.
  - intros q c t Hq. rewrite Hk by done. by left.
  - intros q h _ _ (p & c & t & Hp & Hf' & Hc). exists p, c, t. split; [done|]. split; [|done]. rewrite Hb; [done|]. exists c. by rewrite Hc.
Qed.

Lemma tmp_in_area q : is_tmp s q -> in_area s q.
Proof using UL. intros [u ->]. left. rewrite temp_path_components. eexists. by rewrite <- app_assoc. Qed.

Lemma neighbour_fine c : neighbourly s c -> env_fine c.
Proof using UL SL HK.
  destruct c as [i|f]; [done|]. intros Hf o sw Ho. split; [apply (nb_config _ _ Hf)|].
  split; [by apply neighbour_coexist|]. intros q Hq. apply (nb_area _ _ Hf), tmp_in_area.
  destruct (Ho q Hq) as (n & _ & ->). by eexists.
Qed.

(** A run from a pool whose tasks are safe. *)
Lemma watch_run (post : nat -> Result Outcome Empty_set -> Owner -> AppState * World -> Prop) cs (pw : Pool _ _ Outcome) :
  let fin := run_pool cs pw in
  Forall (Acts app_tidy) pw.1 -> Forall (neighbourly s) cs -> (w_uuids fin.2.2 <= N)%nat -> pool_inv post pw ->
  pool_inv post fin /\ coexist s ttl readings K pw.2.2 fin.2.2.
Proof using UL CL SL HK Hnames.
  intros fin Hacts Hcs HN Hinv. pose proof (AppCoexistLaws s N ttl readings K Hnames) as HL.
  pose proof (neighbour_tidy s cs Hcs) as Henv.
  assert (stays_within cs pw) as Hin.
  { intros cs1 cs2 Heq. subst cs. destruct (run_pool_acts_prefix app_tidy cs1 cs2 _ Hacts Henv) as [Hle _].
    exact (Nat.le_trans _ _ _ Hle HN). }
  assert (Forall env_fine cs) as Hfine by (eapply Forall_impl; [exact Hcs|apply neighbour_fine]).
  split; [by apply run_pool_inv|]. apply (run_pool_rel post app_coexist cs pw); [| |done|done|done].
  - by intros o o' sw sw' _ [_ [HA _]].
  - eapply Forall_impl; [exact Hcs|]. intros [i|f] Hf; [done|]. intros sw. by apply neighbour_coexist.
Qed.
End Watch.
(** ** The two stretches of a run

    Before the cycle that is looked at, and from its start on. *)

Section Stretches.
Context (s : StoragePaths) (N : nat) (readings : list Z) (ups : list Upload) (extra : nat) (cfg : RetentionConfig).
Context (Hnames : names_differ N).

Definition upload_owner (u : Upload) : Owner := {| temps := nothing; writes := target s (up_request u); sweeps := false |}.

(** What a task owns besides its temporary files. *)
Definition owns (i : nat) (_ : Result Outcome Empty_set) (o : Owner) (_ : AppState * World) : Prop :=
  forall u, ups !! i = Some u -> writes o = target s (up_request u) /\ sweeps o = false.

(** At the start every task is safe. *)
Lemma store_pool_inv ticks st w :
  storage st = s -> readings = times w -> fs_wf (w_fs w) ->
  @pool_inv _ _ (AppCoexist s N (crashes_ttl_days cfg) readings nothing) _ _ owns (store_pool ups extra cfg ticks st w).
Proof using UL CL SL.
  intros Hst Hread Hwf. exists ((upload_owner <$> ups) ++ [sweeper]). unfold store_pool. cbn [fst snd].
  rewrite !length_app, !length_fmap. split; [done|]. split.
  - intros i p o Hp Ho. destruct (decide (i < length ups)%nat) as [Hi|Hi].
    + rewrite lookup_app_l in Hp by (by rewrite length_fmap). rewrite lookup_app_l in Ho by (by rewrite length_fmap).
      apply list_lookup_fmap_Some in Hp as (u & -> & Hu). rewrite list_lookup_fmap, Hu in Ho. injection Ho as <-.
      split; [by intros q []|]. exists (st, w). split; [|split; [reflexivity|split; [reflexivity|done]]].
      unfold request_task. apply safe_bind, safe_try.
      apply (safe_crash_beside s N (crashes_ttl_days cfg) readings (target s (up_request u)) (target_index s (up_request u)));
        [done|done|by split; [|intros q []]|].
      intros r o' st' w' [[Hw Hs] _] u' Hu'. rewrite Hu in Hu'. injection Hu' as <-. done.
    + rewrite lookup_app_r in Hp by (rewrite length_fmap; lia). rewrite lookup_app_r in Ho by (rewrite length_fmap; lia).
      rewrite length_fmap in Hp. rewrite length_fmap in Ho. apply list_lookup_singleton_Some in Hp as [Hi0 <-]. rewrite Hi0 in Ho. injection Ho as <-.
      split; [by intros q []|]. exists (st, w). split; [|split; [reflexivity|split; [reflexivity|done]]].
      unfold retention_task. rewrite Hst. apply safe_bind, safe_janitor; [by intros q []|done|by rewrite Hread; intros t Ht|done|].
      intros r sw. destruct r as [[]|[]]. intros u Hu. apply lookup_lt_Some in Hu. lia.
  - intros i j oi oj Hij Hi Hj q Hqi Hqj. apply list_elem_of_lookup_2 in Hi. apply elem_of_app in Hi as [Hi|Hi].
    + by apply list_elem_of_fmap in Hi as (u & -> & _).
    + by apply list_elem_of_singleton in Hi as ->.
Qed.
(** An interrupted task is safe from any state its rely leads to. *)
Lemma safe_moved {E A : Type} K ttl (Q : Result A E -> Owner -> AppState * World -> Prop) F Y (m : ST _ F Y) k o sw sw' :
  @safe _ _ (AppCoexist s N ttl readings K) _ _ Q (Act m k) o sw ->
  @rely _ _ (AppCoexist s N ttl readings K) o sw sw' -> @safe _ _ (AppCoexist s N ttl readings K) _ _ Q (Act m k) o sw'.
Proof.
  intros Hs [Hc Hr] sw1 [Hc1 Hr1]. apply Hs. split; [by etransitivity|]. by etransitivity.
Qed.

(** When a cycle is about to start, every task is safe with the indexes watched
    that no unanswered request writes. *)
Lemma cycle_starts K (mid : Pool _ Empty_set Outcome) ticks :
  (forall q, K q -> below (index_root s) q) ->
  (forall q i u, K q -> ups !! i = Some u -> target s (up_request u) q -> is_Some (result_of mid.1 i)) ->
  (forall t, t ∈ times mid.2.2 -> t ∈ readings) -> fs_wf (w_fs mid.2.2) -> length mid.1 = Datatypes.S (length ups) ->
  mid.1 !! length ups = Some (retention_task extra s cfg ticks) ->
  @pool_inv _ _ (AppCoexist s N (crashes_ttl_days cfg) readings nothing) _ _ owns mid ->
  @pool_inv _ _ (AppCoexist s N (crashes_ttl_days cfg) readings K) _ _ (fun _ _ _ _ => True) mid.
Proof using UL CL SL.
  intros HK Hans Hclock Hwf Hlen Hjan (os & Hos & Hts & Hap). exists (<[length ups := sweeper]> os).
  rewrite length_insert. split; [done|]. split.
  - intros i p o Hp Ho. destruct (decide (i = length ups)) as [->|Hi].
    + rewrite list_lookup_insert_eq in Ho by lia. injection Ho as <-. rewrite Hjan in Hp. injection Hp as <-.
      split; [by intros q []|]. exists mid.2. split; [|split; [reflexivity|split; [reflexivity|done]]].
      destruct mid.2 as [st w]. apply safe_bind, safe_janitor; [done|done|done|done|]. by intros [[]|[]] sw.
    + rewrite list_lookup_insert_ne in Ho by done. destruct (Hts i p o Hp Ho) as (Hok & w0 & Hsafe & Hrely).
      split; [exact Hok|]. exists mid.2. split; [|split; [reflexivity|split; [reflexivity|done]]].
      destruct p as [r|F Y m k]; [done|].
      destruct (lookup_lt_is_Some_2 ups i) as [u Hu]; [apply lookup_lt_Some in Hp; lia|].
      destruct (safe_owner s N _ readings nothing (fun X b => X = target s (up_request u) /\ b = false) _ _ _ _ (fun r o' sw' H => H u Hu) Hsafe) as [Hw Hsw].
      eapply safe_mono; [|apply safe_watch; [exact Hsw| |by eapply safe_moved]]; [done|].
      intros q Hq. split; [by apply HK|]. rewrite Hw. intros Ht. destruct (Hans q i u Hq Hu Ht) as [r Hr].
      unfold result_of in Hr. by rewrite Hp in Hr.
  - intros i j oi oj Hij Hi Hj q Hqi Hqj.
    assert (forall k ok, <[length ups := sweeper]> os !! k = Some ok -> temps ok q -> k <> length ups /\ os !! k = Some ok) as Hold.
    { intros k ok Hk Hq. destruct (decide (k = length ups)) as [->|Hne].
      - rewrite list_lookup_insert_eq in Hk by lia. injection Hk as <-. destruct Hq.
      - by rewrite list_lookup_insert_ne in Hk. }
    destruct (Hold i oi Hi Hqi) as [_ Hi']. destruct (Hold j oj Hj Hqj) as [_ Hj'].
    by apply (Hap i j oi oj Hij Hi' Hj' q).
Qed.
End Stretches.

(** ** Properties *)

(** C3. Retention and uploads run at the same time, interleaved at every system call
    by any schedule, with any calls failing: any number of crash requests, the
    janitor's loop for any number of cycles, and the rest of the process in between
    outside the crash store.  At every moment files lie in directories and what lies
    at the path of a hash is a file with that content.  From any moment at which the
    janitor is between two cycles, take an index that no request still being served
    writes: whatever the following cycles and the requests do, it is not changed; it
    is removed only if it has expired by some reading of the clock; and as long as
    it is there, every blob it references that was in the store at that moment is in
    the store.  The names of the temporary files are assumed to differ, and a
    directory is read in one step. *)
Theorem retention_beside_uploads st w ups extra cfg ticks cs1 cs2 left :
  let s := storage st in
  let mid := run_pool cs1 (store_pool ups extra cfg ticks st w) in
  let fin := run_pool cs2 mid in
  fs_wf (w_fs w) -> store_ok s (w_fs w) -> Forall (neighbourly s) (cs1 ++ cs2) -> names_differ (w_uuids fin.2.2) ->
  mid.1 !! length ups = Some (retention_task extra s cfg left) ->
  fs_wf (w_fs fin.2.2) /\ store_ok s (w_fs fin.2.2) /\
  forall q, below (index_root s) q ->
    (forall i u, ups !! i = Some u -> target s (up_request u) q -> is_Some (result_of mid.1 i)) ->
    (forall c t, w_fs fin.2.2 !! q = Some (File c t) -> w_fs mid.2.2 !! q = Some (File c t)) /\
    (forall c t, w_fs mid.2.2 !! q = Some (File c t) ->
       w_fs fin.2.2 !! q = Some (File c t) \/
       exists now, now ∈ times w /\ expired now (crashes_ttl_days cfg) t = true) /\
    (forall h, refers (w_fs fin.2.2) q h -> resolves s (w_fs mid.2.2) h -> resolves s (w_fs fin.2.2) h).
Proof using UL CL SL.
  intros s mid fin Hwf Hok Hcs Hnames Hjan. apply Forall_app in Hcs as [Hcs1 Hcs2].
  set (N := w_uuids fin.2.2) in *. set (ttl := crashes_ttl_days cfg).
  pose proof (store_pool_acts ups extra cfg ticks st w) as Hacts.
  destruct (run_pool_acts app_tidy cs1 _ Hacts (neighbour_tidy s cs1 Hcs1)) as [_ Hacts2].
  destruct (run_pool_acts app_tidy cs2 mid Hacts2 (neighbour_tidy s cs2 Hcs2)) as [[HN _] _].
  destruct (watch_run s N ttl (times w) Hnames nothing (fun q H => match H with end) (owns s ups) cs1
    (store_pool ups extra cfg ticks st w) Hacts Hcs1 HN (store_pool_inv s N (times w) ups extra cfg ticks st w eq_refl eq_refl Hwf)) as [Hinv HA1].
  fold mid in Hinv, HA1. cbn [store_pool fst snd] in HA1.
  pose proof (st_tidy _ _ (co_steady _ _ _ _ _ _ HA1)) as [_ Hwf1]. specialize (Hwf1 Hwf).
  set (K := fun q => below (index_root s) q /\
    forall i u, ups !! i = Some u -> target s (up_request u) q -> is_Some (result_of mid.1 i)).
  assert (pool_inv (RG := AppCoexist s N ttl (times w) K) (fun _ _ _ _ => True) mid) as Hinv2.
  { apply (cycle_starts s N (times w) ups extra cfg K mid left); [by intros q [? _]| | |done| |done|done].
    - intros q i u [_ H]. apply H.
    - apply (st_times _ _ (co_steady _ _ _ _ _ _ HA1)).
    - unfold mid. rewrite run_pool_length. unfold store_pool. cbn [fst]. rewrite length_app, length_fmap. cbn. lia. }
  destruct (watch_run s N ttl (times w) Hnames K (fun q H => proj1 H) _ cs2 mid Hacts2 Hcs2 (le_n _) Hinv2) as [_ HA2].
  fold fin in HA2. split_and!.
  - by apply (st_tidy _ _ (co_steady _ _ _ _ _ _ HA2)).
  - by apply (co_store _ _ _ _ _ _ HA2), (co_store _ _ _ _ _ _ HA1).
  - intros q Hb Hq. assert (K q) as Hk by done. split_and!.
    + intros c t. by apply (co_new _ _ _ _ _ _ HA2).
    + intros c t. by apply (co_old _ _ _ _ _ _ HA2).
    + intros h. by apply (co_refs _ _ _ _ _ _ HA2 q).
Qed.
End Beside.

(** ** A concrete run *)

(** A store with one crash: its index has a name no request writes. *)
Definition old_index : Path := ["/"; "d"; "crashes"; "by-source"; "app"; "old.json"].

Definition recorded_world : World := {|
  w_fs := <[["/"; "d"; "crashes"; "by-source"] := Dir]> (<[["/"; "d"; "crashes"; "by-source"; "app"] := Dir]>
    (<[old_index := File (sample_index (sha256_hex (as_bytes "core"))) 0]> (w_fs unreferenced_world)));
  w_now := 5; w_clock := []; w_faults := []; w_uuids := 0; w_dir_mtime := fun _ => 0%Z |}.

(** An upload of the same dump and a retention cycle take turns. *)
Definition beside_turns : list (Choice (AppState * World)) := concat (replicate 60 [Turn 0; Turn 1]).

#[local] Abbreviation beside_end := (run_pool beside_turns
  (run_pool [] (store_pool (J := ToyJson) [crash_upload] 0 RetentionConfig_default [0%Z] sample_state recorded_world))).

Lemma beside_uuids : w_uuids beside_end.2.2 = 1%nat.
Proof. vm_compute. reflexivity. Qed.

Lemma beside_names : names_differ (w_uuids beside_end.2.2).
Proof. rewrite beside_uuids. intros a b Hab. lia. Qed.

Lemma beside_neighbourly : Forall (neighbourly sample_storage) ([] ++ beside_turns).
Proof. unfold beside_turns. cbn. repeat (apply Forall_cons; split; [exact I|]). apply Forall_nil_2. Qed.

Lemma old_index_kept : w_fs beside_end.2.2 !! old_index = Some (File (sample_index (sha256_hex (as_bytes "core"))) 0).
Proof. vm_compute. reflexivity. Qed.

Lemma recorded_store_ok : store_ok sample_storage (w_fs recorded_world).
Proof.
  intros b p n Hp Hn. assert (length p = 6%nat /\ nth 3 p "" = "by-hash") as [Hlen H3].
  { destruct (blob_path_components sample_storage b) as (pre & _ & Hc). rewrite Hp in Hc. injection Hc as ->. split; reflexivity. }
  unfold recorded_world in Hn. cbn [w_fs] in Hn. rewrite !lookup_insert_ne in Hn by (intros <-; first [discriminate Hlen | discriminate H3]).
  exact (core_store_ok b p n Hp Hn).
Qed.

Lemma old_index_not_target rq : ~ target (J := ToyJson) sample_storage rq old_index.
Proof.
  intros (k & ts & b & Hk & Hq)%target_index. rewrite index_path_components in Hq by done. cbn [data_dir sample_storage app] in Hq.
  apply (f_equal length) in Hq. discriminate Hq.
Qed.

Lemma old_index_refers : refers (J := ToyJson) (w_fs beside_end.2.2) old_index (sha256_hex (as_bytes "core")).
Proof.
  exists (sample_index (sha256_hex (as_bytes "core"))), 0%Z, {| cir_dump := {| cdr_sha256 := sha256_hex (as_bytes "core") |}; cir_attachments := [] |}.
  split; [exact old_index_kept|]. split; [vm_compute; reflexivity|]. split; [vm_compute; reflexivity|left].
Qed.

Lemma core_resolves : resolves (storage sample_state) (w_fs recorded_world) (sha256_hex (as_bytes "core")).
Proof. exists core_blob, (as_bytes "core"), 0%Z. split; [exact core_blob_path|]. split; [vm_compute; reflexivity|reflexivity]. Qed.

Lemma old_index_below : below (index_root (storage sample_state)) old_index.
Proof. exists ["app"; "old.json"]. split; [reflexivity|split; [discriminate|closed_keys]]. Qed.

Lemma retention_beside_uploads_witness :
  result_of beside_end.1 1 = Some (Ok Retained) /\
  w_fs beside_end.2.2 !! old_index = Some (File (sample_index (sha256_hex (as_bytes "core"))) 0) /\
  resolves (storage sample_state) (w_fs beside_end.2.2) (sha256_hex (as_bytes "core")).
Proof.
  split; [vm_compute; reflexivity|]. split; [exact old_index_kept|].
  destruct (retention_beside_uploads (J := ToyJson) sample_state recorded_world [crash_upload] 0 RetentionConfig_default [0%Z]
    [] beside_turns [0%Z]) as (_ & _ & H).
  - apply fs_wf_b_ok. vm_compute. reflexivity.
  - exact recorded_store_ok.
  - exact beside_neighbourly.
  - exact beside_names.
  - reflexivity.
  - destruct (H old_index old_index_below) as (_ & _ & Hres).
    + intros i u _ Ht. destruct (old_index_not_target _ Ht).
    + exact (Hres _ old_index_refers core_resolves).
Defined.
