(* ===== verification/Otlp.v ===== *)
(** * The OTLP log messages (detritus-protocol/proto), as prost represents them

    An [AnyValue] message holds an optional oneof; a [KeyValue] an optional
    [AnyValue]. *)

From S2P Require Import Prelude RustStd F64.

(** The [value] oneof of [AnyValue]. *)
Inductive any_kind :=
| StringValue (s : string)
| BoolValue (b : bool)
| IntValue (z : Z)
| DoubleValue (f : f64)
| ArrayValue (l : list (option any_kind))
| KvlistValue (l : list (string * option (option any_kind)))
| BytesValue (b : bytes).

Definition AnyValue : Type := option any_kind.

Record KeyValue := { kv_key : string; kv_value : option AnyValue }.

Record InstrumentationScope := {
  is_name : string;
  is_version : string;
  is_attributes : list KeyValue;
  is_dropped_attributes_count : Z
}.

Record EntityRef := {
  er_schema_url : string;
  er_type : string;
  er_id_keys : list string;
  er_description_keys : list string
}.

Record Resource := {
  res_attributes : list KeyValue;
  res_dropped_attributes_count : Z;
  res_entity_refs : list EntityRef
}.

Record LogRecord := {
  time_unix_nano : Z;
  observed_time_unix_nano : Z;
  severity_number : Z;
  severity_text : string;
  lr_body : option AnyValue;
  lr_attributes : list KeyValue;
  lr_dropped_attributes_count : Z;
  lr_flags : Z;
  trace_id : bytes;
  span_id : bytes;
  event_name : string
}.

Record ScopeLogs := {
  sl_scope : option InstrumentationScope;
  log_records : list LogRecord;
  sl_schema_url : string
}.

Record ResourceLogs := {
  rl_resource : option Resource;
  scope_logs : list ScopeLogs;
  rl_schema_url : string
}.

Record ExportLogsServiceRequest := { resource_logs : list ResourceLogs }.

(** ** Equality of messages is decidable *)

#[export] Instance f64_eq_dec : EqDecision f64.
Proof. solve_decision. Defined.

#[export] Instance any_kind_eq_dec : EqDecision any_kind.
Proof.
  refine (fix same (x y : any_kind) : Decision (x = y) :=
    let nested : EqDecision any_kind := same in
    match x, y with
    | StringValue s, StringValue s' => cast_if (decide (s = s'))
    | BoolValue b, BoolValue b' => cast_if (decide (b = b'))
    | IntValue z, IntValue z' => cast_if (decide (z = z'))
    | DoubleValue f, DoubleValue f' => cast_if (decide (f = f'))
    | ArrayValue l, ArrayValue l' => cast_if (decide (l = l'))
    | KvlistValue l, KvlistValue l' => cast_if (decide (l = l'))
    | BytesValue b, BytesValue b' => cast_if (decide (b = b'))
    | _, _ => right _
    end); congruence.
Defined.

#[export] Instance KeyValue_eq_dec : EqDecision KeyValue.
Proof. unfold AnyValue. solve_decision. Defined.

#[export] Instance InstrumentationScope_eq_dec : EqDecision InstrumentationScope.
Proof. solve_decision. Defined.

#[export] Instance EntityRef_eq_dec : EqDecision EntityRef.
Proof. solve_decision. Defined.

#[export] Instance Resource_eq_dec : EqDecision Resource.
Proof. solve_decision. Defined.

#[export] Instance LogRecord_eq_dec : EqDecision LogRecord.
Proof. unfold AnyValue. solve_decision. Defined.

#[export] Instance ScopeLogs_eq_dec : EqDecision ScopeLogs.
Proof. solve_decision. Defined.

#[export] Instance ResourceLogs_eq_dec : EqDecision ResourceLogs.
Proof. solve_decision. Defined.

#[export] Instance ExportLogsServiceRequest_eq_dec : EqDecision ExportLogsServiceRequest.
Proof. solve_decision. Defined.

(** prost: the binary encoding of a request. *)
Class ProstApi := {
  prost_encode : ExportLogsServiceRequest -> bytes;
  prost_decode : bytes -> Result ExportLogsServiceRequest string
}.
