(* ===== verification/Logs.v ===== *)
(** * detritus-server/src/logs.rs: log ingestion

    The handler validates a batch, resolves the source of each resource, and
    queues one JSON line per record on the bounded channel of the source's
    writer.  The writer tasks run concurrently: a channel is its queue and the
    lines its writer has received, and [ls_drains] schedules how many lines the
    writer takes before each send. *)

From Stdlib Require Import Ascii SpecFloat.
From S2P Require Import Prelude RustStd Fs External Instances Json Protocol Metrics Schemas Storage F64 RateLimit Auth Otlp.

Definition WRITER_CHANNEL_CAPACITY : nat := N.to_nat 10000.

(** ** Status *)

Inductive Code :=
| CodeOk | InvalidArgument | PermissionDeniedCode | ResourceExhausted | FailedPrecondition
| InternalCode | Unauthenticated.

Record Status := { st_code : Code; st_message : string }.

Definition grpc_status_label (c : Code) : string :=
  match c with
  | CodeOk => "200"
  | Unauthenticated => "401"
  | PermissionDeniedCode => "403"
  | ResourceExhausted => "429"
  | InvalidArgument => "400"
  | FailedPrecondition => "412"
  | InternalCode => "500"
  end.

Definition status (c : Code) (m : string) : Status := {| st_code := c; st_message := m |}.

(** ** JSON rendering *)

(** [hex::encode] *)
Definition hex_nibble (n : N) : ascii := ascii_of_N (if (n <? 10)%N then 48 + n else 87 + n).

Definition hex_encode (b : bytes) : string :=
  of_bytes (b ≫= fun c => [hex_nibble (N_of_ascii c / 16); hex_nibble (N_of_ascii c mod 16)]%N).

(** [json!] of the primitive types. *)
Definition json_int (z : Z) : Value := Num (if (z <? 0)%Z then NegInt z else PosInt z).

Definition json_f64 (f : f64) : Value :=
  match f with
  | S754_zero _ | S754_finite _ _ _ => Num (Float f)
  | _ => Null
  end.

Fixpoint any_kind_json (k : any_kind) : Value :=
  match k with
  | StringValue s => Str s
  | BoolValue b => Bool b
  | IntValue z => json_int z
  | DoubleValue f => json_f64 f
  | ArrayValue l =>
      Array ((fun o => match o with Some k' => any_kind_json k' | None => Null end) <$> l)
  | KvlistValue l =>
      Object (obj_collect (omap (fun e : string * option (option any_kind) =>
        match e.2 with
        | Some (Some k') => Some (e.1, any_kind_json k')
        | Some None => Some (e.1, Null)
        | None => None
        end) l))
  | BytesValue b => Str (hex_encode b)
  end.

Definition any_value_json (v : AnyValue) : Value :=
  match v with Some k => any_kind_json k | None => Null end.

Definition attributes_json (attributes : list KeyValue) : Value :=
  Object (obj_collect (omap (fun e => v ← kv_value e; Some (kv_key e, any_value_json v)) attributes)).

Definition log_record_json (r : LogRecord) : Value :=
  Object (obj_collect [
    ("time_unix_nano", json_int (time_unix_nano r));
    ("observed_time_unix_nano", json_int (observed_time_unix_nano r));
    ("severity_number", json_int (severity_number r));
    ("severity_text", Str (severity_text r));
    ("body", match lr_body r with Some v => any_value_json v | None => Null end);
    ("attributes", attributes_json (lr_attributes r));
    ("dropped_attributes_count", json_int (lr_dropped_attributes_count r));
    ("flags", json_int (lr_flags r));
    ("trace_id", Str (hex_encode (trace_id r)));
    ("span_id", Str (hex_encode (span_id r)));
    ("event_name", Str (event_name r))]).

Definition resource_logs_to_validation_value (rl : ResourceLogs) : Value :=
  let resource_attrs := match rl_resource rl with
                        | None => Object []
                        | Some r => attributes_json (res_attributes r)
                        end in
  let scopes := (fun sl =>
    let name := match sl_scope sl with Some s => is_name s | None => "" end in
    let scope_attrs := match sl_scope sl with
                       | None => Object []
                       | Some s => attributes_json (is_attributes s)
                       end in
    Object (obj_collect [("name", Str name); ("attributes", scope_attrs)])) <$> scope_logs rl in
  Object (obj_collect [("resource", resource_attrs); ("scopes", Array scopes)]).

(** ** Source identity *)

Definition any_value_string (v : AnyValue) : option string :=
  match v with Some (StringValue s) => Some s | _ => None end.

Definition required_attr (attributes : list KeyValue) (key : string) : Result string Status :=
  ok_or (attr ← find (fun attr => String.eqb (kv_key attr) key) attributes;
         v ← kv_value attr;
         any_value_string v)
        (status InvalidArgument ("missing resource attribute `" +:+ key +:+ "`")).

Definition source_from_resource_logs (rl : ResourceLogs) : Result SourceKey Status :=
  let? resource := ok_or (rl_resource rl) (status InvalidArgument "resource_logs.resource is required") in
  let attributes := res_attributes resource in
  let? project := required_attr attributes "source.project" in
  let? _ := required_attr attributes "source.platform" in
  let? _ := required_attr attributes "source.version" in
  let? install_id := required_attr attributes "source.install_id" in
  map_err (fun error => status InvalidArgument ("invalid source identity: " +:+ StorageError_display error))
    (SourceKey_new project install_id).

(** ** The validation message *)

(** The loop [while !message.is_char_boundary(end) { end -= 1 }]. *)
Fixpoint floor_boundary (b : bytes) (e : nat) : nat :=
  if is_char_boundary b e then e
  else match e with O => O | S e' => floor_boundary b e' end.

(** The horizontal ellipsis, three bytes of UTF-8. *)
Definition ellipsis : bytes := [ascii_of_nat 226; ascii_of_nat 128; ascii_of_nat 166].

(** [&message[..end]]; [None] is the panic of a slice inside a character. *)
Definition slice_to (b : bytes) (e : nat) : option bytes :=
  if is_char_boundary b e then Some (take e b) else None.

Definition truncate_message (message : string) : option string :=
  let b := as_bytes message in
  if Nat.ltb 1024 (length b) then
    prefix ← slice_to b (floor_boundary b 1021);
    Some (of_bytes (prefix ++ ellipsis))
  else Some message.

Definition validation_message (errors : list string) : string :=
  "log attribute validation failed: " +:+ join_with ", " (take 5 errors).

(** ** Writers *)

(** The channel of a source: queued lines, and those its writer has received. *)
Record Channel := { ch_queue : list Value; ch_received : list Value }.

Record LogWriterPool := { lwp_inner : gmap SourceKey Channel; lwp_storage : StoragePaths }.

Definition LogWriterPool_new (s : StoragePaths) : LogWriterPool :=
  {| lwp_inner := ∅; lwp_storage := s |}.

Section Logs.
Context {C : ChronoApi} {J : JsonText} {HT : HttpApi} {V : JsonSchemaApi}.

Record LogsHandler := {
  lh_writers : LogWriterPool;
  lh_rate_limiter : RateLimiter binary64;
  lh_metrics : Metrics;
  lh_schema_registry : SchemaRegistry;
  ls_drains : list nat
}.

Definition set_writers (h : LogsHandler) (p : LogWriterPool) (d : list nat) : LogsHandler :=
  {| lh_writers := p; lh_rate_limiter := lh_rate_limiter h; lh_metrics := lh_metrics h;
     lh_schema_registry := lh_schema_registry h; ls_drains := d |}.

Definition set_limiter (h : LogsHandler) (rl : RateLimiter binary64) : LogsHandler :=
  {| lh_writers := lh_writers h; lh_rate_limiter := rl; lh_metrics := lh_metrics h;
     lh_schema_registry := lh_schema_registry h; ls_drains := ls_drains h |}.

Definition set_metrics (h : LogsHandler) (f : Metrics -> Metrics) : LogsHandler :=
  {| lh_writers := lh_writers h; lh_rate_limiter := lh_rate_limiter h; lh_metrics := f (lh_metrics h);
     lh_schema_registry := lh_schema_registry h; ls_drains := ls_drains h |}.

Definition LogsHandler_new (writers : LogWriterPool) (rl : RateLimiter binary64) (m : Metrics)
    (r : SchemaRegistry) (drains : list nat) : LogsHandler :=
  {| lh_writers := writers; lh_rate_limiter := rl; lh_metrics := m; lh_schema_registry := r;
     ls_drains := drains |}.

(** [LogWriterPool::sender_for]: the channel exists afterwards. *)
Definition sender_for (p : LogWriterPool) (source : SourceKey) : LogWriterPool :=
  match lwp_inner p !! source with
  | Some _ => p
  | None => {| lwp_inner := <[source := {| ch_queue := []; ch_received := [] |}]> (lwp_inner p);
               lwp_storage := lwp_storage p |}
  end.

(** The writer takes up to [n] lines. *)
Definition drain (n : nat) (c : Channel) : Channel :=
  {| ch_queue := drop n (ch_queue c); ch_received := ch_received c ++ take n (ch_queue c) |}.

(** [sender.try_send(line)], after the writer took [n] lines; the channel
    fails only when it is full, since its writer lives as long as a sender. *)
Definition try_send (n : nat) (c : Channel) (line : Value) : Result unit unit * Channel :=
  let c := drain n c in
  if Nat.ltb (length (ch_queue c)) WRITER_CHANNEL_CAPACITY
  then (Ok tt, {| ch_queue := ch_queue c ++ [line]; ch_received := ch_received c |})
  else (Err tt, c).

Definition Export (A : Type) : Type := ST LogsHandler Status A.

(** One record: send its line, then publish the depth of the queue. *)
Definition export_record (source : SourceKey) (record : LogRecord) : Export unit :=
  fun h =>
    let line := log_record_json record in
    let n := default 0%nat (head (ls_drains h)) in
    let c := default {| ch_queue := []; ch_received := [] |} (lwp_inner (lh_writers h) !! source) in
    let (r, c') := try_send n c line in
    let h' := set_writers h {| lwp_inner := <[source := c']> (lwp_inner (lh_writers h));
                               lwp_storage := lwp_storage (lh_writers h) |} (tail (ls_drains h)) in
    match r with
    | Err _ => (Err (status ResourceExhausted "log writer queue is full"), h')
    | Ok _ => (Ok tt, set_metrics h' (fun m =>
        set_writer_queue_depth m (SourceKey_canonical source) (Z.of_nat (length (ch_queue c')))))
    end.

(** One resource of the second loop; [now] is the instant of its limiter check. *)
Definition export_resource (token : TokenContext) (now : Z) (rl : ResourceLogs) : Export unit :=
  let! source := io_lift (source_from_resource_logs rl) in
  (if permits token source then io_ret tt
   else io_err (status PermissionDeniedCode "token is not permitted to write this source"));;!
  (fun h => let (r, lim) := check_logs (lh_rate_limiter h) now (tc_id token) source in
            (map_err (fun _ => status ResourceExhausted "log rate limit exceeded") r, set_limiter h lim));;!
  (fun h => (Ok tt, set_writers h (sender_for (lh_writers h) source) (ls_drains h)));;!
  io_fold (fun _ sl => io_fold (fun _ record => export_record source record) tt (log_records sl))
    tt (scope_logs rl).

(** [None] as the message is the panic of a slice inside a character. *)
Definition validate_resource (token : TokenContext) (rl : ResourceLogs) : Export unit :=
  fun h =>
    let value := resource_logs_to_validation_value rl in
    match validate (lh_schema_registry h) (tc_project token) LogAttributes value with
    | Ok _ => (Ok tt, h)
    | Err (SchemaValidation _ errors) =>
        let h' := set_metrics h (fun m => observe_validation_failure m "logs") in
        match truncate_message (validation_message errors) with
        | Some truncated => (Err (status InvalidArgument truncated), h')
        | None => (Err (status InternalCode "panicked"), h')
        end
    | Err _ => (Err (status InternalCode "schema validation internal error"), h)
    end.

Definition validate_protocol_metadata (version : option bytes) : Result unit Status :=
  let? raw := ok_or version (status FailedPrecondition "missing x-protocol-version metadata") in
  let? version := ok_or (header_to_str raw)
    (status FailedPrecondition "x-protocol-version metadata is not UTF-8") in
  let? parsed := ok_or (parse_u32 version)
    (status FailedPrecondition "x-protocol-version metadata is not a u32") in
  if (parsed =? PROTOCOL_VERSION)%Z then Ok tt
  else Err (status FailedPrecondition ("protocol version " +:+ Z_to_string parsed
              +:+ " does not match " +:+ Z_to_string PROTOCOL_VERSION)).

(** A request: its version metadata, token extension and resources; each
    resource comes with the instant of its limiter check. *)
Record LogsRequest := {
  lq_version : option bytes;
  lq_token : option TokenContext;
  lq_resource_logs : list (Z * ResourceLogs)
}.

Definition export_inner (rq : LogsRequest) : Export unit :=
  io_lift (validate_protocol_metadata (lq_version rq));;!
  let! token := io_lift (ok_or (lq_token rq) (status Unauthenticated "missing token context")) in
  io_fold (fun _ rl => validate_resource token rl.2) tt (lq_resource_logs rq);;!
  io_fold (fun _ rl => export_resource token rl.1 rl.2) tt (lq_resource_logs rq).

Definition export (rq : LogsRequest) (elapsed : Z) : Export unit :=
  let! result := io_try (export_inner rq) in
  let label := match result with Ok _ => "200" | Err e => grpc_status_label (st_code e) end in
  (fun h => (Ok tt, set_metrics h (fun m => observe_request m "logs" label elapsed)));;!
  io_lift result.

(** ** The writer task *)

Definition open_log_file (s : StoragePaths) (source : SourceKey) (date : NaiveDate)
  : IO StorageError Path :=
  let path := log_file s source date in
  match parent path with
  | Some p => io_map_err StorageIo (create_dir_all p)
  | None => io_ret tt
  end;;!
  io_map_err StorageIo (open_append path);;!
  io_ret path.

Definition flush_file (file : option Path) : IO io_error unit :=
  match file with
  | Some opened => sync_file opened;;! sync_file opened
  | None => io_ret tt
  end.

(** The state of a writer: the date and the file it has open. *)
Record Writer := { wr_date : option NaiveDate; wr_file : option Path }.

(** Appending one encoded line to the open file; errors are only logged. *)
Definition write_line (file : option Path) (line : Value) : IO StorageError unit :=
  match file with
  | Some opened => io_try (write_all opened (json_print line ++ [ascii_of_nat 10]));;! io_ret tt
  | None => io_ret tt
  end.

(** One received line; errors are only logged. *)
Definition writer_step (s : StoragePaths) (source : SourceKey) (st : Writer) (line : Value)
  : IO StorageError Writer :=
  let! now := system_time_now in
  let today := date_of now in
  if decide (wr_date st = Some today) then
    write_line (wr_file st) line;;! io_ret st
  else
    io_try (flush_file (wr_file st));;!
    let! opened := io_try (open_log_file s source today) in
    match opened with
    | Ok path =>
        write_line (Some path) line;;!
        io_ret {| wr_date := Some today; wr_file := Some path |}
    | Err _ => io_ret {| wr_date := wr_date st; wr_file := None |}
    end.

Definition writer_loop (s : StoragePaths) (source : SourceKey) (lines : list Value)
  : IO StorageError unit :=
  let! st := io_fold (writer_step s source) {| wr_date := None; wr_file := None |} lines in
  io_try (flush_file (wr_file st));;!
  io_ret tt.

(** [LogWriterPool::shutdown]: the map is drained, in the order [drained] the
    hash map yields its entries, and the senders are dropped, so that each writer
    receives what its channel still holds and ends.  Writers of different sources
    share no file: the whole run of a writer is placed where it is joined. *)
Definition shutdown (drained : list (SourceKey * Channel)) (p : LogWriterPool)
  : IO StorageError LogWriterPool :=
  io_fold (fun _ handle => writer_loop (lwp_storage p) handle.1
             (ch_received handle.2 ++ ch_queue handle.2)) tt drained;;!
  io_ret (LogWriterPool_new (lwp_storage p)).
End Logs.
