(* ===== verification/LogText.v ===== *)
(** * Properties of the validation message: truncation at a character boundary *)

From Stdlib Require Import Ascii.
From S2P Require Import Prelude RustStd Fs External Instances Json Protocol Metrics Schemas Storage F64 RateLimit Auth Otlp Logs.

Lemma byte_in_sub lo hi lo' hi' c :
  (lo' <= lo)%N -> (hi <= hi')%N -> byte_in lo hi c = true -> byte_in lo' hi' c = true.
Proof. unfold byte_in. rewrite !andb_true_iff, !N.leb_le. lia. Qed.

Lemma byte_in_disjoint lo hi lo' hi' c :
  (hi < lo')%N \/ (hi' < lo)%N -> byte_in lo hi c = true -> byte_in lo' hi' c = false.
Proof.
  intros Hd H. apply not_true_iff_false. revert H. unfold byte_in. rewrite !andb_true_iff, !N.leb_le. lia.
Qed.

(** The second byte of a long sequence is a continuation byte. *)
Lemma second_is_cont (a b : bool) y lo hi lo' hi' :
  (128 <= lo)%N -> (hi <= 191)%N -> (128 <= lo')%N -> (hi' <= 191)%N ->
  (if a then byte_in lo hi y else if b then byte_in lo' hi' y else is_cont y) = true ->
  is_cont y = true.
Proof. intros ? ? ? ?. destruct a; [|destruct b; [|done]]; by apply byte_in_sub. Qed.

(** Case analysis on the first character of valid UTF-8: one to four bytes, the
    later ones continuation bytes. *)
Lemma utf8_valid_head (b : bytes) :
  utf8_valid b = true ->
  b = [] \/ exists x xs r, b = x :: xs ++ r /\ Forall (fun c => is_cont c = true) xs /\
    (length xs <= 3)%nat /\ is_cont x = false /\ utf8_valid r = true /\
    forall r', utf8_valid (x :: xs ++ r') = utf8_valid r'.
Proof.
  destruct b as [|x r]; [by left|]. intros H. right. cbn [utf8_valid] in H.
  assert (is_cont x = false) as Hx'.
  { destruct (is_cont x) eqn:Hx; [|done]. exfalso. unfold is_cont in Hx.
    rewrite !(byte_in_disjoint 128 191 _ _ x) in H by (done || lia).
    by destruct r as [|? [|? [|? ?]]]. }
  destruct (byte_in 0 127 x) eqn:E1.
  { exists x, [], r. split_and!; [done|apply Forall_nil_2|simpl; lia|done|done|].
    intros r'. cbn [app utf8_valid]. by rewrite E1. }
  destruct r as [|y r]; [done|].
  destruct (byte_in 194 223 x) eqn:E2.
  { apply andb_true_iff in H as [Hy Hr]. exists x, [y], r.
    split_and!; [done|by apply Forall_cons; split; [|apply Forall_nil_2]|simpl; lia|done|done|].
    intros r'. cbn [app utf8_valid]. by rewrite E1, E2, Hy. }
  destruct r as [|z r]; [done|].
  destruct (byte_in 224 239 x) eqn:E3.
  { apply andb_true_iff in H as [[Hy Hz]%andb_true_iff Hr]. exists x, [y; z], r.
    split_and!; [done| |simpl; lia|done|done|].
    - rewrite !Forall_cons. split; [by eapply second_is_cont; [..|exact Hy]|by split; [|apply Forall_nil_2]].
    - intros r'. cbn [app utf8_valid]. by rewrite E1, E2, E3, Hy, Hz. }
  destruct r as [|u r]; [done|].
  apply andb_true_iff in H as [[[[H4 Hy]%andb_true_iff Hz]%andb_true_iff Hu]%andb_true_iff Hr].
  exists x, [y; z; u], r. split_and!; [done| |simpl; lia|done|done|].
  - rewrite !Forall_cons. split; [by eapply second_is_cont; [..|exact Hy]|]. split; [done|].
    by split; [|apply Forall_nil_2].
  - intros r'. cbn [app utf8_valid]. by rewrite E1, E2, E3, H4, Hy, Hz, Hu.
Qed.

(** A character boundary splits valid text into valid text. *)
Lemma utf8_take_boundary (b : bytes) e :
  utf8_valid b = true -> is_char_boundary b e = true -> utf8_valid (take e b) = true.
Proof.
  remember (length b) as n eqn:Hn. revert b e Hn.
  induction (lt_wf n) as [n _ IH]. intros b e -> Hv Hb.
  destruct (utf8_valid_head b Hv) as [->|(x & xs & r & -> & Hxs & Hlen & Hx & Hr & Hany)];
    [by rewrite take_nil|].
  destruct e as [|e]; [done|]. cbn [take].
  destruct (decide (e < length xs)%nat) as [He|He].
  - exfalso. unfold is_char_boundary in Hb.
    change ((x :: xs ++ r) !! S e) with ((xs ++ r) !! e) in Hb.
    rewrite lookup_app_l in Hb by done. destruct (lookup_lt_is_Some_2 xs e He) as [c Hc].
    rewrite Hc in Hb. rewrite (Forall_lookup_1 _ _ _ _ Hxs Hc) in Hb. done.
  - rewrite take_app_ge by lia. rewrite Hany. remember (e - length xs)%nat as d eqn:Hde.
    apply (IH (length r)); [simpl; rewrite length_app; lia|done|done|].
    destruct (decide (d = 0%nat)) as [Hd|Hd]; [by rewrite Hd|].
    unfold is_char_boundary in Hb |- *.
    change ((x :: xs ++ r) !! S e) with ((xs ++ r) !! e) in Hb.
    rewrite lookup_app_r in Hb by lia. rewrite <- Hde in Hb.
    destruct d as [|d]; [done|]. destruct (r !! S d); [done|].
    apply Nat.eqb_eq in Hb. apply Nat.eqb_eq. simpl in Hb. rewrite length_app in Hb. lia.
Qed.

Lemma utf8_valid_app (a b : bytes) : utf8_valid a = true -> utf8_valid (a ++ b) = utf8_valid b.
Proof.
  remember (length a) as n eqn:Hn. revert a Hn. induction (lt_wf n) as [n _ IH]. intros a -> Ha.
  destruct (utf8_valid_head a Ha) as [->|(x & xs & r & -> & _ & _ & _ & Hr & Hany)]; [done|].
  cbn [app]. rewrite <- app_assoc, Hany. apply (IH (length r)); [|done|done].
  simpl. rewrite length_app. lia.
Qed.

Lemma floor_boundary_spec (b : bytes) e :
  is_char_boundary b (floor_boundary b e) = true /\ (floor_boundary b e <= e)%nat.
Proof.
  induction e as [|e [IH1 IH2]]; [done|]. cbn [floor_boundary].
  destruct (is_char_boundary b (S e)) eqn:E; [done|]. split; [done|lia].
Qed.

(** The walk back never crosses more than three bytes of valid text. *)
Lemma boundary_near (b : bytes) e :
  utf8_valid b = true -> (e <= length b)%nat ->
  exists d, (d <= 3)%nat /\ (d <= e)%nat /\ is_char_boundary b (e - d) = true.
Proof.
  remember (length b) as n eqn:Hn. revert b e Hn. induction (lt_wf n) as [n _ IH]. intros b e -> Hv He.
  destruct (utf8_valid_head b Hv) as [->|(x & xs & r & -> & Hxs & Hlen & Hx & Hr & Hany)].
  { exists 0%nat. simpl in He. replace e with 0%nat by lia. by split_and!; [lia|lia|]. }
  destruct (decide (e <= length xs)%nat) as [Hle|Hle].
  - exists e. split_and!; [lia|lia|]. by rewrite Nat.sub_diag.
  - assert (S (length xs) <= e)%nat as Hge by lia.
    destruct (IH (length r)) with (b := r) (e := (e - S (length xs))%nat) as (d & Hd3 & Hde & Hb);
      [simpl; rewrite length_app; lia|done|done|simpl in He; rewrite length_app in He; lia|].
    exists d. split_and!; [done|lia|].
    remember (e - S (length xs) - d)%nat as k eqn:Hk.
    replace (e - d)%nat with (S (length xs + k)) by lia.
    unfold is_char_boundary.
    change ((x :: xs ++ r) !! S (length xs + k)) with ((xs ++ r) !! (length xs + k)%nat).
    rewrite lookup_app_r by lia.
    replace (length xs + k - length xs)%nat with k by lia.
    destruct (r !! k) as [c|] eqn:Ec.
    + destruct k as [|k]; [|by unfold is_char_boundary in Hb; rewrite Ec in Hb].
      destruct r as [|c' r]; [done|]. injection Ec as ->.
      destruct (utf8_valid_head _ Hr) as [?|(x' & ? & ? & [= -> _] & _ & _ & -> & _)]; done.
    + apply Nat.eqb_eq. apply lookup_ge_None in Ec. simpl. rewrite length_app.
      simpl in He. rewrite length_app in He. lia.
Qed.

Lemma floor_boundary_max (b : bytes) e d :
  (d <= e)%nat -> is_char_boundary b d = true -> (d <= floor_boundary b e)%nat.
Proof.
  induction e as [|e IH]; intros Hd Hb; [lia|]. cbn [floor_boundary].
  destruct (is_char_boundary b (S e)) eqn:E; [lia|].
  apply IH; [|done]. destruct (decide (d = S e)) as [->|]; [congruence|lia].
Qed.

(** ** Properties *)

(** The error text of a rejected batch is always produced (the slice never
    cuts a character, so the handler does not panic), is valid UTF-8 of at most
    1024 bytes, and is the message itself when that is short enough; otherwise
    it keeps all but at most the last three bytes of the message's first 1021
    and ends in an ellipsis. *)
Theorem validation_message_truncated message :
  text_ok message = true ->
  exists t, truncate_message message = Some t /\ text_ok t = true /\
    (length (as_bytes t) <= 1024)%nat /\
    ((length (as_bytes message) <= 1024)%nat -> t = message) /\
    ((1024 < length (as_bytes message))%nat -> exists n, (1018 <= n <= 1021)%nat /\
       as_bytes t = take n (as_bytes message) ++ ellipsis).
Proof.
  intros Hok. unfold truncate_message, text_ok in *. set (b := as_bytes message) in *.
  destruct (Nat.ltb_spec 1024 (length b)) as [Hlong|Hshort].
  2: { exists message. split_and!; [done|done|done|done|]. fold b. lia. }
  destruct (floor_boundary_spec b 1021) as [Hb Hle]. unfold slice_to. rewrite Hb. cbn [mbind option_bind].
  exists (of_bytes (take (floor_boundary b 1021) b ++ ellipsis)). rewrite as_of_bytes.
  split_and!; [done| | |lia|].
  - rewrite utf8_valid_app; [done|]. by apply utf8_take_boundary.
  - rewrite length_app, length_take. change (length ellipsis) with 3%nat. lia.
  - intros _. exists (floor_boundary b 1021). split; [|done]. split; [|done].
    destruct (boundary_near b 1021 Hok) as (d & Hd3 & Hde & Hd); [lia|].
    pose proof (floor_boundary_max b 1021 (1021 - d) ltac:(lia) Hd). lia.
Qed.

Lemma validation_message_truncated_witness :
  let message := of_bytes (repeat (ascii_of_nat 97) 1020 ++ ellipsis ++ ellipsis) in
  exists t, truncate_message message = Some t /\ (length (as_bytes t) <= 1024)%nat.
Proof.
  intros message. destruct (validation_message_truncated message) as (t & Ht & _ & Hlen & _).
  - vm_compute. reflexivity.
  - exists t. split; [exact Ht|exact Hlen].
Defined.
