(* ===== verification/LogQueue.v ===== *)
(** * Properties of log ingestion: what reaches the writers' channels *)

From Stdlib Require Import Ascii.
From S2P Require Import Prelude RustStd Fs External Instances Json Protocol Metrics Schemas Storage F64 RateLimit Auth Otlp Logs.

Section Queue.
Context {C : ChronoApi} {J : JsonText} {HT : HttpApi} {V : JsonSchemaApi}.

(** Everything ever sent to a source: received by its writer, then queued. *)
Definition stream (p : LogWriterPool) (k : SourceKey) : list Value :=
  match lwp_inner p !! k with Some c => ch_received c ++ ch_queue c | None => [] end.

(** The lines of a batch, in order, each with its source. *)
Definition resource_lines (rl : ResourceLogs) : list (SourceKey * Value) :=
  match source_from_resource_logs rl with
  | Ok k => (fun r => (k, log_record_json r)) <$> (scope_logs rl ≫= log_records)
  | Err _ => []
  end.

Definition batch_lines (rq : LogsRequest) : list (SourceKey * Value) :=
  lq_resource_logs rq ≫= fun rl => resource_lines rl.2.

Definition lines_for (k : SourceKey) (l : list (SourceKey * Value)) : list Value :=
  snd <$> filter (fun kv => kv.1 = k) l.

Lemma lines_for_app k l1 l2 : lines_for k (l1 ++ l2) = lines_for k l1 ++ lines_for k l2.
Proof. unfold lines_for. by rewrite filter_app, fmap_app. Qed.

(** No channel is over its capacity. *)
Definition bounded (p : LogWriterPool) : Prop :=
  forall k c, lwp_inner p !! k = Some c -> (length (ch_queue c) <= WRITER_CHANNEL_CAPACITY)%nat.

(** [h'] is [h] after sending the lines [l]. *)
Definition sent (l : list (SourceKey * Value)) (h h' : LogsHandler) : Prop :=
  (forall k, stream (lh_writers h') k = stream (lh_writers h) k ++ lines_for k l) /\
  (bounded (lh_writers h) -> bounded (lh_writers h')) /\
  lh_schema_registry h' = lh_schema_registry h /\
  lwp_storage (lh_writers h') = lwp_storage (lh_writers h).

Lemma sent_nil h h' :
  (forall k, stream (lh_writers h') k = stream (lh_writers h) k) ->
  (bounded (lh_writers h) -> bounded (lh_writers h')) ->
  lh_schema_registry h' = lh_schema_registry h ->
  lwp_storage (lh_writers h') = lwp_storage (lh_writers h) -> sent [] h h'.
Proof. intros H1 H2 H3 H4. split_and!; [|done|done|done]. intros k. by rewrite H1, app_nil_r. Qed.

Lemma sent_trans l1 l2 h1 h2 h3 : sent l1 h1 h2 -> sent l2 h2 h3 -> sent (l1 ++ l2) h1 h3.
Proof.
  intros (S1 & B1 & R1 & P1) (S2 & B2 & R2 & P2). split_and!; [|auto|congruence|congruence].
  intros k. by rewrite S2, S1, lines_for_app, app_assoc.
Qed.

(** ** One record *)

Lemma drain_stream n c : ch_received (drain n c) ++ ch_queue (drain n c) = ch_received c ++ ch_queue c.
Proof. unfold drain. simpl. by rewrite <- app_assoc, take_drop. Qed.

Lemma drain_length n c : (length (ch_queue (drain n c)) <= length (ch_queue c))%nat.
Proof. unfold drain. simpl. rewrite length_drop. lia. Qed.

Lemma try_send_spec n c line r c' :
  try_send n c line = (r, c') ->
  ch_received c' ++ ch_queue c' =
    ch_received c ++ ch_queue c ++ (if is_ok r then [line] else []) /\
  ((length (ch_queue c) <= WRITER_CHANNEL_CAPACITY)%nat ->
   (length (ch_queue c') <= WRITER_CHANNEL_CAPACITY)%nat) /\
  (is_ok r = false -> (WRITER_CHANNEL_CAPACITY <= length (ch_queue c))%nat).
Proof.
  unfold try_send. pose proof (drain_stream n c) as Hs. pose proof (drain_length n c) as Hl.
  generalize dependent (drain n c). intros d Hs Hl.
  destruct (Nat.ltb_spec (length (ch_queue d)) WRITER_CHANNEL_CAPACITY) as [Hlt|Hge];
    intros [= <- <-]; cbn [ch_received ch_queue is_ok].
  - split_and!; [|intros _; rewrite length_app; cbn [length]; lia|done].
    by rewrite app_assoc, Hs, <- app_assoc.
  - split_and!; [by rewrite app_nil_r|lia|lia].
Qed.

Lemma stream_insert p k c k' :
  stream {| lwp_inner := <[k := c]> (lwp_inner p); lwp_storage := lwp_storage p |} k' =
  if decide (k = k') then ch_received c ++ ch_queue c else stream p k'.
Proof.
  unfold stream. simpl. case_decide as Hk; [subst; by rewrite lookup_insert_eq|].
  by rewrite lookup_insert_ne.
Qed.

Lemma export_record_sent source record h r h' :
  export_record source record h = (r, h') ->
  sent (if is_ok r then [(source, log_record_json record)] else []) h h'.
Proof.
  unfold export_record.
  set (c := default _ (lwp_inner (lh_writers h) !! source)).
  destruct (try_send _ c _) as [r0 c'] eqn:E. apply try_send_spec in E as (Hs & Hb & _).
  assert (ch_received c ++ ch_queue c = stream (lh_writers h) source) as Hc.
  { unfold stream, c. by destruct (lwp_inner _ !! source). }
  assert (forall h1, lh_writers h1 = {| lwp_inner := <[source := c']> (lwp_inner (lh_writers h));
      lwp_storage := lwp_storage (lh_writers h) |} ->
    lh_schema_registry h1 = lh_schema_registry h ->
    sent (if is_ok r0 then [(source, log_record_json record)] else []) h h1) as Hsent.
  { intros h1 Hw Hr. split_and!; [| |done|by rewrite Hw].
    - intros k. rewrite Hw, stream_insert. case_decide as Hk.
      + subst k. rewrite Hs, app_assoc, Hc. f_equal.
        destruct r0; [|done]. unfold lines_for. simpl. by rewrite filter_cons_True, filter_nil.
      + destruct r0; unfold lines_for; simpl; [|by rewrite app_nil_r].
        rewrite filter_cons_False by done. by rewrite filter_nil, app_nil_r.
    - rewrite Hw. intros Hbd k c0. simpl. destruct (decide (source = k)) as [<-|Hk].
      + rewrite lookup_insert_eq. intros [= <-]. apply Hb. unfold c.
        destruct (lwp_inner (lh_writers h) !! source) eqn:El; [by eapply Hbd|simpl; lia].
      + rewrite lookup_insert_ne by done. apply Hbd. }
  destruct r0 as [[]|[]]; intros [= <- <-]; by apply Hsent.
Qed.

(** ** Programs that send

    [sends P l m]: from any state [m] sends a prefix of [l], all of it when it
    succeeds, and only to sources in [P]. *)
Definition sends {A : Type} (P : SourceKey -> Prop) (l : list (SourceKey * Value)) (m : Export A) : Prop :=
  forall h, exists l', l' `prefix_of` l /\ Forall (fun kv => P kv.1) l' /\ sent l' h (m h).2 /\
    (is_ok (m h).1 = true -> l' = l).

Lemma sends_silent {A : Type} P l (m : Export A) :
  (forall h, sent [] h (m h).2) -> (forall h, is_ok (m h).1 = true -> l = []) -> sends P l m.
Proof.
  intros Hs Hok h. exists []. split_and!; [apply prefix_nil|apply Forall_nil_2|done|].
  intros H. by rewrite (Hok h H).
Qed.

Lemma sent_refl h : sent [] h h.
Proof. by apply sent_nil. Qed.

Lemma sends_bind {A B : Type} P l1 l2 (m : Export A) (k : A -> Export B) :
  sends P l1 m -> (forall a, sends P l2 (k a)) -> sends P (l1 ++ l2) (io_bind m k).
Proof.
  intros Hm Hk h. destruct (Hm h) as (l1' & Hp1 & HP1 & Hs1 & Hok1). unfold io_bind.
  destruct (m h) as [[a|e] h1]; cbn [fst snd is_ok] in *.
  - rewrite (Hok1 eq_refl) in *. destruct (Hk a h1) as (l2' & Hp2 & HP2 & Hs2 & Hok2).
    exists (l1 ++ l2'). split_and!.
    + by apply prefix_app.
    + by apply Forall_app.
    + by eapply sent_trans.
    + intros H. by rewrite Hok2.
  - exists l1'. split_and!; [|done|done|done]. by apply prefix_app_r.
Qed.

(** A step that only decides whether to go on. *)
Lemma sends_guard {A B : Type} P l (m : Export A) (k : A -> Export B) :
  (forall h, sent [] h (m h).2) -> (forall h a, (m h).1 = Ok a -> sends P l (k a)) ->
  sends P l (io_bind m k).
Proof.
  intros Hm Hk h. specialize (Hm h). specialize (Hk h). unfold io_bind.
  destruct (m h) as [[a|e] h1]; cbn [fst snd is_ok] in *.
  - destruct (Hk a eq_refl h1) as (l' & Hp & HP & Hs & Hok). exists l'. split_and!; [done|done| |done].
    by apply (sent_trans [] l' _ h1).
  - exists []. split_and!; [apply prefix_nil|apply Forall_nil_2|done|done].
Qed.

Lemma sends_fold {A : Type} P (f : unit -> A -> Export unit) (g : A -> list (SourceKey * Value)) l u :
  (forall u x, sends P (g x) (f u x)) -> sends P (l ≫= g) (io_fold f u l).
Proof.
  intros Hf. revert u. induction l as [|x l IH]; intros u; simpl.
  - apply sends_silent; [apply sent_refl|done].
  - apply sends_bind; auto.
Qed.

Lemma sends_record (P : SourceKey -> Prop) source record :
  P source -> sends P [(source, log_record_json record)] (export_record source record).
Proof.
  intros HP h. destruct (export_record source record h) as [r h'] eqn:E.
  apply export_record_sent in E. cbn [fst snd].
  destruct r; cbn [is_ok] in *; eexists; split_and!; try exact E; try done.
  - by apply Forall_cons; split; [|apply Forall_nil_2].
  - apply prefix_nil.
Qed.

Lemma sender_for_sent h source :
  sent [] h (set_writers h (sender_for (lh_writers h) source) (ls_drains h)).
Proof.
  unfold sender_for. destruct (lwp_inner (lh_writers h) !! source) as [c|] eqn:E; [by apply sent_nil|].
  apply sent_nil; [| |done|done].
  - intros k. cbn [lh_writers set_writers]. rewrite stream_insert. case_decide as Hk; [|done].
    subst k. unfold stream. by rewrite E.
  - intros Hb k c. simpl. destruct (decide (source = k)) as [<-|Hk].
    + rewrite lookup_insert_eq. intros [= <-]. simpl. lia.
    + rewrite lookup_insert_ne by done. apply Hb.
Qed.

Lemma sends_resource token now rl :
  sends (fun k => permits token k = true) (resource_lines rl) (export_resource token now rl).
Proof.
  unfold export_resource, resource_lines.
  destruct (source_from_resource_logs rl) as [k|e].
  2: { apply sends_silent; [intros h; apply sent_refl|done]. }
  apply sends_guard; [intros h; apply sent_refl|]. intros _ k' [= <-].
  apply sends_guard; [intros h; destruct (permits token k); apply sent_refl|].
  intros h u Hperm. destruct (permits token k) eqn:Ep; [|done].
  apply sends_guard.
  { intros h1. destruct (check_logs _ _ _ _) as [r lim]. by apply sent_nil. }
  intros _ _ _. apply sends_guard; [intros h1; apply sender_for_sent|]. intros _ _ _.
  replace ((fun r => (k, log_record_json r)) <$> (scope_logs rl ≫= log_records))
    with (scope_logs rl ≫= fun sl => log_records sl ≫= fun r => [(k, log_record_json r)]).
  - apply sends_fold. intros _ sl. apply sends_fold. intros _ r. by apply sends_record.
  - induction (scope_logs rl) as [|sl l IH]; [done|]. by rewrite !bind_cons, fmap_app, IH.
Qed.

Lemma validate_resource_sent token rl h : sent [] h (validate_resource token rl h).2.
Proof.
  unfold validate_resource. destruct (validate _ _ _ _) as [|[]]; try apply sent_refl.
  destruct (truncate_message _); by apply sent_nil.
Qed.

Lemma sends_nil_fold {A : Type} P (f : unit -> A -> Export unit) l u :
  (forall u x h, sent [] h (f u x h).2) -> sends P [] (io_fold f u l).
Proof.
  intros Hf. replace (@nil (SourceKey * Value)) with (l ≫= fun _ : A => @nil (SourceKey * Value)).
  - apply sends_fold. intros v x. apply sends_silent; [apply Hf|done].
  - induction l; [done|]. simpl. done.
Qed.

Definition permitted_by (rq : LogsRequest) (k : SourceKey) : Prop :=
  exists token, lq_token rq = Some token /\ permits token k = true.

Lemma sends_export rq : sends (permitted_by rq) (batch_lines rq) (export_inner rq).
Proof.
  unfold export_inner. apply sends_guard; [intros h; apply sent_refl|]. intros _ _ _.
  destruct (lq_token rq) as [token|] eqn:Et.
  - apply sends_guard; [intros h; apply sent_refl|]. intros _ t [= <-].
    rewrite <- (app_nil_l (batch_lines rq)). apply sends_bind.
    + apply sends_nil_fold. intros _ rl h. apply validate_resource_sent.
    + intros _. apply (sends_fold _ _ (fun rl => resource_lines rl.2)). intros _ [now rl] h.
      destruct (sends_resource token now rl h) as (l' & Hp & HP & Hs & Hok).
      exists l'. split_and!; [done| |done|done]. eapply Forall_impl; [exact HP|].
      intros kv Hkv. by exists token.
  - apply sends_silent; [intros h; apply sent_refl|done].
Qed.

(** ** Properties *)

(** What an export leaves in the channels, for every interleaving with the
    writers: each source's stream is extended by its lines of a prefix of the
    batch, in order and without loss, duplication or reordering; by all of them
    when the call succeeds; lines only ever go to sources the request's token
    permits; and no queue exceeds its capacity. *)
Theorem log_export_in_order rq h r h' :
  bounded (lh_writers h) -> export_inner rq h = (r, h') ->
  exists l, l `prefix_of` batch_lines rq /\ (r = Ok tt -> l = batch_lines rq) /\
    (forall k, stream (lh_writers h') k = stream (lh_writers h) k ++ lines_for k l) /\
    Forall (fun kv => permitted_by rq kv.1) l /\ bounded (lh_writers h').
Proof.
  intros Hb Hrun. destruct (sends_export rq h) as (l & Hp & HP & (Hs & Hbd & _) & Hok).
  rewrite Hrun in *. cbn [fst snd] in *. exists l. split_and!; [done| |done|done|by apply Hbd].
  intros ->. by apply Hok.
Qed.

(** Validation changes no channel and stops at the first rejected resource. *)
Lemma validate_fold token (l : list (Z * ResourceLogs)) h :
  let run := io_fold (fun _ rl => validate_resource token rl.2) tt l h in
  lh_writers run.2 = lh_writers h /\
  (is_ok run.1 = true -> Forall (fun rl => validate (lh_schema_registry h) (tc_project token) LogAttributes
     (resource_logs_to_validation_value rl.2) = Ok tt) l).
Proof.
  revert h. induction l as [|[now rl] l IH]; intros h; simpl; [by split; [|intros; apply Forall_nil_2]|].
  unfold io_bind at 1 2. unfold validate_resource at 1 3.
  destruct (validate (lh_schema_registry h) (tc_project token) LogAttributes
    (resource_logs_to_validation_value rl)) as [[]|[]] eqn:E; try done.
  - destruct (IH h) as [H1 H2]. split; [done|]. intros Hok. apply Forall_cons. auto.
  - by destruct (truncate_message _).
Qed.

(** C28. Validation comes first: if an export succeeds or changes any channel
    then the protocol version matched, the request carried an authenticated
    token, and every resource of the batch passed the tenant's schema. *)
Theorem log_export_validated_first rq h r h' :
  export_inner rq h = (r, h') -> (r = Ok tt \/ lh_writers h' <> lh_writers h) ->
  validate_protocol_metadata (lq_version rq) = Ok tt /\
  exists token, lq_token rq = Some token /\
    Forall (fun rl => validate (lh_schema_registry h) (tc_project token) LogAttributes
      (resource_logs_to_validation_value rl.2) = Ok tt) (lq_resource_logs rq).
Proof.
  unfold export_inner. intros Hrun Hdo.
  destruct (validate_protocol_metadata (lq_version rq)) as [[]|e]; [|by destruct Hdo; injection Hrun as <- <-].
  split; [done|].
  destruct (lq_token rq) as [token|]; [|by destruct Hdo; injection Hrun as <- <-].
  exists token. split; [done|]. unfold io_bind, io_lift, ok_or in Hrun.
  destruct (validate_fold token (lq_resource_logs rq) h) as [Hw Hv].
  destruct (io_fold _ tt (lq_resource_logs rq) h) as [[u|e] h1]; cbn [fst snd is_ok] in *; [by apply Hv|].
  injection Hrun as <- <-. by destruct Hdo.
Qed.
End Queue.

(** ** A concrete export *)

Definition attr (k v : string) : KeyValue := {| kv_key := k; kv_value := Some (Some (StringValue v)) |}.

Definition sample_record : LogRecord := {|
  time_unix_nano := 1; observed_time_unix_nano := 2; severity_number := 9; severity_text := "INFO";
  lr_body := Some (Some (StringValue "hello")); lr_attributes := [attr "a" "b"];
  lr_dropped_attributes_count := 0; lr_flags := 0; trace_id := []; span_id := []; event_name := "" |}.

Definition sample_logs_request : LogsRequest := {|
  lq_version := Some (as_bytes "1");
  lq_token := Some {| tc_id := "t"; tc_project := "app"; tc_source_prefix := "app/"; tc_secret_hash := "" |};
  lq_resource_logs := [(0%Z, {|
    rl_resource := Some {| res_attributes := [attr "source.project" "app"; attr "source.platform" "linux";
      attr "source.version" "1"; attr "source.install_id" "i"];
      res_dropped_attributes_count := 0; res_entity_refs := [] |};
    scope_logs := [{| sl_scope := None; log_records := [sample_record; sample_record]; sl_schema_url := "" |}];
    rl_schema_url := "" |})] |}.

Definition sample_handler : LogsHandler :=
  LogsHandler_new (LogWriterPool_new {| data_dir := ["/"; "d"] |})
    (RateLimiter_new RateLimitConfig_default) Metrics_new SchemaRegistry_empty [0%nat; 1%nat].

Lemma log_export_in_order_witness :
  let h' := (export_inner sample_logs_request sample_handler).2 in
  stream (lh_writers h') {| sk_project := "app"; sk_source_id := "i" |} =
    [log_record_json sample_record; log_record_json sample_record].
Proof.
  intros h'. subst h'. destruct (export_inner sample_logs_request sample_handler) as [r h'] eqn:E.
  destruct (log_export_in_order sample_logs_request sample_handler r h') as (l & _ & Hl & Hs & _).
  - intros k c Hk. vm_compute in Hk. discriminate Hk.
  - exact E.
  - assert (is_ok (export_inner sample_logs_request sample_handler).1 = true) as Hok by (vm_compute; reflexivity).
    rewrite E in Hok. cbn [fst] in Hok. cbn [snd]. rewrite Hs, Hl; [|destruct r as [[]|]; [reflexivity|discriminate Hok]].
    vm_compute. reflexivity.
Defined.

Lemma log_export_validated_first_witness :
  validate_protocol_metadata (lq_version sample_logs_request) = Ok tt.
Proof.
  destruct (export_inner sample_logs_request sample_handler) as [r h'] eqn:E.
  apply (log_export_validated_first sample_logs_request sample_handler r h' E).
  assert (is_ok (export_inner sample_logs_request sample_handler).1 = true) as Hok by (vm_compute; reflexivity).
  rewrite E in Hok. left. destruct r as [[]|]; [reflexivity|discriminate Hok].
Defined.
