(* ===== verification/LogWriter.v ===== *)
(** * Properties of the log writer: one NDJSON line per record, in daily files *)

From Stdlib Require Import Ascii.
From S2P Require Import Prelude RustStd Fs External Instances Json Protocol Metrics Schemas Storage F64 RateLimit Auth Otlp Logs.

(** The content of a file, empty if there is none. *)
Definition content (fs : gmap Path Node) (p : Path) : bytes :=
  match fs !! p with Some (File c _) => c | _ => [] end.

Lemma content_append fs p b now q :
  is_file fs p = true ->
  content (append_to p b now fs) q = content fs q ++ (if decide (p = q) then b else []).
Proof.
  unfold content, append_to, is_file. destruct (fs !! p) as [[c t|]|] eqn:E; try done. intros _.
  case_decide as Hq; [subst q; by rewrite lookup_insert_eq, E|].
  rewrite lookup_insert_ne by done. by rewrite app_nil_r.
Qed.

Section Writer.
Context {C : ChronoApi} {CL : ChronoLaws C} {J : JsonText} {JL : JsonTextLaws J}.

(** The encoded lines. *)
Definition ndjson (lines : list Value) : bytes :=
  concat ((fun v => json_print v ++ [ascii_of_nat 10]) <$> lines).

(** Splitting at line breaks. *)
Fixpoint split_lines (acc b : bytes) : list bytes :=
  match b with
  | [] => []
  | c :: b' => if Ascii.eqb c (ascii_of_nat 10) then acc :: split_lines [] b'
               else split_lines (acc ++ [c]) b'
  end.

Lemma split_lines_line acc l r :
  ascii_of_nat 10 ∉ l -> split_lines acc (l ++ ascii_of_nat 10 :: r) = (acc ++ l) :: split_lines [] r.
Proof.
  revert acc. induction l as [|c l IH]; intros acc Hl.
  - cbn [app split_lines]. by rewrite Ascii.eqb_refl, app_nil_r.
  - apply not_elem_of_cons in Hl as [Hc Hl]. cbn [app split_lines].
    destruct (Ascii.eqb_spec c (ascii_of_nat 10)) as [->|_]; [done|].
    rewrite IH by done. by rewrite <- app_assoc.
Qed.

Lemma split_lines_ndjson lines : split_lines [] (ndjson lines) = json_print <$> lines.
Proof using JL.
  induction lines as [|v lines IH]; [done|]. unfold ndjson in *. cbn [fmap list_fmap concat].
  rewrite <- app_assoc. cbn [app]. rewrite split_lines_line by apply json_print_one_line.
  by rewrite IH.
Qed.

(** Each received line with the date of the clock reading made for it. *)
Fixpoint dated (now : Z) (clock : list Z) (lines : list Value) : list (NaiveDate * Value) :=
  match lines with
  | [] => []
  | l :: ls => match clock with
               | [] => (date_of now, l) :: dated now [] ls
               | t :: ts => (date_of t, l) :: dated t ts ls
               end
  end.

Definition on_date (d : NaiveDate) (l : list (NaiveDate * Value)) : list Value :=
  snd <$> filter (fun p => p.1 = d) l.

Variable (s : StoragePaths) (k : SourceKey).
Hypothesis (Hk : SourceKey_valid k).

Definition log_dir : Path := data_dir s ++ ["logs"; sk_project k; sk_source_id k].

Lemma log_file_in_dir d : log_file s k d = log_dir ++ [naive_date_display d +:+ ".ndjson"].
Proof using CL Hk. unfold log_dir. rewrite log_file_components by done. by rewrite <- app_assoc. Qed.

Lemma log_file_parent d : parent (log_file s k d) = Some log_dir.
Proof using CL Hk.
  rewrite log_file_in_dir. apply parent_snoc. intros H. apply (f_equal String.length) in H.
  rewrite append_length in H. simpl in H. lia.
Qed.

Lemma log_file_inj d d' : log_file s k d = log_file s k d' -> d = d'.
Proof using CL Hk.
  rewrite !log_file_in_dir. intros H. apply app_inv_head in H. injection H as H.
  by apply naive_date_inj, append_inv_tail with ".ndjson".
Qed.

Lemma log_dir_not_file d q : q `prefix_of` log_dir -> q <> log_file s k d.
Proof using CL Hk.
  intros Hp ->. apply prefix_length in Hp. rewrite log_file_in_dir, length_app in Hp. simpl in Hp. lia.
Qed.

(** Nothing is in the way: no file where a directory is needed and no directory
    where a log file is. *)
Record ready (fs : gmap Path Node) : Prop := {
  ready_dirs : forall q, q `prefix_of` log_dir -> is_file fs q = false;
  ready_files : forall d, fs !! log_file s k d <> Some Dir
}.

(** The writer's state agrees with the file system. *)
Definition writer_ok (fs : gmap Path Node) (st : Writer) : Prop :=
  forall d, wr_date st = Some d ->
    wr_file st = Some (log_file s k d) /\ is_file fs (log_file s k d) = true.

Lemma ready_mkdir fs : ready fs -> ready (foldl add_dir fs (ancestors log_dir)).
Proof using CL Hk.
  intros [Hd Hf]. split.
  - intros q Hq. specialize (Hd q Hq). unfold is_file in *. rewrite foldl_add_dir_lookup.
    destruct (fs !! q) as [[]|]; [done|done|]. by case_decide.
  - intros d. rewrite (foldl_add_dir_prefix log_dir); [apply Hf|done|].
    intros Hp. by apply (log_dir_not_file d) in Hp.
Qed.

Lemma ready_append fs d b now : ready fs -> ready (append_to (log_file s k d) b now fs).
Proof using CL Hk.
  intros [Hd Hf]. unfold append_to. destruct (fs !! log_file s k d) as [[c t|]|]; try done. split.
  - intros q Hq. unfold is_file. rewrite lookup_insert_ne; [by apply Hd|].
    intros H. by apply (log_dir_not_file d q).
  - intros d'. destruct (decide (log_file s k d = log_file s k d')) as [->|H];
      [by rewrite lookup_insert_eq|by rewrite lookup_insert_ne].
Qed.

Lemma ready_create fs d now : ready fs -> ready (<[log_file s k d := File [] now]> fs).
Proof using CL Hk.
  intros [Hd Hf]. split.
  - intros q Hq. unfold is_file. rewrite lookup_insert_ne; [by apply Hd|].
    intros H. by apply (log_dir_not_file d q).
  - intros d'. destruct (decide (log_file s k d = log_file s k d')) as [->|H];
      [by rewrite lookup_insert_eq|by rewrite lookup_insert_ne].
Qed.

(** Opening the file of a day, without failures. *)
Lemma wpn_open_log_file d Q w :
  w_faults w = [] -> ready (w_fs w) ->
  (forall fs', ready fs' -> is_file fs' (log_file s k d) = true ->
     (forall d', content fs' (log_file s k d') = content (w_fs w) (log_file s k d')) ->
     Q (Ok (log_file s k d)) (with_fs w fs')) ->
  wp (open_log_file s k d) Q w.
Proof using CL Hk.
  intros Hnf Hr HQ. unfold open_log_file. rewrite log_file_parent.
  apply wp_bind, wp_map_err, wpn_create_dir_all; [done|apply Hr|]. cbn [map_err].
  set (fs1 := foldl add_dir (w_fs w) (ancestors log_dir)).
  assert (ready fs1) as Hr1 by (by apply ready_mkdir).
  assert (forall d', fs1 !! log_file s k d' = w_fs w !! log_file s k d') as Hsame.
  { intros d'. apply (foldl_add_dir_prefix log_dir); [done|]. intros Hp. by apply (log_dir_not_file d') in Hp. }
  apply wp_bind, wp_map_err, wpn_open_append; [done|apply Hr1| |].
  { apply (parent_is_dir_of _ _ log_dir); [apply log_file_parent|]. cbn [w_fs with_fs]. unfold fs1.
    pose proof (ready_dirs _ Hr log_dir (reflexivity _)) as Hd. unfold is_file in Hd.
    rewrite foldl_add_dir_lookup. destruct (w_fs w !! log_dir) as [[]|]; [done|done|].
    rewrite decide_True; [done|]. apply ancestors_self. unfold log_dir. by destruct (data_dir s). }
  cbn [map_err w_fs with_fs w_now]. apply wp_ret. fold fs1.
  destruct (is_file fs1 (log_file s k d)) eqn:Ef.
  - apply (HQ fs1); [done|done|]. intros d'. unfold content. by rewrite Hsame.
  - apply (HQ (<[log_file s k d := File [] (w_now w)]> fs1)); [by apply ready_create| |].
    + unfold is_file. by rewrite lookup_insert_eq.
    + intros d'. unfold content. destruct (decide (log_file s k d = log_file s k d')) as [<-|H].
      * rewrite lookup_insert_eq, <- Hsame. unfold is_file in Ef. by destruct (fs1 !! log_file s k d) as [[]|].
      * by rewrite lookup_insert_ne, Hsame.
Qed.

Lemma wpn_flush file (Q : Result (Result unit io_error) StorageError -> World -> Prop) w :
  w_faults w = [] -> Q (Ok (Ok tt)) w -> wp (io_try (flush_file file)) Q w.
Proof.
  intros Hf HQ. apply wp_try. unfold flush_file. destruct file; [|by apply wp_ret].
  apply wp_bind, wpn_sync_file; [done|]. by apply wpn_sync_file.
Qed.

Lemma writer_ok_append fs st d b now :
  writer_ok fs st -> writer_ok (append_to (log_file s k d) b now fs) st.
Proof.
  intros Hok d' Hd. destruct (Hok d' Hd) as [Hf Hi]. split; [done|].
  unfold append_to. destruct (fs !! log_file s k d) as [[c t|]|] eqn:E; [|done|done].
  unfold is_file in *. destruct (decide (log_file s k d = log_file s k d')) as [->|H];
    [by rewrite lookup_insert_eq|by rewrite lookup_insert_ne].
Qed.

(** Appending a line, without failures. *)
Lemma wpn_write_line d line Q w :
  w_faults w = [] -> ready (w_fs w) -> is_file (w_fs w) (log_file s k d) = true ->
  (forall fs', ready fs' -> is_file fs' (log_file s k d) = true ->
     (forall d', content fs' (log_file s k d') =
        content (w_fs w) (log_file s k d') ++ (if decide (d = d') then ndjson [line] else [])) ->
     Q (Ok tt) (with_fs w fs')) ->
  wp (write_line (Some (log_file s k d)) line) Q w.
Proof using CL Hk.
  intros Hnf Hr Hi HQ. unfold write_line. apply wp_bind, wp_try, wpn_write_all; [done|].
  apply wp_ret, HQ; [by apply ready_append| |].
  - assert (writer_ok (w_fs w) {| wr_date := Some d; wr_file := Some (log_file s k d) |}) as Hok
      by (intros ? [= <-]; done).
    by eapply (writer_ok_append _ _ d _ _ Hok).
  - intros d'. rewrite content_append by done. f_equal. unfold ndjson. cbn [fmap list_fmap concat].
    rewrite app_nil_r. destruct (decide (d = d')) as [->|Hd]; [by rewrite decide_True|].
    rewrite decide_False; [done|]. intros H. by apply log_file_inj in H.
Qed.

(** One step of the writer, without failures: the line goes to the file of the
    day read from the clock. *)
Lemma wpn_writer_step st line Q w :
  w_faults w = [] -> ready (w_fs w) -> writer_ok (w_fs w) st ->
  (forall st' w' t ts, w_faults w' = [] -> ready (w_fs w') -> writer_ok (w_fs w') st' ->
     (forall lines, dated (w_now w) (w_clock w) (line :: lines) = (date_of t, line) :: dated t ts lines) ->
     w_now w' = t -> w_clock w' = ts ->
     (forall d', content (w_fs w') (log_file s k d') =
        content (w_fs w) (log_file s k d') ++ (if decide (date_of t = d') then ndjson [line] else [])) ->
     Q (Ok st') w') ->
  wp (writer_step s k st line) Q w.
Proof using CL Hk.
  intros Hnf Hr Hok HQ. unfold writer_step. apply wp_bind.
  assert (exists t ts w1, @system_time_now StorageError w = (Ok t, w1) /\ w_faults w1 = [] /\
    w_fs w1 = w_fs w /\ w_now w1 = t /\ w_clock w1 = ts /\
    forall lines, dated (w_now w) (w_clock w) (line :: lines) = (date_of t, line) :: dated t ts lines)
    as (t & ts & w1 & Hnow & Hnf1 & Hfs & Ht & Hts & Hdated).
  { unfold system_time_now. cbn [dated]. destruct (w_clock w) as [|t ts] eqn:Ec.
    - exists (w_now w), [], w. by rewrite Hnf, Ec.
    - eexists t, ts, _. by split_and!. }
  unfold wp at 1. rewrite Hnow. cbn [fst snd]. rewrite <- Hfs in Hr, Hok.
  destruct (decide (wr_date st = Some (date_of t))) as [Hd|Hd].
  - destruct (Hok _ Hd) as [Hwf Hi]. rewrite Hwf. apply wp_bind, wpn_write_line; [done|done|done|].
    intros fs' Hr' Hi' Hc. apply wp_ret, HQ with t ts; try done.
    + intros d Hd'. rewrite Hd in Hd'. by injection Hd' as <-.
    + intros d'. cbn [w_fs with_fs]. by rewrite Hc, Hfs.
  - apply wp_bind, wpn_flush; [done|]. apply wp_bind, wp_try, wpn_open_log_file; [done|done|].
    intros fs1 Hr1 Hi1 Hc1. apply wp_bind, wpn_write_line; [done|done|done|].
    intros fs' Hr' Hi' Hc. apply wp_ret, HQ with t ts; try done.
    + by intros d [= <-].
    + intros d'. cbn [w_fs with_fs] in Hc |- *. by rewrite Hc, Hc1, Hfs.
Qed.

Lemma ndjson_app l1 l2 : ndjson (l1 ++ l2) = ndjson l1 ++ ndjson l2.
Proof. unfold ndjson. by rewrite fmap_app, concat_app. Qed.

Lemma on_date_cons d d' v l :
  ndjson (on_date d ((d', v) :: l)) = (if decide (d' = d) then ndjson [v] else []) ++ ndjson (on_date d l).
Proof.
  unfold on_date. rewrite filter_cons. cbn [fst]. case_decide; [|done].
  cbn [fmap list_fmap snd]. by rewrite <- ndjson_app.
Qed.

(** Every received line is written once, in order, in the file of its day. *)
Lemma wpn_writer_loop lines Q w :
  w_faults w = [] -> ready (w_fs w) ->
  (forall w', w_faults w' = [] -> ready (w_fs w') -> (forall d, content (w_fs w') (log_file s k d) =
     content (w_fs w) (log_file s k d) ++ ndjson (on_date d (dated (w_now w) (w_clock w) lines))) ->
     Q (Ok tt) w') ->
  wp (writer_loop s k lines) Q w.
Proof using CL Hk.
  intros Hnf Hr HQ. unfold writer_loop. apply wp_bind.
  apply (wp_fold _ (fun st ls w1 => w_faults w1 = [] /\ ready (w_fs w1) /\ writer_ok (w_fs w1) st /\
    forall d, content (w_fs w1) (log_file s k d) ++ ndjson (on_date d (dated (w_now w1) (w_clock w1) ls))
      = content (w_fs w) (log_file s k d) ++ ndjson (on_date d (dated (w_now w) (w_clock w) lines)))).
  - intros st l ls w1 (Hf1 & Hr1 & Hok & Hc). apply wpn_writer_step; [done|done|done|].
    intros st' w' t ts Hf' Hr' Hok' Hdated <- <- Hc'. split_and!; [done|done|done|].
    intros d. rewrite <- Hc, Hdated, on_date_cons, Hc'. by rewrite app_assoc.
  - intros st w1 (Hf1 & Hr1 & Hok & Hc). apply wp_bind, wpn_flush; [done|]. apply wp_ret, HQ; [done|done|].
    intros d. rewrite <- Hc. cbn [dated]. unfold on_date. cbn. by rewrite app_nil_r.
  - split_and!; [done|done| |done]. by intros d [=].
Qed.

(** ** With failures *)

(** Files only grow, and only the source's log files change. *)
Definition own_log (q : Path) : Prop := exists d, q = log_file s k d.

Definition frame (fs fs' : gmap Path Node) : Prop :=
  forall q, own_log q \/ fs' !! q = fs !! q \/
            (fs !! q = None /\ fs' !! q = Some Dir /\ q `prefix_of` log_dir).

Definition appends (fs fs' : gmap Path Node) : Prop :=
  frame fs fs' /\
  forall q c t, fs !! q = Some (File c t) -> exists c' t', fs' !! q = Some (File (c ++ c') t').

Lemma frame_trans fs1 fs2 fs3 : frame fs1 fs2 -> frame fs2 fs3 -> frame fs1 fs3.
Proof.
  intros H12 H23 q. destruct (H12 q) as [?|[E|(E1 & E2 & Hp)]]; [by left|rewrite <- E; apply H23|].
  destruct (H23 q) as [?|[E|(E & _)]]; [by left|right; right; by rewrite E|congruence].
Qed.

Lemma frame_insert fs d n : frame fs (<[log_file s k d := n]> fs).
Proof.
  intros q. destruct (decide (log_file s k d = q)) as [<-|H]; [left; by exists d|].
  right; left. by rewrite lookup_insert_ne.
Qed.

#[export] Instance appends_preorder : PreOrder appends.
Proof.
  split.
  - intros fs. split; [intros q; auto|]. intros q c t Hq. exists [], t. by rewrite app_nil_r.
  - intros fs1 fs2 fs3 [Ho1 Hf1] [Ho2 Hf2]. split; [by eapply frame_trans|]. intros q c t Hq.
    apply Hf1 in Hq as (c1 & t1 & Hq). apply Hf2 in Hq as (c2 & t2 & Hq).
    exists (c1 ++ c2), t2. by rewrite app_assoc.
Qed.

Lemma appends_append_to fs d b now : appends fs (append_to (log_file s k d) b now fs).
Proof.
  split.
  { unfold append_to. destruct (fs !! log_file s k d) as [[]|]; [apply frame_insert|intros q; auto..]. }
  intros q c t Hq. unfold append_to.
  destruct (decide (log_file s k d = q)) as [<-|Hne].
  - rewrite Hq, lookup_insert_eq. by eauto.
  - exists [], t. rewrite app_nil_r. destruct (fs !! log_file s k d) as [[]|]; [|done|done].
    by rewrite lookup_insert_ne.
Qed.

Lemma appends_insert fs d now : fs !! log_file s k d = None -> appends fs (<[log_file s k d := File [] now]> fs).
Proof.
  intros Hd. split; [apply frame_insert|]. intros q c t Hq. exists [], t.
  rewrite app_nil_r, lookup_insert_ne by congruence. done.
Qed.

Lemma appends_dirs fs fs' :
  only (fun _ => False) fs fs' -> (forall q, ~ q `prefix_of` log_dir -> fs' !! q = fs !! q) -> appends fs fs'.
Proof.
  intros Ho Hp. split.
  - intros q. destruct (decide (q `prefix_of` log_dir)) as [Hq|Hq]; [|right; left; by apply Hp].
    destruct (Ho q) as [[]|[?|[? ?]]]; auto.
  - intros q c t Hq. exists [], t.
    rewrite app_nil_r. destruct (Ho q) as [[]|[->|[]]]; [done|congruence].
Qed.

(** Programs that only append; [R] says what they return. *)
Definition Appends {E A : Type} (m : IO E A) (R : A -> Prop) : Prop :=
  forall w, wp m (fun r w' => appends (w_fs w) (w_fs w') /\ (forall a, r = Ok a -> R a)) w.

Lemma Appends_bind {E A B} (m : IO E A) (f : A -> IO E B) R S :
  Appends m R -> (forall a, R a -> Appends (f a) S) -> Appends (io_bind m f) S.
Proof.
  intros Hm Hf w. apply wp_bind. eapply wp_mono; [apply Hm|]. intros [a|e] w1 [H1 HR].
  - eapply wp_mono; [by apply Hf, HR|]. intros r w2 [H2 HS]. split; [by etrans|done].
  - by split.
Qed.

Lemma Appends_ret {E A} (a : A) (R : A -> Prop) : R a -> Appends (@io_ret World E A a) R.
Proof. intros Ha w. apply wp_ret. split; [reflexivity|]. by intros ? [= <-]. Qed.

Lemma Appends_try {E F A} (m : IO E A) (R : A -> Prop) :
  Appends m R -> Appends (@io_try World E A F m) (fun r => forall a, r = Ok a -> R a).
Proof.
  intros Hm w. apply wp_try. eapply wp_mono; [apply Hm|]. intros r w1 [H1 HR].
  split; [done|]. intros ? [= <-]. done.
Qed.

Lemma Appends_map_err {E F A} (f : E -> F) (m : IO E A) (R : A -> Prop) :
  Appends m R -> Appends (io_map_err f m) R.
Proof.
  intros Hm w. apply wp_map_err. eapply wp_mono; [apply Hm|]. intros r w1 [H1 HR].
  split; [done|]. destruct r; [|done]. intros ? [= <-]. by apply HR.
Qed.

Lemma Appends_create_dir_all : Appends (create_dir_all log_dir) (fun _ => True).
Proof. intros w. apply wp_create_dir_all. intros r w' _ Ho Hp _. split; [by apply appends_dirs|done]. Qed.

Lemma Appends_open_append d : Appends (open_append (log_file s k d)) (fun _ => True).
Proof.
  intros w. apply wp_syscall.
  - intros msg n w' _ -> _. split; [reflexivity|done].
  - intros w1 Hfs _ _. cbn [w_fs with_fs]. split; [|done]. rewrite <- Hfs.
    unfold is_dir, is_file. destruct (w_fs w1 !! log_file s k d) as [[]|] eqn:E; try reflexivity.
    destruct (parent_is_dir _ _); [by apply appends_insert|reflexivity].
Qed.

Lemma Appends_write_all d b : Appends (write_all (log_file s k d) b) (fun _ => True).
Proof.
  intros w. apply wp_write_all.
  - intros w' _ ->. split; [apply appends_append_to|done].
  - intros e n w' _ ->. split; [apply appends_append_to|done].
Qed.

Lemma Appends_sync_file p : Appends (sync_file p) (fun _ => True).
Proof. intros w. apply wp_sync_file. intros r w' _ ->. split; [reflexivity|done]. Qed.

Lemma Appends_now {E} : Appends (@system_time_now E) (fun _ => True).
Proof. intros w. apply wp_system_time_now. intros t w' -> _ _ _ _. split; [reflexivity|done]. Qed.

Lemma Appends_flush_file file : Appends (flush_file file) (fun _ => True).
Proof.
  destruct file as [p|]; [|by apply Appends_ret].
  eapply Appends_bind; [apply Appends_sync_file|]. intros _ _. apply Appends_sync_file.
Qed.

Lemma Appends_open_log_file d : Appends (open_log_file s k d) (fun p => own_log p).
Proof using CL Hk.
  unfold open_log_file. rewrite log_file_parent. apply Appends_bind with (fun _ => True).
  - apply Appends_map_err, Appends_create_dir_all.
  - intros _ _. eapply Appends_bind; [apply Appends_map_err, Appends_open_append|].
    intros _ _. apply Appends_ret. by exists d.
Qed.

Lemma Appends_write_line p line : own_log p -> Appends (write_line (Some p) line) (fun _ => True).
Proof.
  intros [d ->]. eapply Appends_bind; [apply Appends_try, Appends_write_all|].
  intros _ _. by apply Appends_ret.
Qed.

(** The file a writer has open is one of its source's. *)
Definition owns (st : Writer) : Prop := forall p, wr_file st = Some p -> own_log p.

Lemma Appends_writer_step st line : owns st -> Appends (writer_step s k st line) owns.
Proof using CL Hk.
  intros Ho. eapply Appends_bind; [apply Appends_now|]. intros t _. cbv zeta. case_decide.
  - apply Appends_bind with (fun _ => True); [|by intros _ _; apply Appends_ret].
    destruct (wr_file st) as [p|] eqn:E; [by apply Appends_write_line, Ho|by apply Appends_ret].
  - eapply Appends_bind; [apply Appends_try, Appends_flush_file|]. intros _ _.
    eapply Appends_bind; [apply Appends_try, Appends_open_log_file|]. intros [p|e] Hp.
    + eapply Appends_bind; [by apply Appends_write_line, Hp|]. intros _ _.
      apply Appends_ret. intros ? [= <-]. by apply Hp.
    + apply Appends_ret. by intros ?.
Qed.

Lemma Appends_fold {E A St : Type} (f : St -> A -> IO E St) (R : St -> Prop) l :
  (forall st x, R st -> Appends (f st x) R) -> forall st, R st -> Appends (io_fold f st l) R.
Proof.
  intros Hf. induction l as [|x l IH]; intros st HR; [by apply Appends_ret|].
  cbn [io_fold]. eapply Appends_bind; [by apply Hf|]. by apply IH.
Qed.

Lemma Appends_writer_loop lines : Appends (writer_loop s k lines) (fun _ => True).
Proof using CL Hk.
  eapply Appends_bind; [apply (Appends_fold _ owns); [intros; by apply Appends_writer_step|by intros ?]|].
  intros st _. eapply Appends_bind; [apply Appends_try, Appends_flush_file|].
  intros _ _. by apply Appends_ret.
Qed.

(** The writer swallows every error. *)
Lemma io_try_ok {E F A B} (m : IO E A) (f : Result A E -> IO F B) (R : Result B F -> Prop) w :
  (forall r w', R (f r w').1) -> R (io_bind (io_try m) f w).1.
Proof. intros Hf. unfold io_bind, io_try. destruct (m w) as [r w']. apply Hf. Qed.

Lemma write_line_ok file line w : (write_line file line w).1 = Ok tt.
Proof.
  destruct file as [p|]; [|done].
  apply (io_try_ok (write_all p (json_print line ++ [ascii_of_nat 10])) _ (fun r => r = Ok tt)). done.
Qed.

Lemma writer_step_ok st line w : exists st' w', writer_step s k st line w = (Ok st', w').
Proof.
  cut (exists st', (writer_step s k st line w).1 = Ok st').
  { intros [st' H]. destruct (writer_step s k st line w) as [r w']. simpl in H. subst r. by eauto. }
  assert (forall file (st' : Writer) w1, ((write_line file line;;! io_ret st') w1).1 = Ok st') as Hw.
  { intros file st' w1. unfold io_bind. pose proof (write_line_ok file line w1) as H.
    destruct (write_line file line w1) as [r w']. simpl in H. by subst r. }
  unfold writer_step. unfold io_bind at 1, system_time_now at 1.
  destruct (w_clock w); case_decide; try (eexists; apply Hw);
    apply (io_try_ok (flush_file (wr_file st)) _ (fun r => exists st', r = Ok st')); intros _ w1;
    apply (io_try_ok (open_log_file s k _) _ (fun r => exists st', r = Ok st')); intros [p|e] w2;
    eexists; [apply Hw|done|apply Hw|done].
Qed.

Lemma writer_fold_ok lines : forall st w, exists st' w', io_fold (writer_step s k) st lines w = (Ok st', w').
Proof.
  induction lines as [|l lines IH]; intros st w; [by eexists _, _|]. cbn [io_fold]. unfold io_bind.
  destruct (writer_step_ok st l w) as (st' & w' & ->). apply IH.
Qed.

Lemma writer_loop_ok lines w : (writer_loop s k lines w).1 = Ok tt.
Proof.
  unfold writer_loop. unfold io_bind at 1.
  destruct (writer_fold_ok lines {| wr_date := None; wr_file := None |} w) as (st & w' & ->).
  by apply (io_try_ok (flush_file (wr_file st)) _ (fun r => r = Ok tt)).
Qed.
End Writer.

(** ** Claims *)

Section Claims.
Context {C : ChronoApi} {CL : ChronoLaws C} {J : JsonText} {JL : JsonTextLaws J}.

(** When no file operation fails and nothing is in the way of the log files,
    a log writer ends normally and has appended each received line exactly once,
    in the order of reception, to the file of the day on which it was received:
    each daily file is its old content followed by one newline-terminated JSON
    text per line, and splitting the new part at line breaks gives those texts
    back. *)
Theorem writer_lines_by_day s k lines w :
  SourceKey_valid k -> w_faults w = [] -> ready s k (w_fs w) ->
  exists w', writer_loop s k lines w = (Ok tt, w') /\
    forall d, let today := on_date d (dated (w_now w) (w_clock w) lines) in
      exists new, content (w_fs w') (log_file s k d) = content (w_fs w) (log_file s k d) ++ new /\
        new = ndjson today /\ split_lines [] new = json_print <$> today.
Proof.
  intros Hk Hnf Hr.
  pose (Q := fun (r : Result unit StorageError) (w' : World) => r = Ok tt /\ forall d,
    content (w_fs w') (log_file s k d) =
    content (w_fs w) (log_file s k d) ++ ndjson (on_date d (dated (w_now w) (w_clock w) lines))).
  assert (wp (writer_loop s k lines) Q w) as HQ by (by apply wpn_writer_loop).
  unfold wp in HQ. destruct (writer_loop s k lines w) as [r w']. destruct HQ as [Hr' HQ].
  cbn [fst] in Hr'. subst r.
  exists w'. split; [done|]. intros d. eexists. split_and!; [apply HQ|done|].
  apply split_lines_ndjson.
Qed.

(** C29. Whatever file operations fail, at whatever point, a log writer never
    panics out of its loop, never shortens, rewrites or removes a file, and
    touches nothing but the daily log files of its own source (and, if missing,
    the directories leading to them). *)
Theorem writer_appends_only s k lines w :
  SourceKey_valid k ->
  let (r, w') := writer_loop s k lines w in
  r = Ok tt /\
  (forall q c t, w_fs w !! q = Some (File c t) -> exists c' t', w_fs w' !! q = Some (File (c ++ c') t')) /\
  (forall q, (exists d, q = log_file s k d) \/ w_fs w' !! q = w_fs w !! q \/
             (w_fs w !! q = None /\ w_fs w' !! q = Some Dir /\ q `prefix_of` log_dir s k)).
Proof.
  intros Hk.
  pose proof (writer_loop_ok s k lines w) as Hok.
  pose proof (Appends_writer_loop s k Hk lines w) as [[Ho Hf] _].
  by destruct (writer_loop s k lines w) as [r w'].
Qed.
End Claims.

(** ** Witnesses *)

Definition sample_world : World :=
  {| w_fs := {[ ["/"] := Dir ]}; w_now := 0; w_clock := [0; 0; 1];
     w_faults := []; w_uuids := 0; w_dir_mtime := fun _ => 0 |}.

Definition sample_source : SourceKey := {| sk_project := "app"; sk_source_id := "i" |}.

Lemma sample_source_valid : SourceKey_valid sample_source.
Proof. by split_and!. Qed.

Lemma writer_lines_by_day_witness :
  exists w', writer_loop {| data_dir := ["/"; "d"] |} sample_source [Null; Bool true; Null] sample_world
    = (Ok tt, w') /\
    content (w_fs w') (log_file {| data_dir := ["/"; "d"] |} sample_source (date_of 0)) =
      ndjson [Null; Bool true].
Proof.
  destruct (writer_lines_by_day {| data_dir := ["/"; "d"] |} sample_source [Null; Bool true; Null]
    sample_world) as (w' & Hw & H).
  - exact sample_source_valid.
  - reflexivity.
  - split.
    + intros q _. unfold is_file. cbn [w_fs sample_world].
      destruct (decide (q = ["/"])) as [->|H]; [by rewrite lookup_singleton_eq|].
      by rewrite lookup_singleton_ne.
    + intros d. rewrite log_file_components by exact sample_source_valid. cbn [w_fs sample_world].
      by rewrite lookup_singleton_ne.
  - exists w'. split; [exact Hw|]. destruct (H (date_of 0)) as (new & -> & -> & _).
    vm_compute. reflexivity.
Defined.

Lemma writer_appends_only_witness :
  let w := {| w_fs := {[ ["/"] := Dir ]}; w_now := 0; w_clock := []; w_uuids := 0; w_dir_mtime := fun _ => 0;
              w_faults := [None; None; Some {| f_message := "no space left"; f_partial := 2 |}] |} in
  (writer_loop {| data_dir := ["/"; "d"] |} sample_source [Null; Bool true] w).1 = Ok tt.
Proof.
  intros w.
  pose proof (writer_appends_only {| data_dir := ["/"; "d"] |} sample_source [Null; Bool true] w
    sample_source_valid) as H.
  destruct (writer_loop _ _ _ w) as [r w']. exact (proj1 H).
Defined.
