(* ===== verification/LogPipeline.v ===== *)
(** * The log pipeline: from accepted requests to the daily files

    The exports of a server's life, the queues they fill and the writers that
    empty them on shutdown, composed. *)

From Stdlib Require Import Ascii.
From S2P Require Import Prelude RustStd Fs External Instances Json Protocol Metrics Schemas Storage F64 RateLimit Auth Otlp Logs LogQueue LogWriter.

Section Pipeline.
Context {C : ChronoApi} {CL : ChronoLaws C} {J : JsonText} {JL : JsonTextLaws J}.
Context {HT : HttpApi} {V : JsonSchemaApi}.

(** ** Requests in sequence *)

Fixpoint run_exports (rqs : list (LogsRequest * Z)) (h : LogsHandler) : list (Result unit Status) * LogsHandler :=
  match rqs with
  | [] => ([], h)
  | (rq, elapsed) :: rqs =>
      let (r, h1) := export rq elapsed h in
      let (rs, h2) := run_exports rqs h1 in (r :: rs, h2)
  end.

(** The lines one request contributes: a prefix of its batch, all of it if it was
    accepted. *)
Definition contributes (rq : LogsRequest) (r : Result unit Status) (l : list (SourceKey * Value)) : Prop :=
  l `prefix_of` batch_lines rq /\ (r = Ok tt -> l = batch_lines rq).

Lemma export_sent rq elapsed h r h' :
  export rq elapsed h = (r, h') -> exists l, contributes rq r l /\ sent l h h'.
Proof.
  unfold export, io_bind, io_try. destruct (sends_export rq h) as (l & Hp & _ & Hs & Hok).
  destruct (export_inner rq h) as [r1 h1]. cbn [fst snd] in *. unfold io_lift. intros [= <- <-].
  exists l. split; [split; [done|]|].
  - intros ->. by apply Hok.
  - destruct Hs as (H1 & H2 & H3 & H4). by split_and!.
Qed.

Inductive contributions : list (LogsRequest * Z) -> list (Result unit Status) -> list (SourceKey * Value) -> Prop :=
  | contributions_nil : contributions [] [] []
  | contributions_cons rq t r l rqs rs ls :
      contributes rq r l -> contributions rqs rs ls -> contributions ((rq, t) :: rqs) (r :: rs) (l ++ ls).

Lemma run_exports_sent rqs : forall h rs h', run_exports rqs h = (rs, h') ->
  exists l, contributions rqs rs l /\ sent l h h'.
Proof.
  induction rqs as [|[rq t] rqs IH]; intros h rs h' Hrun; cbn [run_exports] in Hrun.
  - injection Hrun as <- <-. exists []. split; [constructor|apply sent_refl].
  - destruct (export rq t h) as [r h1] eqn:E1. destruct (run_exports rqs h1) as [rs2 h2] eqn:E2.
    injection Hrun as <- <-. apply export_sent in E1 as (l1 & Hc1 & Hs1).
    apply IH in E2 as (l2 & Hc2 & Hs2). exists (l1 ++ l2).
    split; [by constructor|by eapply sent_trans].
Qed.

(** ** The sources with a writer are valid *)

Definition keys_valid (h : LogsHandler) : Prop :=
  forall k c, lwp_inner (lh_writers h) !! k = Some c -> SourceKey_valid k.

Lemma source_valid rl k : source_from_resource_logs rl = Ok k -> SourceKey_valid k.
Proof.
  unfold source_from_resource_logs. intros H.
  destruct (ok_or (rl_resource rl) _) as [r|]; [|done].
  do 4 (destruct (required_attr _ _); [|done]).
  destruct (SourceKey_new _ _) as [k'|] eqn:E; [|done]. cbn in H. injection H as ->.
  by apply SourceKey_new_Ok in E as [_ ?].
Qed.

Lemma keys_valid_insert h p d k c : keys_valid h -> SourceKey_valid k ->
  lwp_inner p = <[k := c]> (lwp_inner (lh_writers h)) -> keys_valid (set_writers h p d).
Proof.
  intros Hv Hk Hp k' c' H. cbn [lh_writers set_writers] in H. rewrite Hp in H.
  destruct (decide (k = k')) as [<-|Hne]; [done|]. rewrite lookup_insert_ne in H by done. by eapply Hv.
Qed.

Lemma export_record_keys k record : SourceKey_valid k -> Keeps keys_valid (export_record k record).
Proof.
  intros Hk h Hv. unfold export_record. destruct (try_send _ _ _) as [[] c'];
    by eapply (keys_valid_insert h _ _ k c').
Qed.

Lemma keeps_lift_bind {A B : Type} (r : Result A Status) (f : A -> Export B) :
  (forall a, r = Ok a -> Keeps keys_valid (f a)) -> Keeps keys_valid (io_bind (io_lift r) f).
Proof. intros Hf h Hv. destruct r as [a|e]; [|done]. by apply (Hf a eq_refl h). Qed.

Lemma export_resource_keys token now rl : Keeps keys_valid (export_resource token now rl).
Proof.
  apply keeps_lift_bind. intros k Hk%source_valid. apply keeps_bind; [apply _|]. intros _.
  apply keeps_bind; [|intros _; apply keeps_bind; [|intros _]].
  - intros h Hv. by destruct (check_logs _ _ _ _).
  - intros h Hv. unfold sender_for. destruct (lwp_inner (lh_writers h) !! k) eqn:E; [done|].
    by eapply (keys_valid_insert h _ _ k).
  - apply keeps_fold. intros _ sl. apply keeps_fold. intros _ record. by apply export_record_keys.
Qed.

Lemma export_keys rq t : Keeps keys_valid (export rq t).
Proof.
  apply keeps_bind; [apply keeps_try|intros r; apply keeps_bind; [by intros h|intros _; apply _]].
  unfold export_inner. apply keeps_bind; [apply _|intros _]. apply keeps_bind; [apply _|intros token].
  apply keeps_bind; [|intros _]; apply keeps_fold; intros _ [now rl]; [|apply export_resource_keys].
  intros h Hv. cbn [snd]. unfold validate_resource. destruct (validate _ _ _ _) as [|[]]; try done.
  by destruct (truncate_message _).
Qed.

Lemma run_exports_keys rqs : forall h, keys_valid h -> keys_valid (run_exports rqs h).2.
Proof.
  induction rqs as [|[rq t] rqs IH]; intros h Hv; [done|]. cbn [run_exports].
  pose proof (export_keys rq t h Hv) as H1. destruct (export rq t h) as [r h1].
  specialize (IH h1 H1). by destruct (run_exports rqs h1).
Qed.

(** ** Joining the writers *)

Definition written (s : StoragePaths) (k : SourceKey) (lines : list Value) (fs fs' : gmap Path Node) : Prop :=
  exists dl : list (NaiveDate * Value), snd <$> dl = lines /\
    forall d, content fs' (log_file s k d) = content fs (log_file s k d) ++ ndjson (on_date d dl).

Lemma written_nil s k fs fs' :
  (forall d, fs' !! log_file s k d = fs !! log_file s k d) -> written s k [] fs fs'.
Proof. intros H. exists []. split; [done|]. intros d. unfold content. by rewrite H, app_nil_r. Qed.

Lemma written_trans s k l1 l2 fs1 fs2 fs3 :
  written s k l1 fs1 fs2 -> written s k l2 fs2 fs3 -> written s k (l1 ++ l2) fs1 fs3.
Proof.
  intros (d1 & <- & H1) (d2 & <- & H2). exists (d1 ++ d2). split; [by rewrite fmap_app|].
  intros d. rewrite H2, H1. unfold on_date. by rewrite filter_app, fmap_app, ndjson_app, app_assoc.
Qed.

Lemma dated_lines lines : forall now clock, snd <$> dated now clock lines = lines.
Proof. induction lines as [|l ls IH]; intros now clock; [done|]. destruct clock; cbn; by rewrite IH. Qed.

(** Nothing is in the way of any source. *)
Definition all_ready (s : StoragePaths) (fs : gmap Path Node) : Prop :=
  forall k, SourceKey_valid k -> ready s k fs.

Lemma log_dir_length s k : length (log_dir s k) = (length (data_dir s) + 3)%nat.
Proof. unfold log_dir. by rewrite length_app. Qed.

Lemma log_file_length s k d : SourceKey_valid k -> length (log_file s k d) = (length (data_dir s) + 4)%nat.
Proof. intros Hk. rewrite log_file_in_dir, length_app, log_dir_length by done. simpl. lia. Qed.

Lemma log_file_source s k k' d d' :
  SourceKey_valid k -> SourceKey_valid k' -> log_file s k d = log_file s k' d' -> k = k'.
Proof.
  intros Hk Hk'. rewrite !log_file_in_dir by done. intros [H _]%app_inj_tail.
  unfold log_dir in H. apply app_inv_head in H. destruct k, k'. by injection H as -> ->.
Qed.

Lemma frame_ready s k fs fs' :
  SourceKey_valid k -> frame s k fs fs' -> ready s k fs' -> all_ready s fs -> all_ready s fs'.
Proof.
  intros Hk Hf Hr Ha k' Hk'. destruct (Ha k' Hk') as [Hd Hfile]. split.
  - intros q Hq. unfold is_file. destruct (Hf q) as [[d ->]|[->|(_ & -> & _)]]; [|by apply Hd|done].
    apply prefix_length in Hq. rewrite log_file_length, log_dir_length in Hq by done. lia.
  - intros d. destruct (Hf (log_file s k' d)) as [[d' ->]|[->|(_ & _ & Hp)]]; [apply Hr|apply Hfile|].
    apply prefix_length in Hp. rewrite log_file_length, log_dir_length in Hp by done. lia.
Qed.

(** A writer leaves the files of the other sources as they are. *)
Lemma frame_written s k fs fs' k' :
  SourceKey_valid k -> frame s k fs fs' -> SourceKey_valid k' -> k' <> k -> written s k' [] fs fs'.
Proof.
  intros Hk Hfr Hk' Hne. apply written_nil. intros d.
  destruct (Hfr (log_file s k' d)) as [[d' Hd]|[?|(_ & _ & Hp)]]; [|done|].
  - by apply log_file_source in Hd.
  - apply prefix_length in Hp. rewrite log_file_length, log_dir_length in Hp by done. lia.
Qed.

(** One writer: its source's files are extended, the other sources' are not
    changed, and nothing gets in the way of the next writer. *)
Lemma writer_run s k lines w :
  SourceKey_valid k -> w_faults w = [] -> all_ready s (w_fs w) ->
  exists w', writer_loop s k lines w = (Ok tt, w') /\ w_faults w' = [] /\ all_ready s (w_fs w') /\
    written s k lines (w_fs w) (w_fs w') /\
    forall k', SourceKey_valid k' -> k' <> k -> written s k' [] (w_fs w) (w_fs w').
Proof.
  intros Hk Hnf Ha.
  pose (Q := fun (r : Result unit StorageError) (w' : World) => r = Ok tt /\ w_faults w' = [] /\
    ready s k (w_fs w') /\ written s k lines (w_fs w) (w_fs w')).
  assert (wp (writer_loop s k lines) Q w) as HQ.
  { apply wpn_writer_loop; [done|done|by apply Ha|]. intros w' Hf' Hr' Hc. split_and!; [done|done|done|].
    eexists. split; [apply dated_lines|exact Hc]. }
  pose proof (Appends_writer_loop s k Hk lines w) as [[Hfr _] _].
  unfold wp in HQ. destruct (writer_loop s k lines w) as [r w']. destruct HQ as (Hr & Hf' & Hr' & Hw).
  cbn [fst snd] in *. subst r. exists w'. split_and!; [done|done|by eapply frame_ready|done|].
  intros k' Hk' Hne. by apply (frame_written s k).
Qed.

Definition handle_lines (c : Channel) : list Value := ch_received c ++ ch_queue c.

Lemma join_all s (drained : list (SourceKey * Channel)) : forall w,
  NoDup drained.*1 -> Forall (fun h => SourceKey_valid h.1) drained ->
  w_faults w = [] -> all_ready s (w_fs w) ->
  exists w', io_fold (fun _ h => writer_loop s h.1 (handle_lines h.2)) tt drained w = (Ok tt, w') /\
    (forall k c, (k, c) ∈ drained -> written s k (handle_lines c) (w_fs w) (w_fs w')) /\
    (forall k, SourceKey_valid k -> k ∉ drained.*1 -> written s k [] (w_fs w) (w_fs w')).
Proof.
  induction drained as [|[k0 c0] drained IH]; intros w Hnd Hv Hnf Ha.
  { exists w. split_and!; [done|by intros k c ?%not_elem_of_nil|]. intros k _ _. by apply written_nil. }
  cbn in Hnd. apply NoDup_cons in Hnd as [Hk0 Hnd]. apply Forall_cons in Hv as [Hv0 Hv]. cbn in Hv0.
  destruct (writer_run s k0 (handle_lines c0) w Hv0 Hnf Ha) as (w1 & Hrun & Hnf1 & Ha1 & Hw0 & Hoth).
  destruct (IH w1 Hnd Hv Hnf1 Ha1) as (w' & Hrun' & Hin & Hout).
  exists w'. split_and!.
  - cbn [io_fold]. unfold io_bind. cbn [fst snd]. by rewrite Hrun.
  - intros k c [[= -> ->]|Hkc]%elem_of_cons.
    + rewrite <- (app_nil_r (handle_lines c0)). by eapply written_trans; [|apply Hout].
    + change (handle_lines c) with ([] ++ handle_lines c). eapply written_trans; [|by apply Hin].
      apply Hoth; [by apply (proj1 (Forall_forall _ _) Hv _ Hkc)|].
      intros ->. apply Hk0, list_elem_of_fmap. by exists (k0, c).
  - intros k Hk Hkn. cbn in Hkn. apply not_elem_of_cons in Hkn as [Hne Hkn].
    change (@nil Value) with (@nil Value ++ []). eapply written_trans; [by apply Hoth|by apply Hout].
Qed.

Lemma run_exports_storage rqs h rs h' :
  run_exports rqs h = (rs, h') -> lwp_storage (lh_writers h') = lwp_storage (lh_writers h).
Proof. by intros (l & _ & _ & _ & _ & ?)%run_exports_sent. Qed.

(** From acceptance to disk: a server that starts with no writers, answers
    any sequence of export calls in any interleaving with the writers, and shuts
    down, joining the writers in any order, without a failing file operation, has
    extended the daily log files of every source by exactly the lines of that
    source: for each call, in the order of the calls, a prefix of its batch, and
    the whole batch if the call was accepted; each line once, in order, in the
    file of the day on which it was written. *)
Theorem accepted_logs_on_disk h rqs rs h' drained w :
  let s := lwp_storage (lh_writers h) in
  lwp_inner (lh_writers h) = ∅ -> run_exports rqs h = (rs, h') ->
  drained ≡ₚ map_to_list (lwp_inner (lh_writers h')) ->
  w_faults w = [] -> all_ready s (w_fs w) ->
  exists l w', contributions rqs rs l /\
    shutdown drained (lh_writers h') w = (Ok (LogWriterPool_new s), w') /\
    forall k, SourceKey_valid k -> written s k (lines_for k l) (w_fs w) (w_fs w').
Proof.
  intros s H0 Hrun Hd Hnf Ha. pose proof (run_exports_storage _ _ _ _ Hrun) as Hs.
  assert (keys_valid h') as Hv.
  { pose proof (run_exports_keys rqs h) as H. rewrite Hrun in H. apply H. intros k c. by rewrite H0, lookup_empty. }
  destruct (run_exports_sent _ _ _ _ Hrun) as (l & Hl & Hst & _).
  destruct (join_all s drained w) as (w' & Hjoin & Hin & Hout); [| |done|done|].
  { rewrite Hd. apply NoDup_fst_map_to_list. }
  { rewrite Hd. apply Forall_forall. intros [k c] Hkc%elem_of_map_to_list. by eapply Hv. }
  exists l, w'. split_and!; [done| |].
  - unfold shutdown, io_bind. rewrite Hs. unfold handle_lines in Hjoin. fold s. by rewrite Hjoin.
  - intros k Hk. specialize (Hst k). unfold stream in Hst. rewrite H0, lookup_empty in Hst. cbn [app] in Hst.
    rewrite <- Hst. destruct (lwp_inner (lh_writers h') !! k) as [c|] eqn:E.
    + apply Hin. rewrite Hd. by apply elem_of_map_to_list.
    + apply Hout; [done|]. rewrite Hd. intros (x & -> & Hx)%list_elem_of_fmap.
      destruct x as [k c]. apply elem_of_map_to_list in Hx. cbn in E. congruence.
Qed.
End Pipeline.

(** ** A served batch on disk *)

Lemma sample_all_ready s : data_dir s <> [] -> all_ready s (w_fs sample_world).
Proof.
  intros Hs k Hk. cbn [w_fs sample_world]. split.
  - intros q _. unfold is_file. destruct (decide (q = ["/"])) as [->|H]; [by rewrite lookup_singleton_eq|].
    by rewrite lookup_singleton_ne.
  - intros d. rewrite lookup_singleton_ne; [done|]. intros H. apply (f_equal length) in H.
    rewrite log_file_length in H by done. cbn in H. lia.
Qed.

Lemma accepted_logs_on_disk_witness :
  let run := run_exports [(sample_logs_request, 0)] sample_handler in
  let p := lh_writers run.2 in
  run.1 = [Ok tt] /\
  exists w', shutdown (map_to_list (lwp_inner p)) p sample_world =
      (Ok (LogWriterPool_new {| data_dir := ["/"; "d"] |}), w') /\
    written {| data_dir := ["/"; "d"] |} sample_source
      [log_record_json sample_record; log_record_json sample_record] (w_fs sample_world) (w_fs w').
Proof.
  intros run p. subst p. subst run.
  destruct (run_exports [(sample_logs_request, 0)] sample_handler) as [rs h'] eqn:E. cbn [fst snd].
  assert (rs = [Ok tt]) as ->.
  { change rs with (rs, h').1. rewrite <- E. vm_compute. reflexivity. }
  split; [reflexivity|].
  destruct (accepted_logs_on_disk sample_handler [(sample_logs_request, 0)] [Ok tt] h'
    (map_to_list (lwp_inner (lh_writers h'))) sample_world) as (l & w' & Hl & Hs & Hw).
  - reflexivity.
  - exact E.
  - reflexivity.
  - reflexivity.
  - apply sample_all_ready. discriminate.
  - exists w'. split; [exact Hs|].
    assert (l = batch_lines sample_logs_request) as ->.
    { inversion Hl as [|rq t r l1 rqs rs ls [_ Hc] Hn]; subst. inversion Hn; subst.
      rewrite app_nil_r. by apply Hc. }
    apply (Hw sample_source sample_source_valid).
Defined.
