(* ===== verification/Compression.v ===== *)
(** * detritus-client/src/compression.rs: zstd and which attachments get it *)

From Stdlib Require Import Ascii.
From S2P Require Import Prelude RustStd Fs.

(** zstd: [encode_all] at a level, and what decoding promises. *)
Class ZstdApi := {
  zstd_encode_all : bytes -> Z -> Result bytes io_error;
  zstd_decode_all : bytes -> Result bytes io_error
}.

Class ZstdLaws (Z : ZstdApi) := {
  zstd_decode_encode : forall b level c, zstd_encode_all b level = Ok c -> zstd_decode_all c = Ok b
}.

Definition DEFAULT_COMPRESSION_LEVEL : Z := 19.

Definition compress `{ZstdApi} (b : bytes) (level : Z) : Result bytes io_error := zstd_encode_all b level.

(** ** [str::trim]: the characters with the Unicode property White_Space, as UTF-8 *)

Definition b1 (n : nat) : ascii := ascii_of_nat n.

(** A white-space character at the front, and what follows it. *)
Definition strip_space (b : bytes) : option bytes :=
  match b with
  | c :: r => if byte_in 9 13 c || byte_in 32 32 c then Some r
              else match b with
                   | a :: c :: r =>
                       if Ascii.eqb a (b1 194) && (Ascii.eqb c (b1 133) || Ascii.eqb c (b1 160)) then Some r
                       else match r with
                            | d :: r =>
                                if (Ascii.eqb a (b1 225) && Ascii.eqb c (b1 154) && Ascii.eqb d (b1 128))
                                || (Ascii.eqb a (b1 226) && Ascii.eqb c (b1 128) &&
                                    (byte_in 128 138 d || byte_in 168 169 d || byte_in 175 175 d))
                                || (Ascii.eqb a (b1 226) && Ascii.eqb c (b1 129) && Ascii.eqb d (b1 159))
                                || (Ascii.eqb a (b1 227) && Ascii.eqb c (b1 128) && Ascii.eqb d (b1 128))
                                then Some r else None
                            | [] => None
                            end
                   | _ => None
                   end
  | [] => None
  end.

(** The same at the end of the text, for the reversed text. *)
Definition strip_space_rev (b : bytes) : option bytes :=
  match b with
  | c :: r => if byte_in 9 13 c || byte_in 32 32 c then Some r
              else match r with
                   | a :: r' =>
                       if Ascii.eqb a (b1 194) && (Ascii.eqb c (b1 133) || Ascii.eqb c (b1 160)) then Some r'
                       else match r' with
                            | e :: r'' =>
                                match strip_space [e; a; c] with Some [] => Some r'' | _ => None end
                            | [] => None
                            end
                   | [] => None
                   end
  | [] => None
  end.

Fixpoint trim_loop (strip : bytes -> option bytes) (fuel : nat) (b : bytes) : bytes :=
  match fuel with
  | O => b
  | S fuel => match strip b with Some r => trim_loop strip fuel r | None => b end
  end.

(** Each round removes at least one byte. *)
Definition trim (s : string) : string :=
  let b := as_bytes s in
  let b := trim_loop strip_space (length b) b in
  of_bytes (rev (trim_loop strip_space_rev (length b) (rev b))).

Definition should_compress_content_type (content_type : string) : bool :=
  let base := to_ascii_lowercase (trim (default content_type (head (split_char ";" content_type)))) in
  if existsb (String.eqb base)
       ["application/zstd"; "application/gzip"; "application/x-gzip"; "application/zip";
        "application/x-tar"; "application/octet-stream"]
  then false
  else if starts_with "image/" base || starts_with "video/" base || starts_with "audio/" base then false
  else if starts_with "text/" base then true
  else existsb (String.eqb base)
         ["application/json"; "application/x-ndjson"; "application/yaml"; "application/x-yaml";
          "application/xml"].

(** ** Properties *)

Lemma starts_with_head p s a : starts_with (String a p) s = true -> exists s', s = String a s'.
Proof. intros (r & ->)%starts_with_spec. by eexists. Qed.

Lemma to_ascii_lowercase_app s t : to_ascii_lowercase (s +:+ t) = to_ascii_lowercase s +:+ to_ascii_lowercase t.
Proof. induction s as [|c s IH]; [done|]. cbn. by rewrite IH. Qed.

Lemma ascii_lower_idem c : ascii_lower (ascii_lower c) = ascii_lower c.
Proof. destruct c as [[] [] [] [] [] [] [] []]; reflexivity. Qed.

Lemma to_ascii_lowercase_idem s : to_ascii_lowercase (to_ascii_lowercase s) = to_ascii_lowercase s.
Proof. induction s as [|c s IH]; [done|]. cbn. by rewrite IH, ascii_lower_idem. Qed.

Lemma split_char_head c s t : contains_char c s = false ->
  head (split_char c (s +:+ String c t)) = Some s.
Proof.
  induction s as [|a s IH]; intros Hs; cbn.
  - by rewrite Ascii.eqb_refl.
  - cbn in Hs. apply orb_false_iff in Hs as [-> Hs].
    specialize (IH Hs). destruct (split_char c _); [done|]. cbn in IH |- *. by injection IH as ->.
Qed.

(** The media type without parameters, as the decision sees it. *)
Definition essence (content_type : string) : string :=
  to_ascii_lowercase (trim (default content_type (head (split_char ";" content_type)))).

Definition compressible : list string :=
  ["application/json"; "application/x-ndjson"; "application/yaml"; "application/x-yaml"; "application/xml"].

Lemma should_compress_essence ct :
  should_compress_content_type ct = starts_with "text/" (essence ct) || bool_decide (essence ct ∈ compressible).
Proof.
  unfold should_compress_content_type. fold (essence ct). generalize (essence ct). intros base.
  assert (forall l, existsb (String.eqb base) l = bool_decide (base ∈ l)) as Hex.
  { intros l. apply eq_true_iff_eq. rewrite bool_decide_eq_true, existsb_exists. split.
    - intros (x & Hx & ->%String.eqb_eq). by apply list_elem_of_In.
    - intros Hx. exists base. rewrite String.eqb_refl. split; [by apply list_elem_of_In|done]. }
  rewrite !Hex. fold compressible.
  case_bool_decide as H1.
  { apply list_elem_of_In in H1. cbn in H1.
    repeat (destruct H1 as [<-|H1]; [vm_compute; reflexivity|]). destruct H1. }
  destruct (starts_with "image/" base || starts_with "video/" base || starts_with "audio/" base) eqn:H2.
  - assert (exists a r, base = String a r /\ a <> "t"%char /\ a <> "a"%char \/ (exists r', base = String "a" (String "u" r')))
      as (a & r & Hb).
    { rewrite !orb_true_iff in H2. destruct H2 as [[H2|H2]|H2]; apply starts_with_spec in H2 as [r ->].
      - exists "i"%char, ("mage/" +:+ r). by left.
      - exists "v"%char, ("ideo/" +:+ r). by left.
      - exists "a"%char, r. right. by exists ("dio/" +:+ r). }
    symmetry. apply orb_false_iff. split.
    + destruct (starts_with "text/" base) eqn:E; [|done]. apply starts_with_spec in E as [r' ->].
      destruct Hb as [(Hb & Ht & _)|[r'' Hb]]; [by injection Hb as <-|done].
    + apply bool_decide_eq_false. intros Hin. apply list_elem_of_In in Hin. cbn in Hin.
      repeat (destruct Hin as [<-|Hin];
        [destruct Hb as [(Hb & _ & Ha)|[r'' Hb]]; [by injection Hb as <-|discriminate Hb]|]).
      destruct Hin.
  - destruct (starts_with "text/" base); reflexivity.
Qed.

(** Which attachments are compressed: exactly those whose media type, ignoring
    letter case, surrounding white space and any parameters, is text or one of
    the listed structured-text types.  The list of binary types the code checks
    first never decides anything the second list would not, and parameters after
    a semicolon never matter. *)
Theorem should_compress_exact ct params :
  should_compress_content_type ct =
    (starts_with "text/" (essence ct) || bool_decide (essence ct ∈ compressible)) /\
  (contains_char ";" ct = false ->
   should_compress_content_type (ct +:+ ";" +:+ params) = should_compress_content_type ct).
Proof.
  split; [apply should_compress_essence|]. intros Hc. rewrite !should_compress_essence. unfold essence.
  cbn [String.append]. rewrite split_char_head, split_char_no_sep by done. done.
Qed.

Lemma should_compress_exact_witness :
  should_compress_content_type ("Text/Plain" +:+ ";" +:+ " charset=utf-8") = true.
Proof.
  destruct (should_compress_exact "Text/Plain" " charset=utf-8") as [H1 H2].
  rewrite (H2 eq_refl), H1. vm_compute. reflexivity.
Defined.

(** zstd without compression. *)
#[export] Instance ToyZstd : ZstdApi := {
  zstd_encode_all b _ := Ok ("Z"%char :: b);
  zstd_decode_all b := match b with c :: r => if Ascii.eqb c "Z" then Ok r else fail_kind InvalidData
                                  | [] => fail_kind InvalidData end
}.

#[export] Instance ToyZstdLaws : ZstdLaws ToyZstd.
Proof. split. intros b level c [= <-]. reflexivity. Defined.
