(* ===== verification/Spool.v ===== *)
(** * detritus-client/src/spool.rs: spooled log batches and the spool lock *)

From Stdlib Require Import Ascii.
From S2P Require Import Prelude RustStd Fs FsDir External Instances F64 Otlp.

Definition ensure_dir (path : Path) : IO io_error unit := create_dir_all path.

(** [OpenOptions] with create, read, write and no truncation touches the file
    system as opening for appending does. *)
Definition open_lock (p : Path) : IO io_error unit := open_append p.

(** [lock_exclusive] waits until the lock is free; [unlock] on drop has no effect
    on files. *)
Definition lock_exclusive (p : Path) : IO io_error unit := syscall no_part (fun w => (Ok tt, w_fs w)).

(** [SpoolLock::acquire] *)
Definition SpoolLock_acquire (dir : Path) : IO io_error unit :=
  ensure_dir dir;;!
  open_lock (join dir ".lock");;!
  lock_exclusive (join dir ".lock").

Section Spool.
Context {U : UuidApi} {P : ProstApi} {OS : Os}.

Definition spool_uuid {E : Type} : IO E Uuid :=
  fun w => (Ok (new_v4 (w_uuids w)),
            {| w_fs := w_fs w; w_now := w_now w; w_clock := w_clock w; w_faults := w_faults w;
               w_uuids := w_uuids w + 1; w_dir_mtime := w_dir_mtime w |}).

(** Encoding to a [Vec] does not fail. *)
Definition write_log_batch (dir : Path) (request : ExportLogsServiceRequest) : IO io_error Path :=
  ensure_dir dir;;!
  let! id := spool_uuid in
  let path := join dir ("log-" +:+ uuid_to_string id +:+ ".protobuf") in
  fs_write path (prost_encode request);;!
  io_ret path.

Definition read_log_batch (path : Path) : IO io_error ExportLogsServiceRequest :=
  let! b := fs_read path in
  io_lift (map_err (fun error => IoError InvalidData error) (prost_decode b)).

Definition pending_log_batches (dir : Path) : IO io_error (list Path) :=
  let! entries := io_try (read_dir dir) in
  match entries with
  | Ok entries =>
      let! paths := collect_entries (fun path => io_ret (bool_decide (extension path = Some "protobuf"))) entries in
      io_ret (sort_paths paths)
  | Err error => if decide (kind error = NotFound) then io_ret [] else io_err error
  end.
End Spool.
