(* ===== verification/PanicHook.v ===== *)
(** * detritus-client/src/panic_hook.rs: spooling a crash

    What the hook reads of the process (backtrace, arguments, directory) is a
    record; tar and gzip are a parameter that turns the archive's entries into
    bytes. *)

From Stdlib Require Import Ascii.
From S2P Require Import Prelude RustStd Fs FsDir External Instances Json Protocol Spool.

(** url: parsing, printing, the path and joining. *)
Class UrlApi := {
  Url : Type;
  url_parse : string -> option Url;
  url_to_string : Url -> string;
  url_path : Url -> string;
  url_join : Url -> string -> option Url
}.

Class UrlLaws (UR : UrlApi) := {
  url_parse_to_string : forall u, url_parse (url_to_string u) = Some u;
  url_text : forall u, utf8_valid (as_bytes (url_to_string u)) = true
}.

(** tar and flate2: an archive is its entries; [tar_gz] writes and compresses it. *)
Record TarEntry := { te_path : string; te_size : Z; te_mode : Z; te_data : bytes }.

Class TarApi := {
  tar_set_path : string -> Result unit io_error;
  tar_gz : list TarEntry -> Result bytes io_error
}.

(** minidumper-child: spawning the reporter with a crashes directory and the
    arguments it is re-executed with. *)
Class MinidumperApi := {
  ClientHandle : Type;
  minidumper_spawn : Path -> list string -> Result ClientHandle string
}.

Inductive PanicHookError := HookIo (e : io_error) | HookMinidump (e : string).

Inductive PanicKind := KindMinidump | KindPanicTarball.

Definition panic_crash_kind (k : PanicKind) : CrashKind :=
  match k with KindMinidump => PanicTarball | KindPanicTarball => PanicTarball end.

(** [PanicHookInfo]: the payload and the location (file, line, column). *)
Inductive Payload := PayloadStr (s : string) | PayloadString (s : string) | PayloadOther.

Record PanicInfo := { pi_payload : Payload; pi_location : option (string * Z * Z) }.

Record ProcessEnv := {
  pe_backtrace : string;
  pe_args : list string;
  pe_current_dir : option string;
  pe_os : string;
  pe_arch : string
}.

(** [StoredUploadConfig] with its derived codec. *)
Record StoredUploadConfig := { suc_endpoint : string; suc_sent_retention_days : Z }.

Definition ser_StoredUploadConfig (c : StoredUploadConfig) : Value :=
  Object [("endpoint", Str (suc_endpoint c)); ("sent_retention_days", Num (PosInt (suc_sent_retention_days c)))].

Definition de_StoredUploadConfig (v : Value) : Result StoredUploadConfig json_error :=
  let? a := de_struct ["endpoint"; "sent_retention_days"] v in
  let? e := field_req de_string a 0 "endpoint" in
  let? d := field_req (de_uint U64_MAX) a 1 "sent_retention_days" in
  Ok {| suc_endpoint := e; suc_sent_retention_days := d |}.

Definition string_newline : string := String (ascii_of_nat 10) "".

Definition panic_text_of (info : PanicInfo) : string :=
  let payload := match pi_payload info with
                 | PayloadStr value => value
                 | PayloadString value => value
                 | PayloadOther => "<non-string panic payload>"
                 end in
  match pi_location info with
  | Some (file, line, column) =>
      payload +:+ string_newline +:+ string_newline +:+ "at " +:+ file +:+ ":" +:+ Z_to_string line
        +:+ ":" +:+ Z_to_string column
  | None => payload
  end.

Section PanicHook.
Context {U : UuidApi} {C : ChronoApi} {J : JsonText} {UR : UrlApi} {T : TarApi}.

Record PanicHookConfig := {
  ph_endpoint : Url;
  ph_token : string;
  ph_source : SourceId U;
  ph_spool_dir : Path;
  ph_kind : PanicKind;
  ph_build : BuildInfo;
  ph_context : Value;
  ph_context_files : list Path;
  ph_sent_retention_days : Z
}.

Definition from_config (config : PanicHookConfig) : StoredUploadConfig :=
  {| suc_endpoint := url_to_string (ph_endpoint config);
     suc_sent_retention_days := ph_sent_retention_days config |}.

Definition append_bytes (builder : list TarEntry) (path : string) (b : bytes)
  : Result (list TarEntry) io_error :=
  let? _ := tar_set_path path in
  Ok (builder ++ [{| te_path := path; te_size := len_u64 b; te_mode := 420; te_data := b |}]).

Definition panic_tarball (env : ProcessEnv) (text : string) : Result bytes io_error :=
  let? builder := append_bytes [] "panic.txt" (as_bytes text) in
  let? builder := append_bytes builder "backtrace.txt" (as_bytes (pe_backtrace env)) in
  let env_json := Object (obj_collect [
    ("args", Array (Str <$> pe_args env));
    ("current_dir", ser_option Str (pe_current_dir env));
    ("os", Str (pe_os env));
    ("arch", Str (pe_arch env))]) in
  let? builder := append_bytes builder "env.json" (json_print_pretty env_json) in
  tar_gz builder.

Definition context_filename (index : nat) (path : Path) : string :=
  default ("context-" +:+ Z_to_string (Z.of_nat index) +:+ ".json") (file_name path ≫= to_str).

Definition copy_context_file (dir : Path) (index : nat) (path : Path) : IO io_error AttachmentManifest :=
  let filename := context_filename index path in
  let! b := fs_read path in
  fs_write (join dir filename) b;;!
  io_ret {| am_key := "context-" +:+ Z_to_string (Z.of_nat index); am_filename := Some filename;
            am_content_type := "application/json"; am_len := len_u64 b |}.

(** [iter().enumerate().map(..).collect::<io::Result<_>>()] stops at the first error. *)
Definition copy_context_files (config : PanicHookConfig) (dir : Path) : IO io_error (list AttachmentManifest) :=
  io_fold (fun acc '(index, path) => let! a := copy_context_file dir index path in io_ret (acc ++ [a]))
    [] (imap pair (ph_context_files config)).

Definition with_attachments (m : CrashMetadata U C) (l : list AttachmentManifest) : CrashMetadata U C :=
  {| schema_version := schema_version m; md_source := md_source m; timestamp := timestamp m;
     md_kind := md_kind m; build := build m; panic_text := panic_text m; context := context m;
     md_attachments := md_attachments m ++ l |}.

Definition with_panic_text (m : CrashMetadata U C) (t : string) : CrashMetadata U C :=
  {| schema_version := schema_version m; md_source := md_source m; timestamp := timestamp m;
     md_kind := md_kind m; build := build m; panic_text := Some t; context := context m;
     md_attachments := md_attachments m |}.

(** The manifest of the stored configuration; the length is that of the compact text. *)
Definition sdk_config_manifest (config : PanicHookConfig) : AttachmentManifest :=
  {| am_key := "sdk-config"; am_filename := Some "sdk-config.json"; am_content_type := "application/json";
     am_len := len_u64 (json_print (ser_StoredUploadConfig (from_config config))) |}.

(** The three files of an entry, in writing order. *)
Definition write_entry (config : PanicHookConfig) (dir : Path) (metadata : CrashMetadata U C) (dump : bytes)
  : IO io_error unit :=
  fs_write (join dir "metadata.json") (metadata_to_vec_pretty metadata);;!
  fs_write (join dir "dump.bin") dump;;!
  fs_write (join dir "sdk-config.json") (json_print_pretty (ser_StoredUploadConfig (from_config config))).

Definition write_pending_crash (config : PanicHookConfig) (env : ProcessEnv) (info : PanicInfo)
  : IO io_error unit :=
  let! id := spool_uuid in
  let dir := join (join (ph_spool_dir config) "pending") (uuid_to_string id) in
  create_dir_all dir;;!
  let text := panic_text_of info in
  let! dump := io_lift (match ph_kind config with
                        | KindPanicTarball => panic_tarball env text
                        | KindMinidump => panic_tarball env text
                        end) in
  let! now := system_time_now in
  let metadata := CrashMetadata_new (ph_source config) (datetime_of now)
                    (panic_crash_kind (ph_kind config)) (ph_build config) (ph_context config) in
  let metadata := with_panic_text metadata text in
  let metadata := with_attachments metadata [sdk_config_manifest config] in
  let! context_attachments := copy_context_files config dir in
  let metadata := with_attachments metadata context_attachments in
  write_entry config dir metadata dump.

Definition write_pending_minidump (config : PanicHookConfig) (dump : bytes) : IO io_error unit :=
  let! id := spool_uuid in
  let dir := join (join (ph_spool_dir config) "pending") (uuid_to_string id) in
  create_dir_all dir;;!
  let! now := system_time_now in
  let metadata := CrashMetadata_new (ph_source config) (datetime_of now) Minidump
                    (ph_build config) (ph_context config) in
  let! context_attachments := copy_context_files config dir in
  let metadata := with_attachments metadata context_attachments in
  write_entry config dir metadata dump.

(** The installed hook: errors are reported on stderr, then the previous hook runs. *)
Definition panic_hook (config : PanicHookConfig) (env : ProcessEnv) (info : PanicInfo)
    (previous : PanicInfo -> IO io_error unit) : IO io_error unit :=
  io_try (E := io_error) (F := io_error) (write_pending_crash config env info);;!
  previous info.

(** The callback of [on_minidump]: errors are reported on stderr. *)
Definition on_minidump {E : Type} (config : PanicHookConfig) (buffer : bytes) : IO E unit :=
  io_try (write_pending_minidump config buffer);;! io_ret tt.

Context {MD : MinidumperApi}.

(** What an installation leaves behind: the reporter's handle in
    [MINIDUMPER_HANDLES] with its callback, and the panic hook. *)
Record Installed := {
  in_handle : option (ClientHandle * (bytes -> IO io_error unit));
  in_hook : ProcessEnv -> PanicInfo -> IO io_error unit
}.

Definition install_minidumper_if_requested (config : PanicHookConfig) (args : list string)
  : Result (option (ClientHandle * (bytes -> IO io_error unit))) PanicHookError :=
  match ph_kind config with
  | KindPanicTarball => Ok None
  | KindMinidump =>
      let? handle := map_err HookMinidump
        (minidumper_spawn (join (ph_spool_dir config) "minidumper") (drop 1 args)) in
      Ok (Some (handle, on_minidump config))
  end.

(** [install_panic_hook] with the minidump feature; [args] are the process's. *)
Definition install_panic_hook (config : PanicHookConfig) (args : list string)
    (previous : PanicInfo -> IO io_error unit) : IO PanicHookError Installed :=
  io_map_err HookIo (create_dir_all (join (ph_spool_dir config) "pending"));;!
  io_map_err HookIo (create_dir_all (join (ph_spool_dir config) "sent"));;!
  let! handle := io_lift (install_minidumper_if_requested config args) in
  io_ret {| in_handle := handle; in_hook := fun env info => panic_hook config env info previous |}.
End PanicHook.
