(* ===== verification/Shipper.v ===== *)
(** * detritus-client/src/shipper.rs: uploading spooled crashes

    The peer of the HTTP client is a parameter: [http_send] is what happens to a
    request, on a state [N] of its own.  Programs run on the world, the peer and
    the log of the exchanges so far. *)

From Stdlib Require Import Ascii.
From S2P Require Import Prelude RustStd Fs FsDir External Instances Json Protocol Rfc7578 Multipart Compression Spool PanicHook.

Definition DEFAULT_SENT_RETENTION_DAYS : Z := 90.

Record ShipConfig := { dump_compression_level : Z; attachment_compression : bool }.

Definition ShipConfig_default : ShipConfig :=
  {| dump_compression_level := DEFAULT_COMPRESSION_LEVEL; attachment_compression := true |}.

Definition with_dump_compression_level (c : ShipConfig) (level : Z) : ShipConfig :=
  {| dump_compression_level := level; attachment_compression := attachment_compression c |}.

Definition with_attachment_compression (c : ShipConfig) (enabled : bool) : ShipConfig :=
  {| dump_compression_level := dump_compression_level c; attachment_compression := enabled |}.

Inductive ShipError :=
| ShipIo (e : io_error)
| ShipJson (e : json_error)
| ShipHttp (e : string)
| InvalidToken
| ShipStatus (status : Z)
| ShipProtocol (e : ProtocolError)
| MissingStoredConfig (entry : Path).

(** http: [HeaderValue::from_str]. *)
Class HeaderApi := { header_from_str : string -> option bytes }.

(** A POST request, and what comes of it: a transport error, or a status and the
    chunks of the response's body. *)
Record HttpPost `{UrlApi} := {
  hp_url : Url;
  hp_authorization : bytes;
  hp_content_type : string;
  hp_body : bytes
}.

Inductive HttpOutcome :=
| SendError (e : string)
| Responded (status : Z) (chunks : list (Result bytes string)).

Class HttpPeer `{UrlApi} (N : Type) := { http_send : HttpPost -> N -> HttpOutcome * N }.

(** [StatusCode::is_success] *)
Definition is_success (status : Z) : bool := ((200 <=? status) && (status <? 300))%Z.

(** ** Pure parts *)

Definition record_retention (max_retention_days : option Z) (retention_days : Z) : option Z :=
  Some (match max_retention_days with Some current => Z.max current retention_days | None => retention_days end).

Definition retention_or_default (max_retention_days : option Z) : Z :=
  default DEFAULT_SENT_RETENTION_DAYS max_retention_days.

Definition crash_url `{UrlApi} (endpoint : Url) : Url :=
  if ends_with "/v1/crashes" (url_path endpoint) then endpoint
  else default endpoint (url_join endpoint "/v1/crashes").

(** [if let Some(local) = attachments.iter_mut().find(|a| a.key == key) { local.bytes = b }] *)
Fixpoint replace_first (key : string) (b : bytes) (l : list CrashAttachment) : list CrashAttachment :=
  match l with
  | [] => []
  | a :: l => if String.eqb (ca_key a) key
              then {| ca_key := ca_key a; ca_content_type := ca_content_type a; ca_bytes := b |} :: l
              else a :: replace_first key b l
  end.

Definition zstd_encoding : PartEncoding := {| content_encoding := Some "zstd" |}.

(** One attachment of the compression loop: the clone's attachments and the
    encodings so far. *)
Definition compress_attachment `{ZstdApi} (config : ShipConfig)
    (acc : list CrashAttachment * list PartEncoding) (a : CrashAttachment)
  : Result (list CrashAttachment * list PartEncoding) io_error :=
  let should := attachment_compression config && should_compress_content_type (ca_content_type a) in
  if should then
    let? compressed := compress (ca_bytes a) (dump_compression_level config) in
    Ok (replace_first (ca_key a) compressed acc.1, acc.2 ++ [zstd_encoding])
  else Ok (acc.1, acc.2 ++ [PartEncoding_default]).

(** [SystemTime::now().checked_sub(..).unwrap_or(UNIX_EPOCH)], in nanoseconds. *)
Definition sent_cutoff (now retention_days : Z) : Z :=
  let secs := saturating_mul_u64 retention_days (24 * 60 * 60) in
  if (now / 1000000000 - secs <? - 2 ^ 63)%Z then 0 else now - secs * 1000000000.

Section Shipper.
Context {U : UuidApi} {C : ChronoApi} {J : JsonText} {UR : UrlApi} {ZS : ZstdApi} {HA : HeaderApi} {OS : Os}
  {N : Type} {HP : HttpPeer N}.

(** The client's view: its file system, the peer, and the exchanges so far. *)
Record Net := { net_peer : N; net_log : list (HttpPost * HttpOutcome) }.
Definition Ship (A : Type) : Type := ST (World * Net) ShipError A.

Definition ship_io {E A : Type} (m : IO E A) : ST (World * Net) E A :=
  fun wn => let (r, w') := m wn.1 in (r, (w', wn.2)).

Definition send {E : Type} (rq : HttpPost) : ST (World * Net) E HttpOutcome :=
  fun wn => let (o, peer) := http_send rq (net_peer wn.2) in
            (Ok o, (wn.1, {| net_peer := peer; net_log := net_log wn.2 ++ [(rq, o)] |})).

Record CrashShipper := { cs_token : string; cs_config : ShipConfig }.

(** [built] is whether Reqwest could build its client. *)
Definition with_client (token : string) : CrashShipper :=
  {| cs_token := token; cs_config := ShipConfig_default |}.

Definition CrashShipper_new (built : Result unit string) (token : string) : Result CrashShipper ShipError :=
  let? _ := map_err ShipHttp built in Ok (with_client token).

Definition with_config (s : CrashShipper) (config : ShipConfig) : CrashShipper :=
  {| cs_token := cs_token s; cs_config := config |}.

(** ** The spool *)

Definition pending_entries (pending : Path) : IO io_error (list Path) :=
  let! r := io_try (read_dir pending) in
  let! entries := match r with
                  | Ok entries => collect_entries path_is_dir entries
                  | Err error => if decide (kind error = NotFound) then io_ret [] else io_err error
                  end in
  io_ret (sort_paths entries).

(** The attachments that have a file, with their paths. *)
Definition stored_attachments (entry : Path) (m : CrashMetadata U C) : list (AttachmentManifest * Path) :=
  omap (fun manifest => filename ← am_filename manifest; Some (manifest, join entry filename)) (md_attachments m).

Definition read_attachment (acc : list CrashAttachment) (mp : AttachmentManifest * Path)
  : IO io_error (list CrashAttachment) :=
  let! b := fs_read mp.2 in
  io_ret (acc ++ [{| ca_key := am_key mp.1; ca_content_type := am_content_type mp.1; ca_bytes := b |}]).

Definition read_envelope (entry : Path) : IO ShipError (CrashEnvelope U C) :=
  let! b := io_map_err ShipIo (fs_read (join entry "metadata.json")) in
  let! metadata := io_lift (map_err ShipJson (metadata_from_slice b)) in
  let! dump := io_map_err ShipIo (fs_read (join entry "dump.bin")) in
  let! attachments := io_map_err ShipIo (io_fold read_attachment [] (stored_attachments entry metadata)) in
  io_ret {| ce_metadata := metadata; ce_dump := dump; ce_attachments := attachments |}.

(** ** Uploading *)

(** The compressed clone and its encodings. *)
Definition compress_envelope (config : ShipConfig) (e : CrashEnvelope U C)
  : Result (CrashEnvelope U C * EnvelopeEncodings) io_error :=
  let? compressed_dump := compress (ce_dump e) (dump_compression_level config) in
  let? (attachments, encs) := try_fold (compress_attachment config) (ce_attachments e, []) (ce_attachments e) in
  Ok ({| ce_metadata := ce_metadata e; ce_dump := compressed_dump; ce_attachments := attachments |},
      {| enc_dump := zstd_encoding; enc_attachments := encs |}).

(** [while response.chunk().await?.is_some() {}] *)
Definition drain_body (chunks : list (Result bytes string)) : Result unit string :=
  let? _ := try_map (fun c => c) chunks in Ok tt.

Definition post_envelope (endpoint : Url) (token : string) (e : CrashEnvelope U C) (config : ShipConfig)
  : Ship unit :=
  let! (compressed, encodings) := io_lift (map_err ShipIo (compress_envelope config e)) in
  let! body := io_lift (match write_to_with_boundary_and_encodings compressed DEFAULT_BOUNDARY encodings [] with
                        | (Ok _, body) => Ok body
                        | (Err error, _) => Err (ShipProtocol error)
                        end) in
  let url := crash_url endpoint in
  let! authorization := io_lift (ok_or (header_from_str ("Bearer " +:+ token)) InvalidToken) in
  let! response := send {| hp_url := url; hp_authorization := authorization;
                           hp_content_type := "multipart/form-data; boundary=" +:+ DEFAULT_BOUNDARY;
                           hp_body := body |} in
  match response with
  | SendError error => io_err (ShipHttp error)
  | Responded status chunks =>
      if is_success status then io_lift (map_err ShipHttp (drain_body chunks))
      else io_err (ShipStatus status)
  end.

Definition ship_one (entry sent : Path) (endpoint : Url) (token : string) (config : ShipConfig) : Ship unit :=
  let! envelope := ship_io (read_envelope entry) in
  post_envelope endpoint token envelope config;;!
  let! name := io_lift (ok_or (file_name entry) (ShipIo (IoError Other "pending entry has no file name"))) in
  let destination := join sent name in
  let! exists_ := ship_io (path_exists destination) in
  (if (exists_ : bool) then ship_io (io_map_err ShipIo (remove_dir_all destination)) else io_ret tt);;!
  ship_io (io_map_err ShipIo (rename entry destination)).

(** The default of [unwrap_or] is evaluated: the clock is read for every entry. *)
Definition cleanup_entry (cutoff : Z) (u : unit) (entry : Path) : IO io_error unit :=
  let! md := fs_metadata entry in
  let! _now := system_time_now in
  if (md_modified md <? cutoff)%Z then remove_dir_all entry else io_ret tt.

Definition cleanup_sent (sent : Path) (retention_days : Z) : IO io_error unit :=
  let! now := system_time_now in
  let cutoff := sent_cutoff now retention_days in
  let! entries := pending_entries sent in
  io_fold (cleanup_entry cutoff) tt entries.

Definition read_stored_upload_config (entry : Path) : IO ShipError (option StoredUploadConfig) :=
  let path := join entry "sdk-config.json" in
  let! exists_ := path_exists path in
  if (exists_ : bool) then
    let! b := io_map_err ShipIo (fs_read path) in
    let! c := io_lift (map_err ShipJson (let? v := json_parse b in de_StoredUploadConfig v)) in
    io_ret (Some c)
  else io_ret None.

Definition resolve_stored_endpoint (entry : Path) : IO ShipError (Url * Z) :=
  let! stored := read_stored_upload_config entry in
  let! config := io_lift (ok_or stored (MissingStoredConfig entry)) in
  let! endpoint := io_lift (ok_or (url_parse (suc_endpoint config)) (MissingStoredConfig entry)) in
  io_ret (endpoint, suc_sent_retention_days config).

(** ** Runs *)

(** Taking the lock and preparing the two directories. *)
Definition open_spool (spool_dir : Path) : IO io_error (Path * Path) :=
  SpoolLock_acquire spool_dir;;!
  let pending := join spool_dir "pending" in
  let sent := join spool_dir "sent" in
  create_dir_all pending;;!
  create_dir_all sent;;!
  io_ret (pending, sent).

Definition ship_pending_with_client (spool_dir : Path) (endpoint : Url) (token : string) (config : ShipConfig)
  : Ship Z :=
  let! (pending, sent) := ship_io (io_map_err ShipIo (open_spool spool_dir)) in
  ship_io (io_map_err ShipIo (cleanup_sent sent DEFAULT_SENT_RETENTION_DAYS));;!
  let! entries := ship_io (io_map_err ShipIo (pending_entries pending)) in
  io_fold (fun shipped entry =>
    ship_one entry sent endpoint token config;;! io_ret (shipped + 1)%Z) 0%Z entries.

Definition ship_stored_with_client (spool_dir : Path) (token : string) (config : ShipConfig) : Ship Z :=
  let! (pending, sent) := ship_io (io_map_err ShipIo (open_spool spool_dir)) in
  let! entries := ship_io (io_map_err ShipIo (pending_entries pending)) in
  let! (shipped, max_retention_days) :=
    io_fold (fun acc entry =>
      let! (endpoint, retention_days) := ship_io (resolve_stored_endpoint entry) in
      ship_one entry sent endpoint token config;;!
      io_ret ((acc.1 + 1)%Z, record_retention acc.2 retention_days)) (0%Z, None) entries in
  ship_io (io_map_err ShipIo (cleanup_sent sent (retention_or_default max_retention_days)));;!
  io_ret shipped.

Definition ship_pending (s : CrashShipper) (spool_dir : Path) (endpoint : Url) : Ship Z :=
  ship_pending_with_client spool_dir endpoint (cs_token s) (cs_config s).

Definition ship_using_stored_config (s : CrashShipper) (spool_dir : Path) : Ship Z :=
  ship_stored_with_client spool_dir (cs_token s) (cs_config s).

Definition ship_pending_crashes_with_config (built : Result unit string) (spool_dir : Path) (endpoint : Url)
    (token : string) (config : ShipConfig) : Ship Z :=
  let! s := io_lift (CrashShipper_new built token) in
  ship_pending (with_config s config) spool_dir endpoint.

Definition ship_pending_crashes (built : Result unit string) (spool_dir : Path) (endpoint : Url)
    (token : string) : Ship Z :=
  ship_pending_crashes_with_config built spool_dir endpoint token ShipConfig_default.

Definition ship_pending_crashes_using_stored_config_with_config (built : Result unit string)
    (spool_dir : Path) (token : string) (config : ShipConfig) : Ship Z :=
  let! s := io_lift (CrashShipper_new built token) in
  ship_using_stored_config (with_config s config) spool_dir.

Definition ship_pending_crashes_using_stored_config (built : Result unit string) (spool_dir : Path)
    (token : string) : Ship Z :=
  ship_pending_crashes_using_stored_config_with_config built spool_dir token ShipConfig_default.
End Shipper.
