(* ===== verification/ClientInstances.v ===== *)
(** * Concrete instances of the client's interfaces, and a sample spool *)

From Stdlib Require Import Ascii Eqdep_dec.
From S2P Require Import Prelude RustStd Fs FsDir External Instances Json Protocol Rfc7578 Multipart Compression Spool PanicHook Shipper.

(** ** url: a URL is any text *)

Definition toy_url : Type := { s : string | utf8_valid (as_bytes s) = true }.

Definition toy_url_parse (s : string) : option toy_url :=
  match decide (utf8_valid (as_bytes s) = true) with left H => Some (s ↾ H) | right _ => None end.

#[export] Instance ToyUrl : UrlApi := {
  Url := toy_url;
  url_parse := toy_url_parse;
  url_to_string u := `u;
  url_path u := `u;
  url_join u s := toy_url_parse (`u +:+ s)
}.

#[export] Instance ToyUrlLaws : UrlLaws ToyUrl.
Proof.
  split; cbn.
  - intros [s Hs]. unfold toy_url_parse. cbn. destruct (decide _) as [H|]; [|done].
    do 2 f_equal. apply (UIP_dec bool_dec).
  - by intros [s Hs].
Defined.

(** ** Headers, archives, peers *)

#[export] Instance ToyHeader : HeaderApi := { header_from_str s := Some (as_bytes s) }.

#[export] Instance ToyTar : TarApi := {
  tar_set_path _ := Ok tt;
  tar_gz l := Ok (concat (te_data <$> l))
}.

(** A peer that accepts the first [n] requests and refuses the others. *)
Definition accept_n (n : nat) : HttpOutcome * nat :=
  match n with O => (Responded 503 [], O) | S n' => (Responded 201 [Ok (as_bytes "{}")], n') end.

#[export] Instance CountingPeer : HttpPeer nat := { http_send _ n := accept_n n }.

(** A peer that accepts everything. *)
#[export] Instance EagerPeer : HttpPeer unit := { http_send _ _ := (Responded 201 [Ok (as_bytes "{}")], tt) }.

(** ** A spool with two entries *)

Definition sample_endpoint : @Url ToyUrl := ("http://host" ↾ eq_refl : toy_url).

Definition spooled_metadata : CrashMetadata ToyUuid ToyChrono := {|
  schema_version := 1;
  md_source := {| src_project := "app"; src_platform := "linux"; src_version := "1.0"; src_install_id := nil_uuid |};
  timestamp := 7%nat; md_kind := PanicTarball;
  build := {| git_sha := "abc"; profile := "dev"; target_triple := "x86_64" |};
  panic_text := Some "boom"; context := Null;
  md_attachments := [{| am_key := "note"; am_filename := Some "note.txt"; am_content_type := "text/plain"; am_len := 2 |}] |}.

Definition spooled_entry (e : Path) : list (Path * Node) :=
  [(e, Dir); (e ++ ["metadata.json"], File (metadata_to_vec_pretty spooled_metadata) 5);
   (e ++ ["dump.bin"], File (as_bytes "core") 5); (e ++ ["note.txt"], File (as_bytes "hi") 5);
   (e ++ ["sdk-config.json"],
    File (json_print_pretty (ser_StoredUploadConfig {| suc_endpoint := "http://host"; suc_sent_retention_days := 3 |})) 5)].

Definition spool_fs : gmap Path Node := list_to_map (
  [(["/"], Dir); (["/"; "s"], Dir); (["/"; "s"; "pending"], Dir); (["/"; "s"; "sent"], Dir);
   (["/"; "s"; "sent"; "old"], Dir); (["/"; "s"; "sent"; "old"; "dump.bin"], File [] 1)]
  ++ spooled_entry ["/"; "s"; "pending"; "a"] ++ spooled_entry ["/"; "s"; "pending"; "b"]).

Definition spool_world (faults : list (option Fault)) : World :=
  {| w_fs := spool_fs; w_now := 100; w_clock := [200%Z]; w_faults := faults; w_uuids := 0; w_dir_mtime := fun _ => 50%Z |}.

Definition spooled_envelope : CrashEnvelope ToyUuid ToyChrono :=
  {| ce_metadata := spooled_metadata; ce_dump := as_bytes "core";
     ce_attachments := [{| ca_key := "note"; ca_content_type := "text/plain"; ca_bytes := as_bytes "hi" |}] |}.

