(* ===== verification/ShipSafety.v ===== *)
(** * The shipper keeps every crash: pending, or sent after an accepted upload

    The world's fault schedule and the peer are arbitrary. *)

From Stdlib Require Import Ascii.
From S2P Require Import Prelude RustStd Fs FsDir External Instances Json Protocol Rfc7578 Multipart Compression Spool PanicHook Shipper ClientInstances.

(** [q] lies strictly below [p]. *)
Definition below (p q : Path) : Prop := exists x r, q = p ++ x :: r.

(** Nothing in [S] changes. *)
Definition same_on (S : Path -> Prop) (fs fs' : gmap Path Node) : Prop := forall q, S q -> fs' !! q = fs !! q.

#[export] Instance same_on_preorder S : PreOrder (same_on S).
Proof. split; [by intros fs q|]. intros f g h H1 H2 q Hq. by rewrite H2, H1. Qed.

(** Names of a real file system: no component but the root holds a slash. *)
Definition named (fs : gmap Path Node) : Prop :=
  forall q s, is_Some (fs !! q) -> last q = Some s -> s = "/" \/ (normal_component s = true /\ s <> "..").

Lemma below_child p s q : below (p ++ [s]) q -> below p q.
Proof. intros (x & r & ->). exists s, (x :: r). by rewrite <- app_assoc. Qed.

Lemma not_below_prefix p q x : below p q -> q `prefix_of` p ++ [x] -> q = p ++ [x].
Proof.
  intros (y & r & ->) [k Hk]. rewrite <- app_assoc in Hk. apply app_inv_head in Hk.
  injection Hk as -> Hr. symmetry in Hr. by apply app_nil in Hr as [-> _].
Qed.

(** Siblings' trees are apart. *)
Lemma siblings_apart p s t (q : Path) : s <> t -> p ++ [s] `prefix_of` q -> ~ p ++ [t] `prefix_of` q.
Proof.
  intros Hst [r ->] [r' H]. rewrite <- !app_assoc in H. apply app_inv_head in H. by injection H.
Qed.

Lemma below_prefix_of p q : below p q -> p `prefix_of` q.
Proof. intros (x & r & ->). by apply prefix_app_r. Qed.

Lemma prefix_not_child p s (q : Path) : p ++ [s] `prefix_of` q -> ~ q `prefix_of` p.
Proof.
  intros H1%prefix_length H2%prefix_length. rewrite length_app in H1. cbn in H1. lia.
Qed.

(** ** Calls that leave a part of the file system alone *)

(** Opening for appending creates the file when it is missing, and nothing else. *)
Lemma wp_open_append p (Q : Result unit io_error -> World -> Prop) w :
  (forall r w', same_env w w' -> (forall q, q <> p \/ is_Some (w_fs w !! q) -> w_fs w' !! q = w_fs w !! q) -> Q r w') ->
  wp (open_append p) Q w.
Proof.
  intros HQ. apply wp_syscall.
  - intros msg n w' _ Hfs Henv. apply HQ; [done|]. intros q _. by rewrite Hfs.
  - intros w1 Hfs Henv _. rewrite Hfs. unfold is_dir, is_file.
    destruct (w_fs w !! p) as [[]|] eqn:Ep; [by apply HQ|by apply HQ|].
    destruct (parent_is_dir _ _); [|by apply HQ]. apply HQ; [done|]. intros q Hq. cbn.
    rewrite lookup_insert_ne; [done|]. intros <-. destruct Hq as [?|[x Hx]]; congruence.
Qed.

Lemma wp_open_spool dir (Q : Result (Path * Path) io_error -> World -> Prop) w :
  (forall r w', w_now w' = w_now w -> w_clock w' = w_clock w ->
     same_on (below (dir ++ ["pending"])) (w_fs w) (w_fs w') ->
     (forall ps, r = Ok ps -> ps = (dir ++ ["pending"], dir ++ ["sent"])) -> Q r w') ->
  wp (open_spool dir) Q w.
Proof.
  intros HQ. unfold open_spool, SpoolLock_acquire, ensure_dir, open_lock, lock_exclusive.
  rewrite (join_normal dir ".lock"), (join_normal dir "pending"), (join_normal dir "sent") by done.
  set (S := below (dir ++ ["pending"])).
  assert (forall q, S q -> ~ q `prefix_of` dir ++ ["pending"]) as Hp.
  { intros q (x & r & ->) H%prefix_length. rewrite length_app in H. cbn in H. lia. }
  assert (forall q t, S q -> dir ++ [t] = q -> False) as Ht.
  { intros q t (x & r & ->) H. apply (f_equal length) in H. rewrite !length_app in H. cbn in H. lia. }
  assert (forall q t, S q -> ~ q `prefix_of` dir ++ [t]) as Hpt.
  { intros q t HS Hq. apply (Ht q t HS). symmetry. apply not_below_prefix; [by apply below_child in HS|done]. }
  assert (forall q, S q -> ~ q `prefix_of` dir) as Hd.
  { intros q HS Hq. apply (Hpt q "pending" HS). by apply prefix_app_r. }
  apply wp_bind, wp_bind, wp_create_dir_all. intros r1 w1 (Hn1 & Hc1 & _) _ H1 _.
  assert (same_on S (w_fs w) (w_fs w1)) as G1 by (intros q Hq; apply H1; auto).
  destruct r1 as [[]|e]; [|by apply HQ].
  apply wp_bind, wp_open_append. intros r2 w2 (Hn2 & Hc2 & _) H2.
  assert (same_on S (w_fs w) (w_fs w2)) as G2.
  { rewrite G1. intros q Hq. apply H2. left. intros ->. by eapply Ht. }
  destruct r2 as [[]|e]; [|apply HQ; [congruence|congruence|done|done]].
  apply wp_syscall; [intros msg n w3 _ Hfs (Hn3 & Hc3 & _); apply HQ; [congruence|congruence| |done]; intros q Hq; rewrite Hfs; by apply G2|].
  intros w3 Hfs3 (Hn3 & Hc3 & _) _. cbn [fst snd].
  apply wp_bind, wp_create_dir_all. intros r4 w4 (Hn4 & Hc4 & _) _ H4 _. cbn [w_fs with_fs w_now w_clock] in *.
  assert (same_on S (w_fs w) (w_fs w4)) as G4.
  { intros q Hq. rewrite H4, Hfs3 by auto. by apply G2. }
  destruct r4 as [[]|e]; [|apply HQ; [congruence|congruence|done|done]].
  apply wp_bind, wp_create_dir_all. intros r5 w5 (Hn5 & Hc5 & _) _ H5 _.
  assert (same_on S (w_fs w) (w_fs w5)) as G5.
  { intros q Hq. rewrite H5 by auto. by apply G4. }
  destruct r5 as [[]|e]; [|apply HQ; [congruence|congruence|done|done]].
  apply wp_ret, HQ; [congruence|congruence|done|]. by intros ps [= <-].
Qed.

Lemma sublist_NoDup {A} (l k : list A) : l `sublist_of` k -> NoDup k -> NoDup l.
Proof.
  induction 1 as [|x l k Hlk IH|x l k Hlk IH]; [done| |].
  - intros [Hx Hk]%NoDup_cons. apply NoDup_cons. split; [|auto]. intros Hin. apply Hx. by eapply elem_of_sublist.
  - intros [_ Hk]%NoDup_cons. auto.
Qed.

(** Listing changes nothing and gives directories below the one listed. *)
Lemma wp_pending_entries `{OS : Os} p (Q : Result (list Path) io_error -> World -> Prop) w :
  (forall l w', w_fs w' = w_fs w -> same_env w w' -> NoDup l ->
     (forall e, e ∈ l -> parent e = Some p /\ w_fs w !! e = Some Dir) -> Q (Ok l) w') ->
  (forall e w', w_fs w' = w_fs w -> same_env w w' -> Q (Err e) w') ->
  wp (pending_entries p) Q w.
Proof.
  intros HO HE.
  assert (forall w1 e, w_fs w1 = w_fs w -> same_env w w1 -> wp (let! entries :=
    (if decide (kind e = NotFound) then io_ret [] else io_err e) in io_ret (sort_paths entries)) Q w1) as Herr.
  { intros w1 e Hfs Henv. apply wp_bind. case_decide; [|by apply wp_err, HE].
    apply wp_ret, wp_ret, HO; [done|done|apply NoDup_nil_2|]. by intros x ?%elem_of_nil. }
  apply wp_bind, wp_try, wp_syscall; [intros msg n w1 _ Hfs Henv; by apply Herr|].
  intros w1 Hfs Henv _. rewrite Hfs. destruct (w_fs w !! p) as [[c t|]|] eqn:Ep; cbn [fst snd fail_kind];
    [by apply Herr| |by apply Herr].
  apply wp_bind. apply (wp_collect_entries _ (fun q => w_fs w !! q = Some Dir)).
  - intros q Q' w2 Hw2 HQ'. apply wp_path_is_dir. intros b w3 He Hw3 Hb. apply HQ'; [done|congruence|].
    intros Hb'. rewrite <- (Hb Hb'), Hw2. done.
  - intros l w2 He2 Hw2 Hl HF. cbn [w_fs with_fs] in Hw2. apply wp_ret, HO; [done| | |].
    + etransitivity; [exact Henv|]. exact He2.
    + rewrite sort_paths_perm. eapply sublist_NoDup; [done|]. rewrite dir_order_perm. apply children_NoDup.
    + intros e He. rewrite sort_paths_perm in He. split; [|by eapply Forall_forall in HF].
      eapply elem_of_sublist in He; [|done]. rewrite dir_order_perm in He. by apply elem_of_children in He as [? _].
Qed.

(** ** Cleaning up *)

(** Entries of [p] older than [cutoff]. *)
Definition expired (w : World) (p : Path) (cutoff : Z) (e : Path) : Prop :=
  parent e = Some p /\ w_fs w !! e = Some Dir /\ (w_dir_mtime w e < cutoff)%Z.

Lemma wp_cleanup_entry cutoff e (Q : Result unit io_error -> World -> Prop) w :
  w_fs w !! e = Some Dir \/ w_fs w !! e = None ->
  (forall r w', w_dir_mtime w' = w_dir_mtime w ->
     w_fs w' = w_fs w \/ ((w_dir_mtime w e < cutoff)%Z /\ thinned e (w_fs w) (w_fs w')) -> Q r w') ->
  wp (cleanup_entry cutoff tt e) Q w.
Proof.
  intros He HQ. apply wp_bind, wp_syscall.
  { intros msg n w1 _ Hfs (_ & _ & _ & Hm). apply HQ; [done|by left]. }
  intros w1 Hfs (_ & _ & _ & Hm) _. rewrite Hfs.
  destruct He as [-> | ->]; cbn [fst snd fail_kind]; [|apply HQ; [done|by left]].
  apply wp_bind, wp_system_time_now. intros t w2 Hfs2 _ _ Hm2 _. cbn [w_fs with_fs w_dir_mtime md_modified] in *.
  destruct (Z.ltb_spec (w_dir_mtime w1 e) cutoff) as [Hlt|_]; [|apply wp_ret, HQ; [congruence|by left]].
  apply wp_remove_dir_all. intros r w3 (_ & _ & _ & Hm3) Hth _. rewrite Hfs2 in Hth.
  apply HQ; [congruence|right]. split; [congruence|done].
Qed.

(** Whatever fails, only trees of expired entries lose anything. *)
Definition cleaned (w : World) (p : Path) (cutoff : Z) (fs : gmap Path Node) : Prop :=
  forall q, fs !! q = w_fs w !! q \/ fs !! q = None /\ exists e, expired w p cutoff e /\ e `prefix_of` q.

Lemma system_time_now_times {E} (w : World) : exists now w',
  @system_time_now E w = (Ok now, w') /\ now ∈ times w /\ w_fs w' = w_fs w /\ w_dir_mtime w' = w_dir_mtime w.
Proof.
  unfold system_time_now, times. destruct (w_clock w) as [|t ts]; do 2 eexists; split_and!; try done.
  - by left.
  - right. by left.
Qed.

Lemma wp_cleanup_sent `{OS : Os} p days (Q : Result unit io_error -> World -> Prop) w :
  (forall r w' now, now ∈ times w -> cleaned w p (sent_cutoff now days) (w_fs w') -> Q r w') ->
  wp (cleanup_sent p days) Q w.
Proof.
  intros HQ. apply wp_bind. unfold wp at 1.
  destruct (@system_time_now_times io_error w) as (now & w0 & -> & Hnow & Hfs0 & Hm0).
  cbn [fst snd]. set (cut := sent_cutoff now days).
  apply wp_bind, wp_pending_entries.
  2: { intros e w1 Hfs1 _. apply (HQ _ _ now); [done|]. intros q. left. congruence. }
  intros l w1 Hfs1 (_ & _ & _ & Hm1) _ Hl. rewrite Hfs0 in Hl.
  set (I := fun (_ : unit) (xs : list Path) (w' : World) => w_dir_mtime w' = w_dir_mtime w /\
        cleaned w p cut (w_fs w') /\ forall e, e ∈ xs -> parent e = Some p /\ w_fs w !! e = Some Dir).
  apply (wp_fold _ I).
  - intros [] e xs w2 (Hm2 & HR & Hxs). destruct (Hxs e (list_elem_of_here _ _)) as [Hpe Hde].
    apply wp_cleanup_entry.
    { destruct (HR e) as [->|[-> _]]; auto. }
    intros r w3 Hm3 Hfs3.
    assert (cleaned w p cut (w_fs w3)) as HR3.
    { destruct Hfs3 as [->|[Hlt Hth]]; [done|]. intros q. destruct (Hth q) as [->|[Hpre Hnone]]; [apply HR|].
      right. split; [done|]. exists e. split; [|done]. split_and!; [done|done|congruence]. }
    destruct r as [[]|x]; [|by apply (HQ _ _ now)].
    split_and!; [congruence|done|]. intros e' He'. apply Hxs. by right.
  - intros [] w' (_ & HR & _). by apply (HQ _ _ now).
  - split_and!; [congruence| |done]. intros q. left. congruence.
Qed.

Section ShipSafety.
Context {U : UuidApi} {C : ChronoApi} {J : JsonText} {UR : UrlApi} {ZS : ZstdApi} {HA : HeaderApi} {OS : Os}
  {N : Type} {HP : HttpPeer N}.

Lemma wp_ship_io {E A} (m : IO E A) (Q : Result A E -> World * @Net UR N -> Prop) wn :
  wp m (fun r w' => Q r (w', wn.2)) wn.1 -> wp (ship_io m) Q wn.
Proof. unfold wp, ship_io. by destruct (m wn.1). Qed.

Lemma wp_send {E} rq (Q : Result HttpOutcome E -> World * Net -> Prop) wn :
  (forall o n', net_log n' = net_log wn.2 ++ [(rq, o)] -> Q (Ok o) (wn.1, n')) -> wp (send rq) Q wn.
Proof. intros HQ. unfold wp, send. destruct (http_send _ _) as [o peer]. by apply HQ. Qed.

(** ** One entry *)

Definition attachment_of (fs : gmap Path Node) (mp : AttachmentManifest * Path) (a : CrashAttachment) : Prop :=
  ca_key a = am_key mp.1 /\ ca_content_type a = am_content_type mp.1 /\
  exists t, fs !! mp.2 = Some (File (ca_bytes a) t).

(** The files of [entry] hold the envelope [e]. *)
Definition envelope_at (fs : gmap Path Node) (entry : Path) (e : CrashEnvelope U C) : Prop :=
  (exists c t, fs !! (entry ++ ["metadata.json"]) = Some (File c t) /\ metadata_from_slice c = Ok (ce_metadata e)) /\
  (exists t, fs !! (entry ++ ["dump.bin"]) = Some (File (ce_dump e) t)) /\
  Forall2 (attachment_of fs) (stored_attachments entry (ce_metadata e)) (ce_attachments e).

(** [rq] is the upload of [e]. *)
Definition upload_of (endpoint : Url) (token : string) (config : ShipConfig) (e : CrashEnvelope U C)
    (rq : HttpPost) : Prop :=
  hp_url rq = crash_url endpoint /\
  header_from_str ("Bearer " +:+ token) = Some (hp_authorization rq) /\
  hp_content_type rq = "multipart/form-data; boundary=" +:+ DEFAULT_BOUNDARY /\
  exists compressed encodings, compress_envelope config e = Ok (compressed, encodings) /\
    write_to_with_boundary_and_encodings compressed DEFAULT_BOUNDARY encodings [] = (Ok tt, hp_body rq).

(** A response the client takes as acceptance. *)
Definition accepted (o : HttpOutcome) : Prop :=
  exists status chunks, o = Responded status chunks /\ is_success status = true.

(** The requests of an entry that failed: none, or one that meant to be [T]. *)
Definition attempt (T : HttpPost -> Prop) (extra : list (HttpPost * HttpOutcome)) : Prop :=
  extra = [] \/ exists x, extra = [x] /\ T x.1.

Lemma attempt_mono (T T' : HttpPost -> Prop) extra : (forall rq, T rq -> T' rq) -> attempt T extra -> attempt T' extra.
Proof. intros HT [->|(x & -> & Hx)]; [by left|]. right. exists x. auto. Qed.

Lemma wp_read_envelope entry (Q : Result (CrashEnvelope U C) ShipError -> World -> Prop) w :
  (forall e w', same_env w w' -> w_fs w' = w_fs w -> envelope_at (w_fs w) entry e -> Q (Ok e) w') ->
  (forall x w', same_env w w' -> w_fs w' = w_fs w -> Q (Err x) w') ->
  wp (read_envelope entry) Q w.
Proof.
  intros HO HE. unfold read_envelope.
  rewrite (join_normal entry "metadata.json"), (join_normal entry "dump.bin") by done.
  apply wp_bind, wp_map_err, wp_fs_read; [|by intros; apply HE].
  intros c t w1 Hc He1 Hw1. apply wp_bind, wp_lift.
  destruct (metadata_from_slice c) as [md|x] eqn:Emd; cbn [map_err]; [|by apply HE].
  apply wp_bind, wp_map_err, wp_fs_read; [|intros x w2 He2 Hw2; apply HE; [by etransitivity|congruence]].
  intros d td w2 Hd He2 Hw2. cbn [map_err]. rewrite Hw1 in Hd, Hw2.
  apply wp_bind, wp_map_err.
  set (l := stored_attachments entry md).
  apply (wp_fold _ (fun acc xs w' => same_env w w' /\ w_fs w' = w_fs w /\
    exists done, l = done ++ xs /\ Forall2 (attachment_of (w_fs w)) done acc)).
  - intros acc mp xs w3 (He3 & Hw3 & done & Hl & HF). apply wp_bind, wp_fs_read.
    + intros b t' w4 Hb He4 Hw4. apply wp_ret. split_and!; [by etransitivity|congruence|].
      exists (done ++ [mp]). split; [by rewrite <- app_assoc|]. apply Forall2_app; [done|].
      apply Forall2_cons. split; [|by apply Forall2_nil]. split_and!; [done|done|]. exists t'. cbn [ca_bytes]. congruence.
    + intros x w4 He4 Hw4. apply HE; [by etransitivity|congruence].
  - intros acc w3 (He3 & Hw3 & done & Hl & HF). cbn [map_err]. apply wp_ret, HO; [done|done|].
    rewrite app_nil_r in Hl. subst done. split_and!; [by exists c, t|by exists td|done].
  - split_and!; [by etransitivity|done|]. by exists [].
Qed.

Lemma wp_post_envelope endpoint token e config (Q : Result unit ShipError -> World * Net -> Prop) wn :
  (forall rq o n', upload_of endpoint token config e rq -> accepted o -> 
     net_log n' = net_log wn.2 ++ [(rq, o)] -> Q (Ok tt) (wn.1, n')) ->
  (forall x n' extra, net_log n' = net_log wn.2 ++ extra -> attempt (upload_of endpoint token config e) extra ->
     Q (Err x) (wn.1, n')) ->
  wp (post_envelope endpoint token e config) Q wn.
Proof.
  intros HO HE.
  assert (forall x, Q (Err x) wn) as HE0.
  { intros x. destruct wn as [w n]. apply (HE x n []); [by rewrite app_nil_r|by left]. }
  apply wp_bind, wp_lift. destruct (compress_envelope config e) as [[ce encs]|x] eqn:Ec; [|by apply HE0].
  cbn [map_err]. apply wp_bind, wp_lift.
  destruct (write_to_with_boundary_and_encodings ce DEFAULT_BOUNDARY encs []) as [[[]|x] body] eqn:Eb; [|by apply HE0].
  apply wp_bind, wp_lift. destruct (header_from_str _) as [auth|] eqn:Ea; cbn [ok_or]; [|by apply HE0].
  apply wp_bind, wp_send. intros o n' Hlog. set (rq := Build_HttpPost _ _ _ _ _) in Hlog.
  assert (upload_of endpoint token config e rq) as Hup by (split_and!; [done|done|done|]; by exists ce, encs).
  assert (forall x, Q (Err x) (wn.1, n')) as HE1.
  { intros x. eapply HE; [done|]. right. by eexists. }
  destruct o as [x|status chunks]; [apply wp_err, HE1|].
  destruct (is_success status) eqn:Es; [|apply wp_err, HE1].
  apply wp_lift. destruct (drain_body chunks) as [[]|x]; cbn [map_err]; [|apply HE1].
  eapply HO; [done|by exists status, chunks|done].
Qed.

(** What [ship_one] does to the tree at [entry], and to nothing else. *)
Definition moved_to (entry dst : Path) (fs fs' : gmap Path Node) : Prop :=
  forall q, fs' !! q = match path_strip_prefix dst q with
                       | Some rel => fs !! (entry ++ rel)
                       | None => if decide (entry `prefix_of` q) then None else fs !! q
                       end.

(** An upload of what [entry] held. *)
Definition uploaded (fs : gmap Path Node) (token : string) (config : ShipConfig) (endpoint : Url)
    (entry : Path) (rq : HttpPost) : Prop :=
  exists e fs1, (forall rel, fs1 !! (entry ++ rel) = fs !! (entry ++ rel)) /\
    envelope_at fs1 entry e /\ upload_of endpoint token config e rq.

(** An accepted one. *)
Definition delivered (T : Path -> HttpPost -> Prop) (entry : Path) (x : HttpPost * HttpOutcome) : Prop :=
  T entry x.1 /\ accepted x.2.

Definition entry_name (s : string) : Prop := normal_component s = true /\ s <> "..".

Lemma entry_file_name p s : entry_name s -> file_name (p ++ [s]) = Some s.
Proof.
  intros [Hn Hdd]. apply file_name_snoc. unfold special_component.
  unfold normal_component in Hn. apply andb_true_iff in Hn as [[_ H2%negb_true_iff]%andb_true_iff H3%negb_true_iff].
  rewrite H2, orb_false_r. destruct (String.eqb_spec s "/") as [->|]; [done|].
  by destruct (String.eqb_spec s "..").
Qed.

Lemma moved_after_drop dir s fs fs1 fs2 :
  let entry := (dir ++ ["pending"]) ++ [s] in let dst := (dir ++ ["sent"]) ++ [s] in
  (forall q, ~ dst `prefix_of` q -> fs1 !! q = fs !! q) ->
  fs2 = move_tree entry dst fs1 -> moved_to entry dst fs fs2.
Proof.
  intros entry dst H1 -> q. rewrite move_tree_lookup. destruct (path_strip_prefix dst q) as [rel|] eqn:E.
  - apply H1. intros Hd. apply (siblings_apart dir "pending" "sent" (entry ++ rel)); [done| |].
    + unfold entry. rewrite <- !app_assoc. rewrite app_assoc. by apply prefix_app_r.
    + etransitivity; [|exact Hd]. by apply prefix_app_r.
  - case_decide; [done|]. apply H1. intros [k ->]. by rewrite path_strip_prefix_app in E.
Qed.

Lemma wp_ship_one dir s endpoint token config (Q : Result unit ShipError -> World * Net -> Prop) w n :
  let entry := (dir ++ ["pending"]) ++ [s] in let dst := (dir ++ ["sent"]) ++ [s] in
  entry_name s ->
  (forall x w' n', delivered (uploaded (w_fs w) token config endpoint) entry x -> net_log n' = net_log n ++ [x] ->
     moved_to entry dst (w_fs w) (w_fs w') -> Q (Ok tt) (w', n')) ->
  (forall err w' n' extra, net_log n' = net_log n ++ extra ->
     attempt (uploaded (w_fs w) token config endpoint entry) extra ->
     thinned dst (w_fs w) (w_fs w') -> Q (Err err) (w', n')) ->
  wp (ship_one entry (dir ++ ["sent"]) endpoint token config) Q (w, n).
Proof.
  intros entry dst Hs HO HE. apply wp_bind, wp_ship_io, wp_read_envelope.
  2: { intros x w' _ Hfs. apply (HE _ _ _ []); [by rewrite app_nil_r|by left|]. intros q. left. cbn in Hfs. congruence. }
  cbn [fst snd]. intros e w1 _ Hfs1 Hat.
  assert (forall rq, upload_of endpoint token config e rq -> uploaded (w_fs w) token config endpoint entry rq) as HU.
  { intros rq Hrq. by exists e, (w_fs w). }
  apply wp_bind, wp_post_envelope; cbn [fst snd].
  2: { intros x n' extra Hlog Hatt. apply (HE _ _ _ extra); [done|by eapply attempt_mono|]. intros q. left. congruence. }
  intros rq o n1 Hup Hacc Hlog. apply wp_bind, wp_lift. unfold entry at 1. rewrite entry_file_name by done. cbn [ok_or].
  rewrite (join_normal (dir ++ ["sent"])) by apply Hs. fold dst.
  assert (forall err w', thinned dst (w_fs w) (w_fs w') -> Q (Err err) (w', n1)) as HE'.
  { intros err w' Hth. eapply HE; [done|right; by exists (rq, o); auto|done]. }
  apply wp_bind, wp_ship_io, wp_path_exists. cbn [fst snd]. intros b w2 _ Hfs2 Hb.
  assert (forall w3, (forall q, ~ dst `prefix_of` q -> w_fs w3 !! q = w_fs w !! q) -> thinned dst (w_fs w) (w_fs w3) ->
    wp (ship_io (io_map_err ShipIo (rename entry dst))) Q (w3, n1)) as Hren.
  { intros w3 H3 Hth. apply wp_ship_io, wp_map_err, wp_rename; cbn [fst snd map_err].
    - intros w4 Hfs4 _ _ _ _. apply (HO (rq, o)); [|done|by eapply moved_after_drop].
      split; [by apply HU|done].
    - intros x w4 _ Hfs4. apply HE'. by rewrite Hfs4. }
  destruct b.
  - apply wp_bind, wp_ship_io, wp_map_err, wp_remove_dir_all. cbn [fst snd]. intros r w3 _ Hth Hok.
    rewrite Hfs2, Hfs1 in Hth, Hok. destruct r as [[]|x]; cbn [map_err]; [|by apply HE'].
    apply Hren; [|done]. intros q Hq. rewrite Hok, drop_tree_lookup, decide_False; done.
  - apply wp_bind, wp_ret, Hren; [|left]; intros; congruence.
Qed.

(** ** A run *)

(** Where a run stands: the entries [done] lie in [sent/] as they were in
    [pending/], all others in [pending/] as they were. *)
Definition placed (dir : Path) (fs0 : gmap Path Node) (done : list Path) (fs : gmap Path Node) : Prop :=
  forall s rel, if decide ((dir ++ ["pending"]) ++ [s] ∈ done)
                then fs !! (((dir ++ ["sent"]) ++ [s]) ++ rel) = fs0 !! (((dir ++ ["pending"]) ++ [s]) ++ rel) /\
                     fs !! (((dir ++ ["pending"]) ++ [s]) ++ rel) = None
                else fs !! (((dir ++ ["pending"]) ++ [s]) ++ rel) = fs0 !! (((dir ++ ["pending"]) ++ [s]) ++ rel).

(** And they were delivered, in this order. *)
Definition progress (T : Path -> HttpPost -> Prop) (dir : Path) (fs0 : gmap Path Node)
    (log0 : list (HttpPost * HttpOutcome)) (done : list Path) (fs : gmap Path Node)
    (log extra : list (HttpPost * HttpOutcome)) : Prop :=
  exists posts, log = log0 ++ posts ++ extra /\ Forall2 (delivered T) done posts /\ placed dir fs0 done fs.

Lemma app_strip p (q : Path) : ~ p `prefix_of` q -> path_strip_prefix p q = None.
Proof.
  intros H. destruct (path_strip_prefix p q) as [rel|] eqn:E; [|done].
  apply path_strip_prefix_Some in E as ->. exfalso. apply H. by apply prefix_app_r.
Qed.

Lemma child_apart p s t (rel : Path) : s <> t -> ~ p ++ [s] `prefix_of` (p ++ [t]) ++ rel.
Proof. intros Hst H. apply (siblings_apart p s t _ Hst H). by apply prefix_app_r. Qed.

Lemma grandchild_apart dir a b s t (rel : Path) : a <> b -> ~ (dir ++ [a]) ++ [s] `prefix_of` ((dir ++ [b]) ++ [t]) ++ rel.
Proof.
  intros Hab H. rewrite <- (app_assoc (dir ++ [b])) in H. apply (child_apart dir a b ([t] ++ rel) Hab).
  etransitivity; [|exact H]. by apply prefix_app_r.
Qed.

Lemma placed_step dir fs0 done fs s fs' :
  let entry := (dir ++ ["pending"]) ++ [s] in
  entry ∉ done -> placed dir fs0 done fs -> moved_to entry ((dir ++ ["sent"]) ++ [s]) fs fs' ->
  placed dir fs0 (done ++ [entry]) fs'.
Proof.
  intros entry Hnew Hst Hmv t rel. specialize (Hst t rel).
  destruct (decide (t = s)) as [->|Hts].
  - fold entry in Hst |- *. rewrite decide_False in Hst by done. rewrite decide_True by set_solver.
    rewrite !Hmv, path_strip_prefix_app, app_strip by (by apply grandchild_apart).
    rewrite decide_True by (by apply prefix_app_r). done.
  - assert ((dir ++ ["pending"]) ++ [t] ∈ done ++ [entry] <-> (dir ++ ["pending"]) ++ [t] ∈ done) as Hiff.
    { rewrite elem_of_app, list_elem_of_singleton. split; [|tauto]. intros [?|H]; [done|].
      unfold entry in H. apply app_inj_tail in H as [_ H]. done. }
    assert (forall a, fs' !! (((dir ++ [a]) ++ [t]) ++ rel) = fs !! (((dir ++ [a]) ++ [t]) ++ rel)) as Hsame.
    { intros a. assert (forall b, ~ (dir ++ [b]) ++ [s] `prefix_of` ((dir ++ [a]) ++ [t]) ++ rel) as Hap.
      { intros b. destruct (decide (a = b)) as [->|]; [apply child_apart|apply grandchild_apart]; congruence. }
      by rewrite Hmv, app_strip, decide_False by apply Hap. }
    rewrite !Hsame. case_decide as Hin; case_decide as Hin2; tauto.
Qed.

Lemma progress_step T dir fs0 log0 done fs log s fs' log' x :
  let entry := (dir ++ ["pending"]) ++ [s] in
  entry ∉ done -> progress T dir fs0 log0 done fs log [] -> delivered T entry x ->
  moved_to entry ((dir ++ ["sent"]) ++ [s]) fs fs' -> log' = log ++ [x] ->
  progress T dir fs0 log0 (done ++ [entry]) fs' log' [].
Proof.
  intros entry Hnew (posts & -> & HF & Hst) Hx Hmv ->. exists (posts ++ [x]).
  split_and!; [by rewrite !app_nil_r, app_assoc|apply Forall2_app; [done|]; apply Forall2_cons; split; [done|by apply Forall2_nil]|].
  by eapply placed_step.
Qed.

Lemma progress_thinned T dir fs0 log0 done fs log s fs' log' extra :
  (dir ++ ["pending"]) ++ [s] ∉ done -> progress T dir fs0 log0 done fs log [] ->
  thinned ((dir ++ ["sent"]) ++ [s]) fs fs' -> log' = log ++ extra ->
  progress T dir fs0 log0 done fs' log' extra.
Proof.
  intros Hnew (posts & -> & HF & Hst) Hth ->. exists posts. split_and!; [by rewrite app_nil_r, app_assoc|done|].
  intros t rel. specialize (Hst t rel).
  assert (fs' !! (((dir ++ ["pending"]) ++ [t]) ++ rel) = fs !! (((dir ++ ["pending"]) ++ [t]) ++ rel)) as ->.
  { destruct (Hth (((dir ++ ["pending"]) ++ [t]) ++ rel)) as [->|[H _]]; [done|]. exfalso. by apply grandchild_apart in H. }
  case_decide as Hin; [|done].
  destruct (Hth (((dir ++ ["sent"]) ++ [t]) ++ rel)) as [->|[H _]]; [done|]. exfalso.
  destruct (decide (t = s)) as [->|Hts]; [done|]. by eapply child_apart in H.
Qed.

(** The shipping loop, for any step that ships one entry. *)
Lemma wp_ship_loop {S} (f : S -> Path -> @Ship UR N S) (cnt : S -> Z) T dir l s0 w n
    (Q : Result S ShipError -> World * Net -> Prop) :
  NoDup l -> (forall e, e ∈ l -> exists s, e = (dir ++ ["pending"]) ++ [s] /\ entry_name s) ->
  (forall acc s w1 n1 (Q' : Result S ShipError -> World * Net -> Prop),
     let entry := (dir ++ ["pending"]) ++ [s] in
     entry_name s -> (forall rel, w_fs w1 !! (entry ++ rel) = w_fs w !! (entry ++ rel)) ->
     (forall acc' x w' n', cnt acc' = (cnt acc + 1)%Z -> delivered T entry x -> net_log n' = net_log n1 ++ [x] ->
        moved_to entry ((dir ++ ["sent"]) ++ [s]) (w_fs w1) (w_fs w') -> Q' (Ok acc') (w', n')) ->
     (forall err w' n' extra, net_log n' = net_log n1 ++ extra -> attempt (T entry) extra ->
        thinned ((dir ++ ["sent"]) ++ [s]) (w_fs w1) (w_fs w') -> Q' (Err err) (w', n')) ->
     wp (f acc entry) Q' (w1, n1)) ->
  (forall r w' n' done extra, done `prefix_of` l -> attempt (fun rq => exists e, e ∈ l /\ ~ e ∈ done /\ T e rq) extra ->
     progress T dir (w_fs w) (net_log n) done (w_fs w') (net_log n') extra ->
     (forall a, r = Ok a -> done = l /\ extra = [] /\ cnt a = (cnt s0 + Z.of_nat (length l))%Z) -> Q r (w', n')) ->
  wp (io_fold f s0 l) Q (w, n).
Proof.
  intros Hnd Hl Hf HQ.
  apply (wp_fold _ (fun a xs wn => exists done, l = done ++ xs /\ cnt a = (cnt s0 + Z.of_nat (length done))%Z /\
    progress T dir (w_fs w) (net_log n) done (w_fs wn.1) (net_log wn.2) [])).
  - intros a e xs [w1 n1] (done & Hdl & Hcnt & Hpr). cbn [fst snd] in *.
    destruct (Hl e) as (s & -> & Hs); [rewrite Hdl; set_solver|].
    assert ((dir ++ ["pending"]) ++ [s] ∉ done) as Hnew.
    { rewrite Hdl, NoDup_app in Hnd. intros Hin. destruct Hnd as (_ & H & _). eapply H; [done|by left]. }
    assert (forall rel, w_fs w1 !! (((dir ++ ["pending"]) ++ [s]) ++ rel) = w_fs w !! (((dir ++ ["pending"]) ++ [s]) ++ rel)) as Hsame.
    { intros rel. destruct Hpr as (_ & _ & _ & Hst). specialize (Hst s rel). by rewrite decide_False in Hst. }
    apply Hf; [done|done| |].
    + intros a' x w' n' Hc HD Hlog Hmv. exists (done ++ [(dir ++ ["pending"]) ++ [s]]).
      split_and!; [by rewrite <- app_assoc|rewrite length_app; cbn; lia|]. by eapply progress_step.
    + intros err w' n' extra Hlog Hatt Hth. eapply (HQ _ _ _ done extra); [rewrite Hdl; by apply prefix_app_r| | |done].
      * eapply attempt_mono; [|exact Hatt]. intros rq Hrq. eexists. split_and!; [|exact Hnew|exact Hrq]. rewrite Hdl. set_solver.
      * by eapply progress_thinned.
  - intros a [w' n'] (done & Hdl & Hcnt & Hpr). rewrite app_nil_r in Hdl. subst done. cbn [fst snd] in Hpr.
    apply (HQ _ _ _ l []); [done|by left|done|]. by intros a' [= <-].
  - exists []. split_and!; [done|cbn; lia|]. exists []. split_and!; [by rewrite !app_nil_r|by apply Forall2_nil|].
    intros s rel. rewrite decide_False by apply not_elem_of_nil. done.
Qed.

Lemma uploaded_same fs fs' token config endpoint entry rq :
  (forall rel, fs' !! (entry ++ rel) = fs !! (entry ++ rel)) ->
  uploaded fs' token config endpoint entry rq -> uploaded fs token config endpoint entry rq.
Proof. intros Hs (e & fs1 & H1 & H2). exists e, fs1. split; [|done]. intros rel. by rewrite H1. Qed.

Lemma progress_init T dir fs fs' log done fs2 log' extra :
  (forall s rel, fs' !! (((dir ++ ["pending"]) ++ [s]) ++ rel) = fs !! (((dir ++ ["pending"]) ++ [s]) ++ rel)) ->
  progress T dir fs' log done fs2 log' extra -> progress T dir fs log done fs2 log' extra.
Proof.
  intros Hs (posts & Hl & HF & Hst). exists posts. split_and!; [done|done|]. intros s rel.
  specialize (Hst s rel). by rewrite Hs in Hst.
Qed.

Lemma progress_nil T dir fs0 log0 fs :
  (forall s rel, fs !! (((dir ++ ["pending"]) ++ [s]) ++ rel) = fs0 !! (((dir ++ ["pending"]) ++ [s]) ++ rel)) ->
  progress T dir fs0 log0 [] fs log0 [].
Proof.
  intros Hs. exists []. split_and!; [by rewrite app_nil_r|by apply Forall2_nil|]. intros s rel.
  rewrite decide_False by apply not_elem_of_nil. apply Hs.
Qed.

Lemma below_pending dir s rel : below (dir ++ ["pending"]) (((dir ++ ["pending"]) ++ [s]) ++ rel).
Proof. exists s, rel. by rewrite <- app_assoc. Qed.

(** An entry of the spool. *)
Definition pending_in (dir : Path) (fs : gmap Path Node) (e : Path) : Prop :=
  parent e = Some (dir ++ ["pending"]) /\ fs !! e = Some Dir.

(** What a run leaves: [done] is what it delivered, [extra] the request of the
    entry it failed at, if it came to one. *)
Definition kept (T : Path -> HttpPost -> Prop) (dir : Path) (w : World) (n : @Net UR N)
    (r : Result Z ShipError) (w' : World) (n' : @Net UR N) : Prop :=
  exists done extra, NoDup done /\
    (forall e, e ∈ done -> pending_in dir (w_fs w) e) /\
    attempt (fun rq => exists e, pending_in dir (w_fs w) e /\ ~ e ∈ done /\ T e rq) extra /\
    progress T dir (w_fs w) (net_log n) done (w_fs w') (net_log n') extra /\
    (forall k, r = Ok k -> k = Z.of_nat (length done) /\ extra = []).

Lemma kept_early T dir w n e w' n' :
  same_on (below (dir ++ ["pending"])) (w_fs w) (w_fs w') -> net_log n' = net_log n -> kept T dir w n (Err e) w' n'.
Proof.
  intros Hs Hlog. exists [], []. split_and!; [apply NoDup_nil_2|by intros ? ?%elem_of_nil|by left| |done].
  rewrite Hlog. apply progress_nil. intros s rel. apply Hs, below_pending.
Qed.

Lemma cleaned_pending w dir cut fs : cleaned w (dir ++ ["sent"]) cut fs ->
  same_on (below (dir ++ ["pending"])) (w_fs w) fs.
Proof.
  intros Hc q (s & rel & ->). destruct (Hc ((dir ++ ["pending"]) ++ s :: rel)) as [->|(_ & e & (Hp & _) & Hpre)]; [done|].
  exfalso. apply parent_Some in Hp as (t & -> & _).
  assert (dir ++ ["sent"] `prefix_of` (dir ++ ["pending"]) ++ s :: rel) as H.
  { etransitivity; [|exact Hpre]. by apply prefix_app_r. }
  by apply child_apart in H.
Qed.

Lemma entries_named dir fs (l : list Path) : named fs ->
  (forall e, e ∈ l -> parent e = Some (dir ++ ["pending"]) /\ fs !! e = Some Dir) ->
  forall e, e ∈ l -> exists s, e = (dir ++ ["pending"]) ++ [s] /\ entry_name s.
Proof.
  intros Hnm Hl e [Hp Hd]%Hl. apply parent_Some in Hp as (s & -> & Hs). exists s. split; [done|].
  destruct (Hnm ((dir ++ ["pending"]) ++ [s]) s) as [?|?]; [by eexists|apply last_snoc|done|done].
Qed.

(** Listing the spool and shipping what is there. *)
Lemma wp_ship_entries {S} (f : S -> Path -> @Ship UR N S) (cnt : S -> Z) T dir s0 w n w2
    (Q : Result S ShipError -> World * Net -> Prop) :
  named (w_fs w) -> same_on (below (dir ++ ["pending"])) (w_fs w) (w_fs w2) -> cnt s0 = 0%Z ->
  (forall acc s w1 n1 (Q' : Result S ShipError -> World * Net -> Prop),
     let entry := (dir ++ ["pending"]) ++ [s] in
     entry_name s -> (forall rel, w_fs w1 !! (entry ++ rel) = w_fs w !! (entry ++ rel)) ->
     (forall acc' x w' n', cnt acc' = (cnt acc + 1)%Z -> delivered T entry x -> net_log n' = net_log n1 ++ [x] ->
        moved_to entry ((dir ++ ["sent"]) ++ [s]) (w_fs w1) (w_fs w') -> Q' (Ok acc') (w', n')) ->
     (forall err w' n' extra, net_log n' = net_log n1 ++ extra -> attempt (T entry) extra ->
        thinned ((dir ++ ["sent"]) ++ [s]) (w_fs w1) (w_fs w') -> Q' (Err err) (w', n')) ->
     wp (f acc entry) Q' (w1, n1)) ->
  (forall e w' n', kept T dir w n (Err e) w' n' -> Q (Err e) (w', n')) ->
  (forall a w' n', kept T dir w n (Ok (cnt a)) w' n' -> Q (Ok a) (w', n')) ->
  wp (let! entries := ship_io (io_map_err ShipIo (pending_entries (dir ++ ["pending"]))) in io_fold f s0 entries) Q (w2, n).
Proof.
  intros Hnm H12 Hs0 Hf HE HO.
  apply wp_bind, wp_ship_io, wp_map_err, wp_pending_entries; cbn [fst snd map_err].
  2: { intros x w3 Hfs _. apply HE, kept_early; [by rewrite Hfs|done]. }
  intros l w3 Hfs3 _ Hnd Hl. rewrite <- Hfs3 in H12, Hl. clear Hfs3.
  assert (forall e, e ∈ l -> parent e = Some (dir ++ ["pending"]) /\ w_fs w !! e = Some Dir) as Hl0.
  { intros e He. destruct (Hl e He) as [Hp Hd]. split; [done|]. rewrite <- Hd. symmetry. apply H12.
    apply parent_Some in Hp as (s & -> & _). exists s, []. done. }
  assert (forall s rel, w_fs w3 !! (((dir ++ ["pending"]) ++ [s]) ++ rel) = w_fs w !! (((dir ++ ["pending"]) ++ [s]) ++ rel))
    as Hsame by (intros; apply H12, below_pending).
  apply (wp_ship_loop _ cnt T dir); [done|by eapply entries_named| |].
  - intros acc s w4 n4 Q' entry Hs Hs4 HO' HE'. apply Hf; [done| |done|done]. intros rel. rewrite Hs4. apply Hsame.
  - intros r4 w4 n4 done extra Hpre Hatt Hpr Hok.
    assert (forall r, (forall a, r4 = Ok a -> r = Ok (cnt a)) -> (forall e, r4 = Err e -> r = Err e) -> kept T dir w n r w4 n4) as Hk.
    { intros r Hr Hr'. exists done, extra. destruct Hpre as [rest ->].
      split_and!; [by apply NoDup_app in Hnd as (? & _ & _)| | |by eapply progress_init|].
      - intros e He. apply Hl0. set_solver.
      - eapply attempt_mono; [|exact Hatt]. intros rq (e & He & Hnew & HT). exists e. split_and!; [by apply Hl0|done|done].
      - intros k ->. destruct r4 as [a|e]; [|by specialize (Hr' e eq_refl)].
        specialize (Hr a eq_refl). injection Hr as ->. destruct (Hok a eq_refl) as (Hd & -> & Hc).
        split; [|done]. rewrite <- Hd in Hc. lia. }
    destruct r4 as [a|e]; [apply HO, Hk|apply HE, Hk]; congruence.
Qed.

Lemma wp_ship_pending dir endpoint token config w n : named (w_fs w) ->
  wp (ship_pending_with_client dir endpoint token config)
    (fun r wn' => kept (uploaded (w_fs w) token config endpoint) dir w n r wn'.1 wn'.2) (w, n).
Proof.
  intros Hnm. apply wp_bind, wp_ship_io, wp_map_err, wp_open_spool. cbn [fst snd]. intros r1 w1 _ _ H1 Hps.
  destruct r1 as [ps|x]; cbn [map_err]; [|by apply kept_early]. rewrite (Hps ps eq_refl). clear ps Hps.
  apply wp_bind, wp_ship_io, wp_map_err, wp_cleanup_sent. cbn [fst snd]. intros r2 w2 now _ H2%cleaned_pending.
  assert (same_on (below (dir ++ ["pending"])) (w_fs w) (w_fs w2)) as H12 by (etransitivity; done).
  destruct r2 as [u|x]; cbn [map_err]; [|by apply kept_early].
  apply (wp_ship_entries _ (fun k => k) (uploaded (w_fs w) token config endpoint) dir 0%Z w); try done.
  intros acc s w4 n4 Q' entry Hs Hs4 HO HE. apply wp_bind, wp_ship_one; [done| |].
  - intros x w5 n5 [HD Hacc] Hlog Hmv. apply wp_ret, (HO _ x); [done| |done|done]. split; [by eapply uploaded_same|done].
  - intros err w5 n5 extra Hlog Hatt. apply (HE _ _ _ extra); [done|]. eapply attempt_mono; [|exact Hatt]. intros rq. by apply uploaded_same.
Qed.

(** C8. No crash is lost and none is dropped unsent: for every fault schedule and
    every peer, a run over an explicit endpoint leaves each pending entry either
    untouched in [pending/], or, after an upload of exactly what it held that the
    peer accepted, byte for byte in [sent/].  The uploads are in the order of the
    entries; at most one more request follows them, an upload of an entry that
    stays pending, and a run that returns a count has shipped that many. *)
Theorem ship_keeps_every_crash dir endpoint token config w n r w' n' :
  named (w_fs w) ->
  ship_pending_with_client dir endpoint token config (w, n) = (r, (w', n')) ->
  kept (uploaded (w_fs w) token config endpoint) dir w n r w' n'.
Proof. intros Hnm Hrun. exact (wp_run _ _ _ _ _ (wp_ship_pending dir endpoint token config w n Hnm) Hrun). Qed.

(** ** Runs over stored endpoints *)

(** The entry's stored configuration names [endpoint] and [days]. *)
Definition stored_at (fs : gmap Path Node) (entry : Path) (endpoint : Url) (days : Z) : Prop :=
  exists c t v cfg, fs !! (entry ++ ["sdk-config.json"]) = Some (File c t) /\ json_parse c = Ok v /\
    de_StoredUploadConfig v = Ok cfg /\ url_parse (suc_endpoint cfg) = Some endpoint /\
    suc_sent_retention_days cfg = days.

Definition uploaded_stored (fs : gmap Path Node) (token : string) (config : ShipConfig)
    (entry : Path) (rq : HttpPost) : Prop :=
  exists endpoint days, stored_at fs entry endpoint days /\ uploaded fs token config endpoint entry rq.

Lemma wp_resolve_stored_endpoint entry (Q : Result (Url * Z) ShipError -> World -> Prop) w :
  (forall endpoint days w', w_fs w' = w_fs w -> stored_at (w_fs w) entry endpoint days -> Q (Ok (endpoint, days)) w') ->
  (forall e w', w_fs w' = w_fs w -> Q (Err e) w') ->
  wp (resolve_stored_endpoint entry) Q w.
Proof.
  intros HO HE. unfold resolve_stored_endpoint, read_stored_upload_config. rewrite join_normal by done.
  apply wp_bind, wp_bind, wp_path_exists. intros b w1 _ Hfs1 _. destruct b; [|by apply wp_ret, wp_bind, wp_lift, HE].
  apply wp_bind, wp_map_err, wp_fs_read; [|intros x w2 _ Hfs2; apply HE; congruence].
  intros c t w2 Hc _ Hfs2. cbn [map_err]. apply wp_bind, wp_lift.
  destruct (json_parse c) as [v|x] eqn:Ev; cbn [map_err]; [|apply HE; congruence].
  destruct (de_StoredUploadConfig v) as [cfg|x] eqn:Ed; cbn [map_err]; [|apply HE; congruence].
  apply wp_ret, wp_bind, wp_lift. cbn [ok_or]. apply wp_bind, wp_lift.
  destruct (url_parse (suc_endpoint cfg)) as [endpoint|] eqn:Eu; cbn [ok_or]; [|apply HE; congruence].
  apply wp_ret, HO; [congruence|]. exists c, t, v, cfg. split_and!; congruence.
Qed.

Lemma wp_bind_assoc {W E A B D} (m : ST W E A) (k : A -> ST W E B) (h : B -> ST W E D) (Q : Result D E -> W -> Prop) w :
  wp (let! x := m in k x) (fun r w' => match r with Ok b => wp (h b) Q w' | Err e => Q (Err e) w' end) w ->
  wp (let! x := m in let! y := k x in h y) Q w.
Proof. unfold wp, io_bind. destruct (m w) as [[a|e] w1]; [|done]. by destruct (k a w1) as [[b|e] w2]. Qed.

(** The same for a run over stored endpoints: up to its final clean-up it
    keeps every entry, each delivered to the endpoint its own configuration
    names; the clean-up removes expired trees of [sent/] only. *)
Theorem ship_stored_keeps_every_crash dir token config w n r w' n' :
  named (w_fs w) ->
  ship_stored_with_client dir token config (w, n) = (r, (w', n')) ->
  exists r1 w1, kept (uploaded_stored (w_fs w) token config) dir w n r1 w1 n' /\
    match r1 with
    | Err e => r = Err e /\ w_fs w' = w_fs w1
    | Ok k => (exists now days, now ∈ times w1 /\ cleaned w1 (dir ++ ["sent"]) (sent_cutoff now days) (w_fs w')) /\
              (r = Ok k \/ exists e, r = Err (ShipIo e))
    end.
Proof.
  intros Hnm. set (T := uploaded_stored (w_fs w) token config).
  apply (wp_run _ (fun r wn' => exists r1 w1, kept T dir w n r1 w1 wn'.2 /\
    match r1 with
    | Err e => r = Err e /\ w_fs wn'.1 = w_fs w1
    | Ok k => (exists now days, now ∈ times w1 /\ cleaned w1 (dir ++ ["sent"]) (sent_cutoff now days) (w_fs wn'.1)) /\
              (r = Ok k \/ exists e, r = Err (ShipIo e)) end)).
  apply wp_bind, wp_ship_io, wp_map_err, wp_open_spool. cbn [fst snd]. intros r1 w1 _ _ H1 Hps.
  destruct r1 as [ps|x]; cbn [map_err]; [|by exists (Err (ShipIo x)), w1; split; [apply kept_early|]].
  rewrite (Hps ps eq_refl). clear ps Hps.
  apply wp_bind_assoc, (wp_ship_entries _ fst T dir (0%Z, None) w); [done|done|done| | |].
  - intros acc s w4 n4 Q' entry Hs Hs4 HO HE.
    apply wp_bind, wp_ship_io, wp_resolve_stored_endpoint; cbn [fst snd].
    2: { intros e w5 Hfs5. apply (HE _ _ _ []); [by rewrite app_nil_r|by left|]. intros q. left. by rewrite Hfs5. }
    intros endpoint days w5 Hfs5 (c & t & v & cfg & Hc & Hrest). rewrite <- Hfs5 in HO, HE, Hs4.
    assert (forall rq, uploaded (w_fs w5) token config endpoint entry rq -> T entry rq) as HT.
    { intros rq Hrq. exists endpoint, days. split; [|by eapply uploaded_same]. exists c, t, v, cfg. split; [|done].
      by rewrite <- Hs4, Hfs5. }
    apply wp_bind, wp_ship_one; [done| |].
    + intros x w6 n6 [HD Hacc] Hlog Hmv. apply wp_ret, (HO _ x); [done| |done|done]. split; [by apply HT|done].
    + intros err w6 n6 extra Hlog Hatt. apply (HE _ _ _ extra); [done|]. by eapply attempt_mono.
  - intros e w4 n4 Hk. by exists (Err e), w4.
  - intros [k days] w4 n4 Hk. apply wp_bind, wp_ship_io, wp_map_err, wp_cleanup_sent. cbn [fst snd].
    intros r5 w5 now Hnow Hcl. destruct r5 as [[]|e]; cbn [map_err]; [apply wp_ret|]; exists (Ok k), w4; cbn [fst snd].
    + split; [done|]. split; [by eexists now, _|by left].
    + split; [done|]. split; [by eexists now, _|right; by eexists].
Qed.
End ShipSafety.

(** ** A concrete run: the first upload is accepted, the second refused *)

Definition name_ok (q : Path) : bool :=
  match last q with
  | Some s => String.eqb s "/" || (normal_component s && negb (String.eqb s ".."))
  | None => true
  end.

Lemma named_of_b fs : forallb (fun kv => name_ok kv.1) (map_to_list fs) = true -> named fs.
Proof.
  intros H q s [n Hq] Hs. pose proof (nodes_forall (fun q _ => name_ok q) fs H q n Hq) as Hn. unfold name_ok in Hn.
  rewrite Hs in Hn. apply orb_true_iff in Hn as [?%String.eqb_eq|[? Hd%negb_true_iff%String.eqb_neq]%andb_true_iff]; auto.
Qed.

Definition sample_run := ship_pending_with_client (N := nat) ["/"; "s"] sample_endpoint "tok" ShipConfig_default
  (spool_world [], {| net_peer := 1%nat; net_log := [] |}).

Lemma ship_keeps_every_crash_witness :
  sample_run.1 = Err (ShipStatus 503) /\
  kept (uploaded spool_fs "tok" ShipConfig_default sample_endpoint) ["/"; "s"] (spool_world [])
    {| net_peer := 1%nat; net_log := [] |} sample_run.1 sample_run.2.1 sample_run.2.2.
Proof.
  split; [vm_compute; reflexivity|].
  apply (ship_keeps_every_crash ["/"; "s"] sample_endpoint "tok" ShipConfig_default (spool_world []) _).
  - apply named_of_b. vm_compute. reflexivity.
  - unfold sample_run. by destruct (ship_pending_with_client _ _ _ _ _) as [r [w n]].
Defined.

Definition sample_stored_run := ship_stored_with_client (N := nat) ["/"; "s"] "tok" ShipConfig_default
  (spool_world [], {| net_peer := 2%nat; net_log := [] |}).

Lemma ship_stored_keeps_every_crash_witness :
  sample_stored_run.1 = Ok 2%Z /\
  exists r1 w1, kept (uploaded_stored spool_fs "tok" ShipConfig_default) ["/"; "s"] (spool_world [])
      {| net_peer := 2%nat; net_log := [] |} r1 w1 sample_stored_run.2.2 /\
    match r1 with
    | Err e => sample_stored_run.1 = Err e /\ w_fs sample_stored_run.2.1 = w_fs w1
    | Ok k => (exists now days, now ∈ times w1 /\
                 cleaned w1 ["/"; "s"; "sent"] (sent_cutoff now days) (w_fs sample_stored_run.2.1)) /\
              (sample_stored_run.1 = Ok k \/ exists e, sample_stored_run.1 = Err (ShipIo e))
    end.
Proof.
  split; [vm_compute; reflexivity|].
  apply (ship_stored_keeps_every_crash ["/"; "s"] "tok" ShipConfig_default (spool_world []) {| net_peer := 2%nat; net_log := [] |}).
  - apply named_of_b. vm_compute. reflexivity.
  - unfold sample_stored_run. by destruct (ship_stored_with_client _ _ _ _) as [r [w n]].
Defined.
