(* ===== verification/ShipProgress.v ===== *)
(** * The shipper makes progress: a healthy spool and an accepting peer

    With the fault schedule exhausted the calls below do not fail, and clean-up
    removes exactly the expired entries. *)

From Stdlib Require Import Ascii.
From S2P Require Import Prelude RustStd Fs FsDir External Instances Json Protocol Rfc7578 Multipart Compression Spool PanicHook Shipper ClientInstances ShipSafety.

Lemma with_fs_same w : with_fs w (w_fs w) = w.
Proof. by destruct w. Qed.

Lemma run_query {A} (g : World -> Result A io_error) w :
  w_faults w = [] -> syscall no_part (fun w => (g w, w_fs w)) w = (g w, w).
Proof. intros Hf. rewrite syscall_no_fault by done. cbn. by rewrite with_fs_same. Qed.

Lemma wpn_query {A} (g : World -> Result A io_error) (Q : Result A io_error -> World -> Prop) w :
  w_faults w = [] -> Q (g w) w -> wp (syscall no_part (fun w => (g w, w_fs w))) Q w.
Proof. intros Hf HQ. unfold wp. by rewrite run_query. Qed.

Lemma run_path_is_dir {E} p w : w_faults w = [] ->
  path_is_dir (E := E) p w = (Ok (is_dir (w_fs w) p), w).
Proof.
  intros Hf. unfold path_is_dir, io_bind, io_try, fs_metadata. rewrite run_query by done.
  unfold is_dir. by destruct (w_fs w !! p) as [[]|].
Qed.

Lemma run_path_exists {E} p w : w_faults w = [] ->
  path_exists (E := E) p w = (Ok (bool_decide (is_Some (w_fs w !! p))), w).
Proof.
  intros Hf. unfold path_exists, io_bind, io_try, fs_metadata. rewrite run_query by done.
  by destruct (w_fs w !! p) as [[]|].
Qed.

Lemma run_collect_entries {E} (f : Path -> IO E bool) (g : Path -> bool) es w :
  w_faults w = [] -> (forall e, f e w = (Ok (g e), w)) ->
  collect_entries f es w = (Ok (filter g es), w).
Proof.
  intros Hf Hg. induction es as [|e es IH]; cbn [collect_entries]; [by rewrite filter_nil|].
  unfold io_bind at 1, io_try, next_entry. rewrite run_query by done.
  unfold io_bind at 1. rewrite Hg. unfold io_bind at 1. rewrite IH. unfold io_ret.
  rewrite filter_cons. by destruct (g e).
Qed.

Definition subdirs (fs : gmap Path Node) (p : Path) : list Path := filter (fun q => fs !! q = Some Dir) (children fs p).

(** A listing is complete: all directories, sorted. *)
Lemma run_pending_entries `{OS : Os} p w :
  w_faults w = [] -> w_fs w !! p = Some Dir -> exists l,
  pending_entries p w = (Ok l, w) /\ l ≡ₚ subdirs (w_fs w) p.
Proof.
  intros Hf Hp. eexists. split.
  - unfold pending_entries, io_bind at 1, io_try, read_dir. rewrite run_query by done. rewrite Hp.
    unfold io_bind. rewrite (run_collect_entries _ (is_dir (w_fs w))); [done|done|]. intros e. by apply run_path_is_dir.
  - rewrite sort_paths_perm. unfold subdirs. rewrite (dir_order_perm (children (w_fs w) p)).
    apply Permutation_refl', list_filter_iff. intros q. unfold is_dir.
    destruct (w_fs w !! q) as [[]|]; cbn; split; done.
Qed.

Lemma elem_of_subdirs fs p q : q ∈ subdirs fs p <-> parent q = Some p /\ fs !! q = Some Dir.
Proof.
  unfold subdirs. rewrite list_elem_of_filter, elem_of_children. split; [tauto|]. intros [? ->]. by eauto.
Qed.

(** ** Clean-up *)

(** The cut-off of the clean-up never overflows: with a retention the clock
    reaches back over it is exactly that many days before [now]; with any larger
    retention, however absurd, it lies at or before the epoch. *)
Lemma sent_cutoff_exact now days :
  (0 <= now < 2 ^ 63 * 1000000000)%Z -> (0 <= days <= U64_MAX)%Z ->
  (days * 86400 * 1000000000 <= now -> sent_cutoff now days = now - days * 86400 * 1000000000)%Z /\
  (now < days * 86400 * 1000000000 -> sent_cutoff now days <= 0)%Z.
Proof.
  intros Hn Hd. unfold sent_cutoff, saturating_mul_u64.
  change (24 * 60 * 60)%Z with 86400%Z.
  assert (U64_MAX = 18446744073709551615)%Z as HU by reflexivity. 
  assert (now / 1000000000 * 1000000000 <= now < now / 1000000000 * 1000000000 + 1000000000)%Z as Hq.
  { pose proof (Z.div_mod now 1000000000 ltac:(lia)). pose proof (Z.mod_pos_bound now 1000000000 ltac:(lia)). lia. }
  split; intros H; destruct (Z.ltb_spec (now / 1000000000 - Z.min (days * 86400) U64_MAX) (- 2 ^ 63)); lia.
Qed.

Definition first_reading (w : World) : Z := hd (w_now w) (w_clock w).

(** [fs'] is [fs] without the trees of the entries [gone]. *)
Definition without (gone : Path -> Prop) (fs fs' : gmap Path Node) : Prop :=
  forall q, (forall e, gone e -> e `prefix_of` q -> fs' !! q = None) /\
            ((forall e, gone e -> ~ e `prefix_of` q) -> fs' !! q = fs !! q).

Lemma without_drop (gone : Path -> Prop) fs fs' e :
  without gone fs fs' -> without (fun x => gone x \/ x = e) fs (drop_tree e fs').
Proof.
  intros H q. rewrite drop_tree_lookup. split.
  - intros x [Hx| ->] Hp; case_decide; try done. by apply (H q) with x.
  - intros Hn. rewrite decide_False by auto. apply (H q). intros x Hx. auto.
Qed.

Lemma without_mono (P P' : Path -> Prop) fs fs' : (forall e, P e <-> P' e) -> without P fs fs' -> without P' fs fs'.
Proof.
  intros HP H q. split; [intros e He; apply H; by apply HP|]. intros Hn. apply H. intros e He. apply Hn. by apply HP.
Qed.

Lemma children_apart p e e' (x : Path) : parent e = Some p -> parent e' = Some p -> e <> e' -> e `prefix_of` e' ++ x -> False.
Proof.
  intros (s & -> & _)%parent_Some (t & -> & _)%parent_Some Hne Hpre. apply child_apart in Hpre; [done|congruence].
Qed.

(** One step: the entry is there and is removed when expired. *)
Lemma run_cleanup_entry cutoff e w :
  w_faults w = [] -> w_fs w !! e = Some Dir -> exists w',
  cleanup_entry cutoff tt e w = (Ok tt, w') /\ w_faults w' = [] /\ w_dir_mtime w' = w_dir_mtime w /\
  w_fs w' = if (w_dir_mtime w e <? cutoff)%Z then drop_tree e (w_fs w) else w_fs w.
Proof.
  intros Hf He. unfold cleanup_entry, io_bind at 1, fs_metadata. rewrite run_query, He by done.
  unfold io_bind. destruct (system_time_now w) as [r w1] eqn:E1.
  assert (r = Ok (first_reading w) /\ w_faults w1 = [] /\ w_dir_mtime w1 = w_dir_mtime w /\ w_fs w1 = w_fs w)
    as (-> & Hf1 & Hm1 & Hfs1).
  { unfold system_time_now, first_reading in *. by destruct (w_clock w); injection E1 as <- <-. }
  cbn [md_modified]. destruct (_ <? cutoff)%Z; [|by exists w1].
  unfold remove_dir_all. rewrite syscall_no_fault by done. rewrite Hfs1, He. cbn [fst snd].
  by eexists.
Qed.

Lemma run_cleanup_sent `{OS : Os} p days w :
  w_faults w = [] -> w_fs w !! p = Some Dir -> exists w',
  cleanup_sent p days w = (Ok tt, w') /\ w_faults w' = [] /\
  without (expired w p (sent_cutoff (first_reading w) days)) (w_fs w) (w_fs w').
Proof.
  intros Hf Hp. unfold cleanup_sent, io_bind at 1. destruct (system_time_now w) as [r w1] eqn:E1.
  assert (r = Ok (first_reading w) /\ w_faults w1 = [] /\ w_dir_mtime w1 = w_dir_mtime w /\ w_fs w1 = w_fs w)
    as (-> & Hf1 & Hm1 & Hfs1).
  { unfold system_time_now, first_reading in *. by destruct (w_clock w); injection E1 as <- <-. }
  set (cut := sent_cutoff (first_reading w) days).
  destruct (run_pending_entries p w1 Hf1 ltac:(by rewrite Hfs1)) as (l & Hrun & Hl).
  unfold io_bind. rewrite Hrun. clear Hrun.
  assert (NoDup l) as Hnd by (rewrite Hl; apply NoDup_filter, children_NoDup).
  assert (forall e, e ∈ l <-> parent e = Some p /\ w_fs w !! e = Some Dir) as Hin.
  { intros e. by rewrite Hl, elem_of_subdirs, Hfs1. }
  enough (forall xs done w2, l = done ++ xs -> w_faults w2 = [] -> w_dir_mtime w2 = w_dir_mtime w ->
    without (fun e => e ∈ done /\ expired w p cut e) (w_fs w) (w_fs w2) -> exists w',
    io_fold (cleanup_entry cut) tt xs w2 = (Ok tt, w') /\ w_faults w' = [] /\
    without (fun e => e ∈ l /\ expired w p cut e) (w_fs w) (w_fs w')) as Hloop.
  { destruct (Hloop l [] w1) as (w' & Hrun & Hf' & Hw'); [done|done|done| |].
    - intros q. split; [by intros e [?%elem_of_nil _]|]. by rewrite Hfs1.
    - exists w'. split_and!; [done|done|]. eapply without_mono; [|exact Hw'].
      intros e. cbn beta. rewrite Hin. unfold expired. tauto. }
  induction xs as [|e xs IH]; intros done w2 Hd Hf2 Hm2 Hw2; cbn [io_fold].
  { exists w2. rewrite app_nil_r in Hd. by subst done. }
  assert (w_fs w2 !! e = Some Dir) as He.
  { destruct (proj1 (Hin e) ltac:(rewrite Hd; set_solver)) as [Hpe Hde]. rewrite <- Hde. apply (Hw2 e).
    intros e' [Hin' (Hp' & _)] Hpre. rewrite <- (app_nil_r e) in Hpre. eapply children_apart in Hpre; [done|done|done|].
    intros ->. rewrite Hd, NoDup_app in Hnd. destruct Hnd as (_ & H & _). eapply H; [done|by left]. }
  destruct (run_cleanup_entry cut e w2 Hf2 He) as (w3 & Hrun & Hf3 & Hm3 & Hfs3).
  unfold io_bind at 1. rewrite Hrun. apply (IH (done ++ [e])); [by rewrite <- app_assoc|done|congruence|].
  destruct (proj1 (Hin e) ltac:(rewrite Hd; set_solver)) as [Hpe Hde].
  rewrite Hfs3, Hm2. destruct (Z.ltb_spec (w_dir_mtime w e) cut) as [Hlt|Hge].
  - eapply without_mono; [|by apply without_drop]. intros x. cbn. rewrite elem_of_app, list_elem_of_singleton.
    split; [|naive_solver]. intros [?| ->]; [naive_solver|]. split; [by right|]. done.
  - eapply without_mono; [|exact Hw2]. intros x. cbn. rewrite elem_of_app, list_elem_of_singleton.
    split; [naive_solver|]. intros [[?| ->] Hx]; [done|]. unfold expired in Hx. lia.
Qed.

(** ** Shipping *)

Section ShipProgress.
Context {U : UuidApi} {C : ChronoApi} {J : JsonText} {UR : UrlApi} {ZS : ZstdApi} {HA : HeaderApi} {OS : Os}
  {N : Type} {HP : HttpPeer N}.

(** The entry holds [e], attachments included. *)
Definition complete (fs : gmap Path Node) (entry : Path) (e : CrashEnvelope U C) : Prop :=
  envelope_at fs entry e /\
  Forall (fun mp => entry `prefix_of` mp.2) (stored_attachments entry (ce_metadata e)).

Lemma complete_same fs fs' entry e :
  (forall rel, fs' !! (entry ++ rel) = fs !! (entry ++ rel)) -> complete fs entry e -> complete fs' entry e.
Proof.
  intros Hs (((c & t & Hm & Hp) & (td & Hd) & HF) & Hin). split; [|done]. split_and!.
  - exists c, t. by rewrite Hs.
  - exists td. by rewrite Hs.
  - clear Hm Hp Hd. induction HF as [|mp a l l' (Hk & Hc & ta & Ha) HF IH]; [by apply Forall2_nil|].
    apply Forall_cons in Hin as [Hpre Hin]. apply Forall2_cons. split; [|auto].
    split_and!; [done|done|]. exists ta. destruct Hpre as [rel Hrel]. by rewrite Hrel, Hs, <- Hrel.
Qed.

Lemma run_fs_read p c t w : w_faults w = [] -> w_fs w !! p = Some (File c t) -> fs_read p w = (Ok c, w).
Proof. intros Hf Hp. unfold fs_read. by rewrite run_query, Hp. Qed.

(** A complete entry is read back. *)
Lemma run_read_envelope entry e w :
  w_faults w = [] -> envelope_at (w_fs w) entry e -> read_envelope entry w = (Ok e, w).
Proof.
  intros Hf ((c & t & Hm & Hp) & (td & Hd) & HF). unfold read_envelope.
  rewrite (join_normal entry "metadata.json"), (join_normal entry "dump.bin") by done.
  unfold io_bind at 1, io_map_err. erewrite run_fs_read by done.
  unfold io_bind at 1, io_lift. rewrite Hp. cbn [map_err].
  unfold io_bind at 1. erewrite run_fs_read by done. unfold io_bind at 1.
  enough (forall acc, io_fold read_attachment acc (stored_attachments entry (ce_metadata e)) w = (Ok (acc ++ ce_attachments e), w)) as ->
    by (by destruct e).
  clear Hm Hp Hd. induction HF as [|mp a l l' (Hk & Hc & ta & Ha) HF IH]; intros acc; cbn [io_fold].
  { by rewrite app_nil_r. }
  unfold io_bind at 1, read_attachment at 1, io_bind at 1. erewrite run_fs_read by done. unfold io_ret at 1.
  rewrite IH. rewrite <- app_assoc. cbn. rewrite <- Hk, <- Hc. by destruct a.
Qed.

(** The peer accepts every request. *)
Definition accepting : Prop := forall rq (peer : N), exists status chunks,
  (http_send rq peer).1 = Responded status chunks /\ is_success status = true /\ drain_body chunks = Ok tt.

(** A peer in [Good i] accepts the next [i] requests, if they are in [R]. *)
Definition accepts (Good : nat -> N -> Prop) (R : HttpPost -> Prop) : Prop :=
  forall i rq peer, Good (Datatypes.S i) peer -> R rq -> exists status chunks peer',
    http_send rq peer = (Responded status chunks, peer') /\ is_success status = true /\ drain_body chunks = Ok tt /\ Good i peer'.

Lemma accepting_accepts : accepting -> accepts (fun _ _ => True) (fun _ => True).
Proof.
  intros Hacc i rq peer _ _. destruct (Hacc rq peer) as (status & chunks & Hr & Hs & Hd). destruct (http_send rq peer) as [o peer'].
  cbn [fst] in Hr. subst o. by exists status, chunks, peer'.
Qed.

Lemma run_post_envelope Good R i endpoint token e config rq w n :
  accepts Good R -> Good (Datatypes.S i) (net_peer n) -> R rq -> upload_of endpoint token config e rq -> exists n',
  post_envelope endpoint token e config (w, n) = (Ok tt, (w, n')) /\ Good i (net_peer n').
Proof.
  intros Hacc Hg HR (Hu & Ha & Hct & ce & encs & Hc & Hb). unfold post_envelope, io_bind at 1, io_lift at 1.
  rewrite Hc. cbn [map_err]. unfold io_bind at 1, io_lift at 1. rewrite Hb.
  unfold io_bind at 1, io_lift at 1. rewrite Ha. cbn [ok_or]. unfold io_bind, send. cbn [fst snd].
  destruct rq as [url auth ct body]. cbn [hp_url hp_authorization hp_content_type hp_body] in *. subst url ct.
  destruct (Hacc i _ _ Hg HR) as (status & chunks & peer' & -> & Hs & Hd & Hg'). rewrite Hs. unfold io_lift. rewrite Hd. by eexists.
Qed.

Lemma run_rename_dir src dst w :
  w_faults w = [] -> w_fs w !! src = Some Dir -> w_fs w !! dst = None -> parent_is_dir (w_fs w) dst = true ->
  ~ src `prefix_of` dst -> exists w',
  rename src dst w = (Ok tt, w') /\ w_faults w' = [] /\ w_fs w' = move_tree src dst (w_fs w).
Proof.
  intros Hf Hs Hd Hp Hn. unfold rename, next_fault. rewrite Hf, Hs, Hd, Hp.
  unfold in_tree. rewrite bool_decide_eq_false_2 by done. cbn [negb]. by eexists.
Qed.

Lemma run_ship_one Good R i dir s endpoint token config e rq w n :
  let entry := (dir ++ ["pending"]) ++ [s] in let dst := (dir ++ ["sent"]) ++ [s] in
  accepts Good R -> Good (Datatypes.S i) (net_peer n) -> R rq -> entry_name s -> w_faults w = [] -> w_fs w !! entry = Some Dir ->
  is_file (w_fs w) dst = false -> w_fs w !! (dir ++ ["sent"]) = Some Dir ->
  envelope_at (w_fs w) entry e -> upload_of endpoint token config e rq -> exists w' n',
  ship_one entry (dir ++ ["sent"]) endpoint token config (w, n) = (Ok tt, (w', n')) /\
  w_faults w' = [] /\ moved_to entry dst (w_fs w) (w_fs w') /\ Good i (net_peer n').
Proof.
  intros entry dst Hacc Hg HR Hs Hf Hdir Hnf Hsent Hat Hup.
  destruct (run_post_envelope Good R i endpoint token e config rq w n Hacc Hg HR Hup) as (n1 & Hpost & Hg1).
  assert (~ entry `prefix_of` dst) as Hap.
  { intros H. rewrite <- (app_nil_r dst) in H. by apply grandchild_apart in H. }
  assert (s <> "/") as Hsl by (intros ->; by destruct Hs).
  unfold ship_one, io_bind at 1, ship_io at 1. rewrite (run_read_envelope entry e) by done. cbn [fst snd].
  unfold io_bind at 1. rewrite Hpost. unfold io_bind at 1, io_lift at 1. unfold entry at 1.
  rewrite entry_file_name by done. cbn [ok_or]. rewrite (join_normal (dir ++ ["sent"])) by apply Hs. fold dst.
  unfold io_bind at 1, ship_io at 1. cbn [fst snd]. rewrite run_path_exists by done.
  assert (forall w1, w_faults w1 = [] -> w_fs w1 !! dst = None ->
    (forall q, ~ dst `prefix_of` q -> w_fs w1 !! q = w_fs w !! q) -> exists w' n',
    ship_io (E := ShipError) (io_map_err ShipIo (rename entry dst)) (w1, n1) = (Ok tt, (w', n')) /\
    w_faults w' = [] /\ moved_to entry dst (w_fs w) (w_fs w') /\ Good i (net_peer n')) as Hren.
  { intros w1 Hf1 Hd1 Hfs1.
    destruct (run_rename_dir entry dst w1) as (w2 & Hrun & Hf2 & Hfs2); [done| |done| |done|].
    - rewrite Hfs1; [done|]. intros H. rewrite <- (app_nil_r entry) in H. by apply grandchild_apart in H.
    - eapply parent_is_dir_of; [by apply parent_snoc|]. rewrite Hfs1; [done|]. intros H%prefix_length.
      unfold dst in H. rewrite length_app in H. cbn in H. lia.
    - exists w2, n1. unfold ship_io, io_map_err. cbn [fst snd]. rewrite Hrun. split_and!; [done|done| |done].
      by eapply moved_after_drop. }
  case_bool_decide as Hex; unfold io_bind at 1.
  - unfold ship_io at 1, io_map_err at 1, remove_dir_all. cbn [fst snd]. rewrite syscall_no_fault by done.
    unfold is_file in Hnf. destruct Hex as [nd Hnd]. rewrite Hnd in Hnf |- *. destruct nd; [done|]. cbn [fst snd].
    apply Hren; cbn [w_fs with_fs]; [done|by rewrite drop_tree_lookup, decide_True|].
    intros q Hq. by rewrite drop_tree_lookup, decide_False.
  - unfold io_ret at 1. apply Hren; [done| |done]. by apply eq_None_not_Some.
Qed.

(** ** A whole run *)

(** Nothing but directories where the spool's directories go, nor in [sent/]. *)
Definition spool_ready (fs : gmap Path Node) (dir : Path) : Prop :=
  (forall q, q `prefix_of` dir -> is_file fs q = false) /\
  fs !! (dir ++ [".lock"]) <> Some Dir /\
  is_file fs (dir ++ ["pending"]) = false /\ is_file fs (dir ++ ["sent"]) = false /\
  forall s, is_file fs ((dir ++ ["sent"]) ++ [s]) = false.

Lemma add_dirs_dir fs p : (forall q, q `prefix_of` p -> is_file fs q = false) -> p <> [] ->
  foldl add_dir fs (ancestors p) !! p = Some Dir.
Proof.
  intros Hp Hne. specialize (Hp p (reflexivity p)). unfold is_file in Hp. rewrite foldl_add_dir_lookup.
  destruct (fs !! p) as [[]|]; [done|done|]. by rewrite decide_True by (by apply ancestors_self).
Qed.

Lemma add_dirs_is_file fs p q : is_file (foldl add_dir fs (ancestors p)) q = is_file fs q.
Proof. unfold is_file. rewrite foldl_add_dir_lookup. destruct (fs !! q); [done|]. by case_decide. Qed.

Lemma add_dirs_keep fs p q : fs !! q = Some Dir -> foldl add_dir fs (ancestors p) !! q = Some Dir.
Proof. intros Hq. by rewrite foldl_add_dir_lookup, Hq. Qed.

Lemma prefix_snoc_cases p s (q : Path) : q `prefix_of` p ++ [s] -> q `prefix_of` p \/ q = p ++ [s].
Proof.
  intros [k Hk]. destruct k as [|x k _] using rev_ind; [right; by rewrite app_nil_r in Hk|].
  left. rewrite app_assoc in Hk. apply app_inj_tail in Hk as [-> _]. by apply prefix_app_r.
Qed.

Lemma run_open_spool dir w :
  w_faults w = [] -> spool_ready (w_fs w) dir -> exists w',
  open_spool dir w = (Ok (dir ++ ["pending"], dir ++ ["sent"]), w') /\ w_faults w' = [] /\
  w_fs w' !! (dir ++ ["pending"]) = Some Dir /\ w_fs w' !! (dir ++ ["sent"]) = Some Dir /\
  forall s, is_file (w_fs w') ((dir ++ ["sent"]) ++ [s]) = false.
Proof.
  intros Hf (Hdir & Hlk & Hpend & Hsent & Hs).
  enough (wp (open_spool dir) (fun r w' => r = Ok (dir ++ ["pending"], dir ++ ["sent"]) /\ w_faults w' = [] /\
    w_fs w' !! (dir ++ ["pending"]) = Some Dir /\ w_fs w' !! (dir ++ ["sent"]) = Some Dir /\
    forall s, is_file (w_fs w') ((dir ++ ["sent"]) ++ [s]) = false) w) as H.
  { unfold wp in H. destruct (open_spool dir w) as [r w']. exists w'. cbn in H. by destruct H as (-> & H). }
  unfold open_spool, SpoolLock_acquire, ensure_dir, open_lock, lock_exclusive.
  rewrite (join_normal dir ".lock"), (join_normal dir "pending"), (join_normal dir "sent") by done.
  apply wp_bind, wp_bind, wpn_create_dir_all; [done|done|]. set (fs1 := foldl add_dir _ _).
  assert (forall t, parent_is_dir fs1 (dir ++ [t]) = true \/ t = "/") as Hpd.
  { intros t. destruct (decide (t = "/")) as [->|Ht]; [by right|left]. destruct (decide (dir = [])) as [->|Hne].
    - unfold parent_is_dir. by rewrite parent_snoc.
    - eapply parent_is_dir_of; [by apply parent_snoc|]. by apply add_dirs_dir. }
  assert (forall q, is_file fs1 q = is_file (w_fs w) q) as H1 by apply add_dirs_is_file.
  apply wp_bind, wpn_open_append; [done| |by destruct (Hpd ".lock")|].
  { cbn. unfold fs1. rewrite foldl_add_dir_lookup. destruct (w_fs w !! _) eqn:E; [done|]. rewrite decide_False; [done|].
    intros Hin%ancestors_prefix%prefix_length. rewrite length_app in Hin. cbn in Hin. lia. }
  cbn [w_fs with_fs w_now]. set (fs2 := if is_file fs1 _ then _ else _).
  assert (forall q, q <> dir ++ [".lock"] -> fs2 !! q = fs1 !! q) as H2.
  { intros q Hq. unfold fs2. destruct (is_file fs1 (dir ++ [".lock"])); [done|]. by rewrite lookup_insert_ne. }
  apply wpn_query; [done|].
  assert (forall q, is_file fs2 q = is_file (w_fs w) q \/ q = dir ++ [".lock"]) as Hif2.
  { intros q. destruct (decide (q = dir ++ [".lock"])); [by right|left]. rewrite <- H1. unfold is_file. by rewrite H2. }
  assert (forall t, t <> ".lock" -> is_file (w_fs w) (dir ++ [t]) = false -> forall q, q `prefix_of` dir ++ [t] -> is_file fs2 q = false) as Hnf.
  { intros t Ht Hd q [Hq| ->]%prefix_snoc_cases.
    - destruct (Hif2 q) as [-> | ->]; [by apply Hdir|]. apply prefix_length in Hq. rewrite length_app in Hq. cbn in Hq. lia.
    - destruct (Hif2 (dir ++ [t])) as [->|[_ [=]]%app_inj_tail]; done. }
  apply wp_bind, wpn_create_dir_all; [done|by apply Hnf|]. cbn [w_fs with_fs]. set (fs3 := foldl _ fs2 _).
  apply wp_bind, wpn_create_dir_all; [done| |].
  { intros q Hq. cbn [w_fs with_fs]. unfold fs3. rewrite add_dirs_is_file. by eapply Hnf in Hq. }
  cbn [w_fs with_fs]. apply wp_ret. split_and!; [done|done| | |]; cbn [w_fs with_fs].
  - apply add_dirs_keep, add_dirs_dir; [by apply Hnf|]. by destruct dir.
  - apply add_dirs_dir; [|by destruct dir]. intros q Hq. unfold fs3. rewrite add_dirs_is_file. by eapply Hnf in Hq.
  - intros s. unfold fs3. rewrite !add_dirs_is_file. destruct (Hif2 ((dir ++ ["sent"]) ++ [s])) as [->|H]; [done|].
    apply (f_equal length) in H. rewrite !length_app in H. cbn in H. lia.
Qed.

Section Run.
Context (dir : Path) (endpoint : Url) (token : string) (config : ShipConfig).
Abbreviation pending := (dir ++ ["pending"]).
Abbreviation sent := (dir ++ ["sent"]).

(** Every pending entry can be read and encoded. *)
Definition shippable (fs : gmap Path Node) : Prop :=
  forall e, parent e = Some pending -> fs !! e = Some Dir ->
  exists env rq, complete fs e env /\ upload_of endpoint token config env rq.

(** The uploads of the pending entries. *)
Definition upload_from (fs : gmap Path Node) (rq : HttpPost) : Prop :=
  exists e env, parent e = Some pending /\ fs !! e = Some Dir /\ complete fs e env /\ upload_of endpoint token config env rq.

Lemma run_ship_loop Good w0 : accepts Good (upload_from (w_fs w0)) -> named (w_fs w0) -> shippable (w_fs w0) -> forall xs k done w n,
  Good (length xs) (net_peer n) ->
  NoDup (done ++ xs) -> (forall e, e ∈ done ++ xs -> parent e = Some pending /\ w_fs w0 !! e = Some Dir) ->
  w_faults w = [] -> w_fs w !! sent = Some Dir ->
  (forall s, pending ++ [s] ∉ done -> is_file (w_fs w) (sent ++ [s]) = false) ->
  placed dir (w_fs w0) done (w_fs w) -> exists w' n',
  io_fold (fun shipped entry => ship_one entry sent endpoint token config;;! io_ret (shipped + 1)%Z) k xs (w, n) =
    (Ok (k + Z.of_nat (length xs))%Z, (w', n')) /\ placed dir (w_fs w0) (done ++ xs) (w_fs w') /\ Good 0%nat (net_peer n').
Proof.
  intros Hacc Hnm Hsh. induction xs as [|e xs IH]; intros k done w n Hg Hnd Hin Hf Hsent Hnf Hpl; cbn [io_fold].
  { exists w, n. rewrite app_nil_r. split_and!; [|done|done]. unfold io_ret. do 2 f_equal. cbn. lia. }
  destruct (Hin e ltac:(set_solver)) as [Hp Hd].
  destruct (entries_named dir (w_fs w0) [e] Hnm) with e as (s & -> & Hs); [set_solver|by left|].
  destruct (Hsh _ Hp Hd) as (env & rq & Hc & Hup).
  assert (pending ++ [s] ∉ done) as Hnew.
  { rewrite NoDup_app in Hnd. intros H. destruct Hnd as (_ & Hx & _). eapply Hx; [done|by left]. }
  assert (forall rel, w_fs w !! ((pending ++ [s]) ++ rel) = w_fs w0 !! ((pending ++ [s]) ++ rel)) as Hsame.
  { intros rel. specialize (Hpl s rel). by rewrite decide_False in Hpl. }
  destruct (run_ship_one Good _ (length xs) dir s endpoint token config env rq w n Hacc Hg) as (w1 & n1 & Hrun & Hf1 & Hmv & Hg1); try done.
  { by exists (pending ++ [s]), env. }
  { rewrite <- (app_nil_r (pending ++ [s])), Hsame, app_nil_r. done. }
  { by apply Hnf. }
  { by eapply complete_same. }
  unfold io_bind at 1, io_bind at 1. rewrite Hrun. unfold io_ret at 1.
  destruct (IH (k + 1)%Z (done ++ [pending ++ [s]]) w1 n1) as (w2 & n2 & Hrun2 & Hpl2 & Hg2).
  - done.
  - by rewrite <- app_assoc.
  - by rewrite <- app_assoc.
  - done.
  - rewrite Hmv, app_strip, decide_False; [done| |].
    + intros H. rewrite <- (app_nil_r sent) in H. apply (child_apart dir "pending" "sent" []); [done|].
      etransitivity; [|exact H]. by apply prefix_app_r.
    + intros H%prefix_length. rewrite length_app in H. cbn in H. lia.
  - intros t Ht. rewrite elem_of_app, list_elem_of_singleton in Ht.
    assert (t <> s) by (intros ->; tauto). unfold is_file. rewrite <- (app_nil_r (sent ++ [t])).
    rewrite Hmv, app_strip, decide_False by (first [by apply child_apart|by apply grandchild_apart]).
    rewrite app_nil_r. apply Hnf. tauto.
  - by apply placed_step with (fs := w_fs w).
  - exists w2, n2. rewrite <- app_assoc in Hpl2. split_and!; [|done|done]. rewrite Hrun2. do 2 f_equal. cbn [length]. lia.
Qed.

Lemma subdirs_same fs fs' p : same_on (below p) fs fs' -> length (subdirs fs' p) = length (subdirs fs p).
Proof.
  intros Hs. apply Permutation_length, NoDup_Permutation; [apply NoDup_filter, children_NoDup..|].
  intros e. rewrite !elem_of_subdirs. split; intros [Hp He]; (split; [done|]); pose proof Hp as (t & -> & _)%parent_Some.
  - rewrite <- He. symmetry. apply Hs. by exists t, [].
  - rewrite <- He. apply Hs. by exists t, [].
Qed.

(** A clean-up of [sent/] keeps [sent/] itself and puts no file into it. *)
Lemma without_sent w cut fs : without (expired w sent cut) (w_fs w) fs ->
  w_fs w !! sent = Some Dir -> fs !! sent = Some Dir.
Proof.
  intros H Hs. rewrite <- Hs. apply (H sent). intros e (Hp & _) Hpre%prefix_length.
  apply parent_Some in Hp as (t & -> & _). rewrite length_app in Hpre. cbn in Hpre. lia.
Qed.

Lemma without_some (gone : Path -> Prop) fs fs' q nd : without gone fs fs' -> fs' !! q = Some nd -> fs !! q = Some nd.
Proof.
  intros H Hq. rewrite <- Hq. symmetry. apply (H q). intros e He Hpre. destruct (H q) as [Hn _].
  by rewrite (Hn e He Hpre) in Hq.
Qed.

Lemma without_is_file (gone : Path -> Prop) fs fs' q : without gone fs fs' -> is_file fs q = false -> is_file fs' q = false.
Proof.
  intros H Hq. unfold is_file in *. destruct (fs' !! q) as [nd|] eqn:E; [|done].
  by rewrite (without_some _ _ _ _ _ H E) in Hq.
Qed.

(** Preparing the spool and cleaning up, when nothing fails. *)
Lemma run_prepare w : w_faults w = [] -> spool_ready (w_fs w) dir -> exists w1 w2,
  open_spool dir w = (Ok (pending, sent), w1) /\ cleanup_sent sent DEFAULT_SENT_RETENTION_DAYS w1 = (Ok tt, w2) /\
  w_faults w2 = [] /\ w_fs w2 !! pending = Some Dir /\ w_fs w2 !! sent = Some Dir /\
  (forall s, is_file (w_fs w2) (sent ++ [s]) = false) /\ same_on (below pending) (w_fs w) (w_fs w2).
Proof.
  intros Hf Hr. destruct (run_open_spool dir w Hf Hr) as (w1 & Hrun1 & Hf1 & Hp1 & Hs1 & Hnf1).
  destruct (run_cleanup_sent sent DEFAULT_SENT_RETENTION_DAYS w1 Hf1 Hs1) as (w2 & Hrun2 & Hf2 & Hw2).
  assert (same_on (below pending) (w_fs w) (w_fs w1)) as H1.
  { eapply wp_run with (Q := fun _ w' => same_on (below pending) (w_fs w) (w_fs w')); [|exact Hrun1].
    by apply wp_open_spool. }
  assert (forall q, pending `prefix_of` q -> w_fs w2 !! q = w_fs w1 !! q) as H2.
  { intros q [k ->]. apply Hw2. intros e (He & _) Hpre. apply parent_Some in He as (t & -> & _).
    apply (child_apart dir "sent" "pending" k); [done|]. etransitivity; [|exact Hpre]. by apply prefix_app_r. }
  exists w1, w2. split_and!; [done|done|done|by rewrite H2|by eapply without_sent|..].
  - intros s. by eapply without_is_file.
  - intros q Hq. rewrite H2 by (by apply below_prefix_of). by apply H1.
Qed.

(** With a peer that accepts as many requests as there are entries. *)
Lemma run_ships_all Good w n :
  w_faults w = [] -> named (w_fs w) -> spool_ready (w_fs w) dir -> shippable (w_fs w) ->
  accepts Good (upload_from (w_fs w)) -> Good (length (subdirs (w_fs w) pending)) (net_peer n) ->
  exists w' n',
    ship_pending_with_client dir endpoint token config (w, n) =
      (Ok (Z.of_nat (length (subdirs (w_fs w) pending))), (w', n')) /\
    (forall s, w_fs w !! (pending ++ [s]) = Some Dir -> s <> "/" -> forall rel,
      w_fs w' !! ((sent ++ [s]) ++ rel) = w_fs w !! ((pending ++ [s]) ++ rel) /\
      w_fs w' !! ((pending ++ [s]) ++ rel) = None) /\
    Good 0%nat (net_peer n').
Proof.
  intros Hf Hnm Hr Hsh Hacc Hg. destruct (run_prepare w Hf Hr) as (w1 & w2 & Hrun1 & Hrun2 & Hf2 & Hp2 & Hs2 & Hnf2 & Hsame).
  destruct (run_pending_entries pending w2 Hf2 Hp2) as (l & Hrun3 & Hl).
  assert (forall e, e ∈ l <-> parent e = Some pending /\ w_fs w !! e = Some Dir) as Hin.
  { intros e. rewrite Hl, elem_of_subdirs. split; intros [Hp He]; (split; [done|]); pose proof Hp as (t & -> & _)%parent_Some;
      rewrite <- He; [symmetry|]; apply Hsame; by exists t, []. }
  assert (length l = length (subdirs (w_fs w) pending)) as Hlen by (rewrite (Permutation_length Hl); by apply subdirs_same).
  destruct (run_ship_loop Good w Hacc Hnm Hsh l 0%Z [] w2 n) as (w' & n' & Hrun4 & Hpl & Hg').
  - by rewrite Hlen.
  - cbn. rewrite Hl. apply NoDup_filter, children_NoDup.
  - intros e. by rewrite app_nil_l, Hin.
  - done.
  - done.
  - intros s _. apply Hnf2.
  - intros s rel. rewrite decide_False by apply not_elem_of_nil. apply Hsame, below_pending.
  - exists w', n'. split_and!.
    + unfold ship_pending_with_client, io_bind at 1, ship_io at 1, io_map_err at 1. cbn [fst snd]. rewrite Hrun1.
      unfold io_bind at 1, ship_io at 1, io_map_err at 1. cbn [fst snd]. rewrite Hrun2.
      unfold io_bind at 1, ship_io at 1, io_map_err at 1. cbn [fst snd]. rewrite Hrun3. rewrite Hrun4.
      do 3 f_equal. by rewrite Z.add_0_l, Hlen.
    + intros s Hs Hne rel. specialize (Hpl s rel). rewrite app_nil_l, decide_True in Hpl; [done|].
      apply Hin. split; [by apply parent_snoc|done].
    + done.
Qed.

(** C38. A healthy spool drains: when no file-system call fails, nothing but
    directories stands where the spool's directories go, every pending entry is
    complete and encodes, and the peer accepts every request, a run ships all of
    them: it returns their number and each lies in [sent/] byte for byte. *)
Theorem ship_delivers_everything w n :
  w_faults w = [] -> named (w_fs w) -> spool_ready (w_fs w) dir -> shippable (w_fs w) -> accepting ->
  exists w' n',
    ship_pending_with_client dir endpoint token config (w, n) =
      (Ok (Z.of_nat (length (subdirs (w_fs w) pending))), (w', n')) /\
    forall s, w_fs w !! (pending ++ [s]) = Some Dir -> s <> "/" -> forall rel,
      w_fs w' !! ((sent ++ [s]) ++ rel) = w_fs w !! ((pending ++ [s]) ++ rel) /\
      w_fs w' !! ((pending ++ [s]) ++ rel) = None.
Proof.
  intros Hf Hnm Hr Hsh Hacc.
  destruct (run_ships_all (fun _ _ => True) w n Hf Hnm Hr Hsh) as (w' & n' & Hrun & Hmv & _); [|done|by exists w', n'].
  intros i rq peer Hg _. by apply (accepting_accepts Hacc).
Qed.
End Run.
End ShipProgress.

(** C21. Clean-up is exact, for every retention a [u64] of days can express: when
    no call fails it removes the whole tree of every entry whose directory is
    older than the retention, counted in unbounded integers, and nothing else; in
    particular an absurdly large retention keeps everything.  Times are those of
    a clock past the epoch. *)
Theorem cleanup_sent_exact `{OS : Os} p days w :
  w_faults w = [] -> w_fs w !! p = Some Dir -> (0 <= first_reading w < 2 ^ 63 * 1000000000)%Z ->
  (0 <= days <= U64_MAX)%Z -> (forall e, (0 <= w_dir_mtime w e)%Z) ->
  exists w' : World, cleanup_sent p days w = (Ok tt, w') /\
    without (expired w p (first_reading w - days * 86400 * 1000000000)) (w_fs w) (w_fs w').
Proof.
  intros Hf Hp Hnow Hdays Hm. destruct (run_cleanup_sent p days w Hf Hp) as (w' & Hrun & _ & Hw). exists w'. split; [done|].
  assert (forall e, expired w p (first_reading w - days * 86400 * 1000000000) e <->
                    expired w p (sent_cutoff (first_reading w) days) e) as Hiff.
  { intros e. unfold expired. specialize (Hm e). destruct (sent_cutoff_exact (first_reading w) days Hnow Hdays) as [H1 H2].
    destruct (Z.le_gt_cases (days * 86400 * 1000000000) (first_reading w)) as [Hle|Hgt]; [by rewrite H1|].
    specialize (H2 Hgt). split; intros (? & ? & ?); split_and!; try done; lia. }
  intros q. destruct (Hw q) as [Ha Hb]. setoid_rewrite Hiff. by split.
Qed.

(** With no retention the old entry, whose directory is older, goes. *)
Lemma cleanup_sent_exact_witness : exists w', cleanup_sent ["/"; "s"; "sent"] 0 (spool_world []) = (Ok tt, w') /\
  without (expired (spool_world []) ["/"; "s"; "sent"] 200) spool_fs (w_fs w').
Proof.
  apply (cleanup_sent_exact ["/"; "s"; "sent"] 0 (spool_world []));
    [reflexivity|vm_compute; reflexivity|split; vm_compute; congruence|split; vm_compute; congruence|].
  intros e. cbn. lia.
Defined.

(** ** A spool that drains *)

Definition sample_compressed : CrashEnvelope ToyUuid ToyChrono * EnvelopeEncodings :=
  match compress_envelope ShipConfig_default spooled_envelope with Ok x => x | Err _ => (spooled_envelope, EnvelopeEncodings_none) end.

Definition sample_request : @HttpPost ToyUrl := {|
  hp_url := crash_url sample_endpoint; hp_authorization := as_bytes "Bearer tok";
  hp_content_type := "multipart/form-data; boundary=" +:+ DEFAULT_BOUNDARY;
  hp_body := (write_to_with_boundary_and_encodings sample_compressed.1 DEFAULT_BOUNDARY sample_compressed.2 []).2 |}.

Lemma sample_upload : upload_of sample_endpoint "tok" ShipConfig_default spooled_envelope sample_request.
Proof.
  split_and!; [done|done|done|]. exists sample_compressed.1, sample_compressed.2. split; [reflexivity|]. vm_compute. reflexivity.
Qed.

Lemma sample_complete s : s = "a" \/ s = "b" -> complete spool_fs ["/"; "s"; "pending"; s] spooled_envelope.
Proof.
  intros Hs. split; [split_and!|].
  - exists (metadata_to_vec_pretty spooled_metadata), 5%Z. split; [destruct Hs as [-> | ->]; vm_compute; reflexivity|].
    apply (metadata_from_to_vec_pretty spooled_metadata); [|reflexivity|unfold context_fits, RECURSION_LIMIT; cbn; lia|reflexivity].
    split; [unfold U32_MAX; cbn; lia|]. split; [reflexivity|]. repeat constructor; unfold U64_MAX; cbn; lia.
  - exists 5%Z. destruct Hs as [-> | ->]; vm_compute; reflexivity.
  - apply Forall2_cons. split; [|by apply Forall2_nil]. split_and!; [done|done|]. exists 5%Z.
    destruct Hs as [-> | ->]; vm_compute; reflexivity.
  - apply Forall_cons. split; [|by apply Forall_nil]. exists ["note.txt"]. by destruct Hs as [-> | ->].
Qed.

Lemma sample_shippable : shippable ["/"; "s"] sample_endpoint "tok" ShipConfig_default spool_fs.
Proof.
  intros e Hp He. exists spooled_envelope, sample_request. split; [|apply sample_upload].
  assert (e ∈ subdirs spool_fs ["/"; "s"; "pending"]) as Hin by (by apply elem_of_subdirs).
  assert (subdirs spool_fs ["/"; "s"; "pending"] ≡ₚ [["/"; "s"; "pending"; "a"]; ["/"; "s"; "pending"; "b"]]) as Hl.
  { apply (bool_decide_unpack _). vm_compute. exact I. }
  rewrite Hl, !elem_of_cons, elem_of_nil in Hin. destruct Hin as [-> | [-> | []]]; apply sample_complete; auto.
Qed.

Lemma sample_ready : spool_ready spool_fs ["/"; "s"].
Proof.
  assert (forall q c t, spool_fs !! q = Some (File c t) -> (4 <? length q)%nat = true) as Hf.
  { intros q c t Hq. pose proof (nodes_forall (fun q n => match n with File _ _ => (4 <? length q)%nat | Dir => true end) spool_fs) as H.
    apply (H ltac:(vm_compute; reflexivity) q _ Hq). }
  assert (forall q, (length q <= 4)%nat -> is_file spool_fs q = false) as Hn.
  { intros q Hq. unfold is_file. destruct (spool_fs !! q) as [[c t|]|] eqn:E; [|done|done].
    apply Hf, Nat.ltb_lt in E. lia. }
  split; [intros q Hq; apply Hn; apply prefix_length in Hq; cbn in Hq; lia|]. split; [by vm_compute|].
  split; [apply Hn; cbn; lia|]. split; [apply Hn; cbn; lia|]. intros s. apply Hn. cbn. lia.
Qed.

Lemma ship_delivers_everything_witness : exists w' n',
  ship_pending_with_client (N := unit) ["/"; "s"] sample_endpoint "tok" ShipConfig_default
    (spool_world [], {| net_peer := tt; net_log := [] |}) =
    (Ok (Z.of_nat (length (subdirs spool_fs ["/"; "s"; "pending"]))), (w', n')) /\
  forall s, spool_fs !! (["/"; "s"; "pending"] ++ [s]) = Some Dir -> s <> "/" -> forall rel,
    w_fs w' !! ((["/"; "s"; "sent"] ++ [s]) ++ rel) = spool_fs !! ((["/"; "s"; "pending"] ++ [s]) ++ rel) /\
    w_fs w' !! ((["/"; "s"; "pending"] ++ [s]) ++ rel) = None.
Proof.
  apply (ship_delivers_everything ["/"; "s"] sample_endpoint "tok" ShipConfig_default (spool_world [])).
  - reflexivity.
  - apply named_of_b. vm_compute. reflexivity.
  - exact sample_ready.
  - exact sample_shippable.
  - intros rq peer. eexists _, _. split; [reflexivity|]. split; reflexivity.
Defined.
