(* ===== verification/HookEntry.v ===== *)
(** * The panic hook's entries are complete: what it spools, the shipper reads back *)

From Stdlib Require Import Ascii.
From S2P Require Import Prelude RustStd Fs FsDir External Instances Json Protocol Rfc7578 Multipart Compression Spool PanicHook Shipper ClientInstances ShipSafety ShipProgress.

(** ** Filling a directory *)

(** [fs] is [fs0] with the directory [dir] holding exactly [files]. *)
Record holds (dir : Path) (files : list (string * bytes)) (fs0 fs : gmap Path Node) : Prop := {
  ho_dir : fs !! dir = Some Dir;
  ho_file : forall n b, (n, b) ∈ files -> exists t, fs !! (dir ++ [n]) = Some (File b t);
  ho_free : forall n, n ∉ files.*1 -> fs !! (dir ++ [n]) = None;
  ho_out : forall q c t, ~ dir `prefix_of` q -> fs0 !! q = Some (File c t) -> fs !! q = Some (File c t)
}.

Lemma holds_add dir files fs0 fs n b t :
  holds dir files fs0 fs -> n ∉ files.*1 -> holds dir (files ++ [(n, b)]) fs0 (<[dir ++ [n] := File b t]> fs).
Proof.
  intros [Hd Hf Hn Ho] Hnew. split.
  - rewrite lookup_insert_ne; [done|]. intros H. apply (f_equal length) in H. rewrite length_app in H. cbn in H. lia.
  - intros m c [Hin|Hin%list_elem_of_singleton]%elem_of_app.
    + destruct (decide (m = n)) as [->|Hne].
      * exfalso. apply Hnew, list_elem_of_fmap. by exists (n, c).
      * rewrite lookup_insert_ne; [by apply Hf|]. intros H. apply app_inj_tail in H as [_ H]. congruence.
    + injection Hin as -> ->. exists t. apply lookup_insert_eq.
  - intros m Hm. rewrite fmap_app, elem_of_app in Hm. rewrite lookup_insert_ne; [apply Hn; tauto|].
    intros H. apply app_inj_tail in H as [_ ->]. apply Hm. right. by left.
  - intros q c t' Hq H0. rewrite lookup_insert_ne; [by eapply Ho|]. intros <-. apply Hq. by apply prefix_app_r.
Qed.

(** Writing one more file, when nothing fails. *)
Lemma wpn_fs_write dir files fs0 n b (Q : Result unit io_error -> World -> Prop) w :
  w_faults w = [] -> holds dir files fs0 (w_fs w) -> n ∉ files.*1 -> n <> "/" ->
  (forall w', w_faults w' = [] -> times w' = times w -> holds dir (files ++ [(n, b)]) fs0 (w_fs w') -> Q (Ok tt) w') ->
  wp (fs_write (dir ++ [n]) b) Q w.
Proof.
  intros Hf Hh Hn Hs HQ. apply wp_bind, wpn_file_create; [done| | |].
  - by rewrite (ho_free _ _ _ _ Hh).
  - eapply parent_is_dir_of; [by apply parent_snoc|apply Hh].
  - apply wpn_write_all; [done|]. apply HQ; [done|done|]. cbn [w_fs with_fs w_now]. unfold append_to.
    rewrite lookup_insert_eq, insert_insert_eq. cbn. by apply holds_add.
Qed.

Lemma wpn_fs_read p c t (Q : Result bytes io_error -> World -> Prop) w :
  w_faults w = [] -> w_fs w !! p = Some (File c t) -> Q (Ok c) w -> wp (fs_read p) Q w.
Proof. intros Hf Hp HQ. unfold wp. by erewrite run_fs_read. Qed.

Section HookEntry.
Context {U : UuidApi} {UL : UuidLaws U} {C : ChronoApi} {CL : ChronoLaws C} {J : JsonText} {JL : JsonTextLaws J}
  {UR : UrlApi} {URL : UrlLaws UR} {T : TarApi}.

Definition content (fs : gmap Path Node) (p : Path) : bytes :=
  match fs !! p with Some (File c _) => c | _ => [] end.

(** The names and contents of the context files' copies, and their manifests. *)
Definition context_copies (config : PanicHookConfig) (fs : gmap Path Node) : list (string * bytes) :=
  imap (fun i p => (context_filename i p, content fs p)) (ph_context_files config).

Definition context_manifest (i : nat) (nb : string * bytes) : AttachmentManifest :=
  {| am_key := "context-" +:+ Z_to_string (Z.of_nat i); am_filename := Some nb.1;
     am_content_type := "application/json"; am_len := len_u64 nb.2 |}.

Definition context_manifests (config : PanicHookConfig) (fs : gmap Path Node) : list AttachmentManifest :=
  imap context_manifest (context_copies config fs).

Definition attachment_from (m : AttachmentManifest) (b : bytes) : CrashAttachment :=
  {| ca_key := am_key m; ca_content_type := am_content_type m; ca_bytes := b |}.

Definition context_attachments (config : PanicHookConfig) (fs : gmap Path Node) : list CrashAttachment :=
  imap (fun i nb => attachment_from (context_manifest i nb) nb.2) (context_copies config fs).

(** What the hook needs of the file system: the context files can be read, their
    copies have names of their own, and the entry's directory is new. *)
Record hook_ready (config : PanicHookConfig) (dir : Path) (fs : gmap Path Node) : Prop := {
  hr_above : forall q, q `prefix_of` dir -> is_file fs q = false;
  hr_new : forall n, fs !! (dir ++ [n]) = None;
  hr_read : Forall (fun p => (exists c t, fs !! p = Some (File c t)) /\ ~ dir `prefix_of` p) (ph_context_files config);
  hr_names : Forall (fun n => normal_component n = true) (context_copies config fs).*1;
  hr_distinct : NoDup (["metadata.json"; "dump.bin"; "sdk-config.json"] ++ (context_copies config fs).*1)
}.

Lemma wpn_copy_context_files config dir fs0 (Q : Result (list AttachmentManifest) io_error -> World -> Prop) w :
  w_faults w = [] -> hook_ready config dir fs0 -> holds dir [] fs0 (w_fs w) ->
  (forall w', w_faults w' = [] -> times w' = times w -> holds dir (context_copies config fs0) fs0 (w_fs w') ->
     Q (Ok (context_manifests config fs0)) w') ->
  wp (copy_context_files config dir) Q w.
Proof.
  intros Hf Hr Hh HQ. unfold copy_context_files. set (l := imap pair (ph_context_files config)).
  apply (wp_fold _ (fun acc xs w' => exists k, xs = drop k l /\ acc = take k (context_manifests config fs0) /\
    w_faults w' = [] /\ times w' = times w /\ holds dir (take k (context_copies config fs0)) fs0 (w_fs w'))).
  - intros acc [i p] xs w1 (k & Hxs & -> & Hf1 & Ht1 & Hh1).
    assert (l !! k = Some (i, p)) as Hk.
    { rewrite <- (Nat.add_0_r k), <- lookup_drop, <- Hxs. done. }
    unfold l in Hk. rewrite list_lookup_imap_Some in Hk. destruct Hk as (p' & Hp & [= -> ->]).
    destruct (proj1 (Forall_lookup _ _) (hr_read _ _ _ Hr) _ _ Hp) as ((c & t & Hc) & Hout).
    assert (context_copies config fs0 !! k = Some (context_filename k p', c)) as Hcopy.
    { unfold context_copies. rewrite list_lookup_imap, Hp. cbn. unfold content. by rewrite Hc. }
    assert (context_manifests config fs0 !! k = Some (context_manifest k (context_filename k p', c))) as Hman.
    { unfold context_manifests. rewrite list_lookup_imap, Hcopy. done. }
    assert (normal_component (context_filename k p') = true) as Hnm.
    { eapply (Forall_lookup_1 (fun n => normal_component n = true) _ k); [apply (hr_names _ _ _ Hr)|].
      by rewrite list_lookup_fmap, Hcopy. }
    assert (context_filename k p' ∉ (take k (context_copies config fs0)).*1) as Hfresh.
    { pose proof (hr_distinct _ _ _ Hr) as Hnd. apply NoDup_app in Hnd as (_ & _ & Hnd).
      rewrite <- (take_drop k (context_copies config fs0)), fmap_app in Hnd. apply NoDup_app in Hnd as (_ & Hd & _).
      intros Hin. apply (Hd _ Hin). rewrite (drop_S _ _ _ Hcopy). left. }
    apply wp_bind. unfold copy_context_file. rewrite join_normal by done.
    apply wp_bind, (wpn_fs_read _ c t); [done|by apply (ho_out _ _ _ _ Hh1)|].
    apply wp_bind, (wpn_fs_write dir (take k (context_copies config fs0)) fs0); [done|done|done|by intros E; rewrite E in Hnm|].
    intros w2 Hf2 Ht2 Hh2. apply wp_ret, wp_ret. exists (S k). split_and!; [|symmetry; by apply take_S_r|done|congruence|].
    + rewrite <- Nat.add_1_r, <- drop_drop, <- Hxs. done.
    + by rewrite (take_S_r _ _ _ Hcopy).
  - intros acc w1 (k & Hk & -> & Hf1 & Ht1 & Hh1).
    assert (length l <= k)%nat as Hlen.
    { pose proof (f_equal length Hk) as H. rewrite length_drop in H. cbn in H. lia. }
    assert (length l = length (context_copies config fs0)) as Hl by (unfold l, context_copies; by rewrite !length_imap).
    rewrite take_ge in Hh1 by lia. rewrite take_ge by (unfold context_manifests; rewrite length_imap; lia).
    by apply HQ.
  - by exists 0%nat.
Qed.

(** Metadata the reader gives back as written. *)
Definition readable (m : CrashMetadata U C) : Prop :=
  metadata_wf m /\ value_ok (ser_CrashMetadata m) = true /\ context_fits m /\ json_exact (context m) = true.

Definition named_file (files : list (string * bytes)) (m : AttachmentManifest) (a : CrashAttachment) : Prop :=
  ca_key a = am_key m /\ ca_content_type a = am_content_type m /\
  exists n, am_filename m = Some n /\ normal_component n = true /\ (n, ca_bytes a) ∈ files.

Lemma holds_complete dir files fs0 fs m d atts :
  holds dir files fs0 fs -> ("metadata.json", metadata_to_vec_pretty m) ∈ files -> ("dump.bin", d) ∈ files ->
  Forall2 (named_file files) (md_attachments m) atts -> readable m ->
  complete fs dir {| ce_metadata := m; ce_dump := d; ce_attachments := atts |}.
Proof using UL CL JL.
  intros Hh Hm Hd HF (Hwf & Hok & Hfit & Hex). unfold complete, envelope_at, stored_attachments. cbn [ce_metadata ce_dump ce_attachments].
  split; [split_and!|].
  - destruct (ho_file _ _ _ _ Hh _ _ Hm) as [t Ht]. eexists _, t. split; [done|]. by apply metadata_from_to_vec_pretty.
  - by apply (ho_file _ _ _ _ Hh).
  - clear Hwf Hok Hfit Hex Hm. induction HF as [|man a l l' (Hk & Hc & n & Hn & Hnn & Hin) HF IH]; [by apply Forall2_nil|].
    cbn [omap list_omap]. rewrite Hn. cbn. rewrite join_normal by done. apply Forall2_cons. split; [|done].
    destruct (ho_file _ _ _ _ Hh _ _ Hin) as [t Ht]. split_and!; [done|done|]. by exists t.
  - clear Hwf Hok Hfit Hex Hm. induction HF as [|man a l l' (Hk & Hc & n & Hn & Hnn & Hin) HF IH]; [by apply Forall_nil|].
    cbn [omap list_omap]. rewrite Hn. cbn. rewrite join_normal by done. apply Forall_cons. split; [|done].
    cbn. by apply prefix_app_r.
Qed.

Lemma contexts_named_files config dir fs files :
  hook_ready config dir fs -> (forall x, x ∈ context_copies config fs -> x ∈ files) ->
  Forall2 (named_file files) (context_manifests config fs) (context_attachments config fs).
Proof.
  intros Hr Hin. unfold context_manifests, context_attachments.
  pose proof (hr_names _ _ _ Hr) as Hn. revert Hn Hin. generalize (context_copies config fs). intros l.
  assert (forall (f : nat -> string * bytes -> AttachmentManifest),
    (forall i nb, am_filename (f i nb) = Some nb.1) ->
    Forall (fun n => normal_component n = true) l.*1 -> (forall x, x ∈ l -> x ∈ files) ->
    Forall2 (named_file files) (imap f l) (imap (fun i nb => attachment_from (f i nb) nb.2) l)) as H; [|by apply H].
  induction l as [|[n b] l IH]; intros f Hf Hn Hin; [by apply Forall2_nil|].
  cbn [imap]. apply Forall_cons in Hn as [Hn Hnl]. apply Forall2_cons. split.
  - split_and!; [done|done|]. exists n. split_and!; [apply Hf|done|]. apply Hin. by left.
  - apply (IH (f ∘ S)); [intros; apply Hf|done|]. intros x Hx. apply Hin. by right.
Qed.

Lemma uuid_normal (u : Uuid) : normal_component (uuid_to_string u) = true.
Proof using UL.
  unfold normal_component. rewrite uuid_no_slash. pose proof (uuid_text_length u) as Hl.
  destruct (uuid_to_string u) as [|a [|b r]]; try done. by destruct a as [[] [] [] [] [] [] [] []].
Qed.

(** The metadata and the envelope a panic makes. *)
Definition hook_metadata (config : PanicHookConfig) (text : string) (now : Z) (fs : gmap Path Node) : CrashMetadata U C :=
  with_attachments
    (with_attachments
       (with_panic_text (CrashMetadata_new (ph_source config) (datetime_of now) (panic_crash_kind (ph_kind config))
                           (ph_build config) (ph_context config)) text)
       [sdk_config_manifest config])
    (context_manifests config fs).

Definition stored_text (config : PanicHookConfig) : bytes :=
  json_print_pretty (ser_StoredUploadConfig (from_config config)).

Definition hook_envelope (config : PanicHookConfig) (text : string) (dump : bytes) (now : Z) (fs : gmap Path Node)
  : CrashEnvelope U C :=
  {| ce_metadata := hook_metadata config text now fs; ce_dump := dump;
     ce_attachments := attachment_from (sdk_config_manifest config) (stored_text config) :: context_attachments config fs |}.

Definition entry_dir (config : PanicHookConfig) (n : nat) : Path :=
  (ph_spool_dir config ++ ["pending"]) ++ [uuid_to_string (new_v4 n)].

Lemma not_in_snoc (n k : string) (b : bytes) files : n ∉ files.*1 -> n <> k -> n ∉ (files ++ [(k, b)]).*1.
Proof. intros H1 H2. rewrite fmap_app. intros [?|[=]%list_elem_of_singleton]%elem_of_app; done. Qed.

Lemma wpn_write_entry config dir fs0 m dump files (Q : Result unit io_error -> World -> Prop) w :
  w_faults w = [] -> holds dir files fs0 (w_fs w) ->
  NoDup (["metadata.json"; "dump.bin"; "sdk-config.json"] ++ files.*1) ->
  (forall w', w_faults w' = [] ->
     holds dir (((files ++ [("metadata.json", metadata_to_vec_pretty m)]) ++ [("dump.bin", dump)]) ++ [("sdk-config.json", stored_text config)])
       fs0 (w_fs w') -> Q (Ok tt) w') ->
  wp (write_entry config dir m dump) Q w.
Proof.
  intros Hf Hh Hnd HQ. cbn [app] in Hnd.
  apply NoDup_cons in Hnd as [H1 [H2 [H3 _]%NoDup_cons]%NoDup_cons]. rewrite !elem_of_cons in *.
  unfold write_entry. rewrite !join_normal by done.
  apply wp_bind, (wpn_fs_write dir files fs0); [done|done|tauto|done|]. intros w1 Hf1 _ Hh1.
  apply wp_bind, (wpn_fs_write dir _ fs0 _ _ _ _ Hf1 Hh1); [apply not_in_snoc; [tauto|done]|done|].
  intros w2 Hf2 _ Hh2. apply (wpn_fs_write dir _ fs0 _ _ _ _ Hf2 Hh2); [do 2 (apply not_in_snoc; [|done]); tauto|done|].
  intros w3 Hf3 _ Hh3. by apply HQ.
Qed.

Lemma holds_init dir fs : dir <> [] -> (forall q, q `prefix_of` dir -> is_file fs q = false) ->
  (forall n, fs !! (dir ++ [n]) = None) -> holds dir [] fs (foldl add_dir fs (ancestors dir)).
Proof.
  intros Hne Hab Hnew. split.
  - by apply add_dirs_dir.
  - by intros n b ?%elem_of_nil.
  - intros n _. rewrite foldl_add_dir_lookup, Hnew, decide_False; [done|].
    intros Hin%ancestors_prefix%prefix_length. rewrite length_app in Hin. cbn in Hin. lia.
  - intros q c t _ Hq. by rewrite foldl_add_dir_lookup, Hq.
Qed.

Lemma stored_at_holds config dir files fs0 fs :
  holds dir files fs0 fs -> ("sdk-config.json", stored_text config) ∈ files ->
  (0 <= ph_sent_retention_days config <= U64_MAX)%Z ->
  stored_at fs dir (ph_endpoint config) (ph_sent_retention_days config).
Proof using JL URL.
  intros Hh Hin Hd. destruct (ho_file _ _ _ _ Hh _ _ Hin) as [t Ht].
  eexists _, t, (ser_StoredUploadConfig (from_config config)), (from_config config). split_and!; [done| | |apply url_parse_to_string|done].
  - apply json_parse_print_pretty; [|done]. unfold ser_StoredUploadConfig. cbn [value_ok forallb fst snd].
    change (text_ok (suc_endpoint (from_config config))) with (utf8_valid (as_bytes (url_to_string (ph_endpoint config)))).
    rewrite url_text. cbn [number_ok suc_sent_retention_days from_config].
    change (text_ok "endpoint") with true. change (text_ok "sent_retention_days") with true.
    by rewrite (proj2 (Z.leb_le _ _) (proj1 Hd)), (proj2 (Z.leb_le _ _) (proj2 Hd)).
  - unfold de_StoredUploadConfig, ser_StoredUploadConfig. rewrite de_struct_NoDup by closed_keys.
    unfold field_req. cbn. unfold de_uint. by rewrite (proj2 (Z.leb_le _ _) (proj2 Hd)).
Qed.

(** C19. A panic leaves a crash the shipper can ship: the hook succeeds, and its
    entry holds the metadata, the tarball, the upload configuration and a copy of
    every context file: reading it back gives exactly that envelope, and the
    stored endpoint and retention.  The conditions: no file-system call fails and
    nothing is in the way of the entry's directory; the tarball can be built; the
    context files exist, are outside the entry, and their file names differ from
    each other and from [metadata.json], [dump.bin] and [sdk-config.json]; and the
    metadata is representable in JSON, without floating-point numbers in the
    context. *)
Theorem hook_entry_complete config env info dump w :
  let dir := entry_dir config (w_uuids w) in let text := panic_text_of info in
  w_faults w = [] -> hook_ready config dir (w_fs w) -> panic_tarball env text = Ok dump ->
  (0 <= ph_sent_retention_days config <= U64_MAX)%Z ->
  readable (hook_metadata config text (first_reading w) (w_fs w)) ->
  exists w', write_pending_crash config env info w = (Ok tt, w') /\ w_faults w' = [] /\
    read_envelope dir w' = (Ok (hook_envelope config text dump (first_reading w) (w_fs w)), w') /\
    complete (w_fs w') dir (hook_envelope config text dump (first_reading w) (w_fs w)) /\
    stored_at (w_fs w') dir (ph_endpoint config) (ph_sent_retention_days config).
Proof using UL CL JL URL.
  intros dir text Hf Hr Ht Hd Hrd. set (e := hook_envelope _ _ _ _ _).
  enough (wp (write_pending_crash config env info) (fun r w' => r = Ok tt /\ w_faults w' = [] /\
    complete (w_fs w') dir e /\ stored_at (w_fs w') dir (ph_endpoint config) (ph_sent_retention_days config)) w) as H.
  { unfold wp in H. destruct (write_pending_crash config env info w) as [r w']. cbn [fst snd] in H.
    destruct H as (-> & Hf' & Hc & Hs). exists w'. split_and!; [done|done| |done|done]. by apply run_read_envelope, Hc. }
  unfold write_pending_crash. apply wp_bind. unfold wp at 1, spool_uuid. cbn [fst snd].
  rewrite (join_normal (ph_spool_dir config)), join_normal by (done || apply uuid_normal). fold (entry_dir config (w_uuids w)). fold dir.
  apply wp_bind, wpn_create_dir_all; [done|apply Hr|]. cbn [w_fs with_fs].
  set (w1 := with_fs _ _).
  assert (holds dir [] (w_fs w) (w_fs w1)) as Hh1.
  { apply holds_init; [unfold dir, entry_dir; by destruct (ph_spool_dir config)|apply Hr|apply Hr]. }
  fold text. apply wp_bind, wp_lift.
  replace (match ph_kind config with KindMinidump => panic_tarball env text | KindPanicTarball => panic_tarball env text end)
    with (@Ok _ io_error dump) by (destruct (ph_kind config); congruence).
  apply wp_bind. unfold wp at 1. 
  destruct (@system_time_now io_error w1) as [r w2] eqn:E2.
  assert (r = Ok (first_reading w) /\ w_faults w2 = [] /\ w_fs w2 = w_fs w1) as (-> & Hf2 & Hfs2).
  { unfold system_time_now in E2. cbn [w1 with_fs w_clock w_now] in E2. unfold first_reading.
    destruct (w_clock w); injection E2 as <- <-; done. }
  cbn [fst snd]. apply wp_bind, (wpn_copy_context_files config dir (w_fs w)); [done|done|by rewrite Hfs2|].
  intros w3 Hf3 _ Hh3. apply (wpn_write_entry _ dir (w_fs w) _ _ (context_copies config (w_fs w))); [done|done|apply Hr|].
  intros w4 Hf4 Hh4. split_and!; [done|done| |eapply stored_at_holds; [done| |done]; set_solver].
  eapply holds_complete; [done|set_solver|set_solver| |exact Hrd].
  cbn [md_attachments hook_metadata with_attachments with_panic_text CrashMetadata_new app].
  apply Forall2_cons. split.
  - split_and!; [done|done|]. exists "sdk-config.json". split_and!; [done|done|]. set_solver.
  - eapply contexts_named_files; [done|]. set_solver.
Qed.
End HookEntry.

(** ** A concrete panic *)

Definition hook_config : @PanicHookConfig ToyUuid ToyUrl := {|
  ph_endpoint := sample_endpoint; ph_token := "tok"; ph_source := md_source spooled_metadata; ph_spool_dir := ["/"; "s"];
  ph_kind := KindPanicTarball; ph_build := build spooled_metadata; ph_context := Null;
  ph_context_files := [["/"; "app.json"]]; ph_sent_retention_days := 3 |}.

Definition hook_fs : gmap Path Node := list_to_map [(["/"], Dir); (["/"; "app.json"], File (as_bytes "{}") 4)].

Definition hook_world : World :=
  {| w_fs := hook_fs; w_now := 7; w_clock := []; w_faults := []; w_uuids := 0; w_dir_mtime := fun _ => 0%Z |}.

Definition sample_panic : PanicInfo := {| pi_payload := PayloadStr "boom"; pi_location := Some ("main.rs", 3, 9)%Z |}.

Definition sample_env : ProcessEnv :=
  {| pe_backtrace := "bt"; pe_args := ["app"]; pe_current_dir := Some "/"; pe_os := "linux"; pe_arch := "x86_64" |}.

Definition sample_dump : bytes :=
  match panic_tarball sample_env (panic_text_of sample_panic) with Ok d => d | Err _ => [] end.

Lemma hook_fs_shallow q n : hook_fs !! q = Some n -> (length q <=? 2)%nat = true.
Proof. apply (nodes_forall (fun q _ => length q <=? 2)%nat). vm_compute. reflexivity. Qed.

Definition only_app_json (q : Path) (n : Node) : bool :=
  match n with Dir => true | File _ _ => bool_decide (q = ["/"; "app.json"]) end.

Lemma hook_fs_files q c t : hook_fs !! q = Some (File c t) -> q = ["/"; "app.json"].
Proof.
  intros E. pose proof (nodes_forall only_app_json hook_fs) as H. specialize (H ltac:(vm_compute; reflexivity) _ _ E).
  by apply bool_decide_eq_true in H.
Qed.

Lemma sample_hook_ready : hook_ready hook_config (entry_dir hook_config 0) hook_fs.
Proof.
  split.
  - intros q Hq. unfold is_file. destruct (hook_fs !! q) as [[c t|]|] eqn:E; [|done|done].
    apply hook_fs_files in E as ->. destruct Hq as [k Hk]. discriminate Hk.
  - intros n. destruct (hook_fs !! _) eqn:E; [|done]. apply hook_fs_shallow, Nat.leb_le in E. cbn in E. lia.
  - apply Forall_cons. split; [|by apply Forall_nil]. split; [exists (as_bytes "{}"), 4%Z; reflexivity|].
    intros Hp%prefix_length. cbn in Hp. lia.
  - apply Forall_cons. split; [reflexivity|by apply Forall_nil].
  - apply (bool_decide_unpack _). vm_compute. exact I.
Qed.

Lemma hook_entry_complete_witness : exists w',
  write_pending_crash hook_config sample_env sample_panic hook_world = (Ok tt, w') /\ w_faults w' = [] /\
  read_envelope (entry_dir hook_config 0) w' =
    (Ok (hook_envelope hook_config (panic_text_of sample_panic) sample_dump 7 hook_fs), w') /\
  complete (w_fs w') (entry_dir hook_config 0) (hook_envelope hook_config (panic_text_of sample_panic) sample_dump 7 hook_fs) /\
  stored_at (w_fs w') (entry_dir hook_config 0) (ph_endpoint hook_config) 3.
Proof.
  apply (hook_entry_complete hook_config sample_env sample_panic sample_dump hook_world).
  - reflexivity.
  - exact sample_hook_ready.
  - vm_compute. reflexivity.
  - unfold U64_MAX. cbn. lia.
  - split; [|split; [vm_compute; reflexivity|split; [unfold context_fits, RECURSION_LIMIT; cbn; lia|reflexivity]]].
    split; [split; apply Z.leb_le; vm_compute; reflexivity|]. split; [reflexivity|].
    apply Forall_cons. split; [split; apply Z.leb_le; vm_compute; reflexivity|].
    apply Forall_cons. split; [split; apply Z.leb_le; vm_compute; reflexivity|by apply Forall_nil].
Defined.
