(* ===== verification/Layer.v ===== *)
(** * detritus-client/src/layer.rs: the tracing layer and its exporter

    Tonic's transport is a parameter with a state [N] of its own: connecting,
    and exporting a request.  Either may take longer than the flush timeout.
    Programs run on the world and on [Rpc]: the peer, the cached channel, and
    the export attempts so far. *)

From Stdlib Require Import Ascii SpecFloat.
From S2P Require Import Prelude RustStd Fs FsDir External Instances F64 Json Protocol Otlp Spool PanicHook.

Definition DEFAULT_BATCH_SIZE : Z := 256.
Definition DEFAULT_FLUSH_INTERVAL : Z := 5 * 1000000000.
Definition DEFAULT_FLUSH_TIMEOUT : Z := 2 * 1000000000.
Definition DEFAULT_CHANNEL_CAPACITY : nat := N.to_nat 4096.

Inductive LayerError :=
| MissingEndpoint
| MissingToken
| MissingSource
| MissingQueueDir
| WorkerStopped
| FlushError (message : string).

Inductive CompressionEncoding := Gzip | Zstd.

(** ** Events *)

Inductive Level := ERROR | WARN | INFO | DEBUG | TRACE.

Definition Level_to_string (l : Level) : string :=
  match l with ERROR => "ERROR" | WARN => "WARN" | INFO => "INFO" | DEBUG => "DEBUG" | TRACE => "TRACE" end.

(** What a field is recorded with; [VDebug] carries the text of [{value:?}]. *)
Inductive FieldValue :=
| VDebug (text : string)
| VStr (s : string)
| VI64 (z : Z)
| VU64 (z : Z)
| VBool (b : bool).

Record Event := { ev_name : string; ev_target : string; ev_level : Level; ev_fields : list (string * FieldValue) }.

Record EventVisitor := { ev_message : option string; ev_visited : list (string * string) }.

Definition EventVisitor_default : EventVisitor := {| ev_message := None; ev_visited := [] |}.

Definition push_field (v : EventVisitor) (name value : string) : EventVisitor :=
  {| ev_message := ev_message v; ev_visited := ev_visited v ++ [(name, value)] |}.

Definition record_text (v : EventVisitor) (name value : string) : EventVisitor :=
  push_field {| ev_message := if String.eqb name "message" then Some value else ev_message v;
                ev_visited := ev_visited v |} name value.

Definition record_field (v : EventVisitor) (f : string * FieldValue) : EventVisitor :=
  match f.2 with
  | VDebug text => record_text v f.1 text
  | VStr s => record_text v f.1 s
  | VI64 z => push_field v f.1 (Z_to_string z)
  | VU64 z => push_field v f.1 (Z_to_string z)
  | VBool b => push_field v f.1 (if b then "true" else "false")
  end.

Definition owned_string_attr (key value : string) : KeyValue :=
  {| kv_key := key; kv_value := Some (Some (StringValue value)) |}.

Definition string_attr (key value : string) : KeyValue := owned_string_attr key value.

(** [SystemTime] to nanoseconds: times before the epoch are zero, others saturate. *)
Definition unix_nanos (time : Z) : Z := Z.min (Z.max 0 time) U64_MAX.

Definition severity_number_of (l : Level) : Z :=
  match l with ERROR => 17 | WARN => 13 | INFO => 9 | DEBUG => 5 | TRACE => 1 end.

Definition event_to_log_record {E : Type} (event : Event) : IO E LogRecord :=
  let! t := system_time_now in
  let now := unix_nanos t in
  let visitor := foldl record_field EventVisitor_default (ev_fields event) in
  let fields := ev_visited visitor in
  let body := match ev_message visitor with
              | Some m => m
              | None => match find (fun kv => String.eqb kv.1 "message") fields with
                        | Some kv => kv.2
                        | None => ev_name event
                        end
              end in
  let attributes := ((fun kv => owned_string_attr kv.1 kv.2) <$> fields)
                      ++ [string_attr "target" (ev_target event); string_attr "name" (ev_name event)] in
  io_ret {| time_unix_nano := now; observed_time_unix_nano := now;
            severity_number := severity_number_of (ev_level event);
            severity_text := Level_to_string (ev_level event);
            lr_body := Some (Some (StringValue body)); lr_attributes := attributes;
            lr_dropped_attributes_count := 0; lr_flags := 0; trace_id := []; span_id := [];
            event_name := ev_name event |}.

(** ** Sampling *)

Definition f64_one : f64 := f64_of_Z 1.
Definition f64_zero : f64 := f64_of_Z 0.

(** [f64::clamp]: a NaN stays. *)
Definition f64_clamp (x lo hi : f64) : f64 :=
  let x := if SFltb x lo then lo else x in if SFltb hi x then hi else x.

Definition should_sample (sample_rate : f64) (record : LogRecord) : bool :=
  if SFleb f64_one sample_rate then true
  else if SFleb sample_rate f64_zero then false
  else let bucket := (time_unix_nano record mod 10000)%Z in
       SFltb (SFdiv 53 1024 (f64_of_Z bucket) (f64_of_Z 10000)) sample_rate.

(** ** The transport *)

(** A future under [tokio::time::timeout]. *)
Inductive Timed (A : Type) := InTime (a : A) | TimedOut.
Arguments InTime {_}.
Arguments TimedOut {_}.

(** What Tonic sends: the metadata, the timeout and the message. *)
Record GrpcRequest := {
  gr_version : bytes;
  gr_authorization : bytes;
  gr_timeout : Z;
  gr_compression : option CompressionEncoding;
  gr_message : ExportLogsServiceRequest
}.

(** tonic: [metadata_value] is [MetadataValue::try_from]; [status_internal] and
    [status_unavailable] are the text of such a [Status] with a message;
    connecting takes the endpoint's text, the timeout and the TLS options; errors
    are their text. *)
Class TonicApi (N : Type) := {
  TlsConfig : Type;
  metadata_value : string -> option bytes;
  status_internal : string -> string;
  status_unavailable : string -> string;
  grpc_connect : string -> Z -> option TlsConfig -> N -> Timed (Result unit string) * N;
  grpc_export : GrpcRequest -> N -> Timed (Result unit string) * N
}.

Section Layer.
Context {U : UuidApi} {UR : UrlApi} {P : ProstApi} {OS : Os} {N : Type} {TN : TonicApi N}.

Record LayerBuilder := {
  lb_endpoint : option Url;
  lb_token : option string;
  lb_source : option (SourceId U);
  lb_batch_size : Z;
  lb_flush_interval : Z;
  lb_flush_timeout : Z;
  lb_queue_dir : option Path;
  lb_sample_rate : f64;
  lb_compression : option CompressionEncoding;
  lb_tls_config : option TlsConfig
}.

Definition LayerBuilder_default : LayerBuilder :=
  {| lb_endpoint := None; lb_token := None; lb_source := None; lb_batch_size := DEFAULT_BATCH_SIZE;
     lb_flush_interval := DEFAULT_FLUSH_INTERVAL; lb_flush_timeout := DEFAULT_FLUSH_TIMEOUT;
     lb_queue_dir := None; lb_sample_rate := f64_one; lb_compression := None; lb_tls_config := None |}.

(** The setters. *)
Inductive Setting :=
| SetEndpoint (endpoint : Url)
| SetToken (token : string)
| SetSource (source : SourceId U)
| SetBatchSize (batch_size : Z)
| SetFlushInterval (flush_interval : Z)
| SetFlushTimeout (flush_timeout : Z)
| SetQueueDir (queue_dir : Path)
| SetSampleRate (sample_rate : f64)
| SetCompression (encoding : CompressionEncoding)
| SetTlsConfig (config : TlsConfig).

Definition set_builder (b : LayerBuilder) (s : Setting) : LayerBuilder :=
  {| lb_endpoint := match s with SetEndpoint x => Some x | _ => lb_endpoint b end;
     lb_token := match s with SetToken x => Some x | _ => lb_token b end;
     lb_source := match s with SetSource x => Some x | _ => lb_source b end;
     lb_batch_size := match s with SetBatchSize x => Z.max x 1 | _ => lb_batch_size b end;
     lb_flush_interval := match s with SetFlushInterval x => x | _ => lb_flush_interval b end;
     lb_flush_timeout := match s with SetFlushTimeout x => x | _ => lb_flush_timeout b end;
     lb_queue_dir := match s with SetQueueDir x => Some x | _ => lb_queue_dir b end;
     lb_sample_rate := match s with SetSampleRate x => f64_clamp x f64_zero f64_one | _ => lb_sample_rate b end;
     lb_compression := match s with SetCompression x => Some x | _ => lb_compression b end;
     lb_tls_config := match s with SetTlsConfig x => Some x | _ => lb_tls_config b end |}.

(** The worker's configuration. *)
Record Worker := {
  wk_endpoint : Url;
  wk_token : string;
  wk_source : SourceId U;
  wk_batch_size : Z;
  wk_flush_interval : Z;
  wk_flush_timeout : Z;
  wk_queue_dir : Path;
  wk_sample_rate : f64;
  wk_compression : option CompressionEncoding;
  wk_tls_config : option TlsConfig
}.

(** [build], up to spawning the worker. *)
Definition build (b : LayerBuilder) : Result Worker LayerError :=
  let? endpoint := ok_or (lb_endpoint b) MissingEndpoint in
  let? token := ok_or (lb_token b) MissingToken in
  let? source := ok_or (lb_source b) MissingSource in
  let? queue_dir := ok_or (lb_queue_dir b) MissingQueueDir in
  Ok {| wk_endpoint := endpoint; wk_token := token; wk_source := source; wk_batch_size := lb_batch_size b;
        wk_flush_interval := lb_flush_interval b; wk_flush_timeout := lb_flush_timeout b;
        wk_queue_dir := queue_dir; wk_sample_rate := lb_sample_rate b; wk_compression := lb_compression b;
        wk_tls_config := lb_tls_config b |}.

(** ** Exporting *)

Record Rpc := {
  rpc_peer : N;
  rpc_channel : bool;
  rpc_log : list (ExportLogsServiceRequest * Timed (Result unit string))
}.

Definition Exp (E A : Type) : Type := ST (World * Rpc) E A.

Definition exp_io {E A : Type} (m : IO E A) : Exp E A :=
  fun wr => let (r, w') := m wr.1 in (r, (w', wr.2)).

Definition CARGO_PKG_VERSION : string := "0.2.0".

Definition export_request_for (source : SourceId U) (records : list LogRecord) : ExportLogsServiceRequest :=
  {| resource_logs := [
       {| rl_resource := Some {|
            res_attributes := [
              string_attr "source.project" (src_project source);
              string_attr "source.platform" (src_platform source);
              string_attr "source.version" (src_version source);
              string_attr "source.install_id" (uuid_to_string (src_install_id source))];
            res_dropped_attributes_count := 0; res_entity_refs := [] |};
          scope_logs := [
            {| sl_scope := Some {| is_name := "detritus-client"; is_version := CARGO_PKG_VERSION;
                                   is_attributes := []; is_dropped_attributes_count := 0 |};
               log_records := records; sl_schema_url := "" |}];
          rl_schema_url := "" |}] |}.

(** [get_or_try_init]: only a successful connection is kept. *)
Definition get_channel (wk : Worker) (rpc : Rpc) : Timed (Result unit string) * Rpc :=
  if rpc_channel rpc then (InTime (Ok tt), rpc)
  else
    let (o, peer) := grpc_connect (url_to_string (wk_endpoint wk)) (wk_flush_timeout wk) (wk_tls_config wk) (rpc_peer rpc) in
    match o with
    | InTime (Ok _) => (InTime (Ok tt), {| rpc_peer := peer; rpc_channel := true; rpc_log := rpc_log rpc |})
    | InTime (Err error) =>
        (InTime (Err (status_unavailable
           ("failed to connect to observability endpoint " +:+ url_to_string (wk_endpoint wk) +:+ ": " +:+ error))),
         {| rpc_peer := peer; rpc_channel := false; rpc_log := rpc_log rpc |})
    | TimedOut => (TimedOut, {| rpc_peer := peer; rpc_channel := false; rpc_log := rpc_log rpc |})
    end.

Definition grpc_request (wk : Worker) (request : ExportLogsServiceRequest) : Result GrpcRequest string :=
  let? version := ok_or (metadata_value (Z_to_string PROTOCOL_VERSION))
                        (status_internal "protocol version is not a valid gRPC metadata value") in
  let? authorization := ok_or (metadata_value ("Bearer " +:+ wk_token wk))
                              (status_internal "authorization bearer token is not a valid HTTP header value") in
  Ok {| gr_version := version; gr_authorization := authorization; gr_timeout := wk_flush_timeout wk;
        gr_compression := wk_compression wk; gr_message := request |}.

Definition export_request (wk : Worker) (request : ExportLogsServiceRequest) (rpc : Rpc)
  : Timed (Result unit string) * Rpc :=
  let (o, rpc) := get_channel wk rpc in
  match o with
  | TimedOut => (TimedOut, rpc)
  | InTime (Err error) => (InTime (Err error), rpc)
  | InTime (Ok _) =>
      match grpc_request wk request with
      | Err error => (InTime (Err error), rpc)
      | Ok rq => let (o, peer) := grpc_export rq (rpc_peer rpc) in
                 (o, {| rpc_peer := peer; rpc_channel := rpc_channel rpc; rpc_log := rpc_log rpc |})
      end
  end.

(** [tokio::time::timeout(flush_timeout, self.export_request(request))]; the
    attempt is noted in the log. *)
Definition timed_export {E : Type} (wk : Worker) (request : ExportLogsServiceRequest)
  : Exp E (Timed (Result unit string)) :=
  fun wr => let (o, rpc) := export_request wk request wr.2 in
            (Ok o, (wr.1, {| rpc_peer := rpc_peer rpc; rpc_channel := rpc_channel rpc;
                             rpc_log := rpc_log rpc ++ [(request, o)] |})).

Definition export_records (wk : Worker) (records : list LogRecord) : Exp LayerError unit :=
  match records with
  | [] => io_ret tt
  | _ =>
      let request := export_request_for (wk_source wk) records in
      let! o := timed_export wk request in
      match o with
      | InTime (Ok _) => io_ret tt
      | InTime (Err error) =>
          io_map_err (fun io => FlushError (message io)) (exp_io (write_log_batch (wk_queue_dir wk) request));;!
          io_err (FlushError error)
      | TimedOut =>
          io_map_err (fun io => FlushError (message io)) (exp_io (write_log_batch (wk_queue_dir wk) request));;!
          io_err (FlushError "flush timed out")
      end
  end.

(** The error is printed on stderr. *)
Definition export_or_spool {E : Type} (wk : Worker) (records : list LogRecord) : Exp E unit :=
  io_try (export_records wk records);;! io_ret tt.

(** One spooled batch: an unreadable one is skipped, an exported one removed. *)
Definition replay_one {E : Type} (wk : Worker) (u : unit) (path : Path) : Exp E unit :=
  let! r := io_try (exp_io (read_log_batch path)) in
  match r with
  | Err _ => io_ret tt
  | Ok request =>
      let! o := timed_export wk request in
      match o with
      | InTime (Ok _) => io_try (exp_io (remove_file path));;! io_ret tt
      | _ => io_ret tt
      end
  end.

Definition drain_spooled {E : Type} (wk : Worker) : Exp E unit :=
  let! locked := io_try (exp_io (SpoolLock_acquire (wk_queue_dir wk))) in
  match locked with
  | Err _ => io_ret tt
  | Ok _ =>
      let! paths := io_try (exp_io (pending_log_batches (wk_queue_dir wk))) in
      match paths with
      | Err _ => io_ret tt
      | Ok paths => io_fold (replay_one wk) tt paths
      end
  end.

(** ** The worker *)

(** A flush request carries the channel its answer goes to. *)
Inductive WorkerMessage := Record_ (record : LogRecord) | Flush (reply : nat).

(** What [select!] yields: a message, the end of the channel, or a tick. *)
Inductive Selected := Received (m : WorkerMessage) | Closed | Ticked.

Record Run := {
  run_batch : list LogRecord;
  run_replies : list (nat * Result unit LayerError);
  run_stopped : bool
}.

Definition set_batch (r : Run) (b : list LogRecord) : Run :=
  {| run_batch := b; run_replies := run_replies r; run_stopped := run_stopped r |}.

(** One turn of the loop. *)
Definition run_step {E : Type} (wk : Worker) (st : Run) (s : Selected) : Exp E Run :=
  match s with
  | Closed =>
      export_or_spool wk (run_batch st);;!
      io_ret {| run_batch := []; run_replies := run_replies st; run_stopped := true |}
  | Received (Record_ record) =>
      let batch := if should_sample (wk_sample_rate wk) record then run_batch st ++ [record] else run_batch st in
      if (wk_batch_size wk <=? Z.of_nat (length batch))%Z then
        export_or_spool wk batch;;! io_ret (set_batch st [])
      else io_ret (set_batch st batch)
  | Received (Flush reply) =>
      let! result := io_try (export_records wk (run_batch st)) in
      io_ret {| run_batch := []; run_replies := run_replies st ++ [(reply, result)]; run_stopped := run_stopped st |}
  | Ticked => export_or_spool wk (run_batch st);;! io_ret (set_batch st [])
  end.

Definition run_init : Run := {| run_batch := []; run_replies := []; run_stopped := false |}.

(** The loop, on the sequence of what [select!] yields; it breaks when the
    channel is closed. *)
Fixpoint run_loop {E : Type} (wk : Worker) (st : Run) (l : list Selected) : Exp E Run :=
  match l with
  | [] => io_ret st
  | s :: l =>
      let! st := run_step wk st s in
      if run_stopped st then io_ret st else run_loop wk st l
  end.

(** [Worker::run] once it has started: the startup tick is consumed before. *)
Definition run {E : Type} (wk : Worker) (l : list Selected) : Exp E Run :=
  drain_spooled wk;;! run_loop wk run_init l.

(** It starts unless [Vec::with_capacity] panics on a capacity of more than
    [isize::MAX] bytes ([record_size] is the size of a record) or
    [tokio::time::interval] on a zero period. *)
Definition worker_starts (record_size : Z) (wk : Worker) : bool :=
  ((wk_batch_size wk * record_size <=? 2 ^ 63 - 1) && (0 <? wk_flush_interval wk))%Z.

(** The spawned task; a panic ends it before it has done anything. *)
Definition run_worker {E : Type} (record_size : Z) (wk : Worker) (l : list Selected) : Exp E Run :=
  if worker_starts record_size wk then run wk l
  else io_ret {| run_batch := []; run_replies := []; run_stopped := true |}.

(** ** The layer's side of the channel *)

(** [Layer]: the queue of its channel, and whether the worker still receives. *)
Record Sender := { sd_queue : list WorkerMessage; sd_open : bool }.

(** [try_send]: a full or closed channel drops the message. *)
Definition sender_try_send (s : Sender) (m : WorkerMessage) : Sender :=
  if sd_open s && Nat.ltb (length (sd_queue s)) DEFAULT_CHANNEL_CAPACITY
  then {| sd_queue := sd_queue s ++ [m]; sd_open := true |} else s.

Definition on_event {E : Type} (s : Sender) (event : Event) : IO E Sender :=
  let! record := event_to_log_record event in
  io_ret (sender_try_send s (Record_ record)).

(** [flush]: sending waits for room, [None] while there is none. *)
Definition flush_send (s : Sender) (reply : nat) : option (Result Sender LayerError) :=
  if negb (sd_open s) then Some (Err WorkerStopped)
  else if Nat.ltb (length (sd_queue s)) DEFAULT_CHANNEL_CAPACITY
  then Some (Ok {| sd_queue := sd_queue s ++ [Flush reply]; sd_open := true |}) else None.

(** The answer: the worker's, or an error when it stopped without one. *)
Definition flush_answer (st : Run) (reply : nat) : option (Result unit LayerError) :=
  match find (fun r => Nat.eqb r.1 reply) (run_replies st) with
  | Some (_, result) => Some result
  | None => if run_stopped st then Some (Err WorkerStopped) else None
  end.

(** A worker that panicked at its start leaves the queue and the server alone and
    answers no flush. *)
Lemma unstarted_worker {E : Type} record_size wk l wr reply :
  worker_starts record_size wk = false ->
  exists st, run_worker (E := E) record_size wk l wr = (Ok st, wr) /\ flush_answer st reply = Some (Err WorkerStopped).
Proof. intros H. unfold run_worker. rewrite H. by eexists. Qed.

Lemma started_worker {E : Type} record_size wk l :
  worker_starts record_size wk = true -> run_worker (E := E) record_size wk l = run wk l.
Proof. intros H. unfold run_worker. by rewrite H. Qed.
End Layer.
