(* ===== verification/LayerSafety.v ===== *)
(** * The exporter conserves records *)

From Stdlib Require Import Ascii SpecFloat.
From S2P Require Import Prelude RustStd Fs FsDir External Instances F64 Json Protocol Storage Otlp Spool PanicHook Shipper ClientInstances ShipSafety ShipProgress Layer.

(** The records of a request. *)
Definition records_of (rq : ExportLogsServiceRequest) : list LogRecord :=
  resource_logs rq ≫= fun rl => scope_logs rl ≫= log_records.

(** What the worker was given. *)
Definition received (l : list Selected) : list LogRecord :=
  omap (fun s => match s with Received (Record_ r) => Some r | _ => None end) l.

Definition flushes (l : list Selected) : list nat :=
  omap (fun s => match s with Received (Flush n) => Some n | _ => None end) l.

(** The turns of the loop: up to the end of the channel. *)
Fixpoint turns (l : list Selected) : list Selected :=
  match l with
  | [] => []
  | Closed :: _ => [Closed]
  | s :: l => s :: turns l
  end.

Abbreviation Attempt := (ExportLogsServiceRequest * Timed (Result unit string))%type.

Definition acknowledged (x : Attempt) : Prop := x.2 = InTime (Ok tt).

Section LayerSafety.
Context {U : UuidApi} {UR : UrlApi} {P : ProstApi} {OS : Os} {N : Type} {TN : TonicApi N}.
Context (wk : Worker).

Lemma records_of_request source records : records_of (export_request_for source records) = records.
Proof. unfold records_of. cbn. by rewrite !app_nil_r. Qed.

Lemma wp_exp_io {E A} (m : IO E A) (Q : Result A E -> World * @Rpc N -> Prop) wr :
  wp m (fun r w' => Q r (w', wr.2)) wr.1 -> wp (exp_io m) Q wr.
Proof. unfold wp, exp_io. by destruct (m wr.1). Qed.

Lemma export_request_log rq rpc : rpc_log (export_request wk rq rpc).2 = rpc_log rpc.
Proof.
  unfold export_request, get_channel. destruct (rpc_channel rpc).
  - destruct (grpc_request wk rq); [|done]. by destruct (grpc_export _ _).
  - destruct (grpc_connect _ _ _ _) as [[[[]|e]|] peer]; try done.
    destruct (grpc_request wk rq); [|done]. by destruct (grpc_export _ _).
Qed.

Lemma wp_timed_export {E} rq (Q : Result (Timed (Result unit string)) E -> World * Rpc -> Prop) w rpc :
  (forall o rpc', rpc_log rpc' = rpc_log rpc ++ [(rq, o)] -> Q (Ok o) (w, rpc')) ->
  wp (timed_export wk rq) Q (w, rpc).
Proof.
  intros HQ. unfold wp, timed_export. cbn [fst snd]. pose proof (export_request_log rq rpc) as Hl.
  destruct (export_request wk rq rpc) as [o rpc1]. cbn [fst snd]. apply HQ. cbn in *. by rewrite Hl.
Qed.

Lemma run_step_stopped {E} st s wr :
  match (run_step (E := E) wk st s wr).1 with
  | Ok st' => run_stopped st' = match s with Closed => true | _ => run_stopped st end
  | Err _ => True
  end.
Proof.
  assert (forall b (k : Run), match (io_bind (export_or_spool (E := E) wk b) (fun _ => io_ret k) wr).1 with
    | Ok st' => st' = k | Err _ => True end) as Hspool.
  { intros b k. unfold io_bind at 1. by destruct (export_or_spool wk b wr) as [[]]. }
  destruct s as [[record|reply]| |]; cbn [run_step].
  - set (b := if should_sample _ _ then _ else _). destruct (Z.leb _ _); [|done].
    specialize (Hspool b (set_batch st [])). by destruct (io_bind _ _ wr) as [[st'|] wr']; cbn [fst] in *; subst.
  - unfold io_bind. destruct (io_try _ wr) as [[r|] wr']; done.
  - specialize (Hspool (run_batch st) {| run_batch := []; run_replies := run_replies st; run_stopped := true |}).
    by destruct (io_bind _ _ wr) as [[st'|] wr']; cbn [fst] in *; subst.
  - specialize (Hspool (run_batch st) (set_batch st [])). by destruct (io_bind _ _ wr) as [[st'|] wr']; cbn [fst] in *; subst.
Qed.

(** The loop is a fold over its turns. *)
Lemma run_loop_fold {E} l : forall st wr, run_stopped st = false ->
  run_loop (E := E) wk st l wr = io_fold (run_step wk) st (turns l) wr.
Proof.
  induction l as [|s l IH]; intros st wr Hst; [done|]. cbn [run_loop]. pose proof (run_step_stopped (E := E) st s wr) as Hs.
  destruct s as [m| |]; cbn [turns io_fold]; unfold io_bind at 1 2;
    destruct (run_step wk st _ wr) as [[st'|e] wr']; cbn [fst] in Hs; try done; rewrite Hs; try done.
  all: rewrite Hst; apply IH; congruence.
Qed.

(** A batch is one attempt; unacknowledged, it goes to the spool. *)
Lemma wp_export_records records (Q : Result unit LayerError -> World * Rpc -> Prop) w rpc :
  (records = [] -> Q (Ok tt) (w, rpc)) ->
  (forall rpc', records <> [] ->
     rpc_log rpc' = rpc_log rpc ++ [(export_request_for (wk_source wk) records, InTime (Ok tt))] -> Q (Ok tt) (w, rpc')) ->
  (forall o msg rpc', records <> [] -> o <> InTime (Ok tt) ->
     rpc_log rpc' = rpc_log rpc ++ [(export_request_for (wk_source wk) records, o)] ->
     wp (write_log_batch (wk_queue_dir wk) (export_request_for (wk_source wk) records))
        (fun r w' => Q (Err (FlushError (match r with Ok _ => msg | Err io => message io end))) (w', rpc')) w) ->
  wp (export_records wk records) Q (w, rpc).
Proof.
  intros H0 HO HE. destruct records as [|r rs]; [by apply wp_ret, H0|]. unfold export_records.
  set (rq := export_request_for _ _) in *. apply wp_bind, wp_timed_export. intros o rpc' Hlog.
  assert (forall msg, o <> InTime (Ok tt) -> wp (io_map_err (fun io => FlushError (message io))
      (exp_io (write_log_batch (wk_queue_dir wk) rq));;! io_err (FlushError msg)) Q (w, rpc')) as Hsp.
  { intros msg Ho. apply wp_bind, wp_map_err, wp_exp_io. cbn [fst snd]. eapply wp_mono; [by apply (HE o msg rpc')|].
    by intros [p|io] w' HQ. }
  destruct o as [[[]|e]|]; [by apply wp_ret, HO|by apply Hsp|by apply Hsp].
Qed.

(** ** Conservation *)

(** An attempt of a batch of the worker's own. *)
Definition own_attempt (x : Attempt) : Prop :=
  exists records, x.1 = export_request_for (wk_source wk) records /\ records <> [] /\
    (Z.of_nat (length records) <= wk_batch_size wk)%Z.

(** What an export attempt does to the world. *)
Definition spool_step (w : World) (new : list Attempt) (w' : World) : Prop :=
  (new = [] /\ w' = w) \/
  (exists rq, new = [(rq, InTime (Ok tt))] /\ w' = w) \/
  (exists rq o r, new = [(rq, o)] /\ write_log_batch (wk_queue_dir wk) rq w = (r, w')).

Lemma wp_try_export {F} records (Q : Result (Result unit LayerError) F -> World * Rpc -> Prop) w rpc :
  (forall r w' rpc' new, rpc_log rpc' = rpc_log rpc ++ new -> new.*1 ≫= records_of = records ->
     ((Z.of_nat (length records) <= wk_batch_size wk)%Z -> Forall own_attempt new) -> spool_step w new w' ->
     Q (Ok r) (w', rpc')) ->
  wp (io_try (export_records wk records)) Q (w, rpc).
Proof.
  intros HQ. assert (forall r o w' rpc', records <> [] ->
    rpc_log rpc' = rpc_log rpc ++ [(export_request_for (wk_source wk) records, o)] ->
    spool_step w [(export_request_for (wk_source wk) records, o)] w' -> Q (Ok r) (w', rpc')) as H1.
  { intros r o w' rpc' Hne Hlog Hs. eapply HQ; [exact Hlog| | |exact Hs].
    - cbn [fmap list_fmap fst mbind list_bind]. by rewrite app_nil_r, records_of_request.
    - intros Hlen. apply Forall_cons. split; [|by apply Forall_nil]. by exists records. }
  apply wp_try, wp_export_records.
  - intros ->. apply (HQ _ w rpc []); [by rewrite app_nil_r|done| |by left]. intros _. by apply Forall_nil.
  - intros rpc' Hne Hlog. eapply H1; [done|done|]. right; left. by eexists.
  - intros o msg rpc' Hne Ho Hlog. apply wp_of_run. intros r w' Hrun. eapply H1; [done|done|]. right; right. by eexists _, o, r.
Qed.

Lemma wp_export_or_spool {E} records (Q : Result unit E -> World * Rpc -> Prop) w rpc :
  (forall w' rpc' new, rpc_log rpc' = rpc_log rpc ++ new -> new.*1 ≫= records_of = records ->
     ((Z.of_nat (length records) <= wk_batch_size wk)%Z -> Forall own_attempt new) -> spool_step w new w' ->
     Q (Ok tt) (w', rpc')) ->
  wp (export_or_spool wk records) Q (w, rpc).
Proof. intros HQ. apply wp_bind, wp_try_export. intros. by eapply wp_ret, HQ. Qed.

(** Where the loop stands after the messages [l]; [S] is any property of the
    world and the attempts that each attempt preserves. *)
Section Loop.
Context (S : nat -> World -> list Attempt -> Prop).
Context (S_step : forall k w old new w', S k w old -> spool_step w new w' -> S (k + 1) w' (old ++ new)).

Definition conserves (log0 : list Attempt) (l : list Selected) (st : Run) (w : World) (log : list Attempt) : Prop :=
  exists exported, log = log0 ++ exported /\ Forall own_attempt exported /\
    (exported.*1 ≫= records_of) ++ run_batch st = filter (should_sample (wk_sample_rate wk)) (received l) /\
    (run_batch st <> [] -> (Z.of_nat (length (run_batch st)) < wk_batch_size wk)%Z) /\
    (run_replies st).*1 = flushes l /\ S (length l) w exported.

(** The batch is exported as it stands. *)
Lemma conserves_export log0 l s st w log new batch st' w' log' :
  conserves log0 l st w log -> spool_step w new w' ->
  log' = log ++ new -> new.*1 ≫= records_of = batch ->
  ((Z.of_nat (length batch) <= wk_batch_size wk)%Z -> Forall own_attempt new) ->
  (Z.of_nat (length batch) <= wk_batch_size wk)%Z ->
  batch = run_batch st ++ filter (should_sample (wk_sample_rate wk)) (received [s]) ->
  run_batch st' = [] -> (run_replies st').*1 = (run_replies st).*1 ++ flushes [s] ->
  conserves log0 (l ++ [s]) st' w' log'.
Proof using S_step.
  intros (exp & -> & HF & Hr & Hb & Hfl & HS) Hsp -> Hnew Hown Hlen -> Hb' Hrep.
  exists (exp ++ new). rewrite Hb'. split; [by rewrite app_assoc|]. split; [apply Forall_app; auto|].
  split; [|split; [done|split]].
  - unfold received in *. rewrite omap_app, filter_app, <- Hr, <- app_assoc, <- Hnew, fmap_app, bind_app. by rewrite app_nil_r.
  - unfold flushes in *. by rewrite omap_app, Hrep, Hfl.
  - rewrite length_app. by eapply S_step.
Qed.

Lemma wp_run_step {E} log0 l s st (Q : Result Run E -> World * Rpc -> Prop) w rpc :
  (1 <= wk_batch_size wk)%Z -> conserves log0 l st w (rpc_log rpc) ->
  (forall st' w' rpc', conserves log0 (l ++ [s]) st' w' (rpc_log rpc') -> Q (Ok st') (w', rpc')) ->
  wp (run_step wk st s) Q (w, rpc).
Proof using S_step.
  intros Hpos Hc HQ.
  assert (Z.of_nat (length (run_batch st)) <= wk_batch_size wk)%Z as Hlen.
  { destruct Hc as (_ & _ & _ & _ & Hb & _). destruct (run_batch st) as [|x b]; [cbn; lia|]. specialize (Hb ltac:(done)). lia. }
  destruct s as [[record|reply]| |]; cbn [run_step].
  - set (batch := if should_sample _ record then _ else _).
    assert (batch = run_batch st ++ filter (should_sample (wk_sample_rate wk)) (received [Received (Record_ record)])) as Hbatch.
    { unfold batch. cbn. unfold filter. cbn. destruct (should_sample (wk_sample_rate wk) record); cbn; [done|by rewrite app_nil_r]. }
    assert (Z.of_nat (length batch) <= wk_batch_size wk)%Z as Hlenb.
    { unfold batch. destruct (should_sample _ record); [|done]. rewrite length_app. cbn.
      destruct Hc as (_ & _ & _ & _ & Hb & _). destruct (run_batch st) as [|x b]; [cbn; lia|]. specialize (Hb ltac:(done)). lia. }
    destruct (Z.leb_spec (wk_batch_size wk) (Z.of_nat (length batch))) as [Hfull|Hnot].
    + apply wp_bind, wp_export_or_spool. intros w' rpc' new Hlog Hnew Hown Hsp. apply wp_ret, HQ.
      eapply conserves_export; try done. by rewrite app_nil_r.
    + apply wp_ret, HQ. destruct Hc as (exp & Hl & HF & Hr & Hb & Hfl & HS). exists exp.
      unfold received, flushes in *. rewrite !omap_app, filter_app, <- Hr, <- app_assoc. cbn [set_batch run_batch run_replies].
      split_and!; [done|done|by rewrite Hbatch|done|by rewrite Hfl, app_nil_r|].
      rewrite length_app, <- (app_nil_r exp). eapply S_step; [done|by left].
  - apply wp_bind, wp_try_export. intros r w' rpc' new Hlog Hnew Hown Hsp. apply wp_ret, HQ.
    eapply conserves_export; try done; cbn; [by rewrite app_nil_r|]. by rewrite fmap_app.
  - apply wp_bind, wp_export_or_spool. intros w' rpc' new Hlog Hnew Hown Hsp. apply wp_ret, HQ.
    eapply conserves_export; try done; cbn; by rewrite app_nil_r.
  - apply wp_bind, wp_export_or_spool. intros w' rpc' new Hlog Hnew Hown Hsp. apply wp_ret, HQ.
    eapply conserves_export; try done; cbn; by rewrite app_nil_r.
Qed.

Lemma wp_run_loop {E} l (Q : Result Run E -> World * Rpc -> Prop) w rpc :
  (1 <= wk_batch_size wk)%Z -> S 0 w [] ->
  (forall st w' rpc', conserves (rpc_log rpc) (turns l) st w' (rpc_log rpc') -> Q (Ok st) (w', rpc')) ->
  wp (run_loop wk run_init l) Q (w, rpc).
Proof using S_step.
  intros Hpos H0. unfold wp at 1. rewrite run_loop_fold by done. fold (wp (io_fold (run_step wk) run_init (turns l)) Q (w, rpc)).
  generalize (turns l). clear l. intros l HQ.
  apply (wp_fold _ (fun st xs wr => exists done, l = done ++ xs /\ conserves (rpc_log rpc) done st wr.1 (rpc_log wr.2))).
  - intros st s xs [w2 rpc2] (done & -> & Hc). eapply wp_run_step; [done|done|]. intros st' w3 rpc3 Hc'.
    exists (done ++ [s]). split; [by rewrite <- app_assoc|done].
  - intros st [w2 rpc2] (done & -> & Hc). rewrite app_nil_r in HQ. by apply HQ.
  - exists []. split; [done|]. exists []. split_and!; [by rewrite app_nil_r|by apply Forall_nil|done|done|done|done].
Qed.
End Loop.

(** ** Replay *)

(** What replay did to the files: each is as it was, or was removed after the
    request it decodes to was acknowledged. *)
Definition replayed (fs : gmap Path Node) (new : list Attempt) (fs' : gmap Path Node) : Prop :=
  forall q c t, fs !! q = Some (File c t) ->
    fs' !! q = Some (File c t) \/
    fs' !! q = None /\ exists rq, prost_decode c = Ok rq /\ (rq, InTime (Ok tt)) ∈ new.

Lemma replayed_refl fs new : replayed fs new fs.
Proof. intros q c t Hq. by left. Qed.

Lemma replayed_keep fs new fs' new' : replayed fs new fs' -> replayed fs (new ++ new') fs'.
Proof.
  intros H q c t Hq. destruct (H q c t Hq) as [?|(? & rq & ? & ?)]; [by left|right]. split; [done|]. exists rq. set_solver.
Qed.

Lemma wp_SpoolLock_acquire dir (Q : Result unit io_error -> World -> Prop) w :
  (forall r w', (forall q c t, w_fs w !! q = Some (File c t) -> w_fs w' !! q = Some (File c t)) -> Q r w') ->
  wp (SpoolLock_acquire dir) Q w.
Proof.
  intros HQ. unfold SpoolLock_acquire, ensure_dir, open_lock, lock_exclusive.
  apply wp_bind, wp_create_dir_all. intros r1 w1 _ H1 _ _.
  assert (forall q c t, w_fs w !! q = Some (File c t) -> w_fs w1 !! q = Some (File c t)) as G1.
  { intros q c t Hq. by eapply only_file; [exact H1|tauto|]. }
  destruct r1 as [[]|e]; [|by apply HQ].
  apply wp_bind, wp_open_append. intros r2 w2 _ H2.
  assert (forall q c t, w_fs w !! q = Some (File c t) -> w_fs w2 !! q = Some (File c t)) as G2.
  { intros q c t Hq. rewrite H2; [by apply G1|]. right. apply G1 in Hq. by eexists. }
  destruct r2 as [[]|e]; [|by apply HQ].
  apply wp_syscall; [intros msg n w3 _ Hfs _|intros w3 Hfs _ _]; apply HQ; cbn; by rewrite Hfs.
Qed.

Lemma wp_pending_log_batches dir (Q : Result (list Path) io_error -> World -> Prop) w :
  (forall r w', w_fs w' = w_fs w -> Q r w') -> wp (pending_log_batches dir) Q w.
Proof.
  intros HQ. apply wp_bind, wp_try, wp_read_dir.
  - intros entries w1 Hfs _ _ _. apply wp_bind, (wp_collect_entries _ (fun _ => True)).
    + intros p Q' w2 Hw2 HQ'. by apply wp_ret, HQ'.
    + intros l w2 _ Hfs2 _ _. apply wp_ret, HQ. congruence.
  - intros e w1 Hfs _. case_decide; [apply wp_ret|apply wp_err]; by apply HQ.
Qed.

Lemma wp_replay_one {E} path fs0 log0 (Q : Result unit E -> World * Rpc -> Prop) w rpc new :
  rpc_log rpc = log0 ++ new -> replayed fs0 new (w_fs w) ->
  (forall w' rpc' new', rpc_log rpc' = log0 ++ new' -> replayed fs0 new' (w_fs w') -> Q (Ok tt) (w', rpc')) ->
  wp (replay_one wk tt path) Q (w, rpc).
Proof.
  intros Hlog Hr HQ. apply wp_bind, wp_try, wp_exp_io. cbn [fst snd]. apply wp_bind, wp_fs_read.
  2: { intros e w1 _ Hfs. cbn [fst snd]. eapply wp_ret, HQ; [done|by rewrite Hfs]. }
  intros c t w1 Hc _ Hfs. apply wp_lift. destruct (prost_decode c) as [rq|e] eqn:Ed; cbn [map_err].
  2: { eapply wp_ret, HQ; [done|by rewrite Hfs]. }
  apply wp_bind, wp_timed_export. intros o rpc' Hlog'. rewrite Hlog, <- app_assoc in Hlog'.
  assert (replayed fs0 (new ++ [(rq, o)]) (w_fs w1)) as Hr1 by (rewrite Hfs; by apply replayed_keep).
  destruct o as [[[]|e]|]; [|by eapply wp_ret, HQ|by eapply wp_ret, HQ].
  apply wp_bind, wp_try, wp_exp_io, wp_remove_file; cbn [fst snd].
  - intros c' t' w2 Hc' _ Hfs2. eapply wp_ret, HQ; [done|]. intros q c0 t0 Hq. rewrite Hfs2.
    destruct (decide (path = q)) as [<-|Hne]; [|rewrite lookup_delete_ne by done; by apply Hr1].
    right. split; [apply lookup_delete_eq|]. exists rq. split; [|set_solver].
    destruct (Hr1 _ _ _ Hq) as [H|[H _]]; rewrite Hc' in H; [|done]. rewrite Hfs in Hc'. congruence.
  - intros e w2 _ Hfs2. eapply wp_ret, HQ; [done|by rewrite Hfs2].
Qed.

Lemma wp_drain_spooled {E} (Q : Result unit E -> World * Rpc -> Prop) w rpc :
  (forall w' rpc' new, rpc_log rpc' = rpc_log rpc ++ new -> replayed (w_fs w) new (w_fs w') -> Q (Ok tt) (w', rpc')) ->
  wp (drain_spooled wk) Q (w, rpc).
Proof.
  intros HQ. apply wp_bind, wp_try, wp_exp_io, wp_SpoolLock_acquire. cbn [fst snd]. intros r1 w1 H1.
  assert (forall new, replayed (w_fs w) new (w_fs w1)) as Hr1 by (intros new q c t Hq; left; by apply H1).
  destruct r1 as [[]|e]; [|apply wp_ret, (HQ w1 rpc []); [by rewrite app_nil_r|done]].
  apply wp_bind, wp_try, wp_exp_io, wp_pending_log_batches. cbn [fst snd]. intros r2 w2 Hfs2.
  assert (forall new, replayed (w_fs w) new (w_fs w2)) as Hr2 by (intros new; rewrite Hfs2; apply Hr1).
  destruct r2 as [paths|e]; [|apply wp_ret, (HQ w2 rpc []); [by rewrite app_nil_r|done]].
  apply (wp_fold _ (fun _ _ wr => exists new, rpc_log wr.2 = rpc_log rpc ++ new /\ replayed (w_fs w) new (w_fs wr.1))).
  - intros [] p ps [w3 rpc3] (new & Hlog & Hr). eapply wp_replay_one; [done|done|]. intros w4 rpc4 new' Hlog' Hr'. by exists new'.
  - intros [] [w3 rpc3] (new & Hlog & Hr). by eapply HQ.
  - exists []. split; [by rewrite app_nil_r|apply Hr2].
Qed.

(** C18. Replay is safe: whatever fails, draining the spool removes a batch file
    only after the server acknowledged the request the file decodes to, and
    changes no other file. *)
Theorem replay_removes_only_acknowledged w rpc r w' rpc' :
  drain_spooled (E := Empty_set) wk (w, rpc) = (r, (w', rpc')) ->
  exists new, rpc_log rpc' = rpc_log rpc ++ new /\ replayed (w_fs w) new (w_fs w').
Proof.
  apply (wp_run _ (fun _ wr => exists new, rpc_log wr.2 = rpc_log rpc ++ new /\ replayed (w_fs w) new (w_fs wr.1))).
  apply wp_drain_spooled. intros w1 rpc1 new Hlog Hr. by exists new.
Qed.

(** ** A writable queue directory *)

Definition batch_path (dir : Path) (n : nat) : Path := dir ++ ["log-" +:+ uuid_to_string (new_v4 n) +:+ ".protobuf"].

(** No call fails and nothing stands in the way of the queue's files. *)
Record writable (dir : Path) (w : World) : Prop := {
  wr_faults : w_faults w = [];
  wr_dirs : forall q, q `prefix_of` dir -> is_file (w_fs w) q = false;
  wr_free : forall n, w_fs w !! batch_path dir n <> Some Dir
}.

Context {UL : UuidLaws U}.

Lemma batch_component n : normal_component ("log-" +:+ uuid_to_string (new_v4 n) +:+ ".protobuf") = true.
Proof using UL.
  destruct (normal_component_ext ("log-" +:+ uuid_to_string (new_v4 n)) "protobuf") as [H _]; [|done|done|].
  - rewrite contains_char_app, uuid_no_slash. done.
  - by rewrite append_assoc in H.
Qed.

Lemma batch_extension dir n : extension (batch_path dir n) = Some "protobuf".
Proof using UL.
  pose proof (extension_stem dir ("log-" +:+ uuid_to_string (new_v4 n)) "protobuf") as H.
  rewrite append_assoc in H. apply H; [done|done|]. by destruct (uuid_to_string (new_v4 n)).
Qed.

Lemma batch_not_above dir n q : q `prefix_of` dir -> q <> batch_path dir n.
Proof. intros H%prefix_length ->. unfold batch_path in H. rewrite length_app in H. cbn in H. lia. Qed.

Lemma writable_dirs dir w : writable dir w -> writable dir (with_fs w (foldl add_dir (w_fs w) (ancestors dir))).
Proof.
  intros [Hf Hd Hn]. split; cbn [w_fs w_faults with_fs]; [done|intros q Hq; rewrite add_dirs_is_file; auto|].
  intros n. rewrite foldl_add_dir_lookup. specialize (Hn n). destruct (w_fs w !! _); [done|].
  rewrite decide_False; [done|]. intros Hin%ancestors_prefix. by eapply batch_not_above.
Qed.

Lemma writable_insert dir w q c t : writable dir w -> ~ q `prefix_of` dir -> writable dir (with_fs w (<[q := File c t]> (w_fs w))).
Proof.
  intros [Hf Hd Hn] Hq. split; cbn [w_fs w_faults with_fs]; [done| |].
  - intros p Hp. unfold is_file. rewrite lookup_insert_ne by (intros ->; done). by apply Hd.
  - intros n. destruct (decide (q = batch_path dir n)) as [->|]; [by rewrite lookup_insert_eq|by rewrite lookup_insert_ne].
Qed.

(** Spooling a batch succeeds and touches no other batch. *)
Lemma wpn_write_log_batch dir rq (Q : Result Path io_error -> World -> Prop) w :
  writable dir w ->
  (forall w' t, writable dir w' -> w_uuids w' = (w_uuids w + 1)%nat ->
     w_fs w' !! batch_path dir (w_uuids w) = Some (File (prost_encode rq) t) ->
     (forall q, q <> batch_path dir (w_uuids w) -> ~ q `prefix_of` dir -> w_fs w' !! q = w_fs w !! q) ->
     (dir <> [] -> w_fs w' !! dir = Some Dir) -> Q (Ok (batch_path dir (w_uuids w))) w') ->
  wp (write_log_batch dir rq) Q w.
Proof using UL.
  intros Hw HQ. unfold write_log_batch, ensure_dir.
  apply wp_bind, wpn_create_dir_all; [apply Hw|apply Hw|]. pose proof (writable_dirs _ _ Hw) as Hw1. revert Hw1.
  set (w1 := with_fs w _). intros Hw1.
  apply wp_bind. unfold wp at 1, spool_uuid. cbn [fst snd]. rewrite join_normal by apply batch_component.
  change (w_uuids w1) with (w_uuids w). fold (batch_path dir (w_uuids w)). set (p := batch_path dir (w_uuids w)).
  set (w2 := {| w_fs := w_fs w1; w_now := _; w_clock := _; w_faults := _; w_uuids := _; w_dir_mtime := _ |}).
  assert (writable dir w2) as Hw2 by (destruct Hw1; by split).
  assert (~ p `prefix_of` dir) as Hp by (intros H; by eapply batch_not_above).
  apply wp_bind, wp_bind, wpn_file_create; [apply Hw2|apply Hw2| |].
  { destruct (decide (dir = [])) as [E|Hne].
    - unfold parent_is_dir, p, batch_path. rewrite parent_snoc by done. by rewrite E.
    - eapply parent_is_dir_of; [apply parent_snoc; done|]. apply add_dirs_dir; [apply Hw|done]. }
  apply wpn_write_all; [apply Hw2|]. apply wp_ret. unfold append_to. cbn [w_fs with_fs w_now].
  rewrite lookup_insert_eq. cbn [app]. rewrite insert_insert_eq. eapply HQ.
  - apply (writable_insert dir w2); [done|done].
  - cbn. lia.
  - cbn [w_fs with_fs]. apply lookup_insert_eq.
  - intros q Hq Hnp. cbn [w_fs with_fs]. rewrite lookup_insert_ne by done. cbn.
    apply (foldl_add_dir_prefix dir); [done|done].
  - intros Hne. cbn [w_fs with_fs]. rewrite lookup_insert_ne by (intros E; apply Hp; by rewrite E).
    apply add_dirs_dir; [apply Hw|done].
Qed.
(** Replay leaves the queue writable. *)
Section Keep.
Context (u : nat).

Definition ready (w : World) : Prop := writable (wk_queue_dir wk) w /\ w_uuids w = u.
Definition ready_at (wr : World * @Rpc N) : Prop := ready wr.1.

#[local] Instance keeps_exp_io {E A} (m : IO E A) : Keeps ready m -> Keeps ready_at (exp_io m).
Proof. intros Hm [w rpc] Hw. unfold exp_io. specialize (Hm w Hw). cbn [fst snd]. by destruct (m w). Qed.

#[local] Instance keeps_timed_export {E} rq : Keeps ready_at (timed_export (E := E) wk rq).
Proof. intros [w rpc] Hw. unfold timed_export. cbn [fst snd]. by destruct (export_request _ _ _). Qed.

Lemma keeps_query {A} (g : World -> Result A io_error) :
  Keeps ready (syscall no_part (fun w => (g w, w_fs w))).
Proof. intros w Hw. by rewrite run_query by apply Hw. Qed.

#[local] Instance keeps_create_dir : Keeps ready (create_dir_all (wk_queue_dir wk)).
Proof.
  intros w [Hw Hu]. apply (wpn_create_dir_all (wk_queue_dir wk) (fun _ w' => ready w')); [apply Hw|apply Hw|].
  split; [by apply writable_dirs|done].
Qed.

#[local] Instance keeps_lock : Keeps ready (open_append (wk_queue_dir wk ++ [".lock"])).
Proof.
  intros w Hw. unfold open_append. rewrite syscall_no_fault by apply Hw.
  assert (with_fs w (w_fs w) = w) as E by apply with_fs_same.
  destruct (is_dir _ _); cbn [snd]; [by rewrite E|]. destruct (is_file _ _); cbn [snd]; [by rewrite E|].
  destruct (parent_is_dir _ _); cbn [snd]; [|by rewrite E]. split; [|apply Hw]. apply writable_insert; [apply Hw|].
  intros H%prefix_length. rewrite length_app in H. cbn in H. lia.
Qed.

#[local] Instance keeps_remove_file p : Keeps ready (remove_file p).
Proof.
  intros w Hw. unfold remove_file. rewrite syscall_no_fault by apply Hw.
  assert (with_fs w (w_fs w) = w) as E by apply with_fs_same.
  destruct (w_fs w !! p) as [[]|]; cbn [snd]; [|by rewrite E..]. destruct Hw as [[Hf Hd Hn] Hu].
  split; [|done]. split; cbn [w_fs w_faults with_fs]; [done| |].
  - intros q Hq. specialize (Hd q Hq). unfold is_file in *. destruct (decide (p = q)) as [->|]; [by rewrite lookup_delete_eq|by rewrite lookup_delete_ne].
  - intros n. destruct (decide (p = batch_path (wk_queue_dir wk) n)) as [->|]; [by rewrite lookup_delete_eq|by rewrite lookup_delete_ne].
Qed.

#[local] Instance keeps_fs_read p : Keeps ready (fs_read p).
Proof. apply keeps_query. Qed.

#[local] Instance keeps_read_dir p : Keeps ready (read_dir p).
Proof. apply keeps_query. Qed.

#[local] Instance keeps_collect {E} (g : Path -> bool) es :
  Keeps ready (collect_entries (E := E) (fun p => io_ret (g p)) es).
Proof. intros w Hw. rewrite (run_collect_entries _ g); [done|apply Hw|done]. Qed.

#[local] Instance keeps_lock_exclusive : Keeps ready (syscall no_part (fun w => (Ok tt, w_fs w))).
Proof. apply (keeps_query (fun _ => Ok tt)). Qed.

#[local] Instance keeps_timed {E A B} (I : World * @Rpc N -> Prop) (o : Timed B) (m1 : B -> @Exp N E A) (m2 : @Exp N E A) :
  (forall b, Keeps I (m1 b)) -> Keeps I m2 -> Keeps I (match o with InTime b => m1 b | TimedOut => m2 end).
Proof. destruct o; auto. Qed.

Lemma drain_keeps_ready {E} : Keeps ready_at (drain_spooled (E := E) wk).
Proof.
  unfold drain_spooled, SpoolLock_acquire, ensure_dir, open_lock, lock_exclusive, pending_log_batches, replay_one, read_log_batch.
  rewrite join_normal by done. apply _.
Qed.
End Keep.

(** ** What the exporter keeps *)

(** A batch file of the queue holds the request. *)
Definition spooled (fs : gmap Path Node) (rq : ExportLogsServiceRequest) : Prop :=
  exists n t, fs !! batch_path (wk_queue_dir wk) n = Some (File (prost_encode rq) t).

(** No record disappears inside the exporter: on every sequence of messages,
    ticks and faults, and against every server, the batches it tried to export,
    in order, followed by the batch it still holds, are exactly the records it
    received that sampling kept; each batch has between one record and the
    configured maximum, and every flush request was answered, in order. *)
Theorem exporter_conserves_records l w rpc r w' rpc' :
  (1 <= wk_batch_size wk)%Z ->
  run (E := Empty_set) wk l (w, rpc) = (r, (w', rpc')) ->
  exists st replays, r = Ok st /\ conserves (fun _ _ _ => True) (rpc_log rpc ++ replays) (turns l) st w' (rpc_log rpc').
Proof.
  intros Hpos. apply (wp_run _ (fun r wr => exists st replays, r = Ok st /\
    conserves (fun _ _ _ => True) (rpc_log rpc ++ replays) (turns l) st wr.1 (rpc_log wr.2))).
  apply wp_bind, wp_drain_spooled. intros w1 rpc1 replays Hlog _.
  apply (wp_run_loop (fun _ _ _ => True)); [done|done|done|]. intros st w2 rpc2 Hc. exists st, replays. by rewrite <- Hlog.
Qed.

(** Draws of the run's uuids do not repeat. *)
Definition distinct_draws (from upto : nat) : Prop := forall n m, (from <= n < upto)%nat -> (from <= m < upto)%nat ->
  uuid_to_string (new_v4 n) = uuid_to_string (new_v4 m) -> n = m.

(** After [k] turns every attempt is acknowledged or on disk. *)
Definition safe (u0 len : nat) (k : nat) (w : World) (exported : list Attempt) : Prop :=
  (k <= len)%nat -> writable (wk_queue_dir wk) w /\ (u0 <= w_uuids w <= u0 + k)%nat /\
  Forall (fun x => acknowledged x \/ exists n t, (u0 <= n < w_uuids w)%nat /\
    w_fs w !! batch_path (wk_queue_dir wk) n = Some (File (prost_encode x.1) t)) exported.

Lemma safe_step u0 len k w old new w' : distinct_draws u0 (u0 + len) ->
  safe u0 len k w old -> spool_step w new w' -> safe u0 len (k + 1) w' (old ++ new).
Proof using UL.
  intros Hd Hs Hst Hk. destruct (Hs ltac:(lia)) as (Hw & Hu & HF).
  destruct Hst as [[-> ->]|[(rq & -> & ->)|(rq & o & r & -> & Hrun)]].
  - rewrite app_nil_r. split_and!; [done|lia|lia|done].
  - split_and!; [done|lia|lia|]. apply Forall_app. split; [done|]. apply Forall_cons. split; [by left|by apply Forall_nil].
  - revert Hrun. apply (wp_run (write_log_batch (wk_queue_dir wk) rq) (fun _ w' => writable (wk_queue_dir wk) w' /\ (u0 <= w_uuids w' <= u0 + (k + 1))%nat /\
      Forall (fun x => acknowledged x \/ exists n t, (u0 <= n < w_uuids w')%nat /\
        w_fs w' !! batch_path (wk_queue_dir wk) n = Some (File (prost_encode x.1) t)) (old ++ [(rq, o)]))).
    apply wpn_write_log_batch; [done|]. intros w2 t Hw2 Hu2 Hnew Hsame _. split_and!; [done|lia|lia|].
    apply Forall_app. split.
    + eapply Forall_impl; [exact HF|]. intros x [Hx|(n & t' & Hn & Hx)]; [by left|right]. exists n, t'. split; [lia|].
      rewrite Hsame; [done| |by intros H; eapply batch_not_above].
      unfold batch_path. intros [_ H]%app_inj_tail. 
      assert (n = w_uuids w); [|lia]. apply Hd; [lia|lia|].
      apply (f_equal as_bytes) in H. rewrite !as_bytes_app in H. apply app_inv_head, app_inv_tail in H.
      apply (f_equal of_bytes) in H. by rewrite !of_as_bytes in H.
    + apply Forall_cons. split; [|by apply Forall_nil]. right. exists (w_uuids w), t. split; [lia|done].
Qed.

Lemma run_acked_or_spooled l w rpc r w' rpc' :
  (1 <= wk_batch_size wk)%Z -> writable (wk_queue_dir wk) w ->
  distinct_draws (w_uuids w) (w_uuids w + length (turns l)) ->
  run (E := Empty_set) wk l (w, rpc) = (r, (w', rpc')) ->
  exists st replays exported, r = Ok st /\ rpc_log rpc' = rpc_log rpc ++ replays ++ exported /\
    (exported.*1 ≫= records_of) ++ run_batch st = filter (should_sample (wk_sample_rate wk)) (received (turns l)) /\
    Forall own_attempt exported /\ Forall (fun x => acknowledged x \/ spooled (w_fs w') x.1) exported.
Proof using UL.
  intros Hpos Hw Hd Hrun. unfold run, io_bind at 1 in Hrun.
  destruct (drain_spooled wk (w, rpc)) as [r1 [w1 rpc1]] eqn:E1.
  pose proof (drain_keeps_ready (E := Empty_set) (w_uuids w) (w, rpc)) as Hk. rewrite E1 in Hk.
  destruct (Hk ltac:(done)) as [Hw1 Hu1]. cbn [fst snd] in Hw1, Hu1.
  assert (r1 = Ok tt /\ exists replays, rpc_log rpc1 = rpc_log rpc ++ replays) as [-> [replays Hlog]].
  { refine (wp_run (drain_spooled wk) (fun r wr => r = Ok tt /\ exists replays, rpc_log wr.2 = rpc_log rpc ++ replays) _ _ _ _ E1).
    apply wp_drain_spooled. intros w2 rpc2 new Hl _. split; [done|]. by exists new. }
  revert Hrun. apply (wp_run (run_loop wk run_init l) (fun r wr => exists st replays exported, r = Ok st /\
    rpc_log wr.2 = rpc_log rpc ++ replays ++ exported /\
    (exported.*1 ≫= records_of) ++ run_batch st = filter (should_sample (wk_sample_rate wk)) (received (turns l)) /\
    Forall own_attempt exported /\ Forall (fun x => acknowledged x \/ spooled (w_fs wr.1) x.1) exported)).
  apply (wp_run_loop (safe (w_uuids w) (length (turns l)))); [intros; by eapply safe_step|done| |].
  - intros _. rewrite Hu1. split_and!; [done|lia|lia|by apply Forall_nil].
  - intros st w2 rpc2 (exp & Hexp & Hown & Hr & _ & _ & HS). exists st, replays, exp.
    destruct (HS ltac:(lia)) as (_ & _ & HF). cbn [fst snd]. split_and!; [done|by rewrite Hexp, Hlog, app_assoc|done|done|].
    eapply Forall_impl; [exact HF|]. intros x [?|(n & t & _ & Hx)]; [by left|right]. by exists n, t.
Qed.

(** C17. Nothing is lost while the server is away: when no file operation of the
    client fails, nothing is in the way in its queue directory and the names of the
    queue's files differ, every batch the exporter tried to send was acknowledged
    by the server or lies in the queue, encoded, when the exporter is done; with
    the conservation of records, every record that sampling kept is in an
    acknowledged request, in a queue file or in the current batch.  The server may
    do anything. *)
Theorem exporter_loses_nothing l w rpc r w' rpc' :
  (1 <= wk_batch_size wk)%Z -> writable (wk_queue_dir wk) w ->
  distinct_draws (w_uuids w) (w_uuids w + length (turns l)) ->
  run (E := Empty_set) wk l (w, rpc) = (r, (w', rpc')) ->
  exists st replays exported, r = Ok st /\ rpc_log rpc' = rpc_log rpc ++ replays ++ exported /\
    (exported.*1 ≫= records_of) ++ run_batch st = filter (should_sample (wk_sample_rate wk)) (received (turns l)) /\
    Forall (fun x => acknowledged x \/ spooled (w_fs w') x.1) exported.
Proof using UL.
  intros Hpos Hw Hd Hrun. destruct (run_acked_or_spooled l w rpc r w' rpc' Hpos Hw Hd Hrun) as (st & reps & exp & Hr & Hl & Hc & _ & HF).
  by exists st, reps, exp.
Qed.

(** A spooled batch comes back: with a writable queue directory, writing a
    batch succeeds, reading its file gives the request again, and the listing
    that replay works from names the file. *)
Theorem spool_round_trip rq w :
  writable (wk_queue_dir wk) w -> prost_decode (prost_encode rq) = Ok rq -> wk_queue_dir wk <> [] ->
  exists path w' paths, write_log_batch (wk_queue_dir wk) rq w = (Ok path, w') /\
    read_log_batch path w' = (Ok rq, w') /\
    pending_log_batches (wk_queue_dir wk) w' = (Ok paths, w') /\ path ∈ paths.
Proof using UL.
  intros Hw Hp Hne. set (dir := wk_queue_dir wk) in *.
  enough (wp (write_log_batch dir rq) (fun r w' => r = Ok (batch_path dir (w_uuids w)) /\ w_faults w' = [] /\
    w_fs w' !! dir = Some Dir /\ exists t, w_fs w' !! batch_path dir (w_uuids w) = Some (File (prost_encode rq) t)) w) as H.
  { unfold wp in H. destruct (write_log_batch dir rq w) as [r w']. cbn [fst snd] in H. destruct H as (-> & Hf & Hd & t & Hfile).
    eexists _, w', _. split; [done|]. split; [|split].
    - unfold read_log_batch, io_bind. rewrite (run_fs_read _ (prost_encode rq) t) by done. unfold io_lift. by rewrite Hp.
    - unfold pending_log_batches, io_bind at 1, io_try, read_dir. rewrite run_query, Hd by done.
      unfold io_bind. by rewrite (run_collect_entries _ (fun path => bool_decide (extension path = Some "protobuf"))).
    - rewrite sort_paths_perm. apply list_elem_of_filter. split.
      + apply Is_true_true, bool_decide_eq_true. apply batch_extension.
      + rewrite dir_order_perm. apply elem_of_children. split; [|by eexists]. by apply parent_snoc. }
  apply wpn_write_log_batch; [done|]. intros w' t Hw' _ Hfile _ Hd. split_and!; [done|apply Hw'|by apply Hd|by exists t].
Qed.
End LayerSafety.

(** ** Sampling and settings *)

Lemma f64_order_trans x y z :
  (SFltb x y = true -> SFleb y z = true -> SFltb x z = true) /\
  (SFleb x y = true -> SFleb y z = true -> SFleb x z = true).
Proof.
  unfold SFltb, SFleb.
  destruct x as [sx|[]| |[] mx ex], y as [sy|[]| |[] my ey], z as [sz|[]| |[] mz ez]; cbn [SFcompare]; try done;
    change (Pos.compare_cont Eq) with Pos.compare;
    destruct (Z.compare_spec ex ey), (Z.compare_spec ey ez), (Z.compare_spec ex ez); try done; try lia;
    destruct (Pos.compare_spec mx my), (Pos.compare_spec my mz), (Pos.compare_spec mx mz); cbn [CompOpp]; try done; lia.
Qed.

Lemma f64_total x y : f64_is_nan x = false -> f64_is_nan y = false -> SFltb y x = false -> SFleb x y = true.
Proof.
  unfold SFltb, SFleb.
  destruct x as [sx|[]| |[] mx ex], y as [sy|[]| |[] my ey]; cbn [SFcompare f64_is_nan]; try done;
    change (Pos.compare_cont Eq) with Pos.compare; intros _ _;
    destruct (Z.compare_spec ex ey), (Z.compare_spec ey ex); try done; try lia;
    destruct (Pos.compare_spec mx my), (Pos.compare_spec my mx); cbn [CompOpp]; try done; lia.
Qed.

Lemma f64_clamp_range x lo hi :
  f64_is_nan lo = false -> f64_is_nan hi = false -> SFleb lo hi = true ->
  f64_clamp x lo hi = S754_nan \/ (SFleb lo (f64_clamp x lo hi) = true /\ SFleb (f64_clamp x lo hi) hi = true).
Proof.
  intros Hlo Hhi Hle. assert (forall z, f64_is_nan z = false -> SFleb z z = true) as Hrefl.
  { intros z Hz. destruct (SFltb z z) eqn:E; [|by apply f64_total]. unfold SFltb, SFleb in *. by destruct (SFcompare z z) as [[]|]. }
  unfold f64_clamp. destruct (SFltb x lo) eqn:E1.
  - right. destruct (SFltb hi lo) eqn:E2; [by auto|]. split; [by apply Hrefl|done].
  - destruct (f64_is_nan x) eqn:En; [left; destruct x; try done; by destruct hi as [|[]| |[]]|]. right.
    destruct (SFltb hi x) eqn:E2; [by auto|]. split; by apply f64_total.
Qed.

(** Sampling is monotone in the rate: whatever is kept at a rate is kept at
    every higher rate; at rate one everything is kept, at rate zero nothing. *)
Theorem sampling_monotone record r1 r2 :
  (SFleb r1 r2 = true -> should_sample r1 record = true -> should_sample r2 record = true) /\
  should_sample f64_one record = true /\ should_sample f64_zero record = false.
Proof.
  split; [|done]. intros Hle. unfold should_sample. set (x := SFdiv _ _ _ _).
  destruct (f64_order_trans f64_one r1 r2) as [_ H1]. destruct (f64_order_trans r1 r2 f64_zero) as [_ H0].
  destruct (f64_order_trans x r1 r2) as [Hx _].
  destruct (SFleb f64_one r1); [intros _; by rewrite H1|]. destruct (SFleb r1 f64_zero); [done|]. intros Hs.
  destruct (SFleb f64_one r2); [done|]. destruct (SFleb r2 f64_zero); [by specialize (H0 Hle eq_refl)|]. by apply Hx.
Qed.

(** Every worker that a builder can build has a batch size of at least one and
    a sample rate between zero and one (or NaN, at which nothing is kept). *)
Theorem built_worker_valid `{UuidApi, UrlApi, TonicApi} settings wk :
  build (foldl set_builder LayerBuilder_default settings) = Ok wk ->
  (1 <= wk_batch_size wk)%Z /\
  ((SFleb f64_zero (wk_sample_rate wk) = true /\ SFleb (wk_sample_rate wk) f64_one = true) \/
   forall record, should_sample (wk_sample_rate wk) record = false).
Proof.
  set (ok := fun b : LayerBuilder => (1 <= lb_batch_size b)%Z /\
    (lb_sample_rate b = S754_nan \/ (SFleb f64_zero (lb_sample_rate b) = true /\ SFleb (lb_sample_rate b) f64_one = true))).
  assert (forall b l, ok b -> ok (foldl set_builder b l)) as Hfold.
  { intros b l. revert b. induction l as [|s l IH]; intros b Hb; [done|]. cbn [foldl]. apply IH. destruct Hb as [Hs Hr].
    destruct s; (split; cbn [set_builder lb_batch_size lb_sample_rate]; [lia || done|]); try done. by apply f64_clamp_range. }
  intros Hb. destruct (Hfold LayerBuilder_default settings) as [Hs Hr]; [split; [done|right; done]|].
  unfold build in Hb. destruct (lb_endpoint _), (lb_token _), (lb_source _), (lb_queue_dir _); try done. injection Hb as <-.
  cbn [wk_batch_size wk_sample_rate]. split; [done|]. destruct Hr as [->|Hr]; [right|by left].
  intros record. unfold should_sample. cbn [SFleb SFltb SFcompare]. unfold SFltb. by destruct (SFdiv _ _ _ _) as [|[]| |[]].
Qed.

(** ** A concrete exporter: the server acknowledges once, then hangs *)

#[export] Instance ToyTonic : TonicApi nat := {
  TlsConfig := unit;
  metadata_value s := Some (as_bytes s);
  status_internal m := m;
  status_unavailable m := m;
  grpc_connect _ _ _ n := (InTime (Ok tt), n);
  grpc_export _ n := match n with O => (TimedOut, O) | S n' => (InTime (Ok tt), n') end
}.

Definition sample_record (t : Z) : LogRecord :=
  {| time_unix_nano := t; observed_time_unix_nano := t; severity_number := 9; severity_text := "INFO";
     lr_body := None; lr_attributes := []; lr_dropped_attributes_count := 0; lr_flags := 0; trace_id := [];
     span_id := []; event_name := "e" |}.

Definition sample_settings : list (@Setting ToyUuid ToyUrl nat ToyTonic) :=
  [SetEndpoint sample_endpoint; SetToken "tok"; SetSource (md_source sample_metadata); SetBatchSize 2; SetQueueDir ["/"; "q"]].

Definition sample_worker : @Worker ToyUuid ToyUrl nat ToyTonic :=
  {| wk_endpoint := sample_endpoint; wk_token := "tok"; wk_source := md_source sample_metadata; wk_batch_size := 2;
     wk_flush_interval := DEFAULT_FLUSH_INTERVAL; wk_flush_timeout := DEFAULT_FLUSH_TIMEOUT; wk_queue_dir := ["/"; "q"];
     wk_sample_rate := f64_one; wk_compression := None; wk_tls_config := None |}.

Definition sample_request_otlp : ExportLogsServiceRequest := export_request_for (md_source sample_metadata) [sample_record 3].

(** An encoding that tells one request from the others. *)
#[export] Instance ToyProst : ProstApi := {
  prost_encode _ := as_bytes "P";
  prost_decode b := if bool_decide (b = as_bytes "P") then Ok sample_request_otlp else Err "invalid"
}.

Definition sample_selected : list Selected :=
  [Received (Record_ (sample_record 1)); Received (Record_ (sample_record 2)); Received (Record_ (sample_record 3));
   Received (Flush 0); Closed].

Definition queue_world : World :=
  {| w_fs := ∅; w_now := 5; w_clock := []; w_faults := []; w_uuids := 0; w_dir_mtime := fun _ => 0%Z |}.

Lemma queue_writable : writable ["/"; "q"] queue_world.
Proof. split; [done|intros q _; reflexivity|]. intros n. cbn [w_fs queue_world]. by rewrite lookup_empty. Qed.

Definition sample_exp := run (E := Empty_set) sample_worker sample_selected (queue_world, {| rpc_peer := 1%nat; rpc_channel := false; rpc_log := [] |}).

Lemma built_worker_valid_witness :
  (1 <= wk_batch_size sample_worker)%Z /\
  ((SFleb f64_zero (wk_sample_rate sample_worker) = true /\ SFleb (wk_sample_rate sample_worker) f64_one = true) \/
   forall record, should_sample (wk_sample_rate sample_worker) record = false).
Proof. apply (built_worker_valid sample_settings sample_worker). reflexivity. Defined.

Definition f64_half : f64 := SFdiv 53 1024 (f64_of_Z 1) (f64_of_Z 2).

Lemma sampling_monotone_witness : should_sample f64_half (sample_record 12345) = true /\
  should_sample f64_one (sample_record 12345) = true.
Proof.
  split; [vm_compute; reflexivity|].
  destruct (sampling_monotone (sample_record 12345) f64_half f64_one) as [H _]. apply H; vm_compute; reflexivity.
Defined.

Lemma replay_removes_only_acknowledged_witness :
  exists new, rpc_log sample_exp.2.2 = [] ++ new /\ 
    exists new', rpc_log (drain_spooled (E := Empty_set) sample_worker sample_exp.2).2.2 = rpc_log sample_exp.2.2 ++ new' /\
    replayed (w_fs sample_exp.2.1) new' (w_fs (drain_spooled (E := Empty_set) sample_worker sample_exp.2).2.1).
Proof.
  exists (rpc_log sample_exp.2.2). split; [reflexivity|]. destruct sample_exp as [r0 [w rpc]]. cbn [fst snd].
  apply (replay_removes_only_acknowledged sample_worker w rpc (drain_spooled sample_worker (w, rpc)).1
    (drain_spooled (E := Empty_set) sample_worker (w, rpc)).2.1 (drain_spooled (E := Empty_set) sample_worker (w, rpc)).2.2).
  by destruct (drain_spooled sample_worker (w, rpc)) as [r [w' rpc']].
Defined.

Lemma exporter_conserves_records_witness :
  exists st replays, sample_exp.1 = Ok st /\
    conserves sample_worker (fun _ _ _ => True) ([] ++ replays) (turns sample_selected) st sample_exp.2.1 (rpc_log sample_exp.2.2).
Proof.
  apply (exporter_conserves_records sample_worker sample_selected queue_world
    {| rpc_peer := 1%nat; rpc_channel := false; rpc_log := [] |} sample_exp.1 sample_exp.2.1 sample_exp.2.2).
  - cbn. lia.
  - unfold sample_exp. by destruct (run _ _ _) as [r [w rpc]].
Defined.

Lemma sample_draws : distinct_draws 0 5.
Proof.
  intros n m Hn Hm. assert (n ∈ seq 0 5 /\ m ∈ seq 0 5) as [Hn' Hm'] by (rewrite !elem_of_seq; lia).
  cbn in Hn', Hm'. rewrite !elem_of_cons, elem_of_nil in Hn', Hm'.
  destruct Hn' as [-> |[-> |[-> |[-> |[-> |[]]]]]], Hm' as [-> |[-> |[-> |[-> |[-> |[]]]]]]; try done; vm_compute; discriminate.
Qed.

Lemma exporter_loses_nothing_witness :
  exists st replays exported, sample_exp.1 = Ok st /\ rpc_log sample_exp.2.2 = [] ++ replays ++ exported /\
    (exported.*1 ≫= records_of) ++ run_batch st = filter (should_sample f64_one) (received (turns sample_selected)) /\
    Forall (fun x => acknowledged x \/ spooled sample_worker (w_fs sample_exp.2.1) x.1) exported.
Proof.
  apply (exporter_loses_nothing sample_worker sample_selected queue_world
    {| rpc_peer := 1%nat; rpc_channel := false; rpc_log := [] |} sample_exp.1 sample_exp.2.1 sample_exp.2.2).
  - cbn. lia.
  - exact queue_writable.
  - exact sample_draws.
  - unfold sample_exp. by destruct (run _ _ _) as [r [w rpc]].
Defined.

Lemma spool_round_trip_witness :
  exists path w' paths, write_log_batch ["/"; "q"] sample_request_otlp queue_world = (Ok path, w') /\
    read_log_batch path w' = (Ok sample_request_otlp, w') /\
    pending_log_batches ["/"; "q"] w' = (Ok paths, w') /\ path ∈ paths.
Proof. apply (spool_round_trip sample_worker sample_request_otlp queue_world); [exact queue_writable|reflexivity|done]. Defined.
