(* ===== verification/LayerProgress.v ===== *)
(** * The exporter delivers: its progress against a server that acknowledges *)

From Stdlib Require Import Ascii SpecFloat.
From S2P Require Import Prelude RustStd Fs FsDir External Instances F64 Json Protocol Storage Otlp Spool PanicHook Shipper ClientInstances ShipSafety ShipProgress Layer LayerSafety.

Section LayerProgress.
Context {U : UuidApi} {UL : UuidLaws U} {UR : UrlApi} {P : ProstApi} {OS : Os} {N : Type} {TN : TonicApi N}.
Context (wk : Worker).

(** In the states [G] of the peer connecting and calling succeed, in time. *)
Record acknowledging (G : N -> Prop) : Prop := {
  ack_connect n : G n -> exists n',
    grpc_connect (url_to_string (wk_endpoint wk)) (wk_flush_timeout wk) (wk_tls_config wk) n = (InTime (Ok tt), n') /\ G n';
  ack_export rq n : G n -> exists n', grpc_export rq n = (InTime (Ok tt), n') /\ G n'
}.

(** The worker's token and version can be put into headers. *)
Definition sendable : Prop :=
  is_Some (metadata_value (Z_to_string PROTOCOL_VERSION)) /\ is_Some (metadata_value ("Bearer " +:+ wk_token wk)).

(** The request in a queue file, if it has one. *)
Definition request_at (fs : gmap Path Node) (p : Path) : option ExportLogsServiceRequest :=
  match fs !! p with Some (File c _) => result_ok (prost_decode c) | _ => None end.

(** The batch files of the queue. *)
Definition queued (dir : Path) (fs : gmap Path Node) (q : Path) : Prop :=
  parent q = Some dir /\ extension q = Some "protobuf" /\ is_Some (fs !! q).

(** The files of [paths] that hold requests are gone, and nothing else. *)
Definition drained (paths : list Path) (fs fs' : gmap Path Node) : Prop :=
  forall q, fs' !! q = if decide (q ∈ paths /\ is_Some (request_at fs q)) then None else fs !! q.

(** In [G i] the exporter's next [i] calls are acknowledged, if their requests
    are in [R]. *)
Definition acknowledges (G : nat -> @Rpc N -> Prop) (R : ExportLogsServiceRequest -> Prop) : Prop :=
  (forall i rpc, G (S i) rpc -> G i rpc) /\
  forall i rq rpc, G (S i) rpc -> R rq -> exists rpc1, export_request wk rq rpc = (InTime (Ok tt), rpc1) /\
    rpc_log rpc1 = rpc_log rpc /\
    forall log, G i {| rpc_peer := rpc_peer rpc1; rpc_channel := rpc_channel rpc1; rpc_log := log |}.

Lemma acknowledging_acknowledges (G : N -> Prop) :
  acknowledging G -> sendable -> acknowledges (fun _ rpc => G (rpc_peer rpc)) (fun _ => True).
Proof.
  intros HG Hsend. split; [done|]. intros _ rq rpc Hg _.
  assert (exists rpc1, get_channel wk rpc = (InTime (Ok tt), rpc1) /\ G (rpc_peer rpc1) /\ rpc_log rpc1 = rpc_log rpc)
    as (rpc1 & Hc & Hg1 & Hl).
  { unfold get_channel. destruct (rpc_channel rpc); [by exists rpc|]. destruct (ack_connect _ HG _ Hg) as (n' & -> & Hn). by eexists. }
  unfold export_request. rewrite Hc. destruct Hsend as [[v Hv] [a Ha]]. unfold grpc_request. rewrite Hv, Ha. cbn [ok_or].
  match goal with |- context [grpc_export ?x _] => destruct (ack_export _ HG x _ Hg1) as (n' & -> & Hn) end. by eexists.
Qed.

(** The records that sampling keeps. *)
Definition sampled (l : list Selected) : list LogRecord := filter (should_sample (wk_sample_rate wk)) (received l).

(** The batches a run may make of the records it receives. *)
Definition own_batch (l : list Selected) (rq : ExportLogsServiceRequest) : Prop :=
  exists before records after, sampled l = before ++ records ++ after /\ (0 < length records)%nat /\
    (Z.of_nat (length records) <= wk_batch_size wk)%Z /\ rq = export_request_for (wk_source wk) records.

Lemma sampled_snoc l s : sampled (l ++ [s]) =
  sampled l ++ match s with Received (Record_ r) => if should_sample (wk_sample_rate wk) r then [r] else [] | _ => [] end.
Proof.
  unfold sampled, received. rewrite omap_app, filter_app. f_equal. destruct s as [[r|n]| |]; [|done..].
  cbn. by destruct (should_sample (wk_sample_rate wk) r).
Qed.

Section Acknowledged.
Context (G : nat -> @Rpc N -> Prop) (R : ExportLogsServiceRequest -> Prop) (HG : acknowledges G R).
Context (L : list Selected) (Hown : forall rq, own_batch L rq -> R rq).

Lemma wp_acked_export {E} i rq (Q : Result (Timed (Result unit string)) E -> World * Rpc -> Prop) w rpc :
  G (S i) rpc -> R rq ->
  (forall rpc', G i rpc' -> rpc_log rpc' = rpc_log rpc ++ [(rq, InTime (Ok tt))] -> Q (Ok (InTime (Ok tt))) (w, rpc')) ->
  wp (timed_export wk rq) Q (w, rpc).
Proof using HG.
  intros Hg HR HQ. unfold wp, timed_export. cbn [fst snd].
  destruct (proj2 HG i rq rpc Hg HR) as (rpc1 & -> & Hl & Hg1). apply HQ; [apply Hg1|by rewrite <- Hl].
Qed.

(** A batch is acknowledged, and nothing is spooled. *)
Lemma wp_acked_records i records (Q : Result unit LayerError -> World * Rpc -> Prop) w rpc :
  G (S i) rpc -> ((0 < length records)%nat -> R (export_request_for (wk_source wk) records)) ->
  (forall rpc' new, G i rpc' -> rpc_log rpc' = rpc_log rpc ++ new -> Forall acknowledged new -> Q (Ok tt) (w, rpc')) ->
  wp (export_records wk records) Q (w, rpc).
Proof using HG.
  intros Hg HR HQ. destruct records as [|r rs]; [apply wp_ret, (HQ rpc []); [by apply HG|by rewrite app_nil_r|by apply Forall_nil]|].
  apply wp_bind, (wp_acked_export i); [done|apply HR; cbn; lia|]. intros rpc' Hg' Hl. eapply wp_ret, HQ; [done|exact Hl|].
  apply Forall_cons. split; [done|by apply Forall_nil].
Qed.

(** ** Replay *)

Lemma wpn_replay_one {E} i path (Q : Result unit E -> World * Rpc -> Prop) w rpc :
  w_faults w = [] -> G (S i) rpc -> (forall rq, request_at (w_fs w) path = Some rq -> R rq) ->
  (request_at (w_fs w) path = None -> Q (Ok tt) (w, rpc)) ->
  (forall rq rpc', request_at (w_fs w) path = Some rq -> G i rpc' ->
     rpc_log rpc' = rpc_log rpc ++ [(rq, InTime (Ok tt))] -> Q (Ok tt) (with_fs w (delete path (w_fs w)), rpc')) ->
  wp (replay_one wk tt path) Q (w, rpc).
Proof using HG.
  intros Hf Hg HR H0 H1. apply wp_bind, wp_try, wp_exp_io. cbn [fst snd]. apply wp_bind, wpn_query; [done|].
  unfold request_at in *. destruct (w_fs w !! path) as [[c t|]|] eqn:Ep; [|by apply wp_ret, H0|by apply wp_ret, H0].
  apply wp_lift. destruct (prost_decode c) as [rq|e]; cbn [map_err result_ok] in *; [|by apply wp_ret, H0].
  apply wp_bind, (wp_acked_export i); [done|by apply HR|]. intros rpc' Hg' Hl.
  apply wp_bind, wp_try, wp_exp_io, (wpn_remove_file _ c t); [done|done|]. by eapply wp_ret, H1.
Qed.

Lemma drained_snoc done p fs fs1 : ~ p ∈ done -> drained done fs fs1 ->
  request_at fs1 p = request_at fs p /\
  (request_at fs p = None -> drained (done ++ [p]) fs fs1) /\
  (is_Some (request_at fs p) -> drained (done ++ [p]) fs (delete p fs1)).
Proof.
  intros Hp Hd. assert (fs1 !! p = fs !! p) as Hsame by (rewrite Hd, decide_False; tauto).
  split; [unfold request_at; by rewrite Hsame|]. split; intros Hr q.
  - rewrite Hd. apply decide_ext. rewrite elem_of_app, list_elem_of_singleton. split; [tauto|].
    intros [[?| ->] [x Hx]]; [eauto|congruence].
  - destruct (decide (p = q)) as [<-|Hne].
    + rewrite lookup_delete_eq, decide_True; [done|]. split; [apply elem_of_app; right; by left|done].
    + rewrite lookup_delete_ne, Hd by done. apply decide_ext. rewrite elem_of_app, list_elem_of_singleton. naive_solver.
Qed.

Lemma wpn_replay_all {E} i paths (Q : Result unit E -> World * Rpc -> Prop) w rpc :
  w_faults w = [] -> G (length paths + i) rpc -> NoDup paths ->
  (forall q rq, q ∈ paths -> request_at (w_fs w) q = Some rq -> R rq) ->
  (forall w' rpc' new, w_faults w' = [] -> G i rpc' -> rpc_log rpc' = rpc_log rpc ++ new ->
     Forall acknowledged new -> new.*1 = omap (request_at (w_fs w)) paths -> drained paths (w_fs w) (w_fs w') -> Q (Ok tt) (w', rpc')) ->
  wp (io_fold (replay_one wk) tt paths) Q (w, rpc).
Proof using HG.
  intros Hf Hg Hnd HR HQ.
  apply (wp_fold _ (fun _ xs wr => exists done new, paths = done ++ xs /\ w_faults wr.1 = [] /\ G (length xs + i) wr.2 /\
    rpc_log wr.2 = rpc_log rpc ++ new /\ Forall acknowledged new /\ new.*1 = omap (request_at (w_fs w)) done /\
    drained done (w_fs w) (w_fs wr.1))).
  - intros [] p xs [w1 rpc1] (done & new & -> & Hf1 & Hg1 & Hl & Ha & Hn & Hd). cbn [fst snd] in *.
    assert (~ p ∈ done) as Hp by (rewrite NoDup_app in Hnd; destruct Hnd as (_ & H & _); intros Hin; eapply H; [done|by left]).
    destruct (drained_snoc _ _ _ _ Hp Hd) as (Hr & H0 & H1). apply (wpn_replay_one (length xs + i)); [done|done| | |].
    + rewrite Hr. intros rq. apply (HR p). apply elem_of_app; right; left.
    + rewrite Hr. intros Hno. exists (done ++ [p]), new. split; [by rewrite <- app_assoc|]. rewrite omap_app. cbn. rewrite Hno, app_nil_r.
      split_and!; auto. by apply HG.
    + rewrite Hr. intros rq rpc' Hrq Hg' Hl'. exists (done ++ [p]), (new ++ [(rq, InTime (Ok tt))]).
      cbn [fst snd w_fs with_fs]. split; [by rewrite <- app_assoc|]. rewrite omap_app, fmap_app. cbn [omap list_omap]. rewrite Hrq.
      split_and!; [done|done|by rewrite Hl', Hl, app_assoc| |by rewrite Hn|by apply H1].
      apply Forall_app. split; [done|]. apply Forall_cons. split; [done|by apply Forall_nil].
  - intros [] [w1 rpc1] (done & new & Hp & Hf1 & Hg1 & Hl & Ha & Hn & Hd). rewrite app_nil_r in Hp. subst done. by eapply HQ.
  - exists [], []. split_and!; [done|done|done|by rewrite app_nil_r|by apply Forall_nil|done|].
    intros q. rewrite decide_False; [done|]. rewrite elem_of_nil. tauto.
Qed.

(** ** Taking the lock and listing *)

Definition lockable (dir : Path) (w : World) : Prop :=
  writable dir w /\ dir <> [] /\ w_fs w !! (dir ++ [".lock"]) <> Some Dir.

(** What taking the lock leaves alone. *)
Definition same_queue (dir : Path) (fs fs' : gmap Path Node) : Prop :=
  forall q, q <> dir ++ [".lock"] -> ~ q `prefix_of` dir -> fs' !! q = fs !! q.

Lemma wpn_lock dir (Q : Result unit io_error -> World -> Prop) w :
  lockable dir w ->
  (forall w', w_faults w' = [] -> w_fs w' !! dir = Some Dir -> same_queue dir (w_fs w) (w_fs w') -> Q (Ok tt) w') ->
  wp (SpoolLock_acquire dir) Q w.
Proof.
  intros (Hw & Hne & Hl) HQ. unfold SpoolLock_acquire, ensure_dir, open_lock, lock_exclusive. rewrite join_normal by done.
  assert (forall q, q `prefix_of` dir -> q <> dir ++ [".lock"]) as Hlock.
  { intros q H%prefix_length ->. rewrite length_app in H. cbn in H. lia. }
  apply wp_bind, wpn_create_dir_all; [apply Hw|apply Hw|]. set (fs1 := foldl add_dir _ _).
  assert (fs1 !! dir = Some Dir) as Hdir by (apply add_dirs_dir; [apply Hw|done]).
  assert (same_queue dir (w_fs w) fs1) as H1 by (intros q _ Hq; by apply (foldl_add_dir_prefix dir)).
  apply wp_bind, wpn_open_append; [apply Hw| | |]; cbn [w_fs with_fs w_now].
  - unfold fs1. rewrite (foldl_add_dir_prefix dir); [done|done|]. intros H. by apply Hlock in H.
  - eapply parent_is_dir_of; [by apply parent_snoc|done].
  - apply wpn_query; [apply Hw|]. apply HQ; cbn [w_fs with_fs w_faults]; [apply Hw| |];
      (destruct (is_file fs1 _); [done|]).
    + rewrite lookup_insert_ne; [done|]. intros E. by apply (Hlock dir).
    + intros q Hq Hp. rewrite lookup_insert_ne by done. by apply H1.
Qed.

(** A batch file of the queue is not touched by taking the lock. *)
Lemma queued_same dir fs fs' q : same_queue dir fs fs' -> parent q = Some dir -> extension q = Some "protobuf" -> fs' !! q = fs !! q.
Proof.
  intros H Hp He. apply parent_Some in Hp as (x & -> & _). apply H.
  - intros [_ ->]%app_inj_tail. unfold extension in He. rewrite file_name_snoc in He by done. done.
  - intros Hq%prefix_length. rewrite length_app in Hq. cbn in Hq. lia.
Qed.

Lemma wpn_pending_log_batches dir (Q : Result (list Path) io_error -> World -> Prop) w :
  w_faults w = [] -> w_fs w !! dir = Some Dir ->
  (forall paths, NoDup paths -> (forall q, q ∈ paths <-> queued dir (w_fs w) q) -> Q (Ok paths) w) ->
  wp (pending_log_batches dir) Q w.
Proof.
  intros Hf Hd HQ. unfold wp.
  assert (pending_log_batches dir w = (Ok (sort_paths (filter (fun path => bool_decide (extension path = Some "protobuf"))
    (dir_order (children (w_fs w) dir)))), w)) as ->.
  { unfold pending_log_batches, io_bind at 1, io_try, read_dir. rewrite run_query, Hd by done.
    unfold io_bind. by rewrite (run_collect_entries _ (fun path => bool_decide (extension path = Some "protobuf"))). }
  apply HQ.
  - rewrite sort_paths_perm. apply NoDup_filter. rewrite dir_order_perm. apply children_NoDup.
  - intros q. rewrite sort_paths_perm, list_elem_of_filter, dir_order_perm, elem_of_children, Is_true_true, bool_decide_eq_true.
    unfold queued. tauto.
Qed.

Lemma omap_same {A B} (f g : A -> option B) (l : list A) : (forall x, x ∈ l -> f x = g x) -> omap f l = omap g l.
Proof.
  induction l as [|x l IH]; intros H; [done|]. cbn. rewrite (H x) by left. rewrite IH; [done|]. intros y Hy. apply H. by right.
Qed.

(** Replay sends every request of the queue once, and empties it. *)
Lemma wpn_drain {E} i (Q : Result unit E -> World * Rpc -> Prop) w rpc :
  lockable (wk_queue_dir wk) w ->
  (forall paths, NoDup paths -> (forall q, q ∈ paths <-> queued (wk_queue_dir wk) (w_fs w) q) -> G (length paths + i) rpc) ->
  (forall q rq, queued (wk_queue_dir wk) (w_fs w) q -> request_at (w_fs w) q = Some rq -> R rq) ->
  (forall w' rpc' paths new, G i rpc' -> NoDup paths -> (forall q, q ∈ paths <-> queued (wk_queue_dir wk) (w_fs w) q) ->
     rpc_log rpc' = rpc_log rpc ++ new -> Forall acknowledged new -> new.*1 = omap (request_at (w_fs w)) paths ->
     (forall q, q ∈ paths -> w_fs w' !! q = if decide (is_Some (request_at (w_fs w) q)) then None else w_fs w !! q) ->
     Q (Ok tt) (w', rpc')) ->
  wp (drain_spooled wk) Q (w, rpc).
Proof using HG.
  intros Hlk Hg HR HQ. apply wp_bind, wp_try, wp_exp_io, wpn_lock; [done|]. cbn [fst snd]. intros w1 Hf1 Hd1 Hs1.
  apply wp_bind, wp_try, wp_exp_io, wpn_pending_log_batches; [done|done|]. cbn [fst snd]. intros paths Hnd Hp1.
  assert (forall q, q ∈ paths -> w_fs w1 !! q = w_fs w !! q) as Hsame by (intros q (Hp & He & _)%Hp1; by eapply queued_same).
  assert (forall q, q ∈ paths <-> queued (wk_queue_dir wk) (w_fs w) q) as Hp0.
  { intros q. rewrite Hp1. unfold queued. split; intros (Hp & He & Hq); (split_and!; [done|done|]);
      by rewrite (queued_same _ _ _ _ Hs1 Hp He) in *. }
  apply (wpn_replay_all i); [done|by apply Hg|done| |].
  { intros q rq Hq. unfold request_at. rewrite (Hsame q Hq). apply HR. by apply Hp0. }
  intros w2 rpc2 new Hf2 Hg2 Hl Ha Hn Hd. apply (HQ w2 rpc2 paths new); try done.
  - rewrite Hn. apply omap_same. intros q Hq. unfold request_at. by rewrite Hsame.
  - intros q Hq. rewrite Hd. unfold request_at. rewrite (Hsame q Hq). apply decide_ext. tauto.
Qed.

(** ** The loop *)

Definition all_acked (i : nat) (log0 : list Attempt) (l : list Selected) (st : Run) (rpc : Rpc) : Prop :=
  G i rpc /\ (exists new, rpc_log rpc = log0 ++ new /\ Forall acknowledged new) /\
  Forall (fun a => a.2 = Ok tt) (run_replies st) /\ (last l = Some Closed -> run_batch st = []) /\
  (Z.of_nat (length (run_batch st)) < wk_batch_size wk)%Z /\ run_batch st `suffix_of` sampled l.

Lemma all_acked_new i j log0 l l' st st' rpc rpc' new : (1 <= wk_batch_size wk)%Z ->
  all_acked i log0 l st rpc -> G j rpc' -> rpc_log rpc' = rpc_log rpc ++ new -> Forall acknowledged new ->
  Forall (fun a => a.2 = Ok tt) (run_replies st') -> run_batch st' = [] -> all_acked j log0 l' st' rpc'.
Proof.
  intros Hpos (_ & (old & Ho & Ha) & _) Hg Hl Hn Hr Hb. split; [done|]. split; [|rewrite Hb; cbn; split_and!; [done|done|lia|apply suffix_nil]].
  exists (old ++ new). rewrite Hl, Ho, app_assoc. split; [done|]. by apply Forall_app.
Qed.

(** What is held is a batch the run may make. *)
Lemma batch_own l b : l `prefix_of` L -> b `suffix_of` sampled l -> (Z.of_nat (length b) <= wk_batch_size wk)%Z -> (0 < length b)%nat ->
  R (export_request_for (wk_source wk) b).
Proof using Hown.
  intros [l' ->] [before Hb] Hlen Hne. apply Hown. exists before, b, (filter (should_sample (wk_sample_rate wk)) (received l')).
  split_and!; [|done..]. rewrite app_assoc, <- Hb. unfold sampled, received. by rewrite omap_app, filter_app.
Qed.

Lemma wp_acked_step {E} i log0 l s st (Q : Result Run E -> World * Rpc -> Prop) w rpc : (1 <= wk_batch_size wk)%Z ->
  l ++ [s] `prefix_of` L ->
  all_acked (S i) log0 l st rpc -> (forall st' rpc', all_acked i log0 (l ++ [s]) st' rpc' -> Q (Ok st') (w, rpc')) ->
  wp (run_step wk st s) Q (w, rpc).
Proof using HG Hown.
  intros Hpos Hpre Hs HQ. pose proof Hs as (Hg & _ & Hr & _ & Hlen & Hsuf).
  pose proof (sampled_snoc l s) as Hsn.
  assert (forall b st', (Z.of_nat (length b) <= wk_batch_size wk)%Z -> b `suffix_of` sampled (l ++ [s]) -> run_batch st' = [] ->
    run_replies st' = run_replies st -> wp (export_or_spool (E := E) wk b;;! io_ret st') Q (w, rpc)) as Hexp.
  { intros b st' Hbl Hbs Hb Hrep. apply wp_bind, wp_bind, wp_try, (wp_acked_records i); [done|by eapply batch_own|]. intros rpc' new Hg' Hl Ha.
    apply wp_ret, wp_ret, HQ. eapply all_acked_new; [done|exact Hs|done|exact Hl|done|by rewrite Hrep|done]. }
  destruct s as [[record|reply]| |]; cbn [run_step]; [|rewrite app_nil_r in Hsn..];
    [| |by apply Hexp; [lia|rewrite Hsn|..]|by apply Hexp; [lia|rewrite Hsn|..]].
  - set (batch := if should_sample _ _ then _ else _).
    assert (Z.of_nat (length batch) <= wk_batch_size wk)%Z as Hbl by (unfold batch; destruct (should_sample _ _); [rewrite length_app; cbn|]; lia).
    assert (batch `suffix_of` sampled (l ++ [Received (Record_ record)])) as Hbs.
    { rewrite Hsn. unfold batch. destruct (should_sample _ _); [by apply suffix_app|by rewrite app_nil_r]. }
    destruct (Z.leb_spec (wk_batch_size wk) (Z.of_nat (length batch))); [by apply Hexp|]. apply wp_ret, HQ. destruct Hs as (_ & Hnew & _).
    split_and!; [by apply HG|done|done| |done|done]. rewrite last_snoc. intros [=].
  - apply wp_bind, wp_try, (wp_acked_records i); [done|eapply batch_own; [done|by rewrite Hsn|lia]|]. intros rpc' new Hg' Hl Ha. apply wp_ret, HQ.
    eapply all_acked_new; [done|exact Hs|done|exact Hl|done| |done]. apply Forall_app. split; [done|].
    apply Forall_cons. split; [done|by apply Forall_nil].
Qed.

Lemma wp_acked_loop {E} i l (Q : Result Run E -> World * Rpc -> Prop) w rpc : (1 <= wk_batch_size wk)%Z -> L = turns l ->
  G (length (turns l) + i) rpc -> (forall st rpc', all_acked i (rpc_log rpc) (turns l) st rpc' -> Q (Ok st) (w, rpc')) ->
  wp (run_loop wk run_init l) Q (w, rpc).
Proof using HG Hown.
  intros Hpos HL Hg HQ. unfold wp. rewrite run_loop_fold by done. fold (wp (io_fold (run_step wk) run_init (turns l)) Q (w, rpc)).
  apply (wp_fold _ (fun st xs wr => wr.1 = w /\ exists done, turns l = done ++ xs /\ all_acked (length xs + i) (rpc_log rpc) done st wr.2)).
  - intros st s xs [w1 rpc1] (Hw & done & Hd & Ha). cbn [fst snd] in Hw, Ha. subst w1. eapply wp_acked_step; [done| |exact Ha|].
    { exists xs. by rewrite HL, Hd, <- app_assoc. }
    intros st' rpc' Ha'. split; [done|]. exists (done ++ [s]). by rewrite <- app_assoc.
  - intros st [w1 rpc1] (Hw & done & Hd & Ha). cbn [fst snd] in Hw, Ha. subst w1. rewrite app_nil_r in Hd. subst done. by apply HQ.
  - split; [done|]. exists []. split; [done|]. split_and!; [done| |by apply Forall_nil|done|cbn; lia|apply suffix_nil].
    exists []. split; [by rewrite app_nil_r|by apply Forall_nil].
Qed.
End Acknowledged.

(** The turns of a closed channel end with its end. *)
Lemma turns_closed l : Closed ∈ l -> last (turns l) = Some Closed.
Proof.
  induction l as [|s l IH]; [by intros ?%elem_of_nil|]. intros Hin. cbn [turns].
  destruct s; [| done|]; (rewrite last_cons, IH; [done|]; apply elem_of_cons in Hin as [[=]|?]; done).
Qed.

(** A run whose calls are acknowledged. *)
Lemma run_delivers G R i l w rpc :
  acknowledges G R -> (forall rq, own_batch (turns l) rq -> R rq) -> (1 <= wk_batch_size wk)%Z -> lockable (wk_queue_dir wk) w -> Closed ∈ l ->
  (forall paths, NoDup paths -> (forall q, q ∈ paths <-> queued (wk_queue_dir wk) (w_fs w) q) ->
     G (length paths + (length (turns l) + i))%nat rpc) ->
  (forall q rq, queued (wk_queue_dir wk) (w_fs w) q -> request_at (w_fs w) q = Some rq -> R rq) ->
  exists st w' rpc' paths replays exported,
    run (E := Empty_set) wk l (w, rpc) = (Ok st, (w', rpc')) /\
    rpc_log rpc' = rpc_log rpc ++ replays ++ exported /\ Forall acknowledged (replays ++ exported) /\
    NoDup paths /\ (forall q, q ∈ paths <-> queued (wk_queue_dir wk) (w_fs w) q) /\
    replays.*1 = omap (request_at (w_fs w)) paths /\
    (forall q, q ∈ paths -> w_fs w' !! q = if decide (is_Some (request_at (w_fs w) q)) then None else w_fs w !! q) /\
    exported.*1 ≫= records_of = sampled (turns l) /\
    run_batch st = [] /\ (run_replies st).*1 = flushes (turns l) /\ Forall (fun a => a.2 = Ok tt) (run_replies st) /\ Forall (own_attempt wk) exported /\ G i rpc'.
Proof.
  intros HG Hown Hpos Hlk Hcl Hg HR. unfold run, io_bind at 1.
  destruct (drain_spooled wk (w, rpc)) as [r1 [w1 rpc1]] eqn:E1.
  apply (wp_run (drain_spooled wk) (fun r wr => r = Ok tt /\ exists paths new, G (length (turns l) + i)%nat wr.2 /\ NoDup paths /\
    (forall q, q ∈ paths <-> queued (wk_queue_dir wk) (w_fs w) q) /\ rpc_log wr.2 = rpc_log rpc ++ new /\ Forall acknowledged new /\
    new.*1 = omap (request_at (w_fs w)) paths /\
    (forall q, q ∈ paths -> w_fs wr.1 !! q = if decide (is_Some (request_at (w_fs w) q)) then None else w_fs w !! q))) in E1.
  2: { eapply (wpn_drain G R HG (length (turns l) + i)); [done|done|done|]. intros w2 rpc2 paths new. intros. split; [done|]. by exists paths, new. }
  destruct E1 as (-> & paths & replays & Hg1 & Hnd & Hp & Hl1 & Ha1 & Hn1 & Hq1). cbn [fst snd] in *.
  destruct (run_loop wk run_init l (w1, rpc1)) as [r2 [w2 rpc2]] eqn:E2.
  pose proof E2 as E3. apply (wp_run (run_loop wk run_init l) (fun r wr => exists st, r = Ok st /\ wr.1 = w1 /\
    all_acked G i (rpc_log rpc1) (turns l) st wr.2)) in E2 as (st & -> & Hw & Hgi & (new & Hl2 & Ha2) & Hrep & Hb & _).
  2: { apply (wp_acked_loop G R HG (turns l) Hown i); [done|done|done|]. intros st rpc' Ha. by exists st. }
  apply (wp_run (run_loop wk run_init l) (fun r wr => exists st, r = Ok st /\
    conserves wk (fun _ _ _ => True) (rpc_log rpc1) (turns l) st wr.1 (rpc_log wr.2))) in E3 as (st' & [= <-] & exp & Hl3 & Hownx & Hr & _ & Hfl & _).
  2: { apply (wp_run_loop wk (fun _ _ _ => True)); [done|done|done|]. intros st' w' rpc' Hc. by exists st'. }
  cbn [fst snd] in *. subst w2. rewrite Hl2 in Hl3. apply app_inv_head in Hl3 as <-.
  specialize (Hb (turns_closed l Hcl)). rewrite Hb, app_nil_r in Hr.
  exists st, w1, rpc2, paths, replays, new. split_and!; try done; [by rewrite Hl2, Hl1, app_assoc|by apply Forall_app].
Qed.

(** C16. The exporter delivers: when the server acknowledges, no file operation
    fails and nothing is in the way of the queue, the worker first sends every
    request that the queue holds, each once, and removes its file; then every
    batch it sends is acknowledged and nothing is spooled; every flush is
    answered with success; and once its channel is closed, the records in the
    acknowledged requests are exactly those it received that sampling kept, in
    order. *)
Theorem exporter_delivers_everything G l w rpc :
  acknowledging G -> sendable -> G (rpc_peer rpc) -> (1 <= wk_batch_size wk)%Z -> lockable (wk_queue_dir wk) w -> Closed ∈ l ->
  exists st w' rpc' paths replays exported,
    run (E := Empty_set) wk l (w, rpc) = (Ok st, (w', rpc')) /\
    rpc_log rpc' = rpc_log rpc ++ replays ++ exported /\ Forall acknowledged (replays ++ exported) /\
    NoDup paths /\ (forall q, q ∈ paths <-> queued (wk_queue_dir wk) (w_fs w) q) /\
    replays.*1 = omap (request_at (w_fs w)) paths /\
    (forall q, q ∈ paths -> w_fs w' !! q = if decide (is_Some (request_at (w_fs w) q)) then None else w_fs w !! q) /\
    exported.*1 ≫= records_of = filter (should_sample (wk_sample_rate wk)) (received (turns l)) /\
    run_batch st = [] /\ (run_replies st).*1 = flushes (turns l) /\ Forall (fun a => a.2 = Ok tt) (run_replies st).
Proof.
  intros HG Hsend Hg Hpos Hlk Hcl.
  destruct (run_delivers (fun _ rpc => G (rpc_peer rpc)) (fun _ => True) 0 l w rpc) as (st & w' & rpc' & paths & replays & exported & H);
    [by apply acknowledging_acknowledges|done|done|done|done|done|done|].
  exists st, w', rpc', paths, replays, exported. destruct H as (? & ? & ? & ? & ? & ? & ? & ? & ? & ? & ? & _ & _). by split_and!.
Qed.
End LayerProgress.

(** ** A concrete exporter with a batch in its queue *)

Definition AckTonic : TonicApi unit := {|
  TlsConfig := unit;
  metadata_value s := Some (as_bytes s);
  status_internal m := m;
  status_unavailable m := m;
  grpc_connect _ _ _ n := (InTime (Ok tt), n);
  grpc_export _ n := (InTime (Ok tt), n)
|}.

Definition ack_worker : @Worker ToyUuid ToyUrl unit AckTonic :=
  {| wk_endpoint := sample_endpoint; wk_token := "tok"; wk_source := md_source sample_metadata; wk_batch_size := 2;
     wk_flush_interval := DEFAULT_FLUSH_INTERVAL; wk_flush_timeout := DEFAULT_FLUSH_TIMEOUT; wk_queue_dir := ["/"; "q"];
     wk_sample_rate := f64_one; wk_compression := None; wk_tls_config := None |}.

Definition filled_queue : World :=
  {| w_fs := {[ ["/"] := Dir; ["/"; "q"] := Dir; ["/"; "q"; "log-0.protobuf"] := File (as_bytes "P") 1;
                ["/"; "q"; "log-1.protobuf"] := File (as_bytes "damaged") 1 ]};
     w_now := 5; w_clock := []; w_faults := []; w_uuids := 0; w_dir_mtime := fun _ => 0%Z |}.

Lemma filled_lockable : lockable ["/"; "q"] filled_queue.
Proof.
  split; [|split; [done|vm_compute; discriminate]]. split; [done| |].
  - intros q Hq. destruct Hq as [k Hk]. destruct q as [|a [|b [|c q]]]; [vm_compute; reflexivity| | |discriminate Hk];
      injection Hk; intros; subst; vm_compute; reflexivity.
  - intros n H. set (f := fun (q : Path) (x : Node) => match x with Dir => Nat.ltb (length q) 3 | _ => true end).
    apply (nodes_forall f) in H; [|vm_compute; reflexivity]. discriminate H.
Qed.

Definition ack_rpc : @Rpc unit := {| rpc_peer := tt; rpc_channel := false; rpc_log := [] |}.

Lemma exporter_delivers_everything_witness : exists st w' rpc' paths replays exported,
  run (E := Empty_set) ack_worker sample_selected (filled_queue, ack_rpc) = (Ok st, (w', rpc')) /\
  rpc_log rpc' = [] ++ replays ++ exported /\ Forall acknowledged (replays ++ exported) /\
  NoDup paths /\ (forall q, q ∈ paths <-> queued ["/"; "q"] (w_fs filled_queue) q) /\
  replays.*1 = omap (request_at (w_fs filled_queue)) paths /\
  (forall q, q ∈ paths -> w_fs w' !! q = if decide (is_Some (request_at (w_fs filled_queue) q)) then None else w_fs filled_queue !! q) /\
  exported.*1 ≫= records_of = filter (should_sample f64_one) (received (turns sample_selected)) /\
  run_batch st = [] /\ (run_replies st).*1 = flushes (turns sample_selected) /\ Forall (fun a => a.2 = Ok tt) (run_replies st).
Proof.
  apply (exporter_delivers_everything ack_worker (fun _ => True) sample_selected filled_queue ack_rpc).
  - split; [intros n _|intros rq n _]; by exists n.
  - split; by eexists.
  - exact I.
  - cbn. lia.
  - exact filled_lockable.
  - unfold sample_selected. repeat (apply list_elem_of_here || apply list_elem_of_further).
Defined.

(** The queued request and the three received records arrive; the damaged file
    stays. *)
Example ack_run :
  let wr := (run (E := Empty_set) ack_worker sample_selected (filled_queue, ack_rpc)).2 in
  length (rpc_log wr.2) = 3%nat /\ w_fs wr.1 !! ["/"; "q"; "log-0.protobuf"] = None /\
  w_fs wr.1 !! ["/"; "q"; "log-1.protobuf"] = Some (File (as_bytes "damaged") 1).
Proof. vm_compute. auto. Qed.
