(* ===== verification/EndToEnd.v ===== *)
(** * From the client to the server's disk

    The client's upload, in whatever frames it arrives, is a request the server
    accepts, and what the server then stores decodes to the client's crash. *)

From Stdlib Require Import Ascii.
From S2P Require Import Prelude RustStd Fs FsDir External Instances Json Protocol Rfc7578 Multipart Metrics Schemas Storage F64 RateLimit Auth State Crashes CrashStore CrashIngest CrashProgress Compression Spool PanicHook Shipper ClientInstances ShipSafety.

(** ** Compression *)

Section Compress.
Context {U : UuidApi} {C : ChronoApi} {ZS : ZstdApi} {ZL : ZstdLaws ZS}.

(** [a'] carries [a] under the encoding [pe]. *)
Definition carries (a a' : CrashAttachment) (pe : PartEncoding) : Prop :=
  ca_key a' = ca_key a /\ ca_content_type a' = ca_content_type a /\
  (content_encoding pe = Some "zstd" /\ zstd_decode_all (ca_bytes a') = Ok (ca_bytes a) \/
   content_encoding pe = None /\ ca_bytes a' = ca_bytes a).

Lemma replace_first_here key b l a r : key ∉ ca_key <$> l -> ca_key a = key ->
  replace_first key b (l ++ a :: r) =
  l ++ {| ca_key := ca_key a; ca_content_type := ca_content_type a; ca_bytes := b |} :: r.
Proof.
  intros Hl Ha. induction l as [|x l IH]; cbn [app replace_first].
  - by rewrite Ha, String.eqb_refl.
  - rewrite fmap_cons, not_elem_of_cons in Hl. destruct Hl as [Hx Hl].
    destruct (String.eqb_spec (ca_key x) key); [congruence|]. by rewrite IH.
Qed.

Lemma compress_attachments config rest : forall done encs atts encs',
  NoDup (ca_key <$> done ++ rest) ->
  try_fold (compress_attachment config) (done ++ rest, encs) rest = Ok (atts, encs') ->
  exists rest' encs2, atts = done ++ rest' /\ encs' = encs ++ encs2 /\ Forall3 carries rest rest' encs2.
Proof using ZL.
  induction rest as [|a rest IH]; intros done encs atts encs' Hnd; cbn [try_fold].
  { intros [= <- <-]. exists [], []. rewrite !app_nil_r. split_and!; [done|done|constructor]. }
  assert (ca_key a ∉ ca_key <$> done) as Hnew.
  { rewrite fmap_app, fmap_cons, NoDup_app in Hnd. destruct Hnd as (_ & H & _). intros Hin. apply (H _ Hin). by left. }
  unfold compress_attachment at 1. destruct (_ && _).
  - destruct (compress (ca_bytes a) (dump_compression_level config)) as [c|e] eqn:Ec; [|done]. cbn [fst snd].
    rewrite replace_first_here by done. set (a' := {| ca_key := _; ca_content_type := _; ca_bytes := c |}). intros Hrun.
    rewrite (cons_middle a' done rest), app_assoc in Hrun. apply IH in Hrun as (rest' & encs2 & -> & -> & HF).
    + exists (a' :: rest'), (zstd_encoding :: encs2). rewrite <- !app_assoc. split_and!; [done|done|]. constructor; [|done].
      split_and!; [done|done|]. left. split; [done|]. by eapply zstd_decode_encode.
    + rewrite <- app_assoc. by rewrite fmap_app in Hnd |- *.
  - cbn [fst snd]. intros Hrun. rewrite (cons_middle a done rest), app_assoc in Hrun.
    apply IH in Hrun as (rest' & encs2 & -> & -> & HF); [|by rewrite <- app_assoc].
    exists (a :: rest'), (PartEncoding_default :: encs2). rewrite <- !app_assoc. split_and!; [done|done|]. constructor; [|done].
    split_and!; [done|done|]. by right.
Qed.

(** The clone differs from the envelope only in how its parts are encoded. *)
Lemma compress_envelope_carries config (e ce : CrashEnvelope U C) encs :
  NoDup (ca_key <$> ce_attachments e) -> compress_envelope config e = Ok (ce, encs) ->
  ce_metadata ce = ce_metadata e /\ enc_dump encs = zstd_encoding /\
  zstd_decode_all (ce_dump ce) = Ok (ce_dump e) /\
  Forall3 carries (ce_attachments e) (ce_attachments ce) (enc_attachments encs).
Proof using ZL.
  intros Hnd. unfold compress_envelope. destruct (compress (ce_dump e) _) as [d|x] eqn:Ed; [|done].
  destruct (try_fold _ _ _) as [[atts es]|x] eqn:Ea; [|done]. intros [= <- <-].
  apply (compress_attachments config (ce_attachments e) []) in Ea as (rest' & encs2 & -> & -> & HF); [|done].
  split_and!; [done|done|by eapply zstd_decode_encode|done].
Qed.
End Compress.

(** ** The server's view of an upload *)

Section Upload.
Context {U : UuidApi} {UL : UuidLaws U} {C : ChronoApi} {CL : ChronoLaws C} {S : Sha256Api} {SL : Sha256Laws S}
  {J : JsonText} {JL : JsonTextLaws J} {M : MulterApi} {MR : MulterRfc M} {HT : HttpApi} {HL : HttpLaws HT}
  {V : JsonSchemaApi} {UR : UrlApi} {ZS : ZstdApi} {ZL : ZstdLaws ZS} {HA : HeaderApi}.

(** The request as it arrives, its body in frames. *)
Definition arriving (rq : HttpPost) (frames : list bytes) : CrashRequest :=
  {| rq_content_type := Some (as_bytes (hp_content_type rq)); rq_body := Ok <$> frames |}.

(** What a stored part decodes to. *)
Definition decoded (p : Part) : Result bytes io_error :=
  match p_encoding p with
  | None => Ok (p_content p)
  | Some "zstd" => zstd_decode_all (p_content p)
  | Some _ => fail_kind Other
  end.

Definition decodes_to (e : CrashEnvelope U C) (parts : list Part) : Prop :=
  exists d atts, parts = d :: atts /\ p_attach d = None /\ decoded d = Ok (ce_dump e) /\
    Forall2 (fun a p => p_attach p = Some (ca_key a, ca_content_type a) /\ decoded p = Ok (ca_bytes a))
      (ce_attachments e) atts.

Lemma read_chunks cs : forall acc, (len_u64 (acc ++ concat cs) <= METADATA_MAX_BYTES)%Z ->
  try_fold read_metadata_chunk acc (Ok <$> cs) = Ok (acc ++ concat cs).
Proof.
  induction cs as [|c cs IH]; intros acc Hl; cbn [fmap list_fmap try_fold concat]; [by rewrite app_nil_r|].
  cbn [concat] in Hl. unfold read_metadata_chunk at 1. cbn [map_err].
  assert (len_u64 acc + len_u64 c <= METADATA_MAX_BYTES /\ 0 <= len_u64 acc + len_u64 c)%Z as Hlen.
  { unfold len_u64 in *. rewrite !length_app in Hl. lia. }
  unfold wrap_u64. rewrite Z.mod_small by (unfold METADATA_MAX_BYTES in Hlen; lia).
  destruct (Z.ltb_spec METADATA_MAX_BYTES (len_u64 acc + len_u64 c)); [lia|].
  rewrite IH; rewrite <- app_assoc; done.
Qed.

Lemma matched_bytes f p : field_matches f p -> field_bytes f = Some (rp_content p).
Proof.
  intros (_ & _ & _ & cs & Hc & <-). unfold field_bytes. rewrite Hc.
  assert (try_map (fun c => c) (Ok <$> cs) = (Ok cs : Result (list bytes) string)) as ->; [|done].
  apply try_map_Forall2. clear. induction cs; [by apply Forall2_nil|by apply Forall2_cons].
Qed.

(** The part a raw part becomes. *)
Definition part_for (attach : option (string * string)) (enc : option string) (b : bytes) : Part :=
  {| p_attach := attach; p_content := b; p_encoding := enc |}.

Definition plain_encoding (enc : option string) : Prop := enc = None \/ enc = Some "zstd".

Lemma plain_header enc : plain_encoding enc -> (as_bytes <$> enc) ≫= header_to_str = enc.
Proof using HL. intros [-> | ->]; [done|]. cbn. by rewrite header_to_str_visible. Qed.

Lemma dump_part f enc b : plain_encoding enc -> field_matches f (raw "dump" "application/octet-stream" enc b) ->
  part_of f = Some (part_for None enc b).
Proof using HL.
  intros Henc Hf. unfold part_of. rewrite (matched_bytes _ _ Hf). destruct Hf as (Hn & _ & He & _). rewrite Hn, He.
  cbn [raw rp_name rp_encoding rp_content mbind option_bind]. by rewrite plain_header.
Qed.

Lemma attach_part f key ct enc b : plain_encoding enc -> field_matches f (raw ("attach:" +:+ key) ct enc b) ->
  part_of f = Some (part_for (Some (key, ct)) enc b).
Proof using HL.
  intros Henc Hf. unfold part_of. rewrite (matched_bytes _ _ Hf). destruct Hf as (Hn & Hc & He & _). rewrite Hn, Hc, He.
  cbn [raw rp_name rp_type rp_encoding rp_content mbind option_bind]. rewrite plain_header by done.
  destruct (String.eqb_spec ("attach:" +:+ key) "dump") as [E|_]; [discriminate E|].
  rewrite (proj2 (strip_prefix_Some "attach:" ("attach:" +:+ key) key) eq_refl). done.
Qed.

Lemma matched_fits f p : field_matches f p -> (len_u64 (rp_content p) < 2 ^ 63)%Z -> field_fits (Ok f).
Proof.
  intros (_ & _ & _ & cs & Hc & Hcs) Hl. cbn. rewrite Hc. rewrite <- Hcs in Hl. clear Hc Hcs.
  induction cs as [|c cs IH]; [by apply Forall_nil|]. cbn [concat] in Hl. unfold len_u64 in Hl. rewrite length_app in Hl.
  apply Forall_cons. split; [cbn; unfold len_u64; lia|]. apply IH. unfold len_u64. lia.
Qed.

(** The attachments' fields become parts that decode to the originals. *)
Lemma attachment_parts orig l encs : Forall3 carries orig l encs -> forall fields,
  Forall2 field_matches fields
    (imap (fun i a => raw ("attach:" +:+ ca_key a) (ca_content_type a) (encs !! i ≫= content_encoding) (ca_bytes a)) l) ->
  exists ps, Forall2 (fun f p => part_of f = Some p) fields ps /\ p_content <$> ps = ca_bytes <$> l /\
    Forall (fun p => p_attach p <> None) ps /\
    Forall2 (fun a p => p_attach p = Some (ca_key a, ca_content_type a) /\ decoded p = Ok (ca_bytes a)) orig ps.
Proof using HL.
  induction 1 as [|a a' pe orig l encs (Hk & Hct & Henc) _ IH]; intros fields HF.
  { apply Forall2_nil_inv_r in HF as ->. exists []. split_and!; [by apply Forall2_nil|done|by apply Forall_nil|by apply Forall2_nil]. }
  cbn [imap] in HF. apply Forall2_cons_inv_r in HF as (f & fields' & Hf & HF & ->). cbn in Hf.
  apply IH in HF as (ps & Hps & Hc & Hat & Hd).
  assert (plain_encoding (content_encoding pe)) as Hpl by (destruct Henc as [[-> _]|[-> _]]; [by right|by left]).
  apply attach_part in Hf; [|done]. eexists (_ :: ps). split; [apply Forall2_cons; by split|]. split; [cbn; congruence|].
  split; [by apply Forall_cons|]. apply Forall2_cons. split; [|done]. unfold part_for, decoded. cbn.
  rewrite Hk, Hct. split; [done|]. destruct Henc as [[-> H]|[-> H]]; cbn; congruence.
Qed.

Lemma attachment_fits (f : nat -> option string) max l : (max < 2 ^ 63)%Z ->
  Forall (fun b => (len_u64 b <= max)%Z) (ca_bytes <$> l) -> forall fields,
  Forall2 field_matches fields
    (imap (fun i a => raw ("attach:" +:+ ca_key a) (ca_content_type a) (f i) (ca_bytes a)) l) ->
  Forall field_fits (Ok <$> fields).
Proof.
  intros Hmax. revert f. induction l as [|a l IH]; intros f Hl fields HF; cbn [imap] in HF.
  - apply Forall2_nil_inv_r in HF as ->. by apply Forall_nil.
  - apply Forall2_cons_inv_r in HF as (x & fl & Hx & HF & ->). rewrite fmap_cons, Forall_cons in Hl. destruct Hl as [Ha Hl].
    apply Forall_cons. split; [eapply matched_fits; [exact Hx|]; cbn; lia|]. exact (IH (f ∘ Datatypes.S) Hl fl HF).
Qed.

(** Checks the server makes of the source, apart from the metadata itself. *)
Definition source_accepted (st : AppState) (tok : TokenContext) (now : Z) (m : CrashMetadata U C) (k : SourceKey) : Prop :=
  SourceKey_new (src_project (md_source m)) (uuid_to_string (src_install_id (md_source m))) = Ok k /\
  permits tok k = true /\ (check_crashes (rate_limiter st) now (tc_id tok) k).1 = Ok tt /\
  validate (schema_registry st) (src_project (md_source m)) CrashMetadataKind (metadata_to_value m) = Ok tt.

(** What can be uploaded as it is: the compressed clone is representable and no
    part exceeds the server's limits. *)
Definition uploadable (max : Z) (config : ShipConfig) (e : CrashEnvelope U C) : Prop :=
  NoDup (ca_key <$> ce_attachments e) /\
  (len_u64 (metadata_to_vec (ce_metadata e)) <= METADATA_MAX_BYTES)%Z /\
  forall ce encs, compress_envelope config e = Ok (ce, encs) ->
    envelope_ok DEFAULT_BOUNDARY ce /\ (len_u64 (ce_dump ce) <= max)%Z /\
    Forall (fun b => (len_u64 b <= max)%Z) (ca_bytes <$> ce_attachments ce).

Lemma carried_encodings orig l encs : Forall3 carries orig l encs -> Forall encoding_ok encs.
Proof.
  induction 1 as [|a a' pe orig l encs (_ & _ & Henc) _ IH]; [by apply Forall_nil|]. apply Forall_cons. split; [|done].
  unfold encoding_ok. destruct Henc as [[-> _]|[-> _]]; done.
Qed.

(** The upload arrives as well-formed parts. *)
Lemma upload_well_formed endpoint token config e rq frames max :
  upload_of endpoint token config e rq -> uploadable max config e -> (0 <= max < 2 ^ 63)%Z ->
  concat frames = hp_body rq -> (len_u64 (concat frames) < 2 ^ 63)%Z ->
  exists mf fields parts, request_fields (arriving rq frames) = Ok (Ok <$> mf :: fields) /\
    Forall field_fits (Ok <$> mf :: fields) /\
    first_part (Ok <$> mf :: fields) = Ok (ce_metadata e, Ok <$> fields) /\
    well_formed max fields parts /\ decodes_to e parts.
Proof using UL CL JL MR HL ZL.
  intros (_ & _ & Hct & ce & encs & Hce & Hbody) (Hnd & Hmd & Hup) Hmax Hfr Hlen.
  destruct (Hup ce encs Hce) as (Hok & Hdump & Hatt). destruct (compress_envelope_carries config e ce encs Hnd Hce) as (Hm & Hed & Hdd & HF3).
  rewrite vec_write_envelope in Hbody. injection Hbody as Hbody. cbn [app] in Hbody.
  destruct (envelope_fields DEFAULT_BOUNDARY ce encs frames) as (fl & Hfl & HF); [reflexivity|done| |congruence|done|].
  { split; [rewrite Hed; done|by eapply carried_encodings]. }
  unfold envelope_parts in HF. apply Forall2_cons_inv_r in HF as (mf & fl1 & Hmf & HF & ->).
  apply Forall2_cons_inv_r in HF as (df & fl2 & Hdf & HF & ->). rewrite Hed in Hdf.
  destruct (attachment_parts _ _ _ HF3 fl2 HF) as (ps & Hps & Hpc & Hpat & Hpd).
  pose proof (dump_part df (Some "zstd") (ce_dump ce) ltac:(by right) Hdf) as Hdp.
  exists mf, (df :: fl2), (part_for None (Some "zstd") (ce_dump ce) :: ps). split_and!.
  - unfold request_fields, arriving. cbn [rq_content_type rq_body ok_or]. rewrite Hct.
    rewrite header_to_str_visible by reflexivity. cbn [ok_or]. rewrite of_as_bytes, parse_boundary_rfc by reflexivity.
    cbn [map_err]. by rewrite Hfl.
  - rewrite !fmap_cons. apply Forall_cons. split; [eapply matched_fits; [exact Hmf|]; cbn; rewrite Hm; unfold METADATA_MAX_BYTES in Hmd; lia|].
    apply Forall_cons. split; [eapply matched_fits; [exact Hdf|]; cbn; lia|].
    eapply (attachment_fits (fun i => enc_attachments encs !! i ≫= content_encoding) max); [lia|exact Hatt|exact HF].
  - rewrite fmap_cons. unfold first_part. cbn [map_err]. destruct Hmf as (Hn & _ & _ & cs & Hcs & Hcc). rewrite Hn. cbn [raw rp_name].
    rewrite decide_True by done. unfold read_metadata. rewrite Hcs, read_chunks.
    + cbn [app]. rewrite Hcc. cbn [raw rp_content]. rewrite Hm, metadata_from_to_vec; [done|rewrite <- Hm; apply Hok..].
    + cbn [app]. rewrite Hcc. cbn [raw rp_content]. by rewrite Hm.
  - split; [apply Forall2_cons; by split|]. split.
    + apply Forall_cons. split; [done|]. rewrite <- Hpc in Hatt. by rewrite Forall_fmap in Hatt.
    + rewrite filter_cons_True by done. cbn [length]. f_equal. clear -Hpat.
      induction Hpat as [|p ps Hp _ IH]; [done|]. by rewrite filter_cons_False.
  - eexists _, ps. split_and!; [done|done|done|done].
Qed.

(** An upload the server's checks let pass is answered 201, recorded, and leaves
    a server ready for the next. *)
Lemma run_upload endpoint token config e rq frames st tok now k w :
  upload_of endpoint token config e rq -> uploadable (max_dump_bytes st) config e ->
  (0 <= max_dump_bytes st < 2 ^ 63)%Z ->
  concat frames = hp_body rq -> (len_u64 (concat frames) < 2 ^ 63)%Z ->
  source_accepted st tok now (ce_metadata e) k ->
  store_ok (storage st) (w_fs w) -> good (storage st) w ->
  exists resp st' w' parts,
    crashes_inner tok (arriving rq frames) now (st, w) = (Ok (201%Z, resp), (st', w')) /\
    recorded (storage st) (max_dump_bytes st) (w_fs w') (ce_metadata e) k parts (w_now w) resp /\
    decodes_to e parts /\ good (storage st) w' /\ same_config st st' /\
    rate_limiter st' = (check_crashes (rate_limiter st) now (tc_id tok) k).2.
Proof using UL CL SL JL MR HL ZL.
  intros Hup Hupl Hmax Hfr Hlen (Hk & Hp & Hlim & Hval) Hst Hg.
  destruct (upload_well_formed _ _ _ _ _ _ _ Hup Hupl Hmax Hfr Hlen) as (mf & fields & parts & Hrf & Hff & Hfp & Hwf & Hdec).
  assert (schema_version (ce_metadata e) = PROTOCOL_VERSION) as Hv.
  { destruct Hup as (_ & _ & _ & ce & encs & Hce & _). destruct Hupl as (Hnd & _ & Hu). destruct (Hu ce encs Hce) as (Hok & _).
    destruct (compress_envelope_carries config e ce encs Hnd Hce) as (<- & _). apply Hok. }
  destruct (run_well_formed st tok (arriving rq frames) now (ce_metadata e) fields k parts w) as (resp & st' & w' & Hrun & Hrec & Hrest); try done.
  - intros fl Hfl. rewrite Hrf in Hfl. by injection Hfl as <-.
  - split_and!; [by exists (Ok <$> mf :: fields)|done|done|done|done|done].
  - by exists resp, st', w', parts.
Qed.

(** C12. What the client uploads, the server stores: the upload of a spooled crash,
    cut into any frames by the network, is answered 201, and the disk then holds
    its metadata in the index and parts that decode to the envelope's dump and
    attachments.  The conditions: no file operation of the server fails, its store
    is sound and nothing is in the way in its data directory; the token permits
    the source, the limiter admits the request and the schema accepts the
    metadata; the metadata, the compressed dump and each compressed attachment are
    within the size limits; the attachment keys are distinct and need no escape,
    their media types are plain; no part contains a line that starts with the
    boundary; the context has no floating-point numbers and is within JSON's
    recursion limit; and the metadata is of the current version. *)
Theorem uploaded_crash_is_stored endpoint token config e rq frames st tok now k w :
  upload_of endpoint token config e rq -> uploadable (max_dump_bytes st) config e ->
  (0 <= max_dump_bytes st < 2 ^ 63)%Z ->
  concat frames = hp_body rq -> (len_u64 (concat frames) < 2 ^ 63)%Z ->
  source_accepted st tok now (ce_metadata e) k ->
  store_ok (storage st) (w_fs w) -> good (storage st) w ->
  exists resp st' w' parts,
    crashes_inner tok (arriving rq frames) now (st, w) = (Ok (201%Z, resp), (st', w')) /\
    recorded (storage st) (max_dump_bytes st) (w_fs w') (ce_metadata e) k parts (w_now w) resp /\
    decodes_to e parts.
Proof using UL CL SL JL MR HL ZL.
  intros H1 H2 H3 H4 H5 H6 H7 H8.
  destruct (run_upload endpoint token config e rq frames st tok now k w) as (resp & st' & w' & parts & ? & ? & ? & _); [done..|].
  by exists resp, st', w', parts.
Qed.
End Upload.

(** ** A concrete upload, in two frames *)

Definition spooled_compressed : CrashEnvelope ToyUuid ToyChrono :=
  {| ce_metadata := spooled_metadata; ce_dump := as_bytes "Zcore";
     ce_attachments := [{| ca_key := "note"; ca_content_type := "text/plain"; ca_bytes := as_bytes "Zhi" |}] |}.

Definition spooled_encodings : EnvelopeEncodings :=
  {| enc_dump := zstd_encoding; enc_attachments := [zstd_encoding] |}.

Definition spooled_post : @HttpPost ToyUrl := {|
  hp_url := crash_url sample_endpoint; hp_authorization := as_bytes "Bearer tok";
  hp_content_type := "multipart/form-data; boundary=" +:+ DEFAULT_BOUNDARY;
  hp_body := body_text DEFAULT_BOUNDARY (envelope_parts spooled_compressed spooled_encodings) |}.

Definition two_frames : list bytes := [take 100 (hp_body spooled_post); drop 100 (hp_body spooled_post)].

Lemma spooled_compress : compress_envelope ShipConfig_default spooled_envelope = Ok (spooled_compressed, spooled_encodings).
Proof. reflexivity. Qed.

Lemma spooled_upload : upload_of sample_endpoint "tok" ShipConfig_default spooled_envelope spooled_post.
Proof.
  split_and!; [done|done|done|]. exists spooled_compressed, spooled_encodings. split; [exact spooled_compress|].
  by rewrite vec_write_envelope.
Qed.

Lemma spooled_ok : envelope_ok DEFAULT_BOUNDARY spooled_compressed.
Proof.
  split; [|reflexivity|unfold context_fits, RECURSION_LIMIT; cbn; lia|reflexivity|reflexivity|vm_compute; reflexivity|].
  - split; [unfold U32_MAX; cbn; lia|]. split; [reflexivity|]. repeat constructor; unfold U64_MAX; cbn; lia.
  - apply Forall_cons. split; [split_and!; vm_compute; reflexivity|apply Forall_nil_2].
Qed.

Lemma spooled_uploadable : uploadable 1000 ShipConfig_default spooled_envelope.
Proof.
  split; [apply (bool_decide_unpack _); vm_compute; exact I|]. split; [apply Z.leb_le; vm_compute; reflexivity|].
  intros ce encs H. rewrite spooled_compress in H. injection H as <- <-. split; [exact spooled_ok|].
  split; [apply Z.leb_le; reflexivity|]. apply Forall_cons. split; [apply Z.leb_le; reflexivity|by apply Forall_nil].
Qed.

Lemma uploaded_crash_is_stored_witness : exists resp st' w' parts,
  crashes_inner (M := RfcMulter) sample_token (arriving spooled_post two_frames) 0 (sample_state, empty_world)
    = (Ok (201%Z, resp), (st', w')) /\
  recorded (storage sample_state) 1000 (w_fs w') spooled_metadata sample_key parts 5 resp /\
  decodes_to spooled_envelope parts.
Proof.
  apply (uploaded_crash_is_stored (M := RfcMulter) sample_endpoint "tok" ShipConfig_default spooled_envelope spooled_post
           two_frames sample_state sample_token 0 sample_key empty_world).
  - exact spooled_upload.
  - exact spooled_uploadable.
  - cbn. lia.
  - cbn [concat two_frames]. by rewrite app_nil_r, take_drop.
  - apply Z.ltb_lt. vm_compute. reflexivity.
  - split_and!; vm_compute; reflexivity.
  - apply empty_store_ok.
  - apply empty_good.
Defined.
