(* ===== verification/EndToEndLogs.v ===== *)
(** * From the tracing layer to the server's queues

    A batch of the exporter is an export request the server accepts, and its
    records become lines of the client's own source, in order. *)

From Stdlib Require Import Ascii SpecFloat.
From S2P Require Import Prelude RustStd Fs External Instances F64 Json Protocol Metrics Schemas Storage RateLimit Auth Otlp Logs LogQueue PanicHook ClientInstances Layer LayerSafety.

Section LogsEndToEnd.
Context {U : UuidApi} {C : ChronoApi} {J : JsonText} {HT : HttpApi} {HL : HttpLaws HT} {V : JsonSchemaApi}
  {UR : UrlApi} {N : Type} {TN : TonicApi N}.

(** tonic: metadata of a text is its bytes. *)
Context (metadata_value_text : forall s b, metadata_value s = Some b -> b = as_bytes s).

(** The request as the server's handler gets it, after authentication; [now] is
    the instant of the limiter's check. *)
Definition arriving_logs (g : GrpcRequest) (tok : TokenContext) (now : Z) : LogsRequest :=
  {| lq_version := Some (gr_version g); lq_token := Some tok;
     lq_resource_logs := (fun rl => (now, rl)) <$> resource_logs (gr_message g) |}.

Definition queue_length (p : LogWriterPool) (k : SourceKey) : nat :=
  match lwp_inner p !! k with Some c => length (ch_queue c) | None => 0 end.

(** A handler after exporting, whose queue of [k] took at most [n] lines. *)
Definition took (k : SourceKey) (n : nat) (h h' : LogsHandler) : Prop :=
  lh_rate_limiter h' = lh_rate_limiter h /\ (queue_length (lh_writers h') k <= queue_length (lh_writers h) k + n)%nat.

Lemma run_export_record k r h : (queue_length (lh_writers h) k < WRITER_CHANNEL_CAPACITY)%nat ->
  exists h', export_record k r h = (Ok tt, h') /\ took k 1 h h'.
Proof.
  intros Hq. unfold export_record. set (c := default {| ch_queue := []; ch_received := [] |} _).
  assert (length (ch_queue c) = queue_length (lh_writers h) k) as Hc.
  { unfold c, queue_length. by destruct (lwp_inner (lh_writers h) !! k). }
  unfold try_send. set (d := drain _ c). assert (length (ch_queue d) <= length (ch_queue c))%nat as Hd by apply drain_length.
  destruct (Nat.ltb_spec (length (ch_queue d)) WRITER_CHANNEL_CAPACITY); [|lia].
  eexists. split; [done|]. split; [done|]. unfold queue_length at 1. cbn [lh_writers set_metrics set_writers lwp_inner].
  rewrite lookup_insert_eq. cbn [ch_queue]. rewrite length_app. cbn [length]. lia.
Qed.

Lemma run_export_records k records : forall h,
  (queue_length (lh_writers h) k + length records <= WRITER_CHANNEL_CAPACITY)%nat ->
  exists h', io_fold (fun _ record => export_record k record) tt records h = (Ok tt, h') /\ took k (length records) h h'.
Proof.
  induction records as [|r rs IH]; intros h Hq; cbn [io_fold].
  { exists h. split; [done|]. split; [done|]. lia. }
  cbn [length] in *. destruct (run_export_record k r h) as (h1 & Hrun & Hl1 & Hq1); [lia|].
  destruct (IH h1) as (h2 & Hrest & Hl2 & Hq2); [lia|]. exists h2. unfold io_bind. rewrite Hrun. split; [done|].
  split; [congruence|lia].
Qed.

Lemma client_source wk records rl : rl ∈ resource_logs (export_request_for (wk_source wk) records) ->
  source_from_resource_logs rl =
  map_err (fun error => status InvalidArgument ("invalid source identity: " +:+ StorageError_display error))
    (SourceKey_new (src_project (wk_source wk)) (uuid_to_string (src_install_id (wk_source wk)))).
Proof. by intros ->%list_elem_of_singleton. Qed.

Lemma request_fields (wk : Worker) records g : grpc_request wk (export_request_for (wk_source wk) records) = Ok g ->
  gr_message g = export_request_for (wk_source wk) records /\ gr_version g = as_bytes "1".
Proof using metadata_value_text.
  unfold grpc_request. destruct (metadata_value (Z_to_string PROTOCOL_VERSION)) as [v|] eqn:Ev; [|done]. cbn [ok_or].
  destruct (metadata_value ("Bearer " +:+ wk_token wk)); [|done]. intros [= <-]. split; [done|].
  by apply metadata_value_text in Ev.
Qed.

Lemma version_accepted : validate_protocol_metadata (Some (as_bytes "1")) = Ok tt.
Proof using HL.
  unfold validate_protocol_metadata. cbn [ok_or].
  rewrite (header_to_str_visible (as_bytes "1")); [reflexivity|]. vm_compute. repeat constructor.
Qed.

Lemma sender_for_length p k k' : queue_length (sender_for p k) k' = queue_length p k'.
Proof.
  unfold sender_for, queue_length. destruct (lwp_inner p !! k) eqn:E; [done|]. cbn [lwp_inner].
  destruct (decide (k = k')) as [<-|Hne]; [by rewrite lookup_insert_eq, E|by rewrite lookup_insert_ne].
Qed.

Lemma run_export_resource wk records tok now k h :
  SourceKey_new (src_project (wk_source wk)) (uuid_to_string (src_install_id (wk_source wk))) = Ok k ->
  permits tok k = true -> (check_logs (lh_rate_limiter h) now (tc_id tok) k).1 = Ok tt ->
  (queue_length (lh_writers h) k + length records <= WRITER_CHANNEL_CAPACITY)%nat ->
  exists h', io_fold (fun _ rl => export_resource tok rl.1 rl.2) tt
      ((fun rl => (now, rl)) <$> resource_logs (export_request_for (wk_source wk) records)) h = (Ok tt, h') /\
    took k (length records) (set_limiter h (check_logs (lh_rate_limiter h) now (tc_id tok) k).2) h'.
Proof.
  intros Hk Hp Hlim Hq. cbn [resource_logs export_request_for fmap list_fmap io_fold fst snd].
  unfold io_bind at 1, export_resource at 1, io_bind at 1.
  rewrite (client_source wk records) by apply list_elem_of_here. rewrite Hk. cbn [map_err io_lift].
  unfold io_bind at 1. rewrite Hp. unfold io_ret at 1, io_bind at 1.
  destruct (check_logs (lh_rate_limiter h) now (tc_id tok) k) as [r lim]. cbn [fst snd] in *. subst r. cbn [map_err].
  unfold io_bind at 1. cbn [scope_logs io_fold log_records]. unfold io_bind.
  match goal with |- context [io_fold ?f tt records ?h1] => destruct (run_export_records k records h1) as (h2 & -> & Ht) end.
  { cbn [lh_writers set_writers set_limiter]. by rewrite sender_for_length. }
  exists h2. split; [done|]. destruct Ht as [Hl2 Hq2]. cbn [lh_writers lh_rate_limiter set_writers set_limiter] in *.
  rewrite sender_for_length in Hq2. by split.
Qed.

Lemma lines_for_same k (f : LogRecord -> Value) l : lines_for k ((fun r => (k, f r)) <$> l) = f <$> l.
Proof.
  unfold lines_for. induction l as [|x l IH]; [done|]. rewrite fmap_cons, filter_cons_True by done. cbn. by rewrite IH.
Qed.

Lemma lines_for_other k k' (f : LogRecord -> Value) l : k' <> k -> lines_for k' ((fun r => (k, f r)) <$> l) = [].
Proof.
  intros Hne. unfold lines_for. induction l as [|x l IH]; [done|]. rewrite fmap_cons, filter_cons_False; [done|].
  cbn. congruence.
Qed.

Lemma run_exported_batch (wk : Worker) records g tok now k h :
  grpc_request wk (export_request_for (wk_source wk) records) = Ok g ->
  SourceKey_new (src_project (wk_source wk)) (uuid_to_string (src_install_id (wk_source wk))) = Ok k ->
  permits tok k = true -> (check_logs (lh_rate_limiter h) now (tc_id tok) k).1 = Ok tt ->
  Forall (fun rl => validate (lh_schema_registry h) (tc_project tok) LogAttributes
                      (resource_logs_to_validation_value rl) = Ok tt) (resource_logs (gr_message g)) ->
  (queue_length (lh_writers h) k + length records <= WRITER_CHANNEL_CAPACITY)%nat ->
  exists h', export_inner (arriving_logs g tok now) h = (Ok tt, h') /\
    took k (length records) (set_limiter h (check_logs (lh_rate_limiter h) now (tc_id tok) k).2) h' /\
    stream (lh_writers h') k = stream (lh_writers h) k ++ (log_record_json <$> records) /\
    forall k', k' <> k -> stream (lh_writers h') k' = stream (lh_writers h) k'.
Proof using HL metadata_value_text.
  intros Hg Hk Hp Hlim Hval Hq. destruct (request_fields _ _ _ Hg) as [Hmsg Hver]. rewrite Hmsg in Hval.
  set (rq := arriving_logs g tok now). destruct (run_export_resource wk records tok now k h Hk Hp Hlim Hq) as (h' & Hrun & Ht).
  assert (export_inner rq h = (Ok tt, h')) as Hok.
  { unfold export_inner, rq, arriving_logs. cbn [lq_version lq_token lq_resource_logs]. rewrite Hver, Hmsg, version_accepted.
    revert Hrun. cbn [resource_logs export_request_for fmap list_fmap]. intros Hrun.
    unfold io_bind at 1 2 3, io_lift at 1 2, ok_or. cbn [io_fold snd]. unfold io_bind at 1, validate_resource.
    apply Forall_cons in Hval as [-> _]. unfold io_ret at 1. exact Hrun. }
  exists h'. split; [done|]. split; [done|].
  destruct (sends_export rq h) as (l & _ & _ & (Hs & _) & Hl). rewrite Hok in Hs, Hl. specialize (Hl eq_refl).
  assert (l = (fun r => (k, log_record_json r)) <$> records) as ->.
  { rewrite Hl. unfold batch_lines, rq, arriving_logs. cbn [lq_resource_logs]. rewrite Hmsg.
    cbn [resource_logs export_request_for fmap list_fmap]. rewrite bind_singleton. cbn [snd]. unfold resource_lines.
    rewrite (client_source wk records) by apply list_elem_of_here. rewrite Hk. cbn [map_err scope_logs].
    rewrite bind_singleton. done. }
  cbn [snd] in Hs. split; [|intros k' Hne]; rewrite Hs; [by rewrite lines_for_same|].
  by rewrite lines_for_other, app_nil_r.
Qed.

(** C39. What the exporter sends, the server queues: a batch the exporter could
    put into a request carries the version the server expects and names the
    exporter's source; when the token permits that source, its schema accepts the
    resource, the limiter admits the request and the source's queue has room, the
    call succeeds and the source's stream grows by exactly the batch's records,
    rendered as lines, in order, and no other stream changes. *)
Theorem exported_batch_is_queued (wk : Worker) records g tok now k h :
  grpc_request wk (export_request_for (wk_source wk) records) = Ok g ->
  SourceKey_new (src_project (wk_source wk)) (uuid_to_string (src_install_id (wk_source wk))) = Ok k ->
  permits tok k = true -> (check_logs (lh_rate_limiter h) now (tc_id tok) k).1 = Ok tt ->
  Forall (fun rl => validate (lh_schema_registry h) (tc_project tok) LogAttributes
                      (resource_logs_to_validation_value rl) = Ok tt) (resource_logs (gr_message g)) ->
  (queue_length (lh_writers h) k + length records <= WRITER_CHANNEL_CAPACITY)%nat ->
  exists h', export_inner (arriving_logs g tok now) h = (Ok tt, h') /\
    stream (lh_writers h') k = stream (lh_writers h) k ++ (log_record_json <$> records) /\
    forall k', k' <> k -> stream (lh_writers h') k' = stream (lh_writers h) k'.
Proof using HL metadata_value_text.
  intros Hg Hk Hp Hlim Hval Hq. destruct (run_exported_batch wk records g tok now k h Hg Hk Hp Hlim Hval Hq) as (h' & Hrun & _ & Hs).
  by exists h'.
Qed.
End LogsEndToEnd.

(** ** A concrete batch *)

Definition sample_batch : list LogRecord := [LayerSafety.sample_record 1; LayerSafety.sample_record 2].

Definition sample_grpc : GrpcRequest :=
  {| gr_message := export_request_for (wk_source sample_worker) sample_batch;
     gr_version := as_bytes "1"; gr_authorization := as_bytes "Bearer tok";
     gr_timeout := wk_flush_timeout sample_worker; gr_compression := wk_compression sample_worker |}.

Definition sample_log_token : TokenContext :=
  {| tc_id := "t"; tc_project := "app"; tc_source_prefix := "app/"; tc_secret_hash := "" |}.

Definition client_key : SourceKey :=
  {| sk_project := "app"; sk_source_id := uuid_to_string (src_install_id (wk_source sample_worker)) |}.

Lemma exported_batch_is_queued_witness :
  exists h', export_inner (arriving_logs sample_grpc sample_log_token 0) sample_handler = (Ok tt, h') /\
    stream (lh_writers h') client_key = log_record_json <$> sample_batch.
Proof.
  destruct (exported_batch_is_queued (TN := ToyTonic) (fun s b H => eq_sym (f_equal (default []) H))
    sample_worker sample_batch sample_grpc sample_log_token 0 client_key sample_handler) as (h' & Hrun & Hs & _).
  - reflexivity.
  - reflexivity.
  - reflexivity.
  - vm_compute. reflexivity.
  - apply Forall_cons. split; [reflexivity|apply Forall_nil_2].
  - apply Nat.leb_le. vm_compute. reflexivity.
  - exists h'. split; [exact Hrun|exact Hs].
Defined.
