(* ===== verification/Server.v ===== *)
(** * detritus-server/src/server.rs and main.rs: the running server

    One [Server] value holds what the handlers, the janitor and the writer tasks
    share.  A request passes the tower layers, the authentication middleware and
    the router before its handler runs; requests, retention cycles and turns of
    the writer tasks are steps of the run, in any order.  Axum's matching, the
    tower layers and tonic's decoding are parameters. *)

From Stdlib Require Import Ascii.
From S2P Require Import Prelude RustStd Fs External Instances Json Protocol Metrics Schemas Storage F64 RateLimit Auth State Crashes Janitor Otlp Logs.

(** ** Requests and replies *)

Inductive Method := GET | HEAD | POST | OtherMethod (name : string).

#[export] Instance Method_eq_dec : EqDecision Method.
Proof. solve_decision. Defined.

(** A request; [hq_version] is the [x-protocol-version] header. *)
Record HttpRequest := {
  hq_method : Method;
  hq_path : string;
  hq_authorization : option bytes;
  hq_content_type : option bytes;
  hq_content_encoding : option bytes;
  hq_version : option bytes;
  hq_body : list (Result bytes string)
}.

Inductive Reply :=
| EmptyReply (status : Z)
| JsonReply (status : Z) (body : Value)
| TextReply (status : Z) (content_type : string) (body : string)
| GrpcReply (outcome : Result unit Status).

(** axum: which handler of a table of literal routes a request is dispatched to;
    [Some None] is a known path with another method. *)
Class AxumApi := {
  axum_route : forall H : Type, list (string * Method * H) -> Method -> string -> option (option H);
  axum_unrouted : string -> Reply
}.

Class AxumLaws (A : AxumApi) := {
  axum_route_found : forall H (l : list (string * Method * H)) p m h,
    NoDup l.*1.*1 -> (p, m, h) ∈ l -> axum_route H l m p = Some (Some h);
  axum_route_sound : forall H (l : list (string * Method * H)) p m h,
    axum_route H l m p = Some (Some h) ->
    exists m', (p, m', h) ∈ l /\ (m = m' \/ (m = HEAD /\ m' = GET));
  axum_route_unknown : forall H (l : list (string * Method * H)) p m,
    ~ p ∈ l.*1.*1 -> axum_route H l m p = None
}.

(** The bytes of a body that arrive. *)
Definition body_len (body : list (Result bytes string)) : Z := len_u64 (concat (omap result_ok body)).

(** tower-http: the request as the inner layers see it (its body decompressed
    and limited), or the reply of the limit. *)
Class TowerApi := { tower_inbound : Z -> HttpRequest -> Result HttpRequest Reply }.

Class TowerLaws (T : TowerApi) := {
  tower_inbound_head : forall limit rq rq', tower_inbound limit rq = Ok rq' ->
    hq_method rq' = hq_method rq /\ hq_path rq' = hq_path rq /\
    hq_authorization rq' = hq_authorization rq;
  tower_inbound_plain : forall limit rq, hq_content_encoding rq = None ->
    (body_len (hq_body rq) <= limit)%Z -> tower_inbound limit rq = Ok rq
}.

(** tonic: the message of a unary call. *)
Class TonicServerApi := { grpc_decode : HttpRequest -> Result ExportLogsServiceRequest Status }.

(** prometheus: the text of the gathered families. *)
Class PrometheusApi := { prometheus_encode : Metrics -> Result bytes string }.

(** [Metrics::render] *)
Definition render `{PrometheusApi} (m : Metrics) : Result string string :=
  let? b := prometheus_encode m in
  let body := if utf8_valid b then of_bytes b else "" in
  Ok (body +:+ "# EOF" +:+ String (ascii_of_nat 10) "").

(** ** Configuration *)

Inductive ServerError := SrvIo (e : io_error) | SrvStorage (e : StorageError) | SrvMetrics (e : string).

Section Server.
Context {U : UuidApi} {C : ChronoApi} {S : Sha256Api} {J : JsonText} {M : MulterApi} {HT : HttpApi}
  {V : JsonSchemaApi} {A2 : Argon2Api} {OS : Os}
  {AX : AxumApi} {TW : TowerApi} {TS : TonicServerApi} {PR : PrometheusApi}.

Record ServerConfig := {
  cf_bind : string;
  cf_data_dir : Path;
  cf_max_dump_bytes : Z;
  cf_token_store : TokenStore;
  cf_rate_limit : RateLimitConfig;
  cf_retention : RetentionConfig;
  cf_schema_registry : SchemaRegistry
}.

(** The limiter and the metrics are shared by all handlers, the pool and its
    tasks by the logs handler and the shutdown. *)
Record Server := {
  sv_app : AppState;
  sv_writers : LogWriterPool;
  sv_tasks : gmap SourceKey Writer;
  sv_tokens : TokenStore;
  sv_janitor : bool
}.

Definition set_app (sv : Server) (st : AppState) : Server :=
  {| sv_app := st; sv_writers := sv_writers sv; sv_tasks := sv_tasks sv; sv_tokens := sv_tokens sv;
     sv_janitor := sv_janitor sv |}.

(** The janitor's task has ended by a panic. *)
Definition stop_janitor (sv : Server) : Server :=
  {| sv_app := sv_app sv; sv_writers := sv_writers sv; sv_tasks := sv_tasks sv; sv_tokens := sv_tokens sv;
     sv_janitor := false |}.

(** The instants a request's limiter checks see, and how long it took. *)
Record Timing := { tm_instant : nat -> Z; tm_elapsed : Z }.

(** ** Routing *)

Inductive Handler := CrashesHandler | Healthz | RenderMetrics.

Definition http_routes : list (string * Method * Handler) :=
  [("/v1/crashes", POST, CrashesHandler); ("/healthz", GET, Healthz); ("/metrics", GET, RenderMetrics)].

Definition EXPORT_PATH : string := "/opentelemetry.proto.collector.logs.v1.LogsService/Export".

Definition BODY_LIMIT : Z := 150 * 1024 * 1024.

Definition healthz : Reply := EmptyReply 204.

Definition render_metrics (st : AppState) : Reply :=
  match render (metrics st) with
  | Ok body => TextReply 200 "application/openmetrics-text; version=1.0.0" body
  | Err error => TextReply 500 "text/plain; charset=utf-8" ("failed to render metrics: " +:+ error)
  end.

(** [crashes_handler] with its extractors: the [Extension] must be present. *)
Definition serve_crash (token : option TokenContext) (rq : HttpRequest) (t : Timing) (sv : Server) (w : World)
  : Reply * (Server * World) :=
  match token with
  | None => (EmptyReply 500, (sv, w))
  | Some token =>
      let (r, sw) := crashes_handler token {| rq_content_type := hq_content_type rq; rq_body := hq_body rq |}
                       (tm_instant t 0) (tm_elapsed t) (sv_app sv, w) in
      (match r with
       | Ok (status, resp) => JsonReply status (Object [("id", Str (cr_id resp)); ("dedup", Bool (cr_dedup resp))])
       | Err e => JsonReply (resp_status (CrashError_into_response e)) (resp_body (CrashError_into_response e))
       end, (set_app sv sw.1, sw.2))
  end.

(** [LogsHandler::export] on the shared state; new sources get a writer task. *)
Definition logs_handler (sv : Server) : LogsHandler :=
  LogsHandler_new (sv_writers sv) (rate_limiter (sv_app sv)) (metrics (sv_app sv)) (schema_registry (sv_app sv)) [].

Definition spawn_tasks (p : LogWriterPool) (tasks : gmap SourceKey Writer) : gmap SourceKey Writer :=
  tasks ∪ ((fun _ => {| wr_date := None; wr_file := None |}) <$> lwp_inner p).

Definition serve_export (token : option TokenContext) (rq : HttpRequest) (t : Timing) (sv : Server) (w : World)
  : Reply * (Server * World) :=
  match grpc_decode rq with
  | Err status => (GrpcReply (Err status), (sv, w))
  | Ok message =>
      let (r, h) := export {| lq_version := hq_version rq; lq_token := token;
                              lq_resource_logs := imap (fun i rl => (tm_instant t i, rl)) (resource_logs message) |}
                      (tm_elapsed t) (logs_handler sv) in
      (GrpcReply r,
       ({| sv_app := with_limiter (with_metrics (sv_app sv) (fun _ => lh_metrics h)) (lh_rate_limiter h);
           sv_writers := lh_writers h; sv_tasks := spawn_tasks (lh_writers h) (sv_tasks sv);
           sv_tokens := sv_tokens sv; sv_janitor := sv_janitor sv |}, w))
  end.

(** The router: the HTTP routes, then the gRPC service. *)
Definition dispatch (token : option TokenContext) (rq : HttpRequest) (t : Timing) (sv : Server) (w : World)
  : Reply * (Server * World) :=
  match axum_route Handler http_routes (hq_method rq) (hq_path rq) with
  | Some (Some CrashesHandler) => serve_crash token rq t sv w
  | Some (Some Healthz) => (healthz, (sv, w))
  | Some (Some RenderMetrics) => (render_metrics (sv_app sv), (sv, w))
  | Some None => (EmptyReply 405, (sv, w))
  | None => if String.eqb (hq_path rq) EXPORT_PATH then serve_export token rq t sv w
            else (axum_unrouted (hq_path rq), (sv, w))
  end.

(** [app]: the layers around the router. *)
Definition handle (rq : HttpRequest) (t : Timing) (sv : Server) (w : World) : Reply * (Server * World) :=
  match tower_inbound BODY_LIMIT rq with
  | Err reply => (reply, (sv, w))
  | Ok rq =>
      let (o, m) := auth_middleware (sv_tokens sv) (metrics (sv_app sv))
                      {| req_path := hq_path rq; req_authorization := hq_authorization rq; req_token := None |}
                      (tm_elapsed t) in
      let sv := set_app sv (with_metrics (sv_app sv) (fun _ => m)) in
      match o with
      | Reject resp => (JsonReply (resp_status resp) (resp_body resp), (sv, w))
      | Forward r => dispatch (req_token r) rq t sv w
      end
  end.

(** ** The run *)

Definition app (config : ServerConfig) : Server :=
  let storage := StoragePaths_new (cf_data_dir config) in
  {| sv_app := {| storage := storage; max_dump_bytes := cf_max_dump_bytes config;
                  rate_limiter := RateLimiter_new (cf_rate_limit config); metrics := Metrics_new;
                  schema_registry := cf_schema_registry config |};
     sv_writers := LogWriterPool_new storage; sv_tasks := ∅; sv_tokens := cf_token_store config;
     sv_janitor := janitor_starts (cf_retention config) |}.

(** A turn of a writer task: it receives one line and handles it. *)
Definition writer_turn (k : SourceKey) (sv : Server) (w : World) : Server * World :=
  match lwp_inner (sv_writers sv) !! k, sv_tasks sv !! k with
  | Some c, Some st =>
      match ch_queue c with
      | [] => (sv, w)
      | line :: _ =>
          let p := {| lwp_inner := <[k := drain 1 c]> (lwp_inner (sv_writers sv)); lwp_storage := lwp_storage (sv_writers sv) |} in
          let (r, w) := writer_step (lwp_storage p) k st line w in
          ({| sv_app := sv_app sv; sv_writers := p;
              sv_tasks := match r with Ok st => <[k := st]> (sv_tasks sv) | Err _ => sv_tasks sv end;
              sv_tokens := sv_tokens sv; sv_janitor := sv_janitor sv |}, w)
      end
  | _, _ => (sv, w)
  end.

(** What happens while the server runs; [Elapses] is the passage of time: other
    clock readings and another pattern of failures. *)
Inductive Event :=
| Arrives (rq : HttpRequest) (t : Timing)
| Ticks (elapsed : Z)
| Writes (k : SourceKey)
| Elapses (now : Z) (clock : list Z) (faults : list (option Fault)).

Definition server_step (retention : RetentionConfig) (sw : Server * World) (e : Event) : Server * World :=
  let (sv, w) := sw in
  match e with
  | Arrives rq t => (handle rq t sv w).2
  | Ticks elapsed =>
      if sv_janitor sv then
        match janitor_tick (storage (sv_app sv)) retention elapsed (metrics (sv_app sv)) w with
        | (Some m, w) => (set_app sv (with_metrics (sv_app sv) (fun _ => m)), w)
        | (None, w) => (stop_janitor sv, w)
        end
      else (sv, w)
  | Writes k => writer_turn k sv w
  | Elapses now clock faults =>
      (sv, {| w_fs := w_fs w; w_now := now; w_clock := clock; w_faults := faults; w_uuids := w_uuids w;
              w_dir_mtime := w_dir_mtime w |})
  end.

(** A writer whose sender is dropped takes what its channel holds and ends. *)
Definition finish_writer (s : StoragePaths) (k : SourceKey) (st : Writer) (c : Channel) : IO StorageError unit :=
  let! st := io_fold (writer_step s k) st (ch_queue c) in
  io_try (flush_file (wr_file st));;!
  io_ret tt.

(** [writers.shutdown()]: the map is drained in some order of its entries. *)
Definition finish_writers (order : list SourceKey) (sv : Server) : IO StorageError unit :=
  io_fold (fun _ k =>
    match lwp_inner (sv_writers sv) !! k, sv_tasks sv !! k with
    | Some c, Some st => finish_writer (lwp_storage (sv_writers sv)) k st c
    | _, _ => io_ret tt
    end) tt order.

(** [serve_with_shutdown]: [registered] is the outcome of registering the
    collectors, [addr] of asking the listener's address, [events] what happens
    until the shutdown, [served] how serving ended. *)
Definition serve_with_shutdown (config : ServerConfig) (registered : Result unit string) (addr : Result unit io_error)
    (events : list Event) (served : Result unit io_error) (order : list SourceKey) : IO ServerError unit :=
  io_map_err SrvStorage (prepare (StoragePaths_new (cf_data_dir config)));;!
  io_lift (map_err SrvMetrics registered);;!
  io_lift (map_err SrvIo addr);;!
  let! sv := (fun w => let (sv, w) := foldl (server_step (cf_retention config)) (app config, w) events in (Ok sv, w)) in
  io_map_err SrvStorage (finish_writers order sv);;!
  io_lift (map_err SrvIo served).

(** What ends the wait for a shutdown: an interrupt, or the failure to listen for
    one, or a SIGTERM. *)
Inductive Signal := CtrlC (r : Result unit io_error) | Terminate.

(** [shutdown_signal]: [sigterm] is the outcome of installing the handler; the
    events that happen before it returns.  Without a handler the function does
    not see a SIGTERM; a failing [ctrl_c()] is logged and ends the wait too. *)
Fixpoint shutdown_signal (sigterm : Result unit io_error) (l : list (Event + Signal)) : list Event :=
  match l with
  | [] => []
  | inl e :: l => e :: shutdown_signal sigterm l
  | inr sig :: l =>
      match sigterm, sig with
      | Ok _, _ => []
      | Err _, CtrlC _ => []
      | Err _, Terminate => shutdown_signal sigterm l
      end
  end.

(** [serve]: binding the listener comes first. *)
Definition serve (config : ServerConfig) (bound : Result unit io_error) (registered : Result unit string)
    (addr : Result unit io_error) (sigterm : Result unit io_error) (l : list (Event + Signal))
    (served : Result unit io_error) (order : list SourceKey) : IO ServerError unit :=
  io_lift (map_err SrvIo bound);;!
  serve_with_shutdown config registered addr (shutdown_signal sigterm l) served order.
End Server.
