(* ===== verification/ServerSafety.v ===== *)
(** * The server as a whole: who can change what, and the store over a whole run *)

From Stdlib Require Import Ascii.
From S2P Require Import Prelude RustStd Fs External Instances Json Protocol Metrics Schemas Storage F64 RateLimit Auth State Crashes CrashStore CrashIngest Janitor Retention Refs System Otlp Logs LogQueue LogWriter LogPipeline Server.

(** The keys of a pool's channels are accepted source keys. *)
Definition pool_keys (p : LogWriterPool) : Prop :=
  forall k c, lwp_inner p !! k = Some c -> SourceKey_valid k.

Section ServerSafety.
Context {U : UuidApi} {UL : UuidLaws U} {C : ChronoApi} {CL : ChronoLaws C}
  {S : Sha256Api} {SL : Sha256Laws S} {J : JsonText} {JL : JsonTextLaws J}
  {M : MulterApi} {ML : MulterLaws M} {HT : HttpApi} {HL : HttpLaws HT}
  {V : JsonSchemaApi} {A2 : Argon2Api} {OS : Os}
  {AX : AxumApi} {AXL : AxumLaws AX} {TW : TowerApi} {TWL : TowerLaws TW}
  {TS : TonicServerApi} {PR : PrometheusApi}.

(** ** Authentication *)

(** A request with a configured token is forwarded with the token's context. *)
Lemma auth_forwards store m path raw token ctx elapsed : path <> "/healthz" -> path <> "/metrics" ->
  header_to_str raw = Some ("Bearer " +:+ token) -> authenticate store token = Some ctx ->
  auth_middleware store m {| req_path := path; req_authorization := Some raw; req_token := None |} elapsed
  = (Forward {| req_path := path; req_authorization := Some raw; req_token := Some ctx |}, m).
Proof.
  intros Hp1 Hp2 Hh Hauth. unfold auth_middleware. cbn [req_path req_authorization].
  rewrite (proj2 (String.eqb_neq _ _) Hp1), (proj2 (String.eqb_neq _ _) Hp2). cbn [orb].
  rewrite Hh, (proj2 (strip_prefix_Some "Bearer " _ token) eq_refl), Hauth. done.
Qed.

(** ** Log exports *)

(** What an export does to the writers, whatever its outcome. *)
Lemma export_permitted rq elapsed h r h' : export rq elapsed h = (r, h') ->
  exists l, sent l h h' /\ Forall (fun kv => permitted_by rq kv.1) l.
Proof.
  unfold export, io_bind at 1, io_try. destruct (sends_export rq h) as (l & _ & HP & Hs & _).
  destruct (export_inner rq h) as [r1 h1]. cbn [snd] in Hs. unfold io_bind, io_lift. intros [= _ <-].
  exists l. split; [|done]. exact Hs.
Qed.

(** ** What keeps the store sound *)

Lemma sound_untouched s fs fs' :
  fs_wf fs' -> (forall q, is_blob s q -> fs' !! q = fs !! q) ->
  (forall q, below (index_root s) q -> fs' !! q = fs !! q) -> sound s fs -> sound s fs'.
Proof.
  intros Hwf Hb Hi [_ Hst Href]. split; [done| |].
  - intros b p n Hp Hn. rewrite Hb in Hn by (by exists b). by eapply Hst.
  - intros q h Hq Hr. destruct (Href q h Hq) as (p & c & t & Hp & Hf & Hc).
    { destruct Hr as (c & t & idx & Hf & Hrest). exists c, t, idx. split; [|done]. by rewrite <- Hi. }
    exists p, c, t. split; [done|]. split; [|done]. rewrite Hb; [done|]. exists c. by rewrite Hc.
Qed.

(** Log files lie outside the crash directory. *)
Lemma appends_crashes s k fs fs' r :
  SourceKey_valid k -> appends s k fs fs' -> fs' !! (data_dir s ++ "crashes" :: r) = fs !! (data_dir s ++ "crashes" :: r).
Proof using UL CL SL.
  intros Hk [Hf _]. destruct (Hf (data_dir s ++ "crashes" :: r)) as [[d Hd]|[?|(_ & _ & [r' Hp])]]; [|done|].
  - rewrite log_file_in_dir in Hd by done. unfold log_dir in Hd. rewrite <- app_assoc in Hd. by apply app_inv_head in Hd.
  - unfold log_dir in Hp. rewrite <- app_assoc in Hp. by apply app_inv_head in Hp.
Qed.

Lemma log_write_sound s k fs fs' :
  SourceKey_valid k -> appends s k fs fs' -> fs_wf fs' -> sound s fs -> sound s fs'.
Proof using UL CL SL.
  intros Hk Ha Hwf. apply sound_untouched; [done| |].
  - intros q (p & h & ->)%is_blob_components. by eapply appends_crashes.
  - intros q (r & -> & _). destruct (roots_components s) as (_ & -> & _). rewrite <- app_assoc. by eapply appends_crashes.
Qed.

Lemma create_dir_sound s p :
  (length p <= length (data_dir s) + 2)%nat -> Keeps (fun w => sound s (w_fs w)) (create_dir_all p).
Proof using UL SL.
  intros Hp w Hs. pose proof (create_dir_all_wf p w (sound_wf _ _ Hs)) as Hwf.
  refine (wp_create_dir_all p (fun _ w' => fs_wf (w_fs w') -> sound s (w_fs w')) w _ Hwf).
  intros r w' _ _ Hsame _ Hwf'. apply (sound_untouched s (w_fs w)); [done| | |done].
  - intros q (x & h & ->)%is_blob_components. apply Hsame. intros Hq%prefix_length. rewrite length_app in Hq. cbn in Hq. lia.
  - intros q (r' & -> & Hne & _). destruct (roots_components s) as (_ & -> & _). apply Hsame.
    intros Hq%prefix_length. rewrite !length_app in Hq. destruct r'; [done|]. cbn in Hq. lia.
Qed.

Lemma prepare_sound s : Keeps (fun w => sound s (w_fs w)) (prepare s).
Proof using UL SL.
  unfold prepare, tmp_dir. rewrite !join_normal by done.
  repeat (apply keeps_bind; [apply keeps_map_err, create_dir_sound; rewrite ?length_app; cbn; lia|intros _]). apply _.
Qed.

#[local] Instance system_time_now_wf E : Keeps wf_world (@system_time_now E).
Proof. intros w Hw. unfold system_time_now. by destruct (w_clock w). Qed.

#[local] Instance flush_file_wf file : Keeps wf_world (flush_file file).
Proof. unfold flush_file. apply _. Qed.

#[local] Instance write_line_wf file line : Keeps wf_world (write_line file line).
Proof. unfold write_line. apply _. Qed.

#[local] Instance writer_step_wf s k st line : Keeps wf_world (writer_step s k st line).
Proof. unfold writer_step, open_log_file; cbv zeta. apply _. Qed.

(** A writer's turn leaves the store sound and the writer with its own files. *)
Lemma writer_step_sound s k st line w r w' :
  SourceKey_valid k -> owns s k st -> sound s (w_fs w) -> writer_step s k st line w = (r, w') ->
  sound s (w_fs w') /\ forall st', r = Ok st' -> owns s k st'.
Proof using UL CL SL.
  intros Hk Ho Hs Hrun. pose proof (writer_step_wf s k st line w (sound_wf _ _ Hs)) as Hwf.
  pose proof (Appends_writer_step s k Hk st line Ho w) as Ha. unfold wp in Ha. rewrite Hrun in Hwf, Ha. destruct Ha as [Ha HR].
  split; [by eapply log_write_sound|done].
Qed.

Lemma flush_file_sound s k file w r w' :
  SourceKey_valid k -> sound s (w_fs w) -> flush_file file w = (r, w') -> sound s (w_fs w').
Proof using UL CL SL.
  intros Hk Hs Hrun. pose proof (flush_file_wf file w (sound_wf _ _ Hs)) as Hwf.
  pose proof (Appends_flush_file s k file w) as Ha. unfold wp in Ha. rewrite Hrun in Hwf, Ha. destruct Ha as [Ha _].
  by eapply log_write_sound.
Qed.

(** ** Requests *)

(** The request carries the secret of [ctx], the first token that verifies it. *)
Definition authorised (store : TokenStore) (rq : HttpRequest) (ctx : TokenContext) : Prop :=
  exists raw token, hq_authorization rq = Some raw /\ header_to_str raw = Some ("Bearer " +:+ token) /\
    authenticate store token = Some ctx.

Definition with_only_metrics (sv : Server) (m : Metrics) : Server :=
  set_app sv (with_metrics (sv_app sv) (fun _ => m)).

Lemma auth_forward store m r e r' m' : auth_middleware store m r e = (Forward r', m') ->
  (open_path (req_path r) /\ r' = r) \/
  (~ open_path (req_path r) /\ exists raw token ctx, req_authorization r = Some raw /\
     header_to_str raw = Some ("Bearer " +:+ token) /\ authenticate store token = Some ctx /\ req_token r' = Some ctx).
Proof.
  unfold auth_middleware, open_path.
  destruct (String.eqb_spec (req_path r) "/healthz"); [intros [= <- _]; left; auto|].
  destruct (String.eqb_spec (req_path r) "/metrics"); [intros [= <- _]; left; auto|]. cbn [orb].
  destruct (req_authorization r) as [raw|]; [|done]. destruct (header_to_str raw) as [v|] eqn:Eh; [|done].
  destruct (strip_prefix "Bearer " v) as [tok|] eqn:Es; [|done].
  destruct (authenticate store tok) as [ctx|] eqn:Ea; [|done]. intros [= <- _]. right. split; [tauto|].
  exists raw, tok, ctx. apply strip_prefix_Some in Es as ->. done.
Qed.

(** Everything but an authorised upload or export changes metrics at most. *)
Lemma handle_cases rq t sv w reply sv' w' : handle rq t sv w = (reply, (sv', w')) ->
  exists m, (sv' = with_only_metrics sv m /\ w' = w) \/ exists ctx rq',
    (authorised (sv_tokens sv) rq ctx /\ tower_inbound BODY_LIMIT rq = Ok rq') /\
    ((hq_method rq = POST /\ hq_path rq = "/v1/crashes" /\
      serve_crash (Some ctx) rq' t (with_only_metrics sv m) w = (reply, (sv', w'))) \/
     (hq_path rq = EXPORT_PATH /\ serve_export (Some ctx) rq' t (with_only_metrics sv m) w = (reply, (sv', w')))).
Proof using AXL TWL.
  assert (forall m0, m0 = metrics (sv_app sv) -> sv = with_only_metrics sv m0) as Hid.
  { intros m0 ->. unfold with_only_metrics, set_app, with_metrics. by destruct sv as [[] ? ? ?]. }
  unfold handle. destruct (tower_inbound BODY_LIMIT rq) as [rq'|r0] eqn:Et.
  2: { intros [= _ <- <-]. exists (metrics (sv_app sv)). left. by split; [apply Hid|]. }
  pose proof Et as Et0. apply tower_inbound_head in Et0 as (Hm & Hp & Ha). rewrite <- Hm, <- Hp.
  destruct (auth_middleware _ _ _ _) as [o m] eqn:Eo. fold (with_only_metrics sv m). intros Hr. exists m. revert Hr.
  destruct o as [r'|resp]; [|intros Hr; left; by injection Hr].
  apply auth_forward in Eo. cbn [req_path req_authorization] in Eo. unfold dispatch.
  destruct (axum_route _ _ _ _) as [[h|]|] eqn:Er; [|intros Hr; left; by injection Hr|].
  - apply axum_route_sound in Er as (m' & Hin & Hmeth). unfold http_routes in Hin.
    rewrite !elem_of_cons, elem_of_nil in Hin.
    destruct Hin as [[= Hpath -> ->]|[[= _ _ ->]|[[= _ _ ->]|[]]]]; [|intros Hr; left; by injection Hr..].
    destruct Eo as [[[Ho|Ho] _]|(_ & raw & tok & ctx & H1 & H2 & H3 & ->)]; [congruence..|]. intros Hr. right.
    exists ctx, rq'. split; [split; [exists raw, tok; by rewrite <- Ha|done]|]. left. split; [|done]. by destruct Hmeth as [|[_ [=]]].
  - destruct (String.eqb_spec (hq_path rq') EXPORT_PATH) as [Hpath|_]; [|intros Hr; left; by injection Hr].
    destruct Eo as [[[Ho|Ho] _]|(_ & raw & tok & ctx & H1 & H2 & H3 & ->)]; [rewrite Hpath in Ho; discriminate Ho..|].
    intros Hr. right. exists ctx, rq'. split; [split; [exists raw, tok; by rewrite <- Ha|done]|]. by right.
Qed.

(** A crash request leaves the configuration alone. *)
Lemma crashes_handler_config token rq now elapsed st :
  Keeps (fun sw : AppState * World => same_config st sw.1) (crashes_handler token rq now elapsed).
Proof.
  assert (forall E A (m : IO E A), Keeps (fun sw : AppState * World => same_config st sw.1) (app_io m)) as Hio.
  { intros E A m [st1 w] Hs. unfold app_io. cbn [fst snd] in *. by destruct (m w). }
  assert (forall E f, Keeps (fun sw : AppState * World => same_config st sw.1) (@modify_metrics V E f)) as Hm by (by intros E f [st1 w]).
  assert (forall E, Keeps (fun sw : AppState * World => same_config st sw.1) (@get_state V E)) as Hg by (by intros E [st1 w]).
  assert (forall E f err, Keeps (fun sw : AppState * World => same_config st sw.1) (@app_limit V E f err)) as Hl.
  { intros E f err [st1 w] Hs. unfold app_limit. cbn [fst snd]. by destruct (f _). }
  unfold crashes_handler, crashes_inner; cbv zeta. apply _.
Qed.

Lemma serve_crash_effects ctx rq t sv w reply sv' w' :
  (0 <= max_dump_bytes (sv_app sv) < 2 ^ 63)%Z -> store_ok (storage (sv_app sv)) (w_fs w) ->
  serve_crash (Some ctx) rq t sv w = (reply, (sv', w')) ->
  sv_tokens sv' = sv_tokens sv /\ sv_writers sv' = sv_writers sv /\ sv_tasks sv' = sv_tasks sv /\
  same_config (sv_app sv) (sv_app sv') /\
  evolves (storage (sv_app sv)) (permitted_index (storage (sv_app sv)) ctx) (w_fs w) (w_fs w').
Proof using UL CL SL ML.
  intros Hmax Hok. unfold serve_crash. destruct (crashes_handler _ _ _ _ _) as [r [st1 w1]] eqn:E.
  intros [= _ <- <-]. pose proof (crashes_handler_config ctx {| rq_content_type := hq_content_type rq; rq_body := hq_body rq |}
    (tm_instant t 0) (tm_elapsed t) (sv_app sv) (sv_app sv, w) ltac:(done)) as Hc.
  rewrite E in Hc. cbn [fst snd] in Hc |- *. split_and!; [done|done|done|done|].
  eapply crashes_handler_evolves; [done|apply request_fits_multer|done|exact E].
Qed.

Lemma serve_export_effects ctx rq t sv w reply sv' w' :
  serve_export (Some ctx) rq t sv w = (reply, (sv', w')) ->
  sv_tokens sv' = sv_tokens sv /\ same_config (sv_app sv) (sv_app sv') /\ w' = w /\
  lwp_storage (sv_writers sv') = lwp_storage (sv_writers sv) /\
  (bounded (sv_writers sv) -> bounded (sv_writers sv')) /\ (pool_keys (sv_writers sv) -> pool_keys (sv_writers sv')) /\
  (sv_tasks sv' = sv_tasks sv \/ sv_tasks sv' = spawn_tasks (sv_writers sv') (sv_tasks sv)) /\
  forall k, stream (sv_writers sv') k <> stream (sv_writers sv) k -> permits ctx k = true.
Proof.
  unfold serve_export. destruct (grpc_decode rq) as [message|]; [|intros [= _ <- <-]; by split_and!; auto].
  set (lq := Build_LogsRequest _ _ _). destruct (export lq _ _) as [r h] eqn:E. intros [= _ <- <-].
  cbn [sv_tokens sv_app sv_writers sv_tasks]. pose proof (export_keys lq (tm_elapsed t) (logs_handler sv)) as Hk. rewrite E in Hk. cbn [snd] in Hk.
  apply export_permitted in E as (l & (Hs & Hb & _ & Hp) & HP).
  split_and!; [done|done|done|done|done|exact Hk|by right|]. intros k Hne. rewrite Hs in Hne.
  destruct (lines_for k l) as [|v vs] eqn:El; [by rewrite app_nil_r in Hne|].
  assert (v ∈ lines_for k l) as Hv by (rewrite El; left). unfold lines_for in Hv.
  apply list_elem_of_fmap in Hv as (kv & _ & [<- Hkv]%list_elem_of_filter).
  by destruct (proj1 (Forall_forall _ _) HP kv Hkv) as (tok & [= <-] & Hperm).
Qed.

(** C7. Who can change what: a request that is not an authorised upload to
    [/v1/crashes] or an authorised log export changes no file, no queue, no
    limiter and no configuration, only metrics.  An authorised upload changes
    only temporary files, new blobs and indexes of sources its token permits; an
    authorised export changes no file and only queues of sources its token
    permits. *)
Theorem request_effects rq t sv w reply sv' w' :
  (0 <= max_dump_bytes (sv_app sv) < 2 ^ 63)%Z -> store_ok (storage (sv_app sv)) (w_fs w) ->
  handle rq t sv w = (reply, (sv', w')) ->
  (exists m, sv' = with_only_metrics sv m /\ w' = w) \/
  exists ctx, authorised (sv_tokens sv) rq ctx /\ sv_tokens sv' = sv_tokens sv /\
    same_config (sv_app sv) (sv_app sv') /\
    ((hq_method rq = POST /\ hq_path rq = "/v1/crashes" /\ sv_writers sv' = sv_writers sv /\
      evolves (storage (sv_app sv)) (permitted_index (storage (sv_app sv)) ctx) (w_fs w) (w_fs w')) \/
     (hq_path rq = EXPORT_PATH /\ w' = w /\
      forall k, stream (sv_writers sv') k <> stream (sv_writers sv) k -> permits ctx k = true)).
Proof using UL CL SL ML AXL TWL.
  intros Hmax Hok Hrun. apply handle_cases in Hrun as (m & [Hq|(ctx & rq' & [Hauth _] & Hcase)]); [left; by exists m|right].
  exists ctx. destruct Hcase as [(Hm & Hp & Hrun)|(Hp & Hrun)].
  - apply serve_crash_effects in Hrun as (Ht & Hw & _ & Hc & Hev); [|done|done]. split_and!; [done|done|done|]. by left.
  - apply serve_export_effects in Hrun as (Ht & Hc & Hw & _ & _ & _ & _ & Hst). split_and!; [done|done|done|]. by right.
Qed.

(** ** The run *)

(** The server between two steps. *)
Record serving (s : StoragePaths) (sv : Server) (w : World) : Prop := {
  sg_storage : storage (sv_app sv) = s;
  sg_pool : lwp_storage (sv_writers sv) = s;
  sg_max : (0 <= max_dump_bytes (sv_app sv) < 2 ^ 63)%Z;
  sg_sound : sound s (w_fs w);
  sg_bounded : bounded (sv_writers sv);
  sg_keys : pool_keys (sv_writers sv);
  sg_tasks : forall k st, sv_tasks sv !! k = Some st -> SourceKey_valid k /\ owns s k st
}.

Lemma serving_metrics s sv w m : serving s sv w -> serving s (with_only_metrics sv m) w.
Proof. by intros []. Qed.

(** A writer that has no file open owns nothing but its own. *)
Lemma owns_fresh s k : owns s k {| wr_date := None; wr_file := None |}.
Proof. by intros p. Qed.

Lemma spawned_own s p tasks : pool_keys p ->
  (forall k st, tasks !! k = Some st -> SourceKey_valid k /\ owns s k st) ->
  forall k st, spawn_tasks p tasks !! k = Some st -> SourceKey_valid k /\ owns s k st.
Proof.
  intros Hp Ht k st. unfold spawn_tasks. rewrite lookup_union_Some_raw, lookup_fmap. intros [H|[_ H]]; [by apply Ht|].
  destruct (lwp_inner p !! k) eqn:E; [|done]. injection H as <-. split; [by eapply Hp|apply owns_fresh].
Qed.

Lemma handle_serving s rq t sv w reply sv' w' :
  serving s sv w -> handle rq t sv w = (reply, (sv', w')) -> serving s sv' w'.
Proof using UL CL SL JL ML HL AXL TWL.
  intros Hs Hrun. apply handle_cases in Hrun as (m & [[-> ->]|(ctx & rq' & _ & Hcase)]); [by apply serving_metrics|].
  apply (serving_metrics _ _ _ m) in Hs. revert Hs Hcase. generalize (with_only_metrics sv m). clear sv. intros sv [H1 H2 H3 H4 H5 H6 H7].
  intros [(_ & _ & Hrun)|(_ & Hrun)].
  - pose proof Hrun as Hrun2. apply serve_crash_effects in Hrun as (_ & Hw & Htk & (Hc1 & Hc2 & _) & _); [|done|rewrite H1; apply H4].
    split; [congruence|congruence|by rewrite Hc2| |by rewrite Hw|by rewrite Hw|by rewrite Htk]. unfold serve_crash in Hrun2. destruct (crashes_handler _ _ _ _ _) as [r [st1 w1]] eqn:E.
    injection Hrun2 as _ _ <-. rewrite <- H1. by eapply crash_sound; [done|rewrite H1|exact E].
  - apply serve_export_effects in Hrun as (_ & (Hc1 & Hc2 & _) & -> & Hpool & Hb & Hk & Htk & _).
    split; [congruence|congruence|by rewrite Hc2|done|auto|auto|]. destruct Htk as [-> | ->]; [done|]. apply spawned_own; auto.
Qed.

Lemma writer_turn_serving s k sv w sv' w' :
  serving s sv w -> writer_turn k sv w = (sv', w') -> serving s sv' w'.
Proof using UL CL SL.
  intros [H1 H2 H3 H4 H5 H6 H7]. unfold writer_turn. destruct (lwp_inner (sv_writers sv) !! k) as [c|] eqn:Ec; [|by intros [= <- <-]].
  destruct (sv_tasks sv !! k) as [st|] eqn:Et; [|by intros [= <- <-]]. destruct (ch_queue c) as [|line rest] eqn:Eq; [by intros [= <- <-]|].
  cbn [lwp_storage]. rewrite H2. destruct (H7 k st Et) as [Hk Ho]. destruct (writer_step s k st line w) as [r w1] eqn:E. intros [= <- <-].
  apply writer_step_sound in E as [Hs Hr]; [|done|done|done]. split; try done; cbn [sv_writers sv_tasks].
  - intros k' c'. cbn [lwp_inner]. destruct (decide (k = k')) as [<-|Hne]; [|rewrite lookup_insert_ne by done; apply H5].
    rewrite lookup_insert_eq. intros [= <-]. etransitivity; [apply drain_length|]. by eapply H5.
  - intros k' c' Hk'. cbn [lwp_inner] in Hk'. destruct (decide (k = k')) as [<-|Hne]; [done|].
    rewrite lookup_insert_ne in Hk' by done. by eapply H6.
  - intros k' st'. destruct r as [st1|]; [|by apply H7]. destruct (decide (k = k')) as [<-|Hne].
    + rewrite lookup_insert_eq. intros [= <-]. auto.
    + rewrite lookup_insert_ne by done. by apply H7.
Qed.

Lemma step_serving s retention sv w e sv' w' :
  serving s sv w -> server_step retention (sv, w) e = (sv', w') -> serving s sv' w'.
Proof using UL CL SL JL ML HL AXL TWL.
  intros Hs. destruct e as [rq t|elapsed|k|now clock faults]; cbn [server_step].
  - destruct (handle rq t sv w) as [reply [sv1 w1]] eqn:E. intros [= <- <-]. by eapply handle_serving.
  - destruct (sv_janitor sv); [|by intros [= <- <-]]. unfold janitor_tick. destruct (run_janitor_cycle _ _ w) as [r w1] eqn:E.
    rewrite (sg_storage _ _ _ Hs) in E. assert (sound s (w_fs w1)) as H1 by (eapply janitor_sound; [|exact E]; apply Hs).
    destruct r as [|[]]; intros [= <- <-]; by destruct Hs.
  - by apply writer_turn_serving.
  - intros [= <- <-]. by destruct Hs.
Qed.

Lemma steps_serving s retention events : forall sv w sv' w', serving s sv w ->
  foldl (server_step retention) (sv, w) events = (sv', w') -> serving s sv' w'.
Proof using UL CL SL JL ML HL AXL TWL.
  induction events as [|e events IH]; intros sv w sv' w' Hs; cbn [foldl]; [by intros [= <- <-]|].
  destruct (server_step retention (sv, w) e) as [sv1 w1] eqn:E. apply IH. by eapply step_serving.
Qed.

Lemma finish_writer_sound s k st c : SourceKey_valid k -> owns s k st ->
  Keeps (fun w => sound s (w_fs w)) (finish_writer s k st c).
Proof using UL CL SL.
  intros Hk Ho w Hs. enough (wp (finish_writer s k st c) (fun _ w' => sound s (w_fs w')) w) as H by exact H.
  apply wp_bind, (wp_fold _ (fun st _ w => owns s k st /\ sound s (w_fs w))).
  - intros st1 line lines w1 [Ho1 Hs1]. unfold wp. destruct (writer_step s k st1 line w1) as [r w2] eqn:E.
    apply writer_step_sound in E as [Hs2 Hr]; [|done|done|done]. destruct r as [st2|]; cbn [fst snd]; [by split; [apply Hr|]|done].
  - intros st1 w1 [_ Hs1]. apply wp_bind, wp_try. unfold wp at 1. destruct (flush_file (wr_file st1) w1) as [r w2] eqn:E.
    apply wp_ret. cbn [fst snd]. by eapply flush_file_sound.
  - by split.
Qed.

Lemma finish_writers_sound s sv order : lwp_storage (sv_writers sv) = s ->
  (forall k st, sv_tasks sv !! k = Some st -> SourceKey_valid k /\ owns s k st) ->
  Keeps (fun w => sound s (w_fs w)) (finish_writers order sv).
Proof using UL CL SL.
  intros Hp Ht. apply keeps_fold. intros _ k. destruct (lwp_inner (sv_writers sv) !! k) as [c|]; [|apply _].
  destruct (sv_tasks sv !! k) as [st|] eqn:E; [|apply _]. rewrite Hp. destruct (Ht k st E). by apply finish_writer_sound.
Qed.

(** A fresh server serves. *)
Lemma app_serving config w :
  (0 <= cf_max_dump_bytes config < 2 ^ 63)%Z -> sound (StoragePaths_new (cf_data_dir config)) (w_fs w) ->
  serving (StoragePaths_new (cf_data_dir config)) (app config) w.
Proof. intros Hmax Hs. split; [done|done|done|done|..]; intros k x Hk; cbn in Hk; by rewrite lookup_empty in Hk. Qed.

(** The store over the server's life when its events do not overlap: from a sound
    data directory (an empty one, or one a server left behind), whatever requests
    arrive, with whatever credentials and bodies, and whatever calls fail, if each
    request, retention cycle and turn of a writer ends before the next begins,
    from startup to the end of the shutdown every blob has the content its name
    says and every hash an index references has its blob.  What overlapping
    requests and cycles keep is in [CrashConcurrent] and [RetentionConcurrent];
    what they can lose, in [System]. *)
Theorem server_run_sound config registered addr events served order w r w' :
  let s := StoragePaths_new (cf_data_dir config) in
  (0 <= cf_max_dump_bytes config < 2 ^ 63)%Z -> sound s (w_fs w) ->
  serve_with_shutdown config registered addr events served order w = (r, w') -> sound s (w_fs w').
Proof using UL CL SL JL ML HL AXL TWL.
  intros s Hmax Hs. apply (wp_run (serve_with_shutdown config registered addr events served order) (fun _ w' => sound s (w_fs w'))).
  unfold serve_with_shutdown. fold s. apply wp_bind, wp_map_err. unfold wp at 1. pose proof (prepare_sound s w Hs) as H1.
  destruct (prepare s w) as [[[]|e] w1]; cbn [map_err fst snd] in *; [|done].
  apply wp_bind, wp_lift. destruct registered as [[]|]; cbn [map_err]; [|done].
  apply wp_bind, wp_lift. destruct addr as [[]|]; cbn [map_err]; [|done].
  apply wp_bind. unfold wp at 1. destruct (foldl (server_step (cf_retention config)) (app config, w1) events) as [sv w2] eqn:E.
  assert (serving s sv w2) as Hsv by (eapply steps_serving; [|exact E]; by apply app_serving).
  cbn [fst snd]. apply wp_bind, wp_map_err. unfold wp at 1.
  pose proof (finish_writers_sound s sv order (sg_pool _ _ _ Hsv) (sg_tasks _ _ _ Hsv) w2 (sg_sound _ _ _ Hsv)) as H3.
  destruct (finish_writers order sv w2) as [[u|e] w3]; cbn [map_err fst snd] in *; [by apply wp_lift|done].
Qed.
End ServerSafety.

(** ** A concrete server *)

Definition method_matches (m m' : Method) : bool := bool_decide (m = m' \/ (m = HEAD /\ m' = GET)).

#[export] Instance ToyAxum : AxumApi := {
  axum_route H l m p :=
    match find (fun e => String.eqb e.1.1 p) l with
    | Some (_, m', h) => Some (if method_matches m m' then Some h else None)
    | None => None
    end;
  axum_unrouted _ := EmptyReply 404
}.

#[export] Instance ToyAxumLaws : AxumLaws ToyAxum.
Proof.
  split; intros H l p m; [intros h..|]; cbn [axum_route ToyAxum].
  - intros Hnd Hin. destruct (find _ l) as [[[p' m'] h']|] eqn:E.
    + apply find_some in E as [Hin' Hp]. cbn [fst] in Hp. apply String.eqb_eq in Hp as ->. apply list_elem_of_In in Hin'.
      enough ((p, m, h) = (p, m', h')) as [= <- <-] by (unfold method_matches; by rewrite bool_decide_true by auto).
      apply list_elem_of_lookup in Hin as [i Hi], Hin' as [j Hj].
      assert (i = j) as <-; [|congruence]. eapply NoDup_lookup; [exact Hnd| |]; rewrite !list_lookup_fmap; [by rewrite Hi|by rewrite Hj].
    + exfalso. eapply find_none in E; [|by apply list_elem_of_In]. cbn [fst] in E. by rewrite String.eqb_refl in E.
  - destruct (find _ l) as [[[p' m'] h']|] eqn:E; [|done]. apply find_some in E as [Hin Hp]. cbn [fst] in Hp.
    apply String.eqb_eq in Hp as ->. unfold method_matches. case_bool_decide as Hm; [|done]. intros [= <-].
    exists m'. split; [by apply list_elem_of_In|done].
  - intros Hp. destruct (find _ l) as [[[p' m'] h']|] eqn:E; [|done]. exfalso. apply find_some in E as [Hin Heq]. cbn [fst] in Heq.
    apply String.eqb_eq in Heq as ->. apply Hp. rewrite <- list_fmap_compose. apply list_elem_of_fmap. exists (p, m', h').
    split; [done|by apply list_elem_of_In].
Qed.

#[export] Instance ToyTower : TowerApi := { tower_inbound _ rq := Ok rq }.

#[export] Instance ToyTowerLaws : TowerLaws ToyTower.
Proof. split; [|done]. by intros limit rq rq' [= <-]. Qed.

#[export] Instance ToyTonicServer : TonicServerApi := { grpc_decode _ := Ok {| resource_logs := snd <$> lq_resource_logs sample_logs_request |} }.

#[export] Instance ToyPrometheus : PrometheusApi := { prometheus_encode _ := Ok (as_bytes "") }.

Definition server_token : TokenContext :=
  {| tc_id := "t"; tc_project := "app"; tc_source_prefix := "app/"; tc_secret_hash := "$pw" |}.

Definition server_config : ServerConfig :=
  {| cf_bind := "127.0.0.1:4317"; cf_data_dir := ["/"; "d"]; cf_max_dump_bytes := 1000;
     cf_token_store := {| ts_tokens := [server_token] |}; cf_rate_limit := RateLimitConfig_default;
     cf_retention := RetentionConfig_default; cf_schema_registry := SchemaRegistry_empty |}.

Definition sample_upload_request (secret : string) : HttpRequest :=
  {| hq_method := POST; hq_path := "/v1/crashes"; hq_authorization := Some (as_bytes ("Bearer " +:+ secret));
     hq_content_type := rq_content_type sample_request; hq_content_encoding := None; hq_version := None; hq_body := rq_body sample_request |}.

Definition sample_export_request : HttpRequest :=
  {| hq_method := POST; hq_path := EXPORT_PATH; hq_authorization := Some (as_bytes "Bearer pw");
     hq_content_type := None; hq_content_encoding := None; hq_version := Some (as_bytes "1"); hq_body := [] |}.

Definition sample_timing : Timing := {| tm_instant := fun _ => 0%Z; tm_elapsed := 0 |}.

Definition uploading := handle (J := SampleJson) (sample_upload_request "pw") sample_timing (app server_config) empty_world.

(** The upload is accepted; with another secret it is not. *)
Lemma request_effects_witness :
  let sv := app server_config in
  (exists body, uploading.1 = JsonReply 201 body) /\
  ((exists m, uploading.2.1 = with_only_metrics sv m /\ uploading.2.2 = empty_world) \/
   exists ctx, authorised (sv_tokens sv) (sample_upload_request "pw") ctx /\ sv_tokens uploading.2.1 = sv_tokens sv /\
     same_config (sv_app sv) (sv_app uploading.2.1) /\
     ((POST = POST /\ "/v1/crashes" = "/v1/crashes" /\ sv_writers uploading.2.1 = sv_writers sv /\
       evolves sample_storage (permitted_index sample_storage ctx) ∅ (w_fs uploading.2.2)) \/
      ("/v1/crashes" = EXPORT_PATH /\ uploading.2.2 = empty_world /\
       forall k, stream (sv_writers uploading.2.1) k <> stream (sv_writers sv) k -> permits ctx k = true))).
Proof.
  split; [eexists; vm_compute; reflexivity|].
  apply (request_effects (J := SampleJson) (sample_upload_request "pw") sample_timing (app server_config) empty_world uploading.1).
  - cbn. lia.
  - apply empty_store_ok.
  - unfold uploading. by destruct (handle _ _ _ _) as [reply [sv' w']].
Defined.

Definition sample_events : list Event :=
  [Arrives (sample_upload_request "pw") sample_timing; Arrives sample_export_request sample_timing;
   Writes {| sk_project := "app"; sk_source_id := "i" |}; Ticks 0; Arrives (sample_upload_request "guess") sample_timing].

Definition server_run := serve_with_shutdown (J := ToyJson) server_config (Ok tt) (Ok tt) sample_events (Ok tt)
  [{| sk_project := "app"; sk_source_id := "i" |}] empty_world.

Lemma server_run_sound_witness : sound (J := ToyJson) sample_storage (w_fs server_run.2).
Proof.
  apply (server_run_sound (J := ToyJson) server_config (Ok tt) (Ok tt) sample_events (Ok tt)
    [{| sk_project := "app"; sk_source_id := "i" |}] empty_world server_run.1).
  - cbn. lia.
  - apply empty_sound.
  - unfold server_run. by destruct (serve_with_shutdown _ _ _ _ _ _ _).
Defined.
