(* ===== verification/Calm.v ===== *)
(** * Calm stretches: no call fails, the clock stays in a set of times

    [calm A fs0 P w]: no failure is scheduled, every clock reading still to come
    satisfies [P], and the paths of [A] are as in [fs0].  The crash handler, the
    retention cycle and the writers keep it, for areas they do not touch. *)

From Stdlib Require Import Ascii.
From S2P Require Import Prelude RustStd Fs External Instances Json Protocol Metrics Schemas Storage F64 RateLimit Auth State Crashes CrashStore CrashIngest Janitor Otlp Logs Server.

Record calm (A : Path -> Prop) (fs0 : gmap Path Node) (P : Z -> Prop) (w : World) : Prop := {
  calm_faults : w_faults w = [];
  calm_times : Forall P (times w);
  calm_area : forall q, A q -> w_fs w !! q = fs0 !! q
}.

(** No path that leads to [p] is in the area. *)
Class Outside (A : Path -> Prop) (p : Path) : Prop := outside : forall q, q `prefix_of` p -> ~ A q.

#[export] Instance outside_nowhere p : Outside (fun _ => False) p.
Proof. by intros q _ []. Qed.

Lemma outside_parent A p p' : Outside A p -> parent p = Some p' -> Outside A p'.
Proof. intros Ho (x & -> & _)%parent_Some q Hq. apply Ho. by apply prefix_app_r. Qed.

Section Calls.
Context {A : Path -> Prop} {fs0 : gmap Path Node} {P : Z -> Prop}.
#[local] Abbreviation calm := (calm A fs0 P).

Lemma calm_syscall {B : Type} (part : nat -> gmap Path Node -> gmap Path Node) (op : World -> Result B io_error * gmap Path Node) :
  (forall w q, A q -> (op w).2 !! q = w_fs w !! q) -> Keeps calm (syscall part op).
Proof.
  intros Ho w [Hf Ht Ha]. rewrite (syscall_no_fault part op w Hf). split; [done|done|].
  intros q Hq. cbn [snd w_fs with_fs]. rewrite (Ho w q Hq). by apply Ha.
Qed.

Lemma outside_insert (p q : Path) (n : Node) (fs : gmap Path Node) : Outside A p -> A q -> <[p := n]> fs !! q = fs !! q.
Proof. intros Ho Hq. apply lookup_insert_ne. intros ->. by apply (Ho q). Qed.

#[export] Instance create_dir_all_calm p : Outside A p -> Keeps calm (create_dir_all p).
Proof.
  intros Ho. apply calm_syscall. intros w q Hq. destruct (existsb _ _); [done|]. cbn [snd].
  rewrite (foldl_add_dir_prefix p); [done|done|]. intros Hp. by apply (Ho q).
Qed.

#[export] Instance file_create_calm p : Outside A p -> Keeps calm (file_create p).
Proof.
  intros Ho. apply calm_syscall. intros w q Hq. destruct (is_dir _ _); [done|].
  destruct (parent_is_dir _ _); [|done]. by apply outside_insert.
Qed.

#[export] Instance open_append_calm p : Outside A p -> Keeps calm (open_append p).
Proof.
  intros Ho. apply calm_syscall. intros w q Hq. destruct (is_dir _ _); [done|]. destruct (is_file _ _); [done|].
  destruct (parent_is_dir _ _); [|done]. by apply outside_insert.
Qed.

#[export] Instance write_all_calm p b : Outside A p -> Keeps calm (write_all p b).
Proof.
  intros Ho w. apply calm_syscall. intros w1 q Hq. cbn [snd]. unfold append_to.
  destruct (w_fs w1 !! p) as [[]|]; [by apply outside_insert|done|done].
Qed.

#[export] Instance hard_link_calm src dst : Outside A dst -> Keeps calm (hard_link src dst).
Proof.
  intros Ho. apply calm_syscall. intros w q Hq. destruct (w_fs w !! src) as [[]|]; [|done|done].
  destruct (w_fs w !! dst); [done|]. destruct (parent_is_dir _ _); [|done]. by apply outside_insert.
Qed.

#[export] Instance remove_file_calm p : Outside A p -> Keeps calm (remove_file p).
Proof.
  intros Ho. apply calm_syscall. intros w q Hq. destruct (w_fs w !! p) as [[]|]; [|done|done]. cbn [snd].
  apply lookup_delete_ne. intros ->. by apply (Ho q).
Qed.

#[export] Instance sync_file_calm p : Keeps calm (sync_file p).
Proof. by apply calm_syscall. Qed.

#[export] Instance fs_read_calm p : Keeps calm (fs_read p).
Proof. by apply calm_syscall. Qed.

#[export] Instance try_exists_calm p : Keeps calm (try_exists p).
Proof. by apply calm_syscall. Qed.

#[export] Instance fs_metadata_calm p : Keeps calm (fs_metadata p).
Proof. by apply calm_syscall. Qed.

#[export] Instance file_type_calm p : Keeps calm (file_type p).
Proof. by apply calm_syscall. Qed.

#[export] Instance read_dir_calm `{Os} p : Keeps calm (read_dir p).
Proof. by apply calm_syscall. Qed.

#[export] Instance fs_write_calm p b : Outside A p -> Keeps calm (fs_write p b).
Proof. intros Ho. unfold fs_write. apply _. Qed.

#[export] Instance system_time_now_calm E : Keeps calm (@system_time_now E).
Proof.
  intros w [Hf Ht Ha]. unfold system_time_now. destruct (w_clock w) as [|t ts] eqn:E1; [done|].
  split; [done| |done]. unfold times in *. rewrite E1 in Ht. by apply Forall_cons in Ht as [_ Ht].
Qed.

#[export] Instance uuid_new_v4_calm `{UuidApi} E : Keeps calm (@uuid_new_v4 _ E).
Proof. by intros w []. Qed.

(** A value that was computed without failing. *)
Lemma keeps_lift_Ok {W E B D : Type} (I : W -> Prop) (r : Result B E) (f : B -> ST W E D) :
  (forall b, r = Ok b -> Keeps I (f b)) -> Keeps I (io_bind (io_lift r) f).
Proof. intros Hf w Hw. destruct r as [b|e]; [|done]. by apply (Hf b eq_refl). Qed.
End Calls.

(** ** The retention cycle, wherever nothing is protected *)

Section Cycle.
Context {OS : Os} {J : JsonText} (fs0 : gmap Path Node) (P : Z -> Prop).
#[local] Abbreviation calm := (calm (fun _ => False) fs0 P).

#[local] Instance is_older_than_calm p ttl : Keeps calm (is_older_than p ttl).
Proof. unfold is_older_than; cbv zeta. apply _. Qed.

#[local] Instance visit_entry_calm acc q : Keeps calm (visit_entry acc q).
Proof. unfold visit_entry. apply keeps_bind; [apply _|]. intros []; apply _. Qed.

#[local] Instance collect_loop_calm fuel : forall dirs files, Keeps calm (collect_loop fuel dirs files).
Proof. induction fuel as [|fuel IH]; intros [|dir rest] files; cbn [collect_loop]; apply _. Qed.

#[local] Instance collect_files_calm root : Keeps calm (collect_files root).
Proof.
  unfold collect_files. apply keeps_bind; [apply _|]. intros b. apply keeps_if; [|apply _].
  intros w. apply collect_loop_calm.
Qed.

#[local] Instance prune_log_calm ttl stats file : Keeps calm (prune_log ttl stats file).
Proof. unfold prune_log, file_len. apply _. Qed.

#[local] Instance prune_index_calm ttl acc file : Keeps calm (prune_index ttl acc file).
Proof. unfold prune_index, file_len. apply _. Qed.

#[local] Instance sweep_blob_calm referenced stats blob : Keeps calm (sweep_blob referenced stats blob).
Proof. unfold sweep_blob, file_len. apply _. Qed.

Lemma janitor_cycle_calm s cfg : Keeps calm (run_janitor_cycle s cfg).
Proof.
  unfold run_janitor_cycle, snapshot_blobs, prune_logs, prune_indexes_and_collect_references, sweep_blobs. apply _.
Qed.
End Cycle.

(** ** Crash requests outside the logs *)

Section Crash.
Context {U : UuidApi} {UL : UuidLaws U} {C : ChronoApi} {CL : ChronoLaws C}
  {S : Sha256Api} {SL : Sha256Laws S} {J : JsonText} {M : MulterApi} {HT : HttpApi} {V : JsonSchemaApi}.
Context (fs0 : gmap Path Node) (P : Z -> Prop).

(** What lies below the directory of the logs. *)
Definition in_logs (s : StoragePaths) (q : Path) : Prop := exists x r, q = data_dir s ++ "logs" :: x :: r.

Lemma outside_logs s x r : x <> "logs" -> Outside (in_logs s) (data_dir s ++ x :: r).
Proof.
  intros Hx q [t Hq] (y & r' & ->). rewrite <- app_assoc in Hq. apply app_inv_head in Hq. by injection Hq as -> _.
Qed.

Lemma outside_logs_dir s : Outside (in_logs s) (data_dir s ++ ["logs"]).
Proof. intros q Hq (y & r & ->). apply prefix_length in Hq. rewrite !length_app in Hq. cbn in Hq. lia. Qed.

Context (s : StoragePaths).
#[local] Abbreviation calm := (calm (in_logs s) fs0 P).

#[local] Instance outside_tmp_dir : Outside (in_logs s) (tmp_dir s).
Proof. rewrite tmp_dir_components. by apply outside_logs. Qed.

#[local] Instance outside_temp u : Outside (in_logs s) (temp_path s u).
Proof using UL. rewrite temp_path_components. by apply outside_logs. Qed.

Lemma prepare_calm : Keeps calm (prepare s).
Proof.
  unfold prepare. rewrite !join_normal by done. rewrite <- !app_assoc. pose proof (outside_logs_dir s).
  pose proof (outside_logs s "crashes" ["by-hash"] ltac:(done)). pose proof (outside_logs s "crashes" ["by-source"] ltac:(done)).
  apply _.
Qed.

#[local] Instance finalize_blob_calm u b : Keeps calm (finalize_blob s (temp_path s u) (sha256_hex b)).
Proof using UL SL.
  unfold finalize_blob. apply keeps_lift_Ok. intros dest Hd. destruct (blob_path_components s b) as (p & _ & Hp). rewrite Hp in Hd.
  cbn [ok_or] in Hd. injection Hd as <-. pose proof (outside_logs s "crashes" ["by-hash"; p; sha256_hex b +:+ ".bin"] ltac:(done)).
  destruct (parent _) as [pp|] eqn:Epp; [pose proof (outside_parent _ _ _ H Epp)|]; apply _.
Qed.

#[local] Instance write_part_calm field max : Keeps calm (write_part_to_blob s field max).
Proof using UL SL. unfold write_part_to_blob, copy_chunk; cbv zeta. apply _. Qed.

#[local] Instance ingest_part_calm max acc next : Keeps calm (ingest_part s max acc next).
Proof using UL SL. unfold ingest_part; cbv zeta. apply _. Qed.

(** Whatever follows the time stamp, the index lies below its source. *)
#[local] Instance outside_index k t h : SourceKey_valid k -> Outside (in_logs s) (index_path s k (stamp t) h).
Proof using CL.
  intros (Hp & _ & Hi & _). unfold index_path. rewrite (join_normal _ "crashes"), (join_normal _ "by-source"), (join_normal _ (sk_project k)), (join_normal _ (sk_source_id k)) by done. rewrite <- !app_assoc. cbn [Datatypes.app].
  assert (is_absolute (stamp t +:+ "-" +:+ h +:+ ".json") = false) as Ha.
  { pose proof (stamp_no_slash t) as Hs. unfold is_absolute, starts_with. destruct (stamp t) as [|a r]; [done|].
    cbn [contains_char] in Hs. cbn [String.append strip_prefix]. rewrite Ascii.eqb_sym.
    by destruct (Ascii.eqb a "/"). }
  unfold join. rewrite Ha. destruct (data_dir s ++ _) eqn:E; [by destruct (data_dir s)|]. rewrite <- E, <- app_assoc. by apply outside_logs.
Qed.

#[local] Instance write_index_calm k m dump atts : SourceKey_valid k -> Keeps calm (write_index s k m dump atts).
Proof using CL.
  intros Hk. unfold write_index; cbv zeta. pose proof (outside_index k (timestamp m) (bp_sha256 dump) Hk) as Ho.
  destruct (parent _) as [pp|] eqn:Epp; [pose proof (outside_parent _ _ _ Ho Epp)|]; apply _.
Qed.

(** The same for handlers. *)
Definition calm_app (sw : AppState * World) : Prop := storage sw.1 = s /\ calm sw.2.

#[local] Instance app_io_calm {E B : Type} (m : IO E B) : Keeps calm m -> Keeps calm_app (app_io m).
Proof. intros Hm [st w] [Hs Hw]. unfold app_io. cbn [fst snd] in *. specialize (Hm w Hw). by destruct (m w). Qed.

#[local] Instance modify_metrics_calm E f : Keeps calm_app (@modify_metrics V E f).
Proof. by intros [st w]. Qed.

#[local] Instance app_limit_calm E f err : Keeps calm_app (@app_limit V E f err).
Proof. intros [st w] Hw. unfold app_limit. cbn [fst snd]. by destruct (f _). Qed.

Lemma crashes_inner_calm token rq now : Keeps calm_app (crashes_inner token rq now).
Proof using UL CL SL.
  intros [st w] [Hs Hw]. cbn [fst] in Hs. unfold crashes_inner, get_state. unfold io_bind at 1. cbn [fst]. rewrite Hs.
  match goal with |- calm_app (?m _).2 => enough (Keeps calm_app m) as Hk by (by apply Hk) end.
  apply keeps_bind; [apply _|intros fields]. apply keeps_bind; [apply _|intros [metadata rest]].
  apply keeps_bind; [apply _|intros _]. apply keeps_lift_Ok. intros k Hk.
  assert (SourceKey_valid k) as Hv.
  { destruct (SourceKey_new _ _) as [k'|] eqn:E; [|done]. injection Hk as <-. by apply SourceKey_new_Ok in E as [_ ?]. }
  pose proof (fun m dump atts => write_index_calm k m dump atts Hv). cbv zeta. apply _.
Qed.

Lemma crashes_handler_calm token rq now elapsed : Keeps calm_app (crashes_handler token rq now elapsed).
Proof using UL CL SL. pose proof (crashes_inner_calm token rq now). unfold crashes_handler; cbv zeta. apply _. Qed.
End Crash.

(** ** Time stamps

    Whatever a calm program writes carries a time of the stretch. *)

Record stamped (L : Path -> Prop) (P : Z -> Prop) (w : World) : Prop := {
  stamped_faults : w_faults w = [];
  stamped_times : Forall P (times w);
  stamped_files : forall q c t, L q -> w_fs w !! q = Some (File c t) -> P t
}.

Section Stamps.
Context {L : Path -> Prop} {P : Z -> Prop}.

Lemma stamped_syscall {B : Type} (part : nat -> gmap Path Node -> gmap Path Node) (op : World -> Result B io_error * gmap Path Node) :
  (forall w q c t, (op w).2 !! q = Some (File c t) -> (exists c', w_fs w !! q = Some (File c' t)) \/ t = w_now w) ->
  Keeps (stamped L P) (syscall part op).
Proof.
  intros Ho w [Hf Ht Hs]. rewrite (syscall_no_fault part op w Hf). split; [done|done|].
  intros q c t Hq Hl. cbn [snd w_fs with_fs] in Hl. apply Ho in Hl as [[c' Hl]| ->]; [by eapply Hs|].
  by apply Forall_cons in Ht as [? _].
Qed.

Lemma stamp_insert (fs : gmap Path Node) (p q : Path) b c t now :
  <[p := File b now]> fs !! q = Some (File c t) -> (exists c', fs !! q = Some (File c' t)) \/ t = now.
Proof.
  destruct (decide (p = q)) as [<-|Hne]; [rewrite lookup_insert_eq; intros [= _ <-]; by right|].
  rewrite lookup_insert_ne by done. eauto.
Qed.

#[export] Instance create_dir_all_stamped p : Keeps (stamped L P) (create_dir_all p).
Proof.
  apply stamped_syscall. intros w q c t. destruct (existsb _ _); [eauto|]. cbn [snd]. rewrite foldl_add_dir_lookup.
  destruct (w_fs w !! q) as [n|]; [intros [= ->]; eauto|]. by case_decide.
Qed.

#[export] Instance open_append_stamped p : Keeps (stamped L P) (open_append p).
Proof.
  apply stamped_syscall. intros w q c t. destruct (is_dir _ _); [eauto|]. destruct (is_file _ _); [eauto|].
  destruct (parent_is_dir _ _); [apply stamp_insert|eauto].
Qed.

#[export] Instance write_all_stamped p b : Keeps (stamped L P) (write_all p b).
Proof.
  intros w. apply stamped_syscall. intros w1 q c t. cbn [snd]. unfold append_to.
  destruct (w_fs w1 !! p) as [[]|]; [apply stamp_insert|eauto..].
Qed.

#[export] Instance sync_file_stamped p : Keeps (stamped L P) (sync_file p).
Proof. apply stamped_syscall. eauto. Qed.

#[export] Instance system_time_now_stamped E : Keeps (stamped L P) (@system_time_now E).
Proof.
  intros w [Hf Ht Hs]. unfold system_time_now. destruct (w_clock w) as [|t ts] eqn:E1; [done|].
  split; [done| |done]. unfold times in *. rewrite E1 in Ht. by apply Forall_cons in Ht as [_ Ht].
Qed.

#[export] Instance flush_file_stamped file : Keeps (stamped L P) (flush_file file).
Proof. unfold flush_file. apply _. Qed.

#[export] Instance write_line_stamped `{JsonText} file line : Keeps (stamped L P) (write_line file line).
Proof. unfold write_line. apply _. Qed.

#[export] Instance writer_step_stamped `{ChronoApi} `{JsonText} s k st line : Keeps (stamped L P) (writer_step s k st line).
Proof. unfold writer_step, open_log_file; cbv zeta. apply _. Qed.
End Stamps.
