(* ===== verification/ServerLogs.v ===== *)
(** * The logs over the server's whole life

    While no call fails and the run is shorter than the retention of logs, what
    the writers have received is in the daily files, each line once and in order;
    the shutdown writes the rest.  Crash uploads and retention cycles in between
    leave the logs alone. *)

From Stdlib Require Import Ascii.
From S2P Require Import Prelude RustStd Fs External Instances Json Protocol Metrics Schemas Storage F64 RateLimit Auth State Crashes CrashStore CrashIngest Janitor Retention Refs System Otlp Logs LogQueue LogWriter LogPipeline Server ServerSafety Calm.

(** The lines a source's writer has received. *)
Definition received_by (p : LogWriterPool) (k : SourceKey) : list Value :=
  match lwp_inner p !! k with Some c => ch_received c | None => [] end.

(** The lines that wait for it. *)
Definition queued_for (p : LogWriterPool) (k : SourceKey) : list Value :=
  match lwp_inner p !! k with Some c => ch_queue c | None => [] end.

Lemma stream_received p k : stream p k = received_by p k ++ queued_for p k.
Proof. unfold stream, received_by, queued_for. by destruct (lwp_inner p !! k). Qed.

Section ServerLogs.
Context {U : UuidApi} {UL : UuidLaws U} {C : ChronoApi} {CL : ChronoLaws C}
  {S : Sha256Api} {SL : Sha256Laws S} {J : JsonText} {JL : JsonTextLaws J}
  {M : MulterApi} {ML : MulterLaws M} {HT : HttpApi} {HL : HttpLaws HT}
  {V : JsonSchemaApi} {A2 : Argon2Api} {OS : Os}
  {AX : AxumApi} {AXL : AxumLaws AX} {TW : TowerApi} {TWL : TowerLaws TW}
  {TS : TonicServerApi} {PR : PrometheusApi}.

(** ** What the server takes in *)

(** The lines of a message that belong to the source [k]. *)
Definition message_lines (k : SourceKey) (m : ExportLogsServiceRequest) : list Value :=
  lines_for k (resource_logs m ≫= resource_lines).

Definition server_stream (sv : Server) (k : SourceKey) : list Value := stream (sv_writers sv) k.

Lemma batch_lines_message token version times m :
  batch_lines {| lq_version := version; lq_token := token; lq_resource_logs := imap (fun i rl => (times i, rl)) (resource_logs m) |}
  = resource_logs m ≫= resource_lines.
Proof.
  unfold batch_lines. cbn [lq_resource_logs]. generalize (resource_logs m). intros l. revert times.
  induction l as [|rl l IH]; intros times; [done|]. cbn [imap mbind list_bind]. cbn [snd]. f_equal. apply (IH (times ∘ Datatypes.S)).
Qed.

Lemma lines_for_prefix k l1 l2 : l1 `prefix_of` l2 -> lines_for k l1 `prefix_of` lines_for k l2.
Proof. intros [r ->]. rewrite lines_for_app. by apply prefix_app_r. Qed.

(** Whatever the outcome, an export takes in a part of the message, all of it on
    success. *)
Lemma serve_export_stream token rq t sv w m reply sv' w' k :
  grpc_decode rq = Ok m -> serve_export token rq t sv w = (reply, (sv', w')) ->
  exists ls, ls `prefix_of` message_lines k m /\ server_stream sv' k = server_stream sv k ++ ls /\
    (reply = GrpcReply (Ok tt) -> ls = message_lines k m).
Proof.
  intros Hd. unfold serve_export. rewrite Hd. set (lq := Build_LogsRequest _ _ _).
  destruct (export lq _ _) as [r h] eqn:E. intros [= <- <- _]. revert E. unfold export, io_bind at 1, io_try.
  destruct (sends_export lq (logs_handler sv)) as (l & Hp & _ & (Hs & _) & Hok).
  destruct (export_inner lq (logs_handler sv)) as [r1 h1]. cbn [fst snd] in *. unfold io_bind, io_lift. intros [= <- <-].
  unfold lq in Hp, Hok. rewrite batch_lines_message in Hp, Hok. exists (lines_for k l). split; [by apply lines_for_prefix|].
  split; [exact (Hs k)|]. intros Ho. unfold message_lines. rewrite Hok; [done|]. by injection Ho as ->.
Qed.

Lemma serve_export_undecoded token rq t sv w e : grpc_decode rq = Err e ->
  serve_export token rq t sv w = (GrpcReply (Err e), (sv, w)).
Proof. intros Hd. unfold serve_export. by rewrite Hd. Qed.

Lemma writer_turn_stream k' sv w k : server_stream (writer_turn k' sv w).1 k = server_stream sv k.
Proof.
  unfold writer_turn. destruct (lwp_inner (sv_writers sv) !! k') as [c|] eqn:Ec; [|done].
  destruct (sv_tasks sv !! k') as [st|]; [|done]. destruct (ch_queue c) as [|line rest] eqn:Eq; [done|].
  destruct (writer_step _ _ _ _ _) as [r w1]. unfold server_stream, stream. cbn [fst sv_writers lwp_inner].
  destruct (decide (k' = k)) as [<-|Hne]; [|by rewrite lookup_insert_ne]. rewrite lookup_insert_eq, Ec. apply drain_stream.
Qed.

(** ** What leaves the logs alone *)

Definition logs_kept (s : StoragePaths) (fs fs' : gmap Path Node) : Prop :=
  (forall k d, SourceKey_valid k -> fs' !! log_file s k d = fs !! log_file s k d) /\
  (all_ready s fs -> all_ready s fs').

Lemma log_file_in_logs s k d : SourceKey_valid k -> in_logs s (log_file s k d).
Proof. intros Hk. rewrite log_file_in_dir by done. unfold log_dir. rewrite <- app_assoc. by eexists _, _. Qed.

(** Below the log directory nothing changes, and no file appears on the way to it. *)
Lemma logs_kept_area s fs fs' :
  (forall q, in_logs s q -> fs' !! q = fs !! q) ->
  (forall q, q `prefix_of` data_dir s ++ ["logs"] -> is_file fs q = false -> is_file fs' q = false) -> logs_kept s fs fs'.
Proof.
  intros Ha Hp. split; [intros k d Hk; by apply Ha, log_file_in_logs|]. intros Hr k Hk. destruct (Hr k Hk) as [Hd Hf]. split.
  - intros q Hq. specialize (Hd q Hq).
    assert (data_dir s ++ ["logs"] `prefix_of` log_dir s k) as Hl by (by exists [sk_project k; sk_source_id k]; rewrite <- app_assoc).
    destruct (prefix_weak_total _ _ _ Hq Hl) as [Hq'|[l ->]]; [by apply Hp|].
    destruct l as [|x l]; [rewrite app_nil_r in *; by apply Hp|].
    unfold is_file in *. rewrite Ha; [done|]. exists x, l. by rewrite <- app_assoc.
  - intros d. rewrite Ha by (by apply log_file_in_logs). apply Hf.
Qed.

(** Retention removes no log file that has not expired. *)
Lemma logs_kept_pruned s cfg ts final fs fs' :
  (forall k d c t now, SourceKey_valid k -> fs !! log_file s k d = Some (File c t) -> now ∈ ts ->
     expired now (logs_ttl_days cfg) t = false) ->
  pruned (removable s cfg ts final) fs fs' -> logs_kept s fs fs'.
Proof.
  intros Hkeep Hp.
  assert (forall k d, SourceKey_valid k -> fs' !! log_file s k d = fs !! log_file s k d) as Hsame.
  { intros k d Hk. destruct (Hp (log_file s k d)) as [?|(_ & c & t & Hq & Hrm)]; [done|exfalso].
    destruct (roots_components s) as (_ & Hi & Hb). pose proof (log_file_in_logs s k d Hk) as (x & r & Hlog).
    destruct Hrm as [(_ & _ & now & Hnow & He)|[([y Hy] & _)|([y Hy] & _)]].
    - by rewrite (Hkeep k d c t now Hk Hq Hnow) in He.
    - rewrite Hi, Hlog, <- app_assoc in Hy. by apply app_inv_head in Hy.
    - rewrite Hb, Hlog, <- app_assoc in Hy. by apply app_inv_head in Hy. }
  split; [done|]. intros Hr k Hk. destruct (Hr k Hk) as [Hd Hf]. split.
  - intros q Hq. specialize (Hd q Hq). unfold is_file in *. destruct (Hp q) as [->|(-> & _)]; done.
  - intros d. rewrite Hsame by done. apply Hf.
Qed.

Lemma written_kept s k l fs0 fs fs' : SourceKey_valid k -> logs_kept s fs fs' -> written s k l fs0 fs -> written s k l fs0 fs'.
Proof.
  intros Hk [Hl _] Hw. rewrite <- (app_nil_r l). eapply written_trans; [exact Hw|]. apply written_nil. intros d. by apply Hl.
Qed.

Lemma writer_ok_kept s k st fs fs' : SourceKey_valid k -> logs_kept s fs fs' -> writer_ok s k fs st -> writer_ok s k fs' st.
Proof. intros Hk [Hl _] Hw d Hd. destruct (Hw d Hd) as [? Hi]. split; [done|]. unfold is_file in *. by rewrite Hl. Qed.

(** A writer only appends: the files the writers have open stay. *)
Lemma writer_ok_appends s k k' st fs fs' : appends s k fs fs' -> writer_ok s k' fs st -> writer_ok s k' fs' st.
Proof.
  intros [_ Hap] Hok d Hd. destruct (Hok d Hd) as [? Hi]. split; [done|]. unfold is_file in *.
  destruct (fs !! log_file s k' d) as [[c t|]|] eqn:E; [|done|done]. by destruct (Hap _ _ _ E) as (c1 & t1 & ->).
Qed.

(** ** One line, and the rest of a queue *)

Lemma writer_step_run s k st line w :
  SourceKey_valid k -> w_faults w = [] -> all_ready s (w_fs w) -> writer_ok s k (w_fs w) st -> owns s k st ->
  exists st' w', writer_step s k st line w = (Ok st', w') /\ w_faults w' = [] /\ all_ready s (w_fs w') /\
    writer_ok s k (w_fs w') st' /\ owns s k st' /\ written s k [line] (w_fs w) (w_fs w') /\ appends s k (w_fs w) (w_fs w').
Proof using CL.
  intros Hk Hnf Ha Hok Ho.
  pose (Q := fun (r : Result Writer StorageError) (w' : World) => w_faults w' = [] /\ ready s k (w_fs w') /\
    written s k [line] (w_fs w) (w_fs w') /\ exists st', r = Ok st' /\ writer_ok s k (w_fs w') st').
  assert (wp (writer_step s k st line) Q w) as HQ.
  { apply wpn_writer_step; [done|done|by apply Ha|done|]. intros st' w' t ts Hf' Hr' Hok' _ _ _ Hc.
    split_and!; [done|done| |by exists st']. exists [(date_of t, line)]. split; [done|]. intros d. rewrite Hc. f_equal.
    symmetry. rewrite on_date_cons. apply app_nil_r. }
  pose proof (Appends_writer_step s k Hk st line Ho w) as [Happ HR]. unfold wp in HQ.
  destruct (writer_step s k st line w) as [r w']. cbn [fst snd] in *. destruct HQ as (Hf' & Hr' & Hw & st' & -> & Hok').
  exists st', w'. split_and!; [done|done|apply (frame_ready s k (w_fs w)); [done|apply Happ|done|done]|done|by apply HR|done|done].
Qed.

Lemma writer_fold_run s k lines : SourceKey_valid k -> forall st w,
  w_faults w = [] -> all_ready s (w_fs w) -> writer_ok s k (w_fs w) st -> owns s k st ->
  exists st' w', io_fold (writer_step s k) st lines w = (Ok st', w') /\ w_faults w' = [] /\ all_ready s (w_fs w') /\
    written s k lines (w_fs w) (w_fs w') /\ appends s k (w_fs w) (w_fs w').
Proof using CL.
  intros Hk. induction lines as [|l lines IH]; intros st w Hnf Ha Hok Ho.
  { exists st, w. split_and!; [done|done|done|by apply written_nil|reflexivity]. }
  destruct (writer_step_run s k st l w Hk Hnf Ha Hok Ho) as (st1 & w1 & Hrun & Hnf1 & Ha1 & Hok1 & Ho1 & Hw1 & Hap1).
  destruct (IH st1 w1 Hnf1 Ha1 Hok1 Ho1) as (st2 & w2 & Hrun2 & Hnf2 & Ha2 & Hw2 & Hap2). exists st2, w2. split_and!; [|done|done| |].
  - cbn [io_fold]. unfold io_bind. by rewrite Hrun.
  - exact (written_trans s k [l] lines _ _ _ Hw1 Hw2).
  - by etrans.
Qed.

Lemma finish_writer_run s k st c w :
  SourceKey_valid k -> w_faults w = [] -> all_ready s (w_fs w) -> writer_ok s k (w_fs w) st -> owns s k st ->
  exists w', finish_writer s k st c w = (Ok tt, w') /\ w_faults w' = [] /\ all_ready s (w_fs w') /\
    written s k (ch_queue c) (w_fs w) (w_fs w') /\ appends s k (w_fs w) (w_fs w').
Proof using CL.
  intros Hk Hnf Ha Hok Ho. destruct (writer_fold_run s k (ch_queue c) Hk st w Hnf Ha Hok Ho) as (st' & w' & Hrun & Hnf' & Hrest).
  exists w'. split; [|done]. unfold finish_writer. unfold io_bind at 1. rewrite Hrun.
  set (m := io_bind (io_try (flush_file (wr_file st'))) _).
  assert (wp m (fun r w2 => r = Ok tt /\ w2 = w') w') as Hm by (apply wp_bind, wpn_flush; [done|]; by apply wp_ret).
  unfold wp in Hm. destruct (m w') as [r w2]. cbn [fst snd] in Hm. by destruct Hm as [-> ->].
Qed.

(** ** The invariant *)

Definition is_log (s : StoragePaths) (q : Path) : Prop := exists k d, SourceKey_valid k /\ q = log_file s k d.

(** What the writers have received is in the files, on top of [fs0]. *)
Record logging (s : StoragePaths) (fs0 : gmap Path Node) (P : Z -> Prop) (sv : Server) (w : World) : Prop := {
  lg_serving : serving s sv w;
  lg_stamped : stamped (is_log s) P w;
  lg_ready : all_ready s (w_fs w);
  lg_tasks : forall k st, sv_tasks sv !! k = Some st -> writer_ok s k (w_fs w) st;
  lg_spawned : forall k c, lwp_inner (sv_writers sv) !! k = Some c -> is_Some (sv_tasks sv !! k);
  lg_lines : forall k, SourceKey_valid k -> written s k (received_by (sv_writers sv) k) fs0 (w_fs w)
}.

Lemma stamped_kept s P w w' : w_faults w' = [] -> Forall P (times w') -> logs_kept s (w_fs w) (w_fs w') ->
  stamped (is_log s) P w -> stamped (is_log s) P w'.
Proof.
  intros Hf Ht [Hl _] [_ _ Hs]. split; [done|done|]. intros q c t (k & d & Hk & ->). rewrite Hl by done.
  apply Hs. by exists k, d.
Qed.

(** Steps that leave the logs alone. *)
Lemma logging_kept s fs0 P sv w sv' w' :
  logging s fs0 P sv w -> serving s sv' w' -> w_faults w' = [] -> Forall P (times w') ->
  logs_kept s (w_fs w) (w_fs w') -> sv_writers sv' = sv_writers sv -> sv_tasks sv' = sv_tasks sv ->
  logging s fs0 P sv' w'.
Proof.
  intros [_ Hst Hr Ht Hsp Hl] Hs' Hf Htm Hk Hw Htk. pose proof Hk as [_ Hr']. split.
  - done.
  - by eapply stamped_kept.
  - auto.
  - intros k st. rewrite Htk. intros Hks. eapply writer_ok_kept; [|done|by apply Ht].
    apply (sg_tasks _ _ _ Hs' k st). by rewrite Htk.
  - intros k c. rewrite Hw, Htk. apply Hsp.
  - intros k Hv. rewrite Hw. eapply written_kept; [done|done|by apply Hl].
Qed.

(** ** Requests *)

Lemma only_no_file (X : Path -> Prop) fs fs' q : only X fs fs' -> ~ X q -> is_file fs q = false -> is_file fs' q = false.
Proof. unfold is_file. intros Ho HX. destruct (Ho q) as [?|[->|[_ ->]]]; done. Qed.

(** Temporary files, blobs and indexes are not on the way to the logs. *)
Lemma store_path_below s ctx q :
  is_tmp s q \/ is_blob s q \/ permitted_index s ctx q -> exists x r, x <> "logs" /\ q = data_dir s ++ x :: r.
Proof using UL CL SL.
  intros [[u ->]|[(p & h & ->)%is_blob_components|Hx]].
  - rewrite temp_path_components. by exists "tmp", [uuid_to_string u +:+ ".tmp"].
  - by exists "crashes", ["by-hash"; p; h].
  - destruct Hx as (k & ts & b & _ & Hk & ->). rewrite index_path_components by done. eexists "crashes", _. by split.
Qed.

Lemma serve_crash_logs s P ctx rq t sv w reply sv' w' :
  serving s sv w -> w_faults w = [] -> Forall P (times w) -> serve_crash (Some ctx) rq t sv w = (reply, (sv', w')) ->
  w_faults w' = [] /\ Forall P (times w') /\ logs_kept s (w_fs w) (w_fs w').
Proof using UL CL SL ML.
  intros Hs Hf Ht Hrun. pose proof Hrun as Hrun2. apply serve_crash_effects in Hrun2 as (_ & _ & _ & _ & Ho & _); [|apply Hs|].
  2: { rewrite (sg_storage _ _ _ Hs). apply (sg_sound _ _ _ Hs). }
  revert Hrun. unfold serve_crash. pose proof (crashes_handler_calm (w_fs w) P s ctx {| rq_content_type := hq_content_type rq; rq_body := hq_body rq |}
    (tm_instant t 0) (tm_elapsed t) (sv_app sv, w)) as Hc.
  destruct (crashes_handler _ _ _ _ _) as [r [st1 w1]]. intros [= _ _ <-].
  destruct Hc as [_ [Hf' Ht' Ha]]; [by split; [apply Hs|split]|]. cbn [fst snd] in *. split_and!; [done|done|].
  apply logs_kept_area; [done|]. intros q Hq. apply (only_no_file _ _ _ _ Ho). rewrite (sg_storage _ _ _ Hs).
  intros (x & r' & Hx & ->)%store_path_below. destruct Hq as [z Hq]. rewrite <- app_assoc in Hq. apply app_inv_head in Hq.
  by injection Hq as Hq _.
Qed.

(** An export leaves what the writers have received. *)
Definition received_as (R : SourceKey -> list Value) (h : LogsHandler) : Prop :=
  ls_drains h = [] /\ forall k, received_by (lh_writers h) k = R k.

Lemma received_insert (p : LogWriterPool) k c k' :
  ch_received c = received_by p k ->
  received_by {| lwp_inner := <[k := c]> (lwp_inner p); lwp_storage := lwp_storage p |} k' = received_by p k'.
Proof.
  intros Hc. unfold received_by at 1. cbn [lwp_inner]. destruct (decide (k = k')) as [<-|Hne]; [by rewrite lookup_insert_eq|].
  by rewrite lookup_insert_ne.
Qed.

#[local] Instance export_record_received R source record : Keeps (received_as R) (export_record source record).
Proof.
  intros h [Hd HR]. unfold export_record. rewrite Hd. set (c := default {| ch_queue := []; ch_received := [] |} _). assert (ch_received c = received_by (lh_writers h) source) as Hc.
  { unfold c, received_by. by destruct (lwp_inner (lh_writers h) !! source). }
  cbn [head default tail]. unfold try_send. change (drain 0 c) with {| ch_queue := ch_queue c; ch_received := ch_received c ++ [] |}.
  cbn [ch_queue ch_received]. rewrite app_nil_r.
  destruct (_ <? _)%nat; (split; [done|intros k'; cbn [snd lh_writers set_writers set_metrics]; rewrite received_insert; [apply HR|done]]).
Qed.

Lemma export_received rq elapsed R : Keeps (received_as R) (export rq elapsed).
Proof.
  apply keeps_bind; [apply keeps_try|intros r; apply keeps_bind; [by intros h []|intros _; apply _]].
  unfold export_inner. apply keeps_bind; [apply _|intros _]. apply keeps_bind; [apply _|intros token].
  apply keeps_bind; [|intros _]; apply keeps_fold; intros _ [now rl].
  - intros h Hv. cbn [snd]. unfold validate_resource. destruct (validate _ _ _ _) as [|[]]; try done. by destruct (truncate_message _).
  - cbn [fst snd]. unfold export_resource. apply keeps_bind; [apply _|intros k]. apply keeps_bind; [apply _|intros _].
    apply keeps_bind; [|intros _; apply keeps_bind; [|intros _; apply _]].
    + intros h Hv. by destruct (check_logs _ _ _ _).
    + intros h [Hd HR]. cbn [snd]. split; [done|]. intros k'. cbn [lh_writers set_writers]. rewrite <- HR. unfold sender_for.
      destruct (lwp_inner (lh_writers h) !! k) as [c|] eqn:E; [done|]. apply received_insert. unfold received_by. by rewrite E.
Qed.

Lemma serve_export_received token rq t sv w reply sv' w' :
  serve_export token rq t sv w = (reply, (sv', w')) -> forall k, received_by (sv_writers sv') k = received_by (sv_writers sv) k.
Proof.
  unfold serve_export. destruct (grpc_decode rq) as [m|e]; [|by intros [= _ <- _]]. set (lq := Build_LogsRequest _ _ _).
  pose proof (export_received lq (tm_elapsed t) (received_by (sv_writers sv)) (logs_handler sv)) as H.
  destruct (export lq _ _) as [r h]. intros [= _ <- _]. by apply H.
Qed.

Lemma writer_ok_fresh s k fs : writer_ok s k fs {| wr_date := None; wr_file := None |}.
Proof. by intros d [=]. Qed.

Lemma serve_export_logging s fs0 P token rq t sv w reply sv' w' :
  logging s fs0 P sv w -> serving s sv' w' -> serve_export token rq t sv w = (reply, (sv', w')) -> logging s fs0 P sv' w'.
Proof.
  intros [Hs Hst Hr Ht Hsp Hl] Hs' Hrun. pose proof (serve_export_received _ _ _ _ _ _ _ _ Hrun) as Hrec. revert Hrun. unfold serve_export.
  destruct (grpc_decode rq) as [m|e]; [|by intros [= _ <- <-]]. destruct (export _ _ _) as [r h]. intros [= _ <- <-].
  split; [done|done|done| | |]; cbn [sv_writers sv_tasks] in *.
  - intros k st. unfold spawn_tasks. rewrite lookup_union_Some_raw, lookup_fmap. intros [H|[_ H]]; [by apply Ht|].
    destruct (lwp_inner _ !! k); [|done]. injection H as <-. apply writer_ok_fresh.
  - intros k c Hk. unfold spawn_tasks. rewrite lookup_union, lookup_fmap, Hk. by destruct (sv_tasks sv !! k).
  - intros k Hk. rewrite Hrec. by apply Hl.
Qed.

Lemma logging_metrics s fs0 P sv w m : logging s fs0 P sv w -> logging s fs0 P (with_only_metrics sv m) w.
Proof. intros [Hs ? ? ? ? ?]. split; try done. by apply serving_metrics. Qed.

Lemma handle_logging s fs0 P rq t sv w reply sv' w' :
  logging s fs0 P sv w -> handle rq t sv w = (reply, (sv', w')) -> logging s fs0 P sv' w'.
Proof using UL CL SL JL ML HL AXL TWL.
  intros Hl Hrun. pose proof (handle_serving _ _ _ _ _ _ _ _ (lg_serving _ _ _ _ _ Hl) Hrun) as Hs'.
  apply handle_cases in Hrun as (m & [[-> ->]|(ctx & rq' & _ & Hcase)]); [by apply logging_metrics|].
  apply (logging_metrics _ _ _ _ _ m) in Hl. destruct Hcase as [(_ & _ & Hrun)|(_ & Hrun)]; [|by eapply serve_export_logging].
  pose proof (lg_stamped _ _ _ _ _ Hl) as [Hf Ht _]. pose proof (lg_serving _ _ _ _ _ Hl) as Hs.
  pose proof (serve_crash_logs _ P _ _ _ _ _ _ _ _ Hs Hf Ht Hrun) as (Hf' & Ht' & Hk).
  apply serve_crash_effects in Hrun as (_ & Hw & Htk & _); [|apply Hs|rewrite (sg_storage _ _ _ Hs); apply (sg_sound _ _ _ Hs)].
  by eapply logging_kept.
Qed.

(** ** Retention and writers *)

(** Within the times of [P] no log file that was written in them expires. *)
Definition spares (retention : RetentionConfig) (P : Z -> Prop) : Prop :=
  forall now t, P now -> P t -> expired now (logs_ttl_days retention) t = false.

Lemma tick_logging s fs0 P retention elapsed sv w sv' w' :
  spares retention P -> logging s fs0 P sv w -> server_step retention (sv, w) (Ticks elapsed) = (sv', w') -> logging s fs0 P sv' w'.
Proof using UL CL SL JL ML HL AXL TWL.
  intros Hsp Hl Hstep. pose proof (step_serving _ _ _ _ _ _ _ (lg_serving _ _ _ _ _ Hl) Hstep) as Hs'. revert Hstep.
  pose proof (lg_serving _ _ _ _ _ Hl) as Hs. pose proof (lg_stamped _ _ _ _ _ Hl) as [Hf Ht Hst].
  cbn [server_step]. destruct (sv_janitor sv); [|by intros [= <- <-]]. rewrite (sg_storage _ _ _ Hs). unfold janitor_tick.
  pose proof (janitor_cycle_calm (w_fs w) P s retention w ltac:(by split)) as [Hf' Ht' _].
  assert (wp (run_janitor_cycle s retention) (fun _ w' => logs_kept s (w_fs w) (w_fs w')) w) as Hk.
  { assert (forall w1, pruned (removable s retention (times w) (w_fs w1)) (w_fs w) (w_fs w1) -> logs_kept s (w_fs w) (w_fs w1)) as Hp.
    { intros w1. apply logs_kept_pruned. intros k d c t now Hk Hq Hnow. apply Hsp; [by apply (proj1 (Forall_forall _ _) Ht)|].
      apply (Hst (log_file s k d) c t); [by exists k, d|done]. }
    apply wp_janitor_cycle; [apply (sg_sound _ _ _ Hs)|auto|auto]. }
  unfold wp in Hk. destruct (run_janitor_cycle s retention w) as [r w1]. cbn [fst snd] in *.
  destruct r as [|[]]; intros [= <- <-]; by eapply (logging_kept _ _ _ sv).
Qed.

Lemma writer_turn_logging s fs0 P k sv w sv' w' :
  logging s fs0 P sv w -> writer_turn k sv w = (sv', w') -> logging s fs0 P sv' w'.
Proof using UL CL SL.
  intros Hl Hrun. pose proof (writer_turn_serving _ _ _ _ _ _ (lg_serving _ _ _ _ _ Hl) Hrun) as Hs'. revert Hrun.
  destruct Hl as [Hs Hst Hr Ht Hsp Hln]. unfold writer_turn. destruct (lwp_inner (sv_writers sv) !! k) as [c|] eqn:Ec; [|by intros [= <- <-]].
  destruct (sv_tasks sv !! k) as [st|] eqn:Et; [|by intros [= <- <-]]. destruct (ch_queue c) as [|line rest] eqn:Eq; [by intros [= <- <-]|].
  cbn [lwp_storage]. rewrite (sg_pool _ _ _ Hs). destruct (sg_tasks _ _ _ Hs k st Et) as [Hk Ho]. pose proof (stamped_faults _ _ _ Hst) as Hf.
  pose proof (writer_step_stamped s k st line w Hst) as Hst'.
  destruct (writer_step_run s k st line w Hk Hf Hr (Ht k st Et) Ho) as (st' & w1 & Hrun & Hf' & Hr' & Hok' & Ho' & Hw' & Hap).
  rewrite Hrun in Hst' |- *. intros [= <- <-]. cbn [snd] in Hst'.
  split; [done|done|done| | |]; cbn [sv_writers sv_tasks lwp_inner].
  - intros k' st2. destruct (decide (k = k')) as [<-|Hne]; [rewrite lookup_insert_eq; by intros [= <-]|].
    rewrite lookup_insert_ne by done. intros Hk2. eapply writer_ok_appends; [exact Hap|by apply Ht].
  - intros k' c'. destruct (decide (k = k')) as [<-|Hne]; [rewrite !lookup_insert_eq; by eauto|]. rewrite !lookup_insert_ne by done. apply Hsp.
  - intros k' Hk'. unfold received_by. cbn [lwp_inner]. destruct (decide (k = k')) as [<-|Hne].
    + rewrite lookup_insert_eq. unfold drain. cbn [ch_received]. rewrite Eq. eapply written_trans; [|exact Hw'].
      specialize (Hln k Hk). unfold received_by in Hln. by rewrite Ec in Hln.
    + rewrite lookup_insert_ne by done. fold (received_by (sv_writers sv) k'). rewrite <- (app_nil_r (received_by _ k')).
      eapply written_trans; [by apply Hln|]. apply (frame_written s k); [done|apply Hap|done|done].
Qed.

(** ** The run *)

(** The passage of time without failures, within [P]. *)
Definition calm_event (P : Z -> Prop) (e : Event) : Prop :=
  match e with Elapses now clock faults => faults = [] /\ Forall P (now :: clock) | _ => True end.

Lemma step_logging s fs0 P retention sv w e sv' w' :
  spares retention P -> calm_event P e -> logging s fs0 P sv w -> server_step retention (sv, w) e = (sv', w') -> logging s fs0 P sv' w'.
Proof using UL CL SL JL ML HL AXL TWL.
  intros Hsp He Hl Hstep. destruct e as [rq t|elapsed|k|now clock faults].
  - cbn [server_step] in Hstep. destruct (handle rq t sv w) as [reply [sv1 w1]] eqn:E. injection Hstep as <- <-. by eapply handle_logging.
  - by eapply tick_logging.
  - by eapply writer_turn_logging.
  - pose proof (step_serving _ _ _ _ _ _ _ (lg_serving _ _ _ _ _ Hl) Hstep) as Hs'. cbn [server_step] in Hstep.
    injection Hstep as <- <-. destruct He as [-> Ht]. by eapply (logging_kept _ _ _ sv w).
Qed.

Lemma steps_logging s fs0 P retention events : spares retention P -> forall sv w sv' w',
  Forall (calm_event P) events -> logging s fs0 P sv w -> foldl (server_step retention) (sv, w) events = (sv', w') -> logging s fs0 P sv' w'.
Proof using UL CL SL JL ML HL AXL TWL.
  intros Hsp. induction events as [|e events IH]; intros sv w sv' w' He Hl; cbn [foldl]; [by intros [= <- <-]|].
  apply Forall_cons in He as [He Hes]. destruct (server_step retention (sv, w) e) as [sv1 w1] eqn:E.
  apply IH; [done|]. by eapply step_logging.
Qed.

(** ** The shutdown *)

(** Joining one writer of the map. *)
Definition finish_one (sv : Server) (k : SourceKey) : IO StorageError unit :=
  match lwp_inner (sv_writers sv) !! k, sv_tasks sv !! k with
  | Some c, Some st => finish_writer (lwp_storage (sv_writers sv)) k st c
  | _, _ => io_ret tt
  end.

Lemma finish_writers_cons k order sv w :
  finish_writers (k :: order) sv w = (finish_one sv k;;! finish_writers order sv) w.
Proof.
  change (finish_writers (k :: order) sv) with (io_bind (finish_one sv k) (fun u => io_fold (fun _ k => finish_one sv k) u order)).
  unfold io_bind. by destruct (finish_one sv k w) as [[[]|e] w1].
Qed.

Lemma finish_one_run s sv k w : lwp_storage (sv_writers sv) = s -> w_faults w = [] -> all_ready s (w_fs w) ->
  (forall st, sv_tasks sv !! k = Some st -> SourceKey_valid k /\ owns s k st /\ writer_ok s k (w_fs w) st) ->
  (is_Some (lwp_inner (sv_writers sv) !! k) -> is_Some (sv_tasks sv !! k)) ->
  exists w1, finish_one sv k w = (Ok tt, w1) /\
    w_faults w1 = [] /\ all_ready s (w_fs w1) /\
    (forall k' st, writer_ok s k' (w_fs w) st -> writer_ok s k' (w_fs w1) st) /\
    forall k', SourceKey_valid k' -> written s k' (if decide (k' = k) then queued_for (sv_writers sv) k else []) (w_fs w) (w_fs w1).
Proof using CL.
  intros Hp Hf Hr Ht Hsp. unfold finish_one. rewrite Hp. unfold queued_for. destruct (lwp_inner (sv_writers sv) !! k) as [c|] eqn:Ec.
  2: { exists w. split_and!; [done|done|done|done|]. intros k' _. by case_decide; apply written_nil. }
  destruct (Hsp ltac:(done)) as [st Est]. rewrite Est. destruct (Ht st Est) as (Hkv & Ho & Hok).
  destruct (finish_writer_run s k st c w Hkv Hf Hr Hok Ho) as (w1 & Hrun & Hf1 & Hr1 & Hw1 & Hap). exists w1.
  split_and!; [done|done|done|by intros; eapply writer_ok_appends|]. intros k' Hk'. case_decide as Hd; [by subst k'|].
  apply (frame_written s k); [done|apply Hap|done|done].
Qed.

Lemma finish_writers_run s sv order : lwp_storage (sv_writers sv) = s -> forall w,
  NoDup order -> w_faults w = [] -> all_ready s (w_fs w) ->
  (forall k st, sv_tasks sv !! k = Some st -> SourceKey_valid k /\ owns s k st /\ writer_ok s k (w_fs w) st) ->
  (forall k, is_Some (lwp_inner (sv_writers sv) !! k) -> is_Some (sv_tasks sv !! k)) ->
  exists w', finish_writers order sv w = (Ok tt, w') /\
    forall k, SourceKey_valid k -> written s k (if decide (k ∈ order) then queued_for (sv_writers sv) k else []) (w_fs w) (w_fs w').
Proof using CL.
  intros Hp. induction order as [|k order IH]; intros w Hnd Hf Hr Ht Hsp.
  { exists w. split; [done|]. intros k Hk. rewrite decide_False by apply not_elem_of_nil. by apply written_nil. }
  apply NoDup_cons in Hnd as [Hk Hnd].
  destruct (finish_one_run s sv k w Hp Hf Hr (Ht k) (Hsp k)) as (w1 & Hone & Hf1 & Hr1 & Hok1 & Hw1).
  destruct (IH w1 Hnd Hf1 Hr1) as (w2 & Hrun & Hw2); [|done|].
  { intros k' st Hk'. destruct (Ht k' st Hk') as (? & ? & ?). split_and!; [done|done|by apply Hok1]. }
  exists w2. split; [rewrite finish_writers_cons; unfold io_bind; by rewrite Hone|].
  intros k' Hk'. specialize (Hw1 k' Hk'). specialize (Hw2 k' Hk').
  pose proof (written_trans _ _ _ _ _ _ _ Hw1 Hw2) as Hw. clear Hw1 Hw2. destruct (decide (k' = k)) as [->|Hne].
  - rewrite (decide_False (P := k ∈ order)), app_nil_r in Hw by done. by rewrite decide_True by (by left).
  - cbn [Datatypes.app] in Hw. destruct (decide (k' ∈ order)); [by rewrite decide_True by (by right)|].
    rewrite decide_False; [done|]. by intros [?|?]%elem_of_cons.
Qed.

(** From any moment of a calm run, the shutdown leaves everything the server took
    in on disk. *)
Lemma logging_finish s fs0 P sv w order :
  logging s fs0 P sv w -> order ≡ₚ (map_to_list (lwp_inner (sv_writers sv))).*1 ->
  exists w', finish_writers order sv w = (Ok tt, w') /\
    forall k, SourceKey_valid k -> written s k (server_stream sv k) fs0 (w_fs w').
Proof using CL.
  intros [Hs Hst Hr Ht Hsp Hl] Hord. destruct (finish_writers_run s sv order (sg_pool _ _ _ Hs) w) as (w' & Hrun & Hw).
  - rewrite Hord. apply NoDup_fst_map_to_list.
  - apply Hst.
  - done.
  - intros k st Hk. destruct (sg_tasks _ _ _ Hs k st Hk). by split_and!; [..|apply Ht].
  - intros k [c Hc]. by eapply Hsp.
  - exists w'. split; [done|]. intros k Hk. unfold server_stream. rewrite stream_received.
    eapply written_trans; [by apply Hl|]. specialize (Hw k Hk). case_decide as Hin; [done|].
    enough (queued_for (sv_writers sv) k = []) as -> by done. unfold queued_for.
    destruct (lwp_inner (sv_writers sv) !! k) as [c|] eqn:E; [|done]. exfalso. apply Hin. rewrite Hord.
    apply list_elem_of_fmap. exists (k, c). split; [done|]. by apply elem_of_map_to_list.
Qed.

(** ** Startup *)

Lemma create_dir_no_file (fs0 : gmap Path Node) p :
  Keeps (fun w => forall q, is_file fs0 q = false -> is_file (w_fs w) q = false) (create_dir_all p).
Proof.
  intros w Hw. apply (wp_create_dir_all p (fun _ w' => forall q, is_file fs0 q = false -> is_file (w_fs w') q = false)).
  intros r w' _ Ho _ _ q Hq. eapply only_no_file; [exact Ho|by intros []|]. by apply Hw.
Qed.

Lemma prepare_logs s P w w1 : w_faults w = [] -> Forall P (times w) -> prepare s w = (Ok tt, w1) ->
  w_faults w1 = [] /\ Forall P (times w1) /\ logs_kept s (w_fs w) (w_fs w1).
Proof.
  intros Hf Ht Hrun. pose proof (prepare_calm (w_fs w) P s w ltac:(by split)) as Hc. rewrite Hrun in Hc. destruct Hc as [Hf1 Ht1 Ha].
  split_and!; [done|done|]. apply logs_kept_area; [exact Ha|]. intros q _.
  pose proof (create_dir_no_file (w_fs w)) as Hd.
  assert (Keeps (fun w1 => forall q, is_file (w_fs w) q = false -> is_file (w_fs w1) q = false) (prepare s)) as Hk by (unfold prepare; apply _).
  specialize (Hk w (fun q H => H) q). by rewrite Hrun in Hk.
Qed.

Lemma app_logging config P w w1 :
  let s := StoragePaths_new (cf_data_dir config) in
  (0 <= cf_max_dump_bytes config < 2 ^ 63)%Z -> sound s (w_fs w) -> all_ready s (w_fs w) -> stamped (is_log s) P w ->
  prepare s w = (Ok tt, w1) -> logging s (w_fs w) P (app config) w1.
Proof using UL CL SL.
  intros s Hmax Hs Hr Hst Hrun. pose proof (prepare_sound s w Hs) as Hs1. rewrite Hrun in Hs1.
  destruct (prepare_logs s P w w1 (stamped_faults _ _ _ Hst) (stamped_times _ _ _ Hst) Hrun) as (Hf1 & Ht1 & Hk). split.
  - by apply app_serving.
  - by eapply stamped_kept.
  - by apply Hk.
  - intros k st Hks. cbn in Hks. by rewrite lookup_empty in Hks.
  - intros k c Hkc. cbn in Hkc. by rewrite lookup_empty in Hkc.
  - intros k Hv. eapply written_kept; [done|done|]. unfold received_by. cbn. rewrite lookup_empty. by apply written_nil.
Qed.

(** ** What the requests of a run bring in *)

(** The reply of each event that is a request. *)
Fixpoint server_replies (retention : RetentionConfig) (sw : Server * World) (events : list Event) : list (option Reply) :=
  match events with
  | [] => []
  | e :: events =>
      match e with Arrives rq t => Some (handle rq t sw.1 sw.2).1 | _ => None end
      :: server_replies retention (server_step retention sw e) events
  end.

(** The lines of [k] an event brings in: of an export a part of the message, all
    of it when it is acknowledged; of anything else nothing. *)
Definition takes_in (k : SourceKey) (e : Event) (reply : option Reply) (ls : list Value) : Prop :=
  match e with
  | Arrives rq _ =>
      (ls = [] /\ (hq_path rq = EXPORT_PATH -> is_ok (tower_inbound BODY_LIMIT rq) = true -> reply <> Some (GrpcReply (Ok tt)))) \/
      exists rq' m, hq_path rq = EXPORT_PATH /\ tower_inbound BODY_LIMIT rq = Ok rq' /\ grpc_decode rq' = Ok m /\
        ls `prefix_of` message_lines k m /\ (reply = Some (GrpcReply (Ok tt)) -> ls = message_lines k m)
  | _ => ls = []
  end.

Lemma handle_takes_in k rq t sv w reply sv' w' : handle rq t sv w = (reply, (sv', w')) ->
  exists ls, takes_in k (Arrives rq t) (Some reply) ls /\ server_stream sv' k = server_stream sv k ++ ls.
Proof using AXL TWL.
  assert (forall sv' reply, server_stream sv' k = server_stream sv k ->
    (hq_path rq = EXPORT_PATH -> is_ok (tower_inbound BODY_LIMIT rq) = true -> reply <> GrpcReply (Ok tt)) ->
    exists ls, takes_in k (Arrives rq t) (Some reply) ls /\ server_stream sv' k = server_stream sv k ++ ls) as Hnone.
  { intros sv1 r1 Hs Hr. exists []. split; [|by rewrite app_nil_r]. left. split; [done|]. intros H1 H2 [= ->]. by apply Hr. }
  unfold handle. destruct (tower_inbound BODY_LIMIT rq) as [rq'|reply0] eqn:Et; [|intros [= <- <- _]; by apply Hnone].
  pose proof Et as Et0. apply tower_inbound_head in Et0 as (_ & Hp & _). rewrite <- Hp in Hnone.
  destruct (auth_middleware _ _ _ _) as [[r|resp] m]; [|intros [= <- <- _]; by apply Hnone].
  unfold dispatch. destruct (axum_route _ _ _ _) as [[h|]|] eqn:Er; [|intros [= <- <- _]; by apply Hnone|].
  - assert (hq_path rq' <> EXPORT_PATH) as Hne.
    { apply axum_route_sound in Er as (m' & Hin & _). intros Heq. rewrite Heq in Hin. unfold http_routes in Hin.
      rewrite !elem_of_cons, elem_of_nil in Hin. by destruct Hin as [[=]|[[=]|[[=]|[]]]]. }
    destruct h; [|intros [= <- <- _]; by apply Hnone..]. unfold serve_crash.
    destruct (req_token r) as [ctx|]; [|intros [= <- <- _]; by apply Hnone].
    destruct (crashes_handler _ _ _ _ _) as [res sw]. intros [= <- <- _]. by apply Hnone.
  - destruct (String.eqb_spec (hq_path rq') EXPORT_PATH) as [He|He]; [|intros [= <- <- _]; by apply Hnone].
    destruct (grpc_decode rq') as [msg|e] eqn:Ed.
    + intros Hrun. eapply (serve_export_stream _ _ _ _ _ _ _ _ _ k) in Hrun as (ls & Hls & Hst & Ho); [|done].
      exists ls. split; [right|done]. exists rq', msg. rewrite <- Hp. split_and!; [done|done|done|done|]. intros [= ->]. auto.
    + rewrite (serve_export_undecoded _ _ _ _ _ e) by done. intros [= <- <- _]. by apply Hnone.
Qed.

Lemma step_takes_in k retention sv w e : exists ls,
  takes_in k e (match e with Arrives rq t => Some (handle rq t sv w).1 | _ => None end) ls /\
  server_stream (server_step retention (sv, w) e).1 k = server_stream sv k ++ ls.
Proof using AXL TWL.
  destruct e as [rq t|elapsed|k'|now clock faults]; cbn [server_step].
  - destruct (handle rq t sv w) as [reply [sv' w']] eqn:E. by apply (handle_takes_in k) in E.
  - exists []. rewrite app_nil_r. destruct (sv_janitor sv); [|done]. by destruct (janitor_tick _ _ _ _ _) as [[]].
  - exists []. rewrite app_nil_r. split; [done|]. apply writer_turn_stream.
  - exists []. by rewrite app_nil_r.
Qed.

Lemma steps_take_in k retention events : forall sw, exists lines,
  Forall3 (takes_in k) events (server_replies retention sw events) lines /\
  server_stream (foldl (server_step retention) sw events).1 k = server_stream sw.1 k ++ concat lines.
Proof using AXL TWL.
  induction events as [|e events IH]; intros [sv w].
  { exists []. cbn. rewrite app_nil_r. by split; [constructor|]. }
  destruct (step_takes_in k retention sv w e) as (ls & Hls & Hst). destruct (IH (server_step retention (sv, w) e)) as (lines & Hl & Hs).
  exists (ls :: lines). cbn [server_replies foldl concat fst snd]. split; [by constructor|]. by rewrite Hs, Hst, app_assoc.
Qed.
End ServerLogs.

(** ** Claims *)

(** The run lasts less than the retention of logs. *)
Definition within (from to t : Z) : Prop := (from <= t < to)%Z.

Lemma within_spares retention from to :
  (0 < logs_ttl_days retention)%Z -> (logs_ttl_days retention * 24 * 60 * 60 < 2 ^ 64)%Z ->
  (to - from <= logs_ttl_days retention * 24 * 60 * 60 * NANOS)%Z -> spares retention (within from to).
Proof.
  unfold spares, within, expired, wrap_u64. intros H0 H1 H2 now t [Hn1 Hn2] [Ht1 Ht2].
  rewrite Z.mod_small by lia. apply orb_false_iff. split; [lia|]. apply Z.leb_gt. lia.
Qed.

Section Claims.
Context {U : UuidApi} {UL : UuidLaws U} {C : ChronoApi} {CL : ChronoLaws C}
  {S : Sha256Api} {SL : Sha256Laws S} {J : JsonText} {JL : JsonTextLaws J}
  {M : MulterApi} {ML : MulterLaws M} {HT : HttpApi} {HL : HttpLaws HT}
  {V : JsonSchemaApi} {A2 : Argon2Api} {OS : Os}
  {AX : AxumApi} {AXL : AxumLaws AX} {TW : TowerApi} {TWL : TowerLaws TW}
  {TS : TonicServerApi} {PR : PrometheusApi}.

(** C14. The server loses and repeats no log line: in a run of
    [serve_with_shutdown] that starts with its directories prepared, serves any
    requests, retention ticks and turns of the writers in any order, one after the
    other, and shuts down, joining the writers in any order, when no file operation fails and the
    run is shorter than the retention of logs, every source's daily log files
    grow by exactly the lines the export requests brought in for that source, in
    the order of the requests: all lines of an acknowledged request, the first
    ones of any other, each line once, in the file of a day it was written on. *)
Theorem served_logs_on_disk config from to events order w w1 sv w2 :
  let s := StoragePaths_new (cf_data_dir config) in
  let retention := cf_retention config in
  (0 <= cf_max_dump_bytes config < 2 ^ 63)%Z -> (0 < logs_ttl_days retention)%Z -> (logs_ttl_days retention * 24 * 60 * 60 < 2 ^ 64)%Z ->
  (to - from <= logs_ttl_days retention * 24 * 60 * 60 * NANOS)%Z ->
  sound s (w_fs w) -> all_ready s (w_fs w) -> stamped (is_log s) (within from to) w -> Forall (calm_event (within from to)) events ->
  prepare s w = (Ok tt, w1) -> foldl (server_step retention) (app config, w1) events = (sv, w2) ->
  order ≡ₚ (map_to_list (lwp_inner (sv_writers sv))).*1 ->
  exists w', serve_with_shutdown config (Ok tt) (Ok tt) events (Ok tt) order w = (Ok tt, w') /\
    forall k, SourceKey_valid k -> exists lines,
      Forall3 (takes_in k) events (server_replies retention (app config, w1) events) lines /\
      written s k (concat lines) (w_fs w) (w_fs w').
Proof using UL CL SL JL ML HL AXL TWL.
  intros s retention Hmax H0 H1 Hlen Hs Hr Hst He Hprep Hrun Hord.
  pose proof (app_logging config (within from to) w w1 Hmax Hs Hr Hst Hprep) as Hl.
  apply (steps_logging s (w_fs w) (within from to) retention events (within_spares retention from to H0 H1 Hlen) _ _ _ _ He Hl) in Hrun as Hl2.
  destruct (logging_finish s (w_fs w) _ sv w2 order Hl2 Hord) as (w' & Hfin & Hw). exists w'. split.
  - unfold serve_with_shutdown. fold s retention. unfold io_bind, io_map_err at 1. rewrite Hprep. cbn [io_lift map_err]. unfold io_lift.
    rewrite Hrun. unfold io_map_err. by rewrite Hfin.
  - intros k Hk. destruct (steps_take_in k retention events (app config, w1)) as (lines & Htk & Hstr). exists lines. split; [done|].
    rewrite Hrun in Hstr. cbn [fst] in Hstr. specialize (Hw k Hk). rewrite Hstr in Hw. exact Hw.
Qed.
End Claims.

(** ** A concrete run: an upload, an export, a turn of its writer, a tick *)

Definition started := prepare sample_storage empty_world.
Definition served := foldl (server_step (J := ToyJson) RetentionConfig_default) (app server_config, started.2) sample_events.
Definition writer_order : list SourceKey := (map_to_list (lwp_inner (sv_writers served.1))).*1.

Lemma empty_all_ready : all_ready sample_storage (w_fs empty_world).
Proof. intros k Hk. split; [intros q _; unfold is_file|intros d]; cbn; by rewrite lookup_empty. Qed.

Lemma empty_stamped : stamped (is_log sample_storage) (within 0 10) empty_world.
Proof. split; [done|repeat constructor; cbn; lia|]. intros q c t _. cbn. by rewrite lookup_empty. Qed.

Lemma started_ok : prepare sample_storage empty_world = (Ok tt, started.2).
Proof.
  assert (started.1 = Ok tt) as H by (vm_compute; reflexivity). destruct started as [r w1] eqn:E. cbn [fst snd] in *. by subst r.
Qed.

(** The export is acknowledged, its writer takes the first line while the server
    runs and the second at the shutdown. *)
Lemma served_logs_on_disk_witness :
  (server_replies (J := ToyJson) RetentionConfig_default (app server_config, started.2) sample_events) !! 1%nat
    = Some (Some (GrpcReply (Ok tt))) /\
  (received_by (sv_writers served.1) sample_source, queued_for (sv_writers served.1) sample_source)
    = ([log_record_json sample_record], [log_record_json sample_record]) /\
  exists w', serve_with_shutdown (J := ToyJson) server_config (Ok tt) (Ok tt) sample_events (Ok tt) writer_order empty_world = (Ok tt, w') /\
    forall k, SourceKey_valid k -> exists lines,
      Forall3 (takes_in k) sample_events (server_replies (J := ToyJson) RetentionConfig_default (app server_config, started.2) sample_events) lines /\
      written (J := ToyJson) sample_storage k (concat lines) (w_fs empty_world) (w_fs w').
Proof.
  split; [vm_compute; reflexivity|]. split; [vm_compute; reflexivity|].
  apply (served_logs_on_disk (J := ToyJson) server_config 0 10 sample_events writer_order empty_world started.2 served.1 served.2).
  - cbn. lia.
  - reflexivity.
  - reflexivity.
  - discriminate.
  - apply empty_sound.
  - exact empty_all_ready.
  - exact empty_stamped.
  - repeat constructor.
  - exact started_ok.
  - unfold served. exact (surjective_pairing _).
  - reflexivity.
Defined.
