(* ===== verification/Daemon.v ===== *)
(** * detritus-server/src/main.rs: the detritusd binary

    The parsed command line is a record; what the process reads of its
    environment (standard input, the current directory, the listener) is an
    argument.  Argon2's hashing, with its random salt, is a parameter. *)

From Stdlib Require Import Ascii.
From S2P Require Import Prelude RustStd Fs External Instances Json Protocol Metrics Schemas Storage F64 RateLimit Auth State Crashes Janitor Otlp Logs Server.

(** argon2: hashing a password with a salt drawn from the system. *)
Class Argon2Hash (A : Argon2Api) := { hash_password : nat -> bytes -> Result string string }.

Class Argon2HashLaws (A : Argon2Api) (H : Argon2Hash A) := {
  hash_password_verifies : forall salt b h, hash_password salt b = Ok h ->
    exists ph, password_hash_new h = Ok ph /\ verify_password b ph = true
}.

Inductive Command := HashToken.
Inductive LogFormat := Json | Pretty.

Record Cli := {
  cli_command : option Command;
  cli_bind : string;
  cli_data_dir : Path;
  cli_log_format : LogFormat;
  cli_max_dump_bytes : Z;
  cli_tokens_config : option Path;
  cli_logs_ttl_days : Z;
  cli_crashes_ttl_days : Z;
  cli_janitor_interval_secs : Z
}.

(** The defaults of the options. *)
Definition Cli_default : Cli :=
  {| cli_command := None; cli_bind := "127.0.0.1:4317"; cli_data_dir := path_of_string "./data/";
     cli_log_format := Pretty; cli_max_dump_bytes := 100 * 1024 * 1024; cli_tokens_config := None;
     cli_logs_ttl_days := 14; cli_crashes_ttl_days := 90; cli_janitor_interval_secs := 60 * 60 |}.

Inductive MainError :=
| MainIo (e : io_error)
| MainText (message : string)
| MainHash (e : string)
| MainAuth (e : AuthConfigError)
| MainServer (e : ServerError).

(** [Path::is_absolute] *)
Definition path_is_absolute (p : Path) : bool := match p with "/" :: _ => true | _ => false end.

Definition absolute_path (current_dir : Result Path io_error) (p : Path) : Result Path io_error :=
  if path_is_absolute p then Ok p else let? d := current_dir in Ok (join_path d p).

Definition line_end (c : ascii) : bool := Ascii.eqb c (ascii_of_nat 13) || Ascii.eqb c (ascii_of_nat 10).

Fixpoint drop_while {A : Type} (f : A -> bool) (l : list A) : list A :=
  match l with [] => [] | x :: r => if f x then drop_while f r else l end.

(** [trim_end_matches(['\r', '\n'])] *)
Definition trim_line_end (s : string) : string :=
  of_bytes (reverse (drop_while line_end (reverse (as_bytes s)))).

Section Daemon.
Context {U : UuidApi} {C : ChronoApi} {S : Sha256Api} {J : JsonText} {M : MulterApi} {HT : HttpApi}
  {V : JsonSchemaApi} {A2 : Argon2Api} {AH : Argon2Hash A2} {TM : TomlApi} {OS : Os}
  {AX : AxumApi} {TW : TowerApi} {TS : TonicServerApi} {PR : PrometheusApi}.

(** The [hash-token] command: the line it prints. *)
Definition hash_token (input : Result string io_error) (salt : nat) : Result string MainError :=
  let? line := map_err MainIo input in
  let token := trim_line_end line in
  if String.eqb token "" then Err (MainText "bearer token must not be empty")
  else map_err MainHash (hash_password salt (as_bytes token)).

(** The server's configuration, from the command line and the security file. *)
Definition config_of (cli : Cli) (data_dir : Path) (security : SecurityConfig) : ServerConfig :=
  {| cf_bind := cli_bind cli; cf_data_dir := data_dir; cf_max_dump_bytes := cli_max_dump_bytes cli;
     cf_token_store := sec_token_store security; cf_rate_limit := sec_rate_limit security;
     cf_schema_registry := sec_schema_registry security;
     cf_retention := {| logs_ttl_days := cli_logs_ttl_days cli; crashes_ttl_days := cli_crashes_ttl_days cli;
                        janitor_interval := cli_janitor_interval_secs cli * 1000000000 |} |}.

Definition start (cli : Cli) (current_dir : Result Path io_error) : IO MainError ServerConfig :=
  let! data_dir := io_lift (map_err MainIo (absolute_path current_dir (cli_data_dir cli))) in
  let! given := io_lift (ok_or (cli_tokens_config cli) (MainText "--tokens-config is required")) in
  let! tokens_config := io_lift (map_err MainIo (absolute_path current_dir given)) in
  let! security := io_map_err MainAuth (load_security_config tokens_config) in
  io_ret (config_of cli data_dir security).

(** What the process is given while it runs. *)
Record Surroundings := {
  su_input : Result string io_error;
  su_salt : nat;
  su_current_dir : Result Path io_error;
  su_bound : Result unit io_error;
  su_registered : Result unit string;
  su_addr : Result unit io_error;
  su_sigterm : Result unit io_error;
  su_happens : list (Event + Signal);
  su_served : Result unit io_error;
  su_order : list SourceKey
}.

(** [main]: the printed hash, or a run of the server. *)
Definition main (cli : Cli) (su : Surroundings) : IO MainError (option string) :=
  match cli_command cli with
  | Some HashToken => let! printed := io_lift (hash_token (su_input su) (su_salt su)) in io_ret (Some printed)
  | None =>
      let! config := start cli (su_current_dir su) in
      io_map_err MainServer (serve config (su_bound su) (su_registered su) (su_addr su) (su_sigterm su)
                               (su_happens su) (su_served su) (su_order su));;!
      io_ret None
  end.

(** ** Hashed tokens *)

Lemma drop_while_all (f : ascii -> bool) l r : forallb f l = true -> drop_while f (l ++ r) = drop_while f r.
Proof. induction l as [|x l IH]; cbn; [done|]. destruct (f x); [auto|done]. Qed.

Lemma drop_while_none (f : ascii -> bool) l : forallb (fun c => negb (f c)) l = true -> drop_while f l = l.
Proof. destruct l as [|x l]; cbn; [done|]. by destruct (f x). Qed.

Lemma forallb_reverse {A} (f : A -> bool) l : forallb f (reverse l) = forallb f l.
Proof.
  induction l as [|x l IH]; [done|]. rewrite reverse_cons, forallb_app, IH. cbn. rewrite andb_true_r. apply andb_comm.
Qed.

Lemma visible_no_line_end c : byte_in 32 126 c = true -> negb (line_end c) = true.
Proof.
  intros Hc. unfold line_end. destruct (Ascii.eqb_spec c (ascii_of_nat 13)) as [->|_]; [discriminate Hc|].
  by destruct (Ascii.eqb_spec c (ascii_of_nat 10)) as [->|_]; [discriminate Hc|].
Qed.

Lemma trim_line_end_token token ending :
  forallb (byte_in 32 126) (as_bytes token) = true -> forallb line_end (as_bytes ending) = true ->
  trim_line_end (token +:+ ending) = token.
Proof.
  intros Ht He. unfold trim_line_end. rewrite as_bytes_app, reverse_app, drop_while_all by (by rewrite forallb_reverse).
  rewrite drop_while_none, reverse_involutive; [apply of_as_bytes|]. rewrite forallb_reverse.
  revert Ht. rewrite !forallb_forall. intros Ht c Hc. by apply visible_no_line_end, Ht.
Qed.

Context {HL : HttpLaws HT} {AHL : Argon2HashLaws A2 AH}.

(** C22. What [detritusd hash-token] prints admits the token that was typed: for
    a token of visible ASCII text, however the line ended, the printed hash is
    accepted as the secret of a configuration entry, and the server configured
    with it lets every request that presents the token pass, under that entry's
    identity.  An empty line is refused. *)
Theorem hash_token_admits token ending salt h id project prefix m path elapsed :
  token <> "" -> forallb (byte_in 32 126) (as_bytes token) = true -> forallb line_end (as_bytes ending) = true ->
  ~ open_path path -> hash_token (Ok (token +:+ ending)) salt = Ok h ->
  (exists e, hash_token (Ok ending) salt = Err (MainText e)) /\
  exists store ctx,
    from_entries [{| te_id := id; te_secret := h; te_project := project; te_source_prefix := prefix |}] = Ok store /\
    tc_id ctx = id /\ tc_project ctx = project /\ tc_source_prefix ctx = prefix /\
    let raw := as_bytes ("Bearer " +:+ token) in
    auth_middleware store m {| req_path := path; req_authorization := Some raw; req_token := None |} elapsed =
      (Forward {| req_path := path; req_authorization := Some raw; req_token := Some ctx |}, m).
Proof using HL AHL.
  intros Hne Hvis Hend Hopen. unfold hash_token at 1. cbn [map_err]. rewrite trim_line_end_token by done.
  destruct (String.eqb_spec token "") as [|_]; [done|]. intros Hh%map_err_Ok. split.
  { unfold hash_token. cbn [map_err]. pose proof (trim_line_end_token "" ending eq_refl Hend) as He.
    change ("" +:+ ending) with ending in He. rewrite He. cbn. by eexists. }
  destruct (hash_password_verifies _ _ _ Hh) as (ph & Hph & Hv).
  set (ctx := {| tc_id := id; tc_project := project; tc_source_prefix := prefix; tc_secret_hash := h |}).
  exists {| ts_tokens := [ctx] |}, ctx. split_and!; [|done|done|done|].
  { unfold from_entries. cbn [try_map]. unfold entry_to_context. cbn [te_secret]. by rewrite Hph. }
  unfold auth_middleware. cbn [req_path req_authorization].
  destruct (String.eqb_spec path "/healthz") as [->|_]; [exfalso; apply Hopen; by left|].
  destruct (String.eqb_spec path "/metrics") as [->|_]; [exfalso; apply Hopen; by right|]. cbn [orb].
  rewrite header_to_str_visible by (rewrite as_bytes_app, forallb_app, Hvis; reflexivity).
  rewrite of_as_bytes, (proj2 (strip_prefix_Some "Bearer " _ token)) by done.
  unfold authenticate. cbn [find ts_tokens]. unfold verify at 1. cbn [tc_secret_hash ctx]. by rewrite Hph, Hv.
Qed.
End Daemon.

(** ** A concrete hash *)

#[export] Instance ToyArgon2Hash : Argon2Hash ToyArgon2 := { hash_password _ b := Ok ("$" +:+ of_bytes b) }.

#[export] Instance ToyArgon2HashLaws : Argon2HashLaws ToyArgon2 ToyArgon2Hash.
Proof.
  split. intros salt b h [= <-]. exists ("$" +:+ of_bytes b). split; [done|]. cbn. by destruct b; apply String.eqb_eq.
Qed.

Lemma hash_token_admits_witness :
  let nl := of_bytes [ascii_of_nat 13; ascii_of_nat 10] in
  hash_token (Ok ("pw" +:+ nl)) 0 = Ok "$pw" /\
  exists store ctx,
    from_entries [{| te_id := "t"; te_secret := "$pw"; te_project := "app"; te_source_prefix := "app/" |}] = Ok store /\
    (auth_middleware store Metrics_new
       {| req_path := "/v1/crashes"; req_authorization := Some (as_bytes "Bearer pw"); req_token := None |} 0).1 =
    Forward {| req_path := "/v1/crashes"; req_authorization := Some (as_bytes "Bearer pw"); req_token := Some ctx |}.
Proof.
  intros nl. split; [vm_compute; reflexivity|].
  destruct (hash_token_admits "pw" nl 0 "$pw" "t" "app" "app/" Metrics_new "/v1/crashes" 0) as (_ & store & ctx & H1 & _ & _ & _ & H2).
  - discriminate.
  - reflexivity.
  - reflexivity.
  - intros [H|H]; discriminate H.
  - vm_compute. reflexivity.
  - exists store, ctx. split; [exact H1|]. exact (f_equal fst H2).
Defined.
