(* ===== verification/ClientRoot.v ===== *)
(** * detritus-client/src/lib.rs: the process-wide crypto provider

    Rustls keeps the provider of a process; it is a parameter, with what its
    documentation says of installing one. *)

From S2P Require Import Prelude.

(** rustls: the provider of the process, and installing one, which gives the
    provider back when there is one already. *)
Class RustlsApi := {
  Provider : Type;
  Rustls : Type;
  aws_lc_rs_default : Provider;
  get_default : Rustls -> option Provider;
  install_default : Provider -> Rustls -> Result unit Provider * Rustls
}.

Class RustlsLaws (R : RustlsApi) := {
  install_first : forall p st, get_default st = None ->
    (install_default p st).1 = Ok tt /\ get_default (install_default p st).2 = Some p;
  install_again : forall p q st, get_default st = Some q ->
    (install_default p st).1 = Err p /\ get_default (install_default p st).2 = Some q
}.

Section ClientRoot.
Context {R : RustlsApi} {RL : RustlsLaws R}.

(** The process: whether the [Once] has run, and rustls. *)
Record Process := { pr_once : bool; pr_rustls : Rustls }.

Definition install_default_crypto_provider (p : Process) : Process :=
  if pr_once p then p
  else {| pr_once := true; pr_rustls := (install_default aws_lc_rs_default (pr_rustls p)).2 |}.

(** Calls of the function, and other code installing providers of its own. *)
Inductive Install := Ours | Other (q : Provider).

Definition install_step (p : Process) (i : Install) : Process :=
  match i with
  | Ours => install_default_crypto_provider p
  | Other q => {| pr_once := pr_once p; pr_rustls := (install_default q (pr_rustls p)).2 |}
  end.

Lemma installs_keep l : forall p q, get_default (pr_rustls p) = Some q ->
  get_default (pr_rustls (foldl install_step p l)) = Some q.
Proof using RL.
  induction l as [|i l IH]; intros p q Hq; [done|]. cbn [foldl]. apply IH.
  destruct i as [|r]; cbn [install_step pr_rustls]; [unfold install_default_crypto_provider; destruct (pr_once p); [done|]|];
    by apply install_again.
Qed.

(** After the first call a provider is installed for good, whoever else installs
    one before, between or after; it is aws-lc-rs unless another was there, and
    calling again changes nothing. *)
Theorem provider_installed_once p before after :
  pr_once p = false ->
  let first := install_default_crypto_provider (foldl install_step p before) in
  Ours ∉ before ->
  exists q, get_default (pr_rustls (foldl install_step first after)) = Some q /\
    (get_default (pr_rustls (foldl install_step p before)) = None -> q = aws_lc_rs_default) /\
    (forall q', get_default (pr_rustls (foldl install_step p before)) = Some q' -> q = q') /\
    install_default_crypto_provider first = first.
Proof using RL.
  intros Hp first Hb. assert (pr_once (foldl install_step p before) = false) as Ho.
  { unfold first in *. clear first. revert p Hp. induction before as [|i l IH]; intros p Hp; [done|]. cbn [foldl].
    rewrite not_elem_of_cons in Hb. destruct Hb as [Hi Hb]. apply IH; [done|]. by destruct i. }
  assert (first = {| pr_once := true;
    pr_rustls := (install_default aws_lc_rs_default (pr_rustls (foldl install_step p before))).2 |}) as ->.
  { unfold first, install_default_crypto_provider. by rewrite Ho. }
  destruct (get_default (pr_rustls (foldl install_step p before))) as [q|] eqn:E.
  - exists q. split_and!; [|done|by intros q' [= <-]|done]. apply installs_keep. by apply install_again.
  - exists aws_lc_rs_default. split_and!; [|done|done|done]. apply installs_keep. by apply install_first.
Qed.
End ClientRoot.

(** ** A process *)

#[export] Instance ToyRustls : RustlsApi := {
  Provider := string; Rustls := option string; aws_lc_rs_default := "aws-lc-rs"; get_default st := st;
  install_default p st := match st with None => (Ok tt, Some p) | Some q => (Err p, Some q) end
}.

#[export] Instance ToyRustlsLaws : RustlsLaws ToyRustls.
Proof. split; [by intros p [q|]|by intros p q [q'|] [= ->]]. Qed.

Definition fresh_process : Process := {| pr_once := false; pr_rustls := (None : @Rustls ToyRustls) |}.

Lemma provider_installed_once_witness :
  exists q, get_default (pr_rustls (foldl install_step (install_default_crypto_provider fresh_process)
    [Other ("ring" : @Provider ToyRustls); Ours])) = Some q /\ q = "aws-lc-rs".
Proof.
  destruct (provider_installed_once fresh_process [] [Other ("ring" : @Provider ToyRustls); Ours]) as (q & Hq & Hn & _);
    [done|by apply not_elem_of_nil|]. exists q. split; [exact Hq|by apply Hn].
Defined.
