(* ===== verification/Network.v ===== *)
(** * The shipper's peer: the running server behind a network

    [Link] is a server, its world and a script of the network: for each request
    of the client what happens at the server first, and whether the request
    arrives, in which frames, and whether the answer comes back.  It is an HTTP
    peer of the shipper. *)

From Stdlib Require Import Ascii.
From S2P Require Import Prelude RustStd Fs FsDir External Instances Json Protocol Rfc7578 Multipart Metrics Schemas Storage F64 RateLimit Auth State Crashes CrashStore CrashIngest CrashProgress Janitor Retention Refs System Otlp Logs LogQueue LogWriter LogPipeline Compression Spool PanicHook Shipper ShipSafety EndToEnd Server ServerSafety.

(** A body in frames of the given sizes and a last one. *)
Fixpoint cut (sizes : list nat) (b : bytes) : list bytes :=
  match sizes with
  | [] => [b]
  | n :: sizes => take n b :: cut sizes (drop n b)
  end.

Lemma concat_cut sizes b : concat (cut sizes b) = b.
Proof.
  revert b. induction sizes as [|n sizes IH]; intros b; cbn [cut concat]; [apply app_nil_r|].
  by rewrite IH, take_drop.
Qed.

(** What the network does with a request; an answer arrives as the chunks of its
    body, or is lost.  A request that breaks off on its way is [Unreached] for the
    client, with an arrival of its first frames and an error among the events. *)
Inductive Fate :=
| Unreached (e : string)
| Reached (sizes : list nat) (t : Timing) (answer : Result (list (Result bytes string)) string).

(** [tr_events] happen at the server before the request. *)
Record Transit := { tr_events : list Event; tr_fate : Fate }.

(** The status line of a reply; gRPC's is always 200. *)
Definition reply_status (r : Reply) : Z :=
  match r with
  | EmptyReply status | JsonReply status _ | TextReply status _ _ => status
  | GrpcReply _ => 200
  end.

Section Network.
Context {U : UuidApi} {C : ChronoApi} {S : Sha256Api} {J : JsonText} {M : MulterApi} {HT : HttpApi}
  {V : JsonSchemaApi} {A2 : Argon2Api} {OS : Os}
  {AX : AxumApi} {TW : TowerApi} {TS : TonicServerApi} {PR : PrometheusApi} {UR : UrlApi}.

Record Link := {
  lk_server : Server;
  lk_world : World;
  lk_retention : RetentionConfig;
  lk_script : list Transit
}.

Definition lk_after (l : Link) (sw : Server * World) (script : list Transit) : Link :=
  {| lk_server := sw.1; lk_world := sw.2; lk_retention := lk_retention l; lk_script := script |}.

(** The client's request as the server receives it. *)
Definition http_request (rq : HttpPost) (sizes : list nat) : HttpRequest :=
  {| hq_method := POST; hq_path := url_path (hp_url rq); hq_authorization := Some (hp_authorization rq);
     hq_content_type := Some (as_bytes (hp_content_type rq)); hq_content_encoding := None;
     hq_version := None; hq_body := Ok <$> cut sizes (hp_body rq) |}.

Definition link_send (rq : HttpPost) (l : Link) : HttpOutcome * Link :=
  match lk_script l with
  | [] => (SendError "unreachable", l)
  | t :: script =>
      let sw := foldl (server_step (lk_retention l)) (lk_server l, lk_world l) (tr_events t) in
      match tr_fate t with
      | Unreached e => (SendError e, lk_after l sw script)
      | Reached sizes timing answer =>
          let (reply, sw) := handle (http_request rq sizes) timing sw.1 sw.2 in
          (match answer with
           | Ok chunks => Responded (reply_status reply) chunks
           | Err e => SendError e
           end, lk_after l sw script)
      end
  end.

#[export] Instance ServerPeer : HttpPeer Link := { http_send := link_send }.
End Network.

(** ** The log of the exchanges is what the peer did *)

Section Replay.
Context {UR : UrlApi} {N : Type} {HP : HttpPeer N}.

Fixpoint replay (rqs : list HttpPost) (p : N) : list (HttpPost * HttpOutcome) * N :=
  match rqs with
  | [] => ([], p)
  | rq :: rqs => let (o, p) := http_send rq p in let (log, p) := replay rqs p in ((rq, o) :: log, p)
  end.

Lemma replay_snoc rqs rq : forall p, replay (rqs ++ [rq]) p =
  let (log, p) := replay rqs p in let (o, p) := http_send rq p in (log ++ [(rq, o)], p).
Proof.
  induction rqs as [|x rqs IH]; intros p; cbn [Datatypes.app replay].
  { destruct (http_send rq p). reflexivity. }
  destruct (http_send x p) as [o p1]. rewrite IH. destruct (replay rqs p1) as [log p2]. by destruct (http_send rq p2).
Qed.

Lemma replay_requests rqs : forall p, (replay rqs p).1.*1 = rqs.
Proof.
  induction rqs as [|rq rqs IH]; intros p; [done|]. cbn [replay]. destruct (http_send rq p) as [o p1].
  specialize (IH p1). destruct (replay rqs p1) as [log p2]. cbn [fst] in *. by rewrite fmap_cons, IH.
Qed.

(** Since [n0] the peer has answered some requests, and they are in the log. *)
Definition traced (n0 : Net) (wn : World * Net) : Prop :=
  exists rqs, replay rqs (net_peer n0) = (drop (length (net_log n0)) (net_log wn.2), net_peer wn.2) /\
    net_log n0 `prefix_of` net_log wn.2.

Lemma traced_init n0 w : traced n0 (w, n0).
Proof. exists []. cbn [snd]. by rewrite drop_all. Qed.

#[export] Instance ship_io_traced {E A} (m : IO E A) n0 : Keeps (traced n0) (@ship_io UR N E A m).
Proof. intros [w n] H. unfold ship_io. cbn [fst snd]. by destruct (m w). Qed.

#[export] Instance send_traced {E} rq n0 : Keeps (traced n0) (@send UR N HP E rq).
Proof.
  intros [w n] (rqs & Hr & [log Hp]). unfold send. cbn [fst snd] in *. destruct (http_send rq (net_peer n)) as [o p] eqn:E1.
  exists (rqs ++ [rq]). rewrite replay_snoc, Hr, E1. cbn [snd net_log net_peer]. rewrite Hp, <- app_assoc, !drop_app_length.
  split; [done|]. by apply prefix_app_r.
Qed.
End Replay.

#[export] Instance keeps_outcome {W E A} (I : W -> Prop) (o : HttpOutcome) (m1 : string -> ST W E A)
    (m2 : Z -> list (Result bytes string) -> ST W E A) :
  (forall e, Keeps I (m1 e)) -> (forall status chunks, Keeps I (m2 status chunks)) ->
  Keeps I (match o with SendError e => m1 e | Responded status chunks => m2 status chunks end).
Proof. by destruct o. Qed.

#[export] Instance ship_traced {U : UuidApi} {C : ChronoApi} {J : JsonText} {UR : UrlApi} {ZS : ZstdApi} {HA : HeaderApi}
    {OS : Os} {N : Type} {HP : HttpPeer N} dir endpoint token config n0 :
  Keeps (traced n0) (ship_pending_with_client dir endpoint token config).
Proof. unfold ship_pending_with_client, ship_one, post_envelope; cbv zeta. apply _. Qed.
