(* ===== verification/EndToEndShip.v ===== *)
(** * From the client's spool to the server's store

    A run of the shipper against the running server: whatever fails on either
    side and whatever the network loses, the crashes the client moves to [sent/]
    are in the server's store. *)

From Stdlib Require Import Ascii.
From S2P Require Import Prelude RustStd Fs FsDir External Instances Json Protocol Rfc7578 Multipart Metrics Schemas Storage F64 RateLimit Auth State Crashes CrashStore CrashIngest CrashProgress CrashParallel Janitor Retention Refs System Otlp Logs LogQueue LogWriter LogPipeline Compression Spool PanicHook Shipper ClientInstances ShipSafety EndToEnd Server ServerSafety Network.

Section Retains.
Context {U : UuidApi} {UL : UuidLaws U} {C : ChronoApi} {CL : ChronoLaws C} {S : Sha256Api} {SL : Sha256Laws S}
  {J : JsonText} {JL : JsonTextLaws J} {M : MulterApi} {ML : MulterLaws M} {HT : HttpApi} {HL : HttpLaws HT}
  {V : JsonSchemaApi} {A2 : Argon2Api} {OS : Os}
  {AX : AxumApi} {AXL : AxumLaws AX} {TW : TowerApi} {TWL : TowerLaws TW} {TS : TonicServerApi} {PR : PrometheusApi}.

(** What an index path is made of, apart from the dump's hash. *)
Definition crash_name (m : CrashMetadata U C) : string * string * string :=
  (src_project (md_source m), uuid_to_string (src_install_id (md_source m)), stamp (timestamp m)).

Definition key_of (m : CrashMetadata U C) : Result SourceKey StorageError :=
  SourceKey_new (src_project (md_source m)) (uuid_to_string (src_install_id (md_source m))).

(** The indexes of the crashes named in [P]. *)
Definition crash_index (s : StoragePaths) (P : string * string * string -> Prop) (q : Path) : Prop :=
  exists m k b, key_of m = Ok k /\ P (crash_name m) /\ q = index_path s k (stamp (timestamp m)) (sha256_hex b).

(** No blob and no index of a crash in [P] is lost or changed. *)
Definition retains (s : StoragePaths) (P : string * string * string -> Prop) (fs fs' : gmap Path Node) : Prop :=
  forall q n, is_blob s q \/ crash_index s P q -> fs !! q = Some n -> fs' !! q = Some n.

#[export] Instance retains_preorder s P : PreOrder (retains s P).
Proof. split; [by intros fs q n|]. intros f g h H1 H2 q n Hq Hn. by apply H2, H1. Qed.

Lemma crash_index_components s P q : crash_index s P q -> exists r, q = data_dir s ++ "crashes" :: "by-source" :: r.
Proof using CL SL.
  intros (m & k & b & [_ Hk]%SourceKey_new_Ok & _ & ->). rewrite index_path_components by done. by eexists.
Qed.

Lemma evolves_retains s P m k fs fs' :
  key_of m = Ok k -> ~ P (crash_name m) -> evolves s (own_index s m k) fs fs' -> retains s P fs fs'.
Proof using UL CL SL.
  intros Hk HP (HO & HB & _) q n [Hq|Hq] Hn; [by apply HB|]. destruct (crash_index_components _ _ _ Hq) as [r Hr].
  destruct (HO q) as [[[u Hu]|[Hb|[b Hb]]]|[Hs|[Hnone _]]]; [| | |congruence|congruence]; exfalso.
  - rewrite temp_path_components, Hr in Hu. by apply app_inv_head in Hu.
  - apply is_blob_components in Hb as (p & h & Hb). rewrite Hr in Hb. by apply app_inv_head in Hb.
  - destruct Hq as (m' & k' & b' & Hk' & HP' & ->). apply SourceKey_new_Ok in Hk as [-> Hv], Hk' as [-> Hv'].
    apply index_path_injective in Hb as ([= Hp Hi] & Hst & _); [|done|done]. apply HP.
    unfold crash_name. by rewrite <- Hp, <- Hi, <- Hst.
Qed.

Lemma recorded_retains s (P : string * string * string -> Prop) max m k parts now resp fs fs' :
  retains s P fs fs' -> key_of m = Ok k -> P (crash_name m) ->
  recorded s max fs m k parts now resp -> recorded s max fs' m k parts now resp.
Proof.
  intros HR Hk HP (part & dump & atts & Hf & Hing & Hidx & Hresp). exists part, dump, atts. split_and!; [done| |.. |done].
  - eapply ingested_kept; [|exact Hing]. intros q n Hq. apply HR. by left.
  - apply HR; [|done]. right. by eexists m, k, _.
Qed.

(** ** Requests *)

(** The metadata a crash request carries. *)
Definition carries_metadata (rq : CrashRequest) (m : CrashMetadata U C) (rest : list (Result Field string)) : Prop :=
  exists fields, request_fields rq = Ok fields /\ first_part fields = Ok (m, rest).

Lemma crashes_handler_spec st token rq now elapsed w r st' w' :
  (0 <= max_dump_bytes st < 2 ^ 63)%Z -> store_ok (storage st) (w_fs w) ->
  crashes_handler token rq now elapsed (st, w) = (r, (st', w')) ->
  (w' = w /\ exists e, r = Err e) \/
  exists m rest k, carries_metadata rq m rest /\ key_of m = Ok k /\
    evolves (storage st) (own_index (storage st) m k) (w_fs w) (w_fs w') /\
    forall status resp, r = Ok (status, resp) -> exists fields parts, rest = Ok <$> fields /\
      Forall2 (fun f p => part_of f = Some p) fields parts /\
      recorded (storage st) (max_dump_bytes st) (w_fs w') m k parts (w_now w) resp.
Proof using UL CL SL ML.
  intros Hmax Hok. set (Q := fun (r : Result (Z * CrashResponse) CrashError) (sw : AppState * World) =>
    (sw.2 = w /\ exists e, r = Err e) \/
    exists m rest k, carries_metadata rq m rest /\ key_of m = Ok k /\
      evolves (storage st) (own_index (storage st) m k) (w_fs w) (w_fs sw.2) /\
      forall status resp, r = Ok (status, resp) -> exists fields parts, rest = Ok <$> fields /\
        Forall2 (fun f p => part_of f = Some p) fields parts /\
        recorded (storage st) (max_dump_bytes st) (w_fs sw.2) m k parts (w_now w) resp).
  apply (wp_run (crashes_handler token rq now elapsed) Q).
  apply wp_bind, wp_try, wp_crashes_inner; [done|apply request_fits_multer|done| | |].
  - intros e st1 _ _. apply wp_bind, wp_modify_metrics. intros st2 _ _ _. apply wp_lift. left. split; [done|by eexists].
  - intros m rest k e st1 w1 (Hf & _ & Hk & _) _ _ _ Hev _. apply wp_bind, wp_modify_metrics. intros st2 _ _ _.
    apply wp_lift. right. by exists m, rest, k.
  - intros m rest k fields parts resp st1 w1 (Hf & _ & Hk & _) Hrest Hparts _ _ Hev _ Hrec.
    apply wp_bind, wp_modify_metrics. intros st2 _ _ _. apply wp_lift. right. exists m, rest, k.
    split_and!; [done|done|done|]. intros status resp0 [= <- <-]. by exists fields, parts.
Qed.

(** Events at the server that concern none of the crashes in [P]: anything but
    a retention cycle or an upload of a crash with such a name. *)
Definition foreign (P : string * string * string -> Prop) (e : Event) : Prop :=
  match e with
  | Arrives rq t => forall rq' m rest, tower_inbound BODY_LIMIT rq = Ok rq' -> hq_path rq = "/v1/crashes" ->
      carries_metadata {| rq_content_type := hq_content_type rq'; rq_body := hq_body rq' |} m rest -> ~ P (crash_name m)
  | Ticks _ => False
  | _ => True
  end.

(** The server between two steps, with its limit. *)
Definition serves (s : StoragePaths) (max : Z) (sv : Server) (w : World) : Prop :=
  serving s sv w /\ max_dump_bytes (sv_app sv) = max.

Lemma handle_retains s max P rq t sv w reply sv' w' :
  serves s max sv w -> foreign P (Arrives rq t) -> handle rq t sv w = (reply, (sv', w')) ->
  serves s max sv' w' /\ retains s P (w_fs w) (w_fs w').
Proof using UL CL SL JL ML HL AXL TWL.
  intros [Hs Hmax] Hf Hrun. pose proof (handle_serving _ _ _ _ _ _ _ _ Hs Hrun) as Hs'.
  apply handle_cases in Hrun as (m & [[-> ->]|(ctx & rq' & [_ Htw] & Hcase)]); [done|].
  pose proof (sg_max _ _ _ Hs) as Hrange. pose proof (sound_store _ _ (sg_sound _ _ _ Hs)) as Hok.
  rewrite <- (sg_storage _ _ _ Hs) in *. destruct Hcase as [(_ & Hp & Hrun)|(_ & Hrun)].
  - pose proof Hrun as Hrun2. apply serve_crash_effects in Hrun as (_ & _ & _ & (_ & Hc & _) & _); [|done|done].
    split; [split; [done|by etransitivity]|]. unfold serve_crash in Hrun2.
    destruct (crashes_handler _ _ _ _ _) as [r [st1 w1]] eqn:E. injection Hrun2 as _ _ <-.
    apply crashes_handler_spec in E as [[-> _]|(md & rest & k & Hm & Hk & Hev & _)]; [done| |done|done].
    eapply evolves_retains; [exact Hk| |exact Hev]. by eapply Hf.
  - apply serve_export_effects in Hrun as (_ & (_ & Hc & _) & -> & _). split; [split; [done|by etransitivity]|done].
Qed.

Lemma writer_turn_retains s max P k sv w sv' w' :
  serves s max sv w -> writer_turn k sv w = (sv', w') -> serves s max sv' w' /\ retains s P (w_fs w) (w_fs w').
Proof using UL CL SL.
  intros [Hs Hmax] Hrun. pose proof (writer_turn_serving _ _ _ _ _ _ Hs Hrun) as Hs'. revert Hrun. unfold writer_turn.
  destruct (lwp_inner (sv_writers sv) !! k) as [c|] eqn:Ec; [|by intros [= <- <-]].
  destruct (sv_tasks sv !! k) as [st|] eqn:Et; [|by intros [= <- <-]].
  destruct (ch_queue c) as [|line rest] eqn:Eq; [by intros [= <- <-]|].
  cbn [lwp_storage]. rewrite (sg_pool _ _ _ Hs). destruct (sg_tasks _ _ _ Hs k st Et) as [Hk Ho].
  pose proof (Appends_writer_step s k Hk st line Ho w) as Ha. unfold wp in Ha.
  destruct (writer_step s k st line w) as [r w1] eqn:E. cbn [snd] in Ha. destruct Ha as [Ha _]. intros [= <- <-].
  split; [done|]. intros q n Hq Hn. enough (exists x, q = data_dir s ++ "crashes" :: x) as [x ->].
  { by rewrite (appends_crashes s k (w_fs w)). }
  destruct Hq as [(p & h & ->)%is_blob_components|[x ->]%crash_index_components]; by eexists.
Qed.

Lemma step_retains s max P retention sv w e sv' w' :
  serves s max sv w -> foreign P e -> server_step retention (sv, w) e = (sv', w') ->
  serves s max sv' w' /\ retains s P (w_fs w) (w_fs w').
Proof using UL CL SL JL ML HL AXL TWL.
  intros Hs Hf. destruct e as [rq t|elapsed|k|now clock faults]; cbn [server_step]; [|done| |].
  - destruct (handle rq t sv w) as [reply [sv1 w1]] eqn:E. intros [= <- <-]. by eapply handle_retains.
  - by apply writer_turn_retains.
  - intros [= <- <-]. split; [|done]. destruct Hs as [[] ?]. by split.
Qed.

Lemma steps_retains s max P retention events : forall sv w, serves s max sv w -> Forall (foreign P) events ->
  let sw := foldl (server_step retention) (sv, w) events in
  serves s max sw.1 sw.2 /\ retains s P (w_fs w) (w_fs sw.2).
Proof using UL CL SL JL ML HL AXL TWL.
  induction events as [|e events IH]; intros sv w Hs Hf; cbn [foldl]; [done|].
  apply Forall_cons in Hf as [He Hf]. destruct (server_step retention (sv, w) e) as [sv1 w1] eqn:E.
  destruct (step_retains _ _ _ _ _ _ _ _ _ Hs He E) as [Hs1 H1]. destruct (IH sv1 w1 Hs1 Hf) as [Hs2 H2].
  split; [done|]. by etransitivity.
Qed.

(** ** An accepted upload *)

Lemma status_code_fails e : is_success (status_code e) = false.
Proof. by destruct e as [| | | | | | | | | |[|]| |]. Qed.

Lemma auth_reject_status store m r e resp m' : auth_middleware store m r e = (Reject resp, m') -> resp_status resp = 401%Z.
Proof.
  unfold auth_middleware. destruct (_ || _)%bool; [done|].
  destruct (req_authorization r) as [raw|]; [|by intros [= <- _]]. destruct (header_to_str raw) as [v|]; [|by intros [= <- _]].
  destruct (strip_prefix "Bearer " v) as [tok|]; [|by intros [= <- _]].
  destruct (authenticate store tok); [done|by intros [= <- _]].
Qed.

(** A successful answer to a plain upload comes from the crash handler. *)
Lemma handle_accepted rq t sv w reply sv' w' :
  hq_method rq = POST -> hq_path rq = "/v1/crashes" -> hq_content_encoding rq = None ->
  (body_len (hq_body rq) <= BODY_LIMIT)%Z -> handle rq t sv w = (reply, (sv', w')) ->
  is_success (reply_status reply) = true ->
  exists ctx m status resp st', crashes_handler ctx {| rq_content_type := hq_content_type rq; rq_body := hq_body rq |}
    (tm_instant t 0) (tm_elapsed t) (sv_app (with_only_metrics sv m), w) = (Ok (status, resp), (st', w')).
Proof using AXL TWL.
  intros Hm Hp He Hl. unfold handle. rewrite tower_inbound_plain by done.
  destruct (auth_middleware _ _ _ _) as [[r|resp] m] eqn:Ea.
  2: { apply auth_reject_status in Ea. intros [= <- _ _]. cbn [reply_status]. by rewrite Ea. }
  apply auth_forward in Ea. cbn [req_path] in Ea. rewrite Hp in Ea.
  destruct Ea as [[[Ho|Ho] _]|(_ & raw & tok & ctx & _ & _ & _ & ->)]; [done|done|].
  unfold dispatch. rewrite Hm, Hp, (axum_route_found _ http_routes "/v1/crashes" POST CrashesHandler);
    [|apply (bool_decide_unpack _); vm_compute; exact I|left]. fold (with_only_metrics sv m).
  unfold serve_crash. destruct (crashes_handler _ _ _ _ _) as [[[status rs]|e] [st1 w1]] eqn:E.
  - intros [= <- _ <-] _. by exists ctx, m, status, rs, st1.
  - intros [= <- _ <-]. cbn [reply_status CrashError_into_response resp_status]. by rewrite status_code_fails.
Qed.
End Retains.

Section ShipToServer.
Context {U : UuidApi} {UL : UuidLaws U} {C : ChronoApi} {CL : ChronoLaws C} {S : Sha256Api} {SL : Sha256Laws S}
  {J : JsonText} {JL : JsonTextLaws J} {M : MulterApi} {ML : MulterLaws M} {MR : MulterRfc M}
  {HT : HttpApi} {HL : HttpLaws HT} {V : JsonSchemaApi} {A2 : Argon2Api} {OS : Os}
  {AX : AxumApi} {AXL : AxumLaws AX} {TW : TowerApi} {TWL : TowerLaws TW} {TS : TonicServerApi} {PR : PrometheusApi}
  {UR : UrlApi} {ZS : ZstdApi} {ZL : ZstdLaws ZS} {HA : HeaderApi}.

(** The crash [e] is in the store: its index, and parts that decode to it. *)
Definition stored (s : StoragePaths) (max : Z) (fs : gmap Path Node) (e : CrashEnvelope U C) : Prop :=
  exists k parts now resp, key_of (ce_metadata e) = Ok k /\
    recorded s max fs (ce_metadata e) k parts now resp /\ decodes_to e parts.

Definition name_of (e : CrashEnvelope U C) : string * string * string := crash_name (ce_metadata e).

Lemma stored_retains s max (P : string * string * string -> Prop) fs fs' e :
  retains s P fs fs' -> P (name_of e) -> stored s max fs e -> stored s max fs' e.
Proof.
  intros HR HP (k & parts & now & resp & Hk & Hrec & Hdec). exists k, parts, now, resp.
  split_and!; [done|by eapply recorded_retains|done].
Qed.

(** An envelope the client can upload to this server, whose limits are [max] for
    a part and [BODY_LIMIT] for the whole. *)
Definition shippable (max : Z) (endpoint : Url) (token : string) (config : ShipConfig) (e : CrashEnvelope U C) : Prop :=
  uploadable max config e /\
  forall rq, upload_of endpoint token config e rq -> (len_u64 (hp_body rq) <= BODY_LIMIT)%Z.

Lemma body_len_cut sizes b : body_len (Ok <$> cut sizes b) = len_u64 b.
Proof.
  unfold body_len. assert (forall l : list bytes, omap result_ok (Ok (E := string) <$> l) = l) as ->.
  { induction l as [|x l IH]; [done|]. cbn. by f_equal. }
  by rewrite concat_cut.
Qed.

Section Peer.
Context (s : StoragePaths) (max : Z) (endpoint : Url) (token : string) (config : ShipConfig)
  (P : string * string * string -> Prop).
Context (Hurl : url_path (crash_url endpoint) = "/v1/crashes") (Hmax : (0 <= max < 2 ^ 63)%Z).

Definition link_ok (l : Link) : Prop :=
  serves s max (lk_server l) (lk_world l) /\ Forall (fun t => Forall (foreign P) (tr_events t)) (lk_script l).

(** A request of the client that uploads [e]. *)
Definition ships (e : CrashEnvelope U C) (rq : HttpPost) : Prop :=
  upload_of endpoint token config e rq /\ shippable max endpoint token config e.

Lemma ships_carries e rq sizes : ships e rq ->
  exists fields parts, carries_metadata (arriving rq (cut sizes (hp_body rq))) (ce_metadata e) (Ok <$> fields) /\
    well_formed max fields parts /\ decodes_to e parts.
Proof using UL CL JL MR HL ZL Hmax.
  intros [Hup [Hupl Hbody]]. specialize (Hbody rq Hup).
  destruct (upload_well_formed endpoint token config e rq (cut sizes (hp_body rq)) max) as (mf & fields & parts & H1 & _ & H2 & H3 & H4);
    [done|done|done|apply concat_cut|rewrite concat_cut; unfold BODY_LIMIT in Hbody; lia|].
  exists fields, parts. split_and!; [by exists (Ok <$> mf :: fields)|done|done].
Qed.

Lemma carries_metadata_unique rq (m m' : CrashMetadata U C) rest rest' :
  carries_metadata rq m rest -> carries_metadata rq m' rest' -> m = m' /\ rest = rest'.
Proof. intros (f & H1 & H2) (f' & H1' & H2'). rewrite H1 in H1'. injection H1' as <-. rewrite H2 in H2'. by injection H2'. Qed.

(** One request of the client: the crashes it does not name stay, and if it is
    accepted its crash is stored. *)
Lemma link_send_step e rq l o l' :
  link_ok l -> ships e rq -> link_send rq l = (o, l') ->
  link_ok l' /\
  (forall Q : string * string * string -> Prop, (forall n, Q n -> P n) -> ~ Q (name_of e) ->
     retains s Q (w_fs (lk_world l)) (w_fs (lk_world l'))) /\
  (accepted o -> stored s max (w_fs (lk_world l')) e).
Proof using UL CL SL JL ML MR HL AXL TWL ZL Hurl Hmax.
  intros [Hs Hscript] Hsh. unfold link_send. destruct (lk_script l) as [|t script] eqn:Esc.
  { intros [= <- <-]. split; [by split; [|rewrite Esc; apply Forall_nil_2]|]. split; [done|]. by intros (st & ch & [=] & _). }
  apply Forall_cons in Hscript as [Hev Hscript].
  destruct (steps_retains s max P (lk_retention l) (tr_events t) _ _ Hs Hev) as [Hs1 H1].
  assert (forall Q : string * string * string -> Prop, (forall n, Q n -> P n) ->
    retains s Q (w_fs (lk_world l)) (w_fs (foldl (server_step (lk_retention l)) (lk_server l, lk_world l) (tr_events t)).2)) as HQ1.
  { intros Q HQ q n Hq. apply H1. destruct Hq as [?|(m & k & b & Hk & HQm & ->)]; [by left|]. right.
    exists m, k, b. split_and!; [done|by apply HQ|done]. }
  destruct (foldl _ _ _) as [sv1 w1]. cbn [fst snd] in *.
  destruct (tr_fate t) as [x|sizes timing answer].
  { intros [= <- <-]. split; [by split|]. split; [auto|]. by intros (st & ch & [=] & _). }
  destruct (handle _ timing sv1 w1) as [reply [sv2 w2]] eqn:E. intros [= <- <-]. cbn [lk_after lk_world lk_server lk_script fst snd].
  destruct (ships_carries e rq sizes Hsh) as (fields & parts & Hcm & (Hparts & _) & Hdec).
  assert (forall Q : string * string * string -> Prop, ~ Q (name_of e) -> serves s max sv2 w2 /\ retains s Q (w_fs w1) (w_fs w2)) as Hreq.
  { intros Q HQ. eapply handle_retains; [exact Hs1| |exact E]. intros rq' m rest Htw _ Hm.
    rewrite tower_inbound_plain in Htw; [|done|].
    - injection Htw as <-. by destruct (carries_metadata_unique _ _ _ _ _ Hcm Hm) as [<- _].
    - unfold http_request. cbn [hq_body]. rewrite body_len_cut. destruct Hsh as [Hup [_ Hb]]. by apply Hb. }
  destruct (Hreq (fun _ => False) (fun H => H)) as [Hs2 _]. split; [done|].
  split; [intros Q HQ HQe; transitivity (w_fs w1); [by apply HQ1|by apply Hreq]|].
  intros (status & chunks & Ho & Hok). destruct answer as [ch|x]; [|done]. injection Ho as <- _.
  apply handle_accepted in E as (ctx & m & status & resp & st' & E).
  - apply crashes_handler_spec in E as [[_ [x [=]]]|(md & rest & k & Hm & Hk & _ & Hrec)].
    + destruct (Hrec status resp eq_refl) as (fl & ps & -> & Hps & Hr).
      destruct (carries_metadata_unique _ _ _ _ _ Hcm Hm) as [<- Hf]. apply list_fmap_eq_inj in Hf as <-; [|by intros ? ? [= ->]].
      rewrite (parts_unique _ _ _ Hps Hparts) in Hr. destruct Hs1 as [Hs1 Hm1].
      exists k, parts, (w_now w1), resp. split_and!; [done| |done].
      rewrite <- (sg_storage _ _ _ Hs1), <- Hm1. exact Hr.
    + cbn. destruct Hs1 as [_ ->]. lia.
    + cbn. destruct Hs1 as [Hs1 _]. rewrite (sg_storage _ _ _ Hs1). apply (sound_store _ _ (sg_sound _ _ _ Hs1)).
  - done.
  - cbn. destruct Hsh as [(-> & _) _]. exact Hurl.
  - done.
  - cbn. rewrite body_len_cut. destruct Hsh as [Hup [_ Hb]]. by apply Hb.
  - done.
Qed.

(** All requests of a run: at the end every accepted one's crash is stored. *)
Lemma replay_stored es rqs : forall l log l',
  link_ok l -> NoDup (name_of <$> es) -> Forall (fun e => P (name_of e)) es -> Forall2 ships es rqs ->
  replay rqs l = (log, l') ->
  link_ok l' /\
  (forall Q : string * string * string -> Prop, (forall n, Q n -> P n) -> Forall (fun e => ~ Q (name_of e)) es ->
     retains s Q (w_fs (lk_world l)) (w_fs (lk_world l'))) /\
  Forall2 (fun e x => accepted x.2 -> stored s max (w_fs (lk_world l')) e) es log.
Proof using UL CL SL JL ML MR HL AXL TWL ZL Hurl Hmax.
  revert rqs. induction es as [|e es IH]; intros rqs l log l' Hl Hnd HP Hsh Hrun.
  { apply Forall2_nil_inv_l in Hsh as ->. injection Hrun as <- <-. split_and!; [done|done|by apply Forall2_nil]. }
  apply Forall2_cons_inv_l in Hsh as (rq & rqs' & Hrq & Hsh & ->). cbn [replay http_send ServerPeer] in Hrun.
  destruct (link_send rq l) as [o l1] eqn:E1. destruct (replay rqs' l1) as [log1 l2] eqn:E2. injection Hrun as <- <-.
  rewrite fmap_cons, NoDup_cons in Hnd. destruct Hnd as [Hnew Hnd]. apply Forall_cons in HP as [HPe HP].
  destruct (link_send_step e rq l o l1 Hl Hrq E1) as (Hl1 & Hr1 & Hst1).
  destruct (IH _ _ _ _ Hl1 Hnd HP Hsh E2) as (Hl2 & Hr2 & Hst2). split; [done|]. split.
  - intros Q HQ HQn. apply Forall_cons in HQn as [HQe HQn]. transitivity (w_fs (lk_world l1)); auto.
  - apply Forall2_cons. split; [|done]. intros Ha. apply (stored_retains _ _ (fun n => n = name_of e) (w_fs (lk_world l1))); [|done|auto].
    apply Hr2; [by intros n ->|]. apply Forall_forall. intros e' He' Hn. apply Hnew. rewrite <- Hn. by apply list_elem_of_fmap_2.
Qed.
End Peer.

(** ** The run *)

(** The files of the pending entry hold the crash [e]. *)
Definition spooled_crash (dir : Path) (fs : gmap Path Node) (entry : Path) (e : CrashEnvelope U C) : Prop :=
  pending_in dir fs entry /\ exists fs1, (forall rel, fs1 !! (entry ++ rel) = fs !! (entry ++ rel)) /\ envelope_at fs1 entry e.

Definition spooled_name (dir : Path) (fs : gmap Path Node) (n : string * string * string) : Prop :=
  exists entry e, spooled_crash dir fs entry e /\ name_of e = n.

(** The crashes of different entries differ in source or time stamp, and each can
    be uploaded. *)
Definition spool_shippable (dir : Path) (fs : gmap Path Node) (max : Z) (endpoint : Url) (token : string)
    (config : ShipConfig) : Prop :=
  (forall entry e, spooled_crash dir fs entry e -> shippable max endpoint token config e) /\
  (forall entry entry' e e', spooled_crash dir fs entry e -> spooled_crash dir fs entry' e' ->
     name_of e = name_of e' -> entry = entry').

(** The uploads of distinct entries are uploads of crashes with distinct names. *)
Lemma uploads_named dir fs max endpoint token config entries rqs :
  spool_shippable dir fs max endpoint token config -> NoDup entries ->
  Forall2 (fun entry rq => pending_in dir fs entry /\ uploaded fs token config endpoint entry rq) entries rqs ->
  exists es, Forall2 (spooled_crash dir fs) entries es /\ Forall2 (ships max endpoint token config) es rqs /\
    NoDup (name_of <$> es).
Proof.
  intros [Hok Hinj]. revert rqs. induction entries as [|entry entries IH]; intros rqs Hnd HF.
  { apply Forall2_nil_inv_l in HF as ->. exists []. split_and!; [by apply Forall2_nil|by apply Forall2_nil|apply NoDup_nil_2]. }
  apply Forall2_cons_inv_l in HF as (rq & rqs' & (Hp & e & fs1 & Hsame & Hat & Hup) & HF & ->).
  apply NoDup_cons in Hnd as [Hnew Hnd]. destruct (IH rqs' Hnd HF) as (es & Hes & Hsh & Hndn).
  assert (spooled_crash dir fs entry e) as He by (split; [done|by exists fs1]).
  exists (e :: es). split_and!; [by apply Forall2_cons|apply Forall2_cons; split; [split; [done|by eapply Hok]|done]|].
  rewrite fmap_cons. apply NoDup_cons. split; [|done]. intros (e' & Hn & Hin)%list_elem_of_fmap. apply Hnew.
  apply list_elem_of_lookup in Hin as [i Hi]. destruct (Forall2_lookup_r _ _ _ _ _ Hes Hi) as (entry' & Hi' & He').
  rewrite (Hinj _ _ _ _ He He' Hn). by eapply list_elem_of_lookup_2.
Qed.

(** The requests of a run are uploads of distinct entries. *)
Lemma all_uploads dir fs endpoint token config (done : list Path) posts extra :
  NoDup done -> (forall e, e ∈ done -> pending_in dir fs e) ->
  attempt (fun rq => exists e, pending_in dir fs e /\ ~ e ∈ done /\ uploaded fs token config endpoint e rq) extra ->
  Forall2 (delivered (uploaded fs token config endpoint)) done posts ->
  exists more, NoDup (done ++ more) /\
    Forall2 (fun entry x => pending_in dir fs entry /\ uploaded fs token config endpoint entry x.1) (done ++ more) (posts ++ extra).
Proof.
  intros Hnd Hpend Hatt HD.
  assert (Forall2 (fun entry x => pending_in dir fs entry /\ uploaded fs token config endpoint entry x.1) done posts) as HF.
  { apply Forall2_same_length_lookup. split; [by eapply Forall2_length|]. intros i entry x Hi Hx.
    destruct (Forall2_lookup_lr _ _ _ _ _ _ HD Hi Hx) as [Hup _]. split; [by eapply Hpend, list_elem_of_lookup_2|done]. }
  destruct Hatt as [->|(x & -> & entry & Hp & Hnew & Hx)]; [exists []; by rewrite !app_nil_r|exists [entry]].
  split; [|by apply Forall2_app; [|apply Forall2_cons; split; [|apply Forall2_nil]]].
  apply NoDup_app. split_and!; [done| |apply NoDup_singleton]. by intros e He ->%list_elem_of_singleton.
Qed.

Lemma run_shipped_stored dir endpoint token config max w n r w' n' :
  let s := storage (sv_app (lk_server (net_peer n))) in
  url_path (crash_url endpoint) = "/v1/crashes" -> named (w_fs w) ->
  spool_shippable dir (w_fs w) max endpoint token config ->
  serves s max (lk_server (net_peer n)) (lk_world (net_peer n)) ->
  Forall (fun t => Forall (foreign (spooled_name dir (w_fs w))) (tr_events t)) (lk_script (net_peer n)) ->
  ship_pending_with_client dir endpoint token config (w, n) = (r, (w', n')) ->
  serves s max (lk_server (net_peer n')) (lk_world (net_peer n')) /\
  exists done, NoDup done /\ placed dir (w_fs w) done (w_fs w') /\
    (forall entry, entry ∈ done -> exists e, spooled_crash dir (w_fs w) entry e /\
       stored s max (w_fs (lk_world (net_peer n'))) e) /\
    (forall k, r = Ok k -> k = Z.of_nat (length done)).
Proof using UL CL SL JL ML MR HL AXL TWL ZL.
  intros s Hurl Hnm Hsp Hserves Hscript Hrun.
  assert (0 <= max < 2 ^ 63)%Z as Hmax by (destruct Hserves as [Hs0 <-]; apply (sg_max _ _ _ Hs0)).
  pose proof (ship_traced dir endpoint token config n (w, n) (traced_init n w)) as Hrep. rewrite Hrun in Hrep.
  destruct Hrep as (rqs & Hrep & _). cbn [snd] in Hrep. pose proof (replay_requests rqs (net_peer n)) as Hrqs.
  rewrite Hrep in Hrqs. cbn [fst] in Hrqs.
  destruct (wp_run _ _ _ _ _ (wp_ship_pending dir endpoint token config w n Hnm) Hrun)
    as (done & extra & Hnd & Hpend & Hatt & (posts & Hlog & HD & Hpl) & Hcnt).
  cbn [fst snd] in Hlog, Hpl, Hcnt. rewrite Hlog, drop_app_length in Hrep, Hrqs.
  destruct (all_uploads dir (w_fs w) endpoint token config done posts extra) as (more & Hnd2 & HF); [done..|].
  destruct (uploads_named dir (w_fs w) max endpoint token config (done ++ more) rqs) as (es & Hes & Hsh & Hndn); [done|done| |].
  { rewrite <- Hrqs. by apply Forall2_fmap_r. }
  destruct (replay_stored s max endpoint token config (spooled_name dir (w_fs w)) Hurl Hmax es rqs (net_peer n) (posts ++ extra) (net_peer n')
    (conj Hserves Hscript) Hndn) as ([Hserves' _] & _ & Hst); [|done|exact Hrep|].
  { apply Forall_forall. intros e He. apply list_elem_of_lookup in He as [i Hi].
    destruct (Forall2_lookup_r _ _ _ _ _ Hes Hi) as (entry & _ & Hsc). by exists entry, e. }
  split; [done|]. exists done. split_and!; [done|done| |intros k Hk; by apply Hcnt].
  intros entry He. apply list_elem_of_lookup in He as [i Hi].
  destruct (Forall2_lookup_l _ _ _ _ _ Hes (lookup_app_l_Some _ more _ _ Hi)) as (e & Hei & Hsc).
  destruct (Forall2_lookup_l _ _ _ _ _ HD Hi) as (x & Hx & _ & Hacc). exists e. split; [done|].
  destruct (Forall2_lookup_l _ _ _ _ _ Hst Hei) as (y & Hy & Hs). rewrite (lookup_app_l_Some _ extra _ _ Hx) in Hy.
  injection Hy as <-. by apply Hs.
Qed.

End ShipToServer.

(** ** A concrete run: one crash arrives, the other does not *)

Definition crash_at (t : nat) : CrashMetadata ToyUuid ToyChrono := {|
  schema_version := 1; md_source := md_source spooled_metadata; timestamp := (t : @DateTime ToyChrono); md_kind := PanicTarball;
  build := build spooled_metadata; panic_text := None; context := Null; md_attachments := md_attachments spooled_metadata |}.

Definition envelope_of (t : nat) (dump note : string) : CrashEnvelope ToyUuid ToyChrono := {|
  ce_metadata := crash_at t; ce_dump := as_bytes dump;
  ce_attachments := [{| ca_key := "note"; ca_content_type := "text/plain"; ca_bytes := as_bytes note |}] |}.

Definition entry_at (name : string) (t : nat) : list (Path * Node) :=
  let e := ["/"; "s"; "pending"; name] in
  [(e, Dir); (e ++ ["metadata.json"], File (metadata_to_vec_pretty (crash_at t)) 5);
   (e ++ ["dump.bin"], File (as_bytes "core") 5); (e ++ ["note.txt"], File (as_bytes "hi") 5)].

Definition two_crashes : gmap Path Node := list_to_map (
  [(["/"], Dir); (["/"; "s"], Dir); (["/"; "s"; "pending"], Dir); (["/"; "s"; "sent"], Dir)]
  ++ entry_at "a" 7 ++ entry_at "b" 8).

Definition client_world : World :=
  {| w_fs := two_crashes; w_now := 100; w_clock := [200%Z]; w_faults := []; w_uuids := 0; w_dir_mtime := fun _ => 50%Z |}.

Definition upload_endpoint : @Url ToyUrl := ("/v1/crashes" ↾ eq_refl : toy_url).

(** The first upload is answered; then an export is served, and the second
    upload is handled but its answer is lost. *)
Definition sample_link : Link := {|
  lk_server := app server_config; lk_world := empty_world; lk_retention := RetentionConfig_default;
  lk_script := [{| tr_events := []; tr_fate := Reached [100%nat] sample_timing (Ok [Ok (as_bytes "{}")]) |};
                {| tr_events := [Arrives sample_export_request sample_timing; Elapses 9 [] []];
                   tr_fate := Reached [] sample_timing (Err "timed out") |}] |}.

Definition client_run := ship_pending_with_client (HP := ServerPeer (M := RfcMulter)) ["/"; "s"] upload_endpoint "pw" ShipConfig_default
  (client_world, {| net_peer := sample_link; net_log := [] |}).

Lemma two_crashes_pending entry : pending_in ["/"; "s"] two_crashes entry ->
  entry = ["/"; "s"; "pending"; "a"] \/ entry = ["/"; "s"; "pending"; "b"].
Proof.
  intros [Hp Hd]. set (f := fun (q : Path) (_ : Node) => bool_decide (parent q = Some ["/"; "s"; "pending"] ->
    q = ["/"; "s"; "pending"; "a"] \/ q = ["/"; "s"; "pending"; "b"])).
  assert (f entry Dir = true) as Hf by (apply (nodes_forall f two_crashes); [vm_compute; reflexivity|done]).
  apply bool_decide_eq_true in Hf. by apply Hf.
Qed.

(** The entry of a crash determines it. *)
Lemma entry_crash name t e : t = 7%nat \/ t = 8%nat ->
  two_crashes !! ["/"; "s"; "pending"; name; "metadata.json"] = Some (File (metadata_to_vec_pretty (crash_at t)) 5) ->
  two_crashes !! ["/"; "s"; "pending"; name; "dump.bin"] = Some (File (as_bytes "core") 5) ->
  two_crashes !! ["/"; "s"; "pending"; name; "note.txt"] = Some (File (as_bytes "hi") 5) ->
  spooled_crash ["/"; "s"] two_crashes ["/"; "s"; "pending"; name] e -> e = envelope_of t "core" "hi".
Proof.
  intros Ht H1 H2 H3 (_ & fs1 & Hs & (c & tc & Hc & Hm) & (td & Hd) & Ha).
  rewrite Hs in Hc, Hd. cbn [Datatypes.app] in Hc, Hd. rewrite H1 in Hc. rewrite H2 in Hd.
  assert (c = metadata_to_vec_pretty (crash_at t)) as -> by congruence.
  assert (ce_dump e = as_bytes "core") as Hdump by congruence.
  rewrite metadata_from_to_vec_pretty in Hm; [| |destruct Ht as [-> | ->]; vm_compute; reflexivity|unfold context_fits, RECURSION_LIMIT; cbn; lia|reflexivity].
  2: { split; [unfold U32_MAX; cbn; lia|]. split; [reflexivity|]. repeat constructor; unfold U64_MAX; cbn; lia. }
  assert (ce_metadata e = crash_at t) as Hmd by congruence. rewrite Hmd in Ha.
  apply Forall2_cons_inv_l in Ha as (x & xs & (Hk & Hct & tx & Hx) & Hxs & Hatts). apply Forall2_nil_inv_l in Hxs as ->.
  cbn [fst snd am_key am_content_type] in Hk, Hct, Hx. change (join _ "note.txt") with (["/"; "s"; "pending"; name] ++ ["note.txt"]) in Hx.
  rewrite Hs in Hx. cbn [Datatypes.app] in Hx. rewrite H3 in Hx. 
  destruct e as [md d atts], x as [xk xc xb]. cbn [ce_metadata ce_dump ce_attachments ca_key ca_content_type ca_bytes] in *.
  assert (xb = as_bytes "hi") as -> by congruence. subst md d atts xk xc. reflexivity.
Qed.

Definition compressed_of (t : nat) : CrashEnvelope ToyUuid ToyChrono := envelope_of t "Zcore" "Zhi".

Lemma compress_of t : compress_envelope ShipConfig_default (envelope_of t "core" "hi") = Ok (compressed_of t, spooled_encodings).
Proof. reflexivity. Qed.

Lemma compressed_ok t : t = 7%nat \/ t = 8%nat -> envelope_ok DEFAULT_BOUNDARY (compressed_of t).
Proof.
  intros Ht. split; [|destruct Ht as [-> | ->]; reflexivity|unfold context_fits, RECURSION_LIMIT; cbn; lia|reflexivity|reflexivity| |].
  - split; [unfold U32_MAX; cbn; lia|]. split; [reflexivity|]. repeat constructor; unfold U64_MAX; cbn; lia.
  - destruct Ht as [-> | ->]; vm_compute; reflexivity.
  - apply Forall_cons. split; [split_and!; vm_compute; reflexivity|apply Forall_nil_2].
Qed.

Lemma crash_shippable t : t = 7%nat \/ t = 8%nat ->
  shippable 1000 upload_endpoint "pw" ShipConfig_default (envelope_of t "core" "hi").
Proof.
  intros Ht. split; [split_and!|].
  - apply (bool_decide_unpack _). vm_compute. exact I.
  - apply Z.leb_le. destruct Ht as [-> | ->]; vm_compute; reflexivity.
  - intros ce encs H. rewrite compress_of in H. injection H as <- <-. split; [by apply compressed_ok|].
    split; [apply Z.leb_le; reflexivity|]. apply Forall_cons. split; [apply Z.leb_le; reflexivity|by apply Forall_nil].
  - intros rq (_ & _ & _ & ce & encs & H & Hb). rewrite compress_of in H. injection H as <- <-.
    rewrite vec_write_envelope in Hb. injection Hb as <-. apply Z.leb_le. destruct Ht as [-> | ->]; vm_compute; reflexivity.
Qed.

Lemma two_crashes_cases entry e : spooled_crash ["/"; "s"] two_crashes entry e ->
  (entry = ["/"; "s"; "pending"; "a"] /\ e = envelope_of 7 "core" "hi") \/
  (entry = ["/"; "s"; "pending"; "b"] /\ e = envelope_of 8 "core" "hi").
Proof.
  intros He. destruct (two_crashes_pending entry (proj1 He)) as [-> | ->]; [left|right]; (split; [done|]);
    (eapply entry_crash; [..|exact He]; [auto|reflexivity..]).
Qed.

Lemma two_crashes_shippable : spool_shippable ["/"; "s"] two_crashes 1000 upload_endpoint "pw" ShipConfig_default.
Proof.
  split.
  - intros entry e [[_ ->]|[_ ->]]%two_crashes_cases; apply crash_shippable; auto.
  - by intros entry entry' e e' [[-> ->]|[-> ->]]%two_crashes_cases [[-> ->]|[-> ->]]%two_crashes_cases Hn; [|discriminate Hn..|].
Qed.

