(* ===== verification/EndToEndExport.v ===== *)
(** * From the tracing layer to the running server

    The exporter against the running server behind a network: [Wire] is a server,
    its world and a script of connections and calls, and a gRPC peer of the
    exporter.  Whatever fails, what the server takes in of the client's source is
    what the exporter sent, in order: all of an acknowledged batch, a part of any
    other; and what was not acknowledged is in the client's queue. *)

From Stdlib Require Import Ascii SpecFloat.
From S2P Require Import Prelude RustStd Fs FsDir External Instances F64 Json Protocol Metrics Schemas Storage RateLimit Auth State Crashes CrashStore CrashIngest Janitor Retention Refs System Spool PanicHook Shipper ClientInstances ShipSafety ShipProgress Layer LayerSafety Otlp Logs LogQueue LogWriter LogPipeline Server ServerSafety Calm ServerLogs EndToEndLogs.

(** tonic: a call's message on the wire. *)
Class TonicWire := { grpc_frames : GrpcRequest -> list bytes }.

Definition grpc_http `{TonicWire} (g : GrpcRequest) : HttpRequest :=
  {| hq_method := POST; hq_path := EXPORT_PATH; hq_authorization := Some (gr_authorization g);
     hq_content_type := Some (as_bytes "application/grpc"); hq_content_encoding := None;
     hq_version := Some (gr_version g); hq_body := Ok <$> grpc_frames g |}.

(** What is decoded of a call is the message that was sent, and the reply of the
    body limit is not one of the log service. *)
Class TonicWireLaws (T : TowerApi) (TS : TonicServerApi) (W : TonicWire) := {
  grpc_decode_sent : forall g rq m, tower_inbound BODY_LIMIT (grpc_http g) = Ok rq -> grpc_decode rq = Ok m -> m = gr_message g;
  tower_refuses : forall rq reply, tower_inbound BODY_LIMIT rq = Err reply -> forall o, reply <> GrpcReply o
}.

(** A call that fails: with an error, or by taking too long. *)
Definition failing (f : option string) : Timed (Result unit string) :=
  match f with Some e => InTime (Err e) | None => TimedOut end.

(** A call never arrives, or is handled and its answer arrives or is lost.  A call
    that breaks off on its way is [Dropped], with an arrival of its first frames
    among the events. *)
Inductive CallFate :=
| Dropped (f : option string)
| Handled (t : Timing) (lost : option (option string)).

(** The client's view of a reply. *)
Definition call_outcome (r : Reply) : Result unit string :=
  match r with
  | GrpcReply (Ok _) => Ok tt
  | GrpcReply (Err e) => Err (st_message e)
  | EmptyReply s | JsonReply s _ | TextReply s _ _ => Err (Z_to_string s)
  end.

Section Wire.
Context {U : UuidApi} {C : ChronoApi} {S : Sha256Api} {J : JsonText} {M : MulterApi} {HT : HttpApi}
  {V : JsonSchemaApi} {A2 : Argon2Api} {OS : Os}
  {AX : AxumApi} {TW : TowerApi} {TS : TonicServerApi} {PR : PrometheusApi} {WI : TonicWire}.

(** [wi_calls] holds what happens at the server before each call, and its fate. *)
Record Wire := {
  wi_server : Server;
  wi_world : World;
  wi_retention : RetentionConfig;
  wi_connects : list (Timed (Result unit string));
  wi_calls : list (list Event * CallFate)
}.

Definition wire_connect (n : Wire) : Timed (Result unit string) * Wire :=
  match wi_connects n with
  | [] => (TimedOut, n)
  | o :: rest => (o, {| wi_server := wi_server n; wi_world := wi_world n; wi_retention := wi_retention n;
                        wi_connects := rest; wi_calls := wi_calls n |})
  end.

Definition wire_after (n : Wire) (sw : Server * World) (calls : list (list Event * CallFate)) : Wire :=
  {| wi_server := sw.1; wi_world := sw.2; wi_retention := wi_retention n; wi_connects := wi_connects n; wi_calls := calls |}.

Definition wire_export (g : GrpcRequest) (n : Wire) : Timed (Result unit string) * Wire :=
  match wi_calls n with
  | [] => (TimedOut, n)
  | (events, fate) :: calls =>
      let sw := foldl (server_step (wi_retention n)) (wi_server n, wi_world n) events in
      match fate with
      | Dropped f => (failing f, wire_after n sw calls)
      | Handled t lost =>
          let (reply, sw) := handle (grpc_http g) t sw.1 sw.2 in
          (match lost with None => InTime (call_outcome reply) | Some f => failing f end, wire_after n sw calls)
      end
  end.

(** The peer, for what tonic's client does of its own. *)
Definition WireTonic (Tls : Type) (value : string -> option bytes) (internal unavailable : string -> string) : TonicApi Wire :=
  {| TlsConfig := Tls; metadata_value := value; status_internal := internal; status_unavailable := unavailable;
     grpc_connect _ _ _ n := wire_connect n; grpc_export := wire_export |}.
End Wire.

(** ** The stream of one source at the server *)

Section Streams.
Context {U : UuidApi} {C : ChronoApi} {S : Sha256Api} {J : JsonText} {M : MulterApi} {HT : HttpApi}
  {V : JsonSchemaApi} {A2 : Argon2Api} {OS : Os}
  {AX : AxumApi} {AXL : AxumLaws AX} {TW : TowerApi} {TWL : TowerLaws TW} {TS : TonicServerApi} {PR : PrometheusApi}
  {WI : TonicWire} {WL : TonicWireLaws TW TS WI}.

Lemma call_outcome_ok reply : call_outcome reply = Ok tt -> reply = GrpcReply (Ok tt).
Proof. by destruct reply as [| | |[[]|]]. Qed.

Lemma handle_export_stream g t sv w reply sv' w' k :
  handle (grpc_http g) t sv w = (reply, (sv', w')) ->
  exists ls, ls `prefix_of` message_lines k (gr_message g) /\ server_stream sv' k = server_stream sv k ++ ls /\
    (call_outcome reply = Ok tt -> ls = message_lines k (gr_message g)).
Proof using AXL TWL WL.
  intros Hrun. pose proof Hrun as Hrun2. apply (handle_takes_in k) in Hrun as (ls & Ht & Hst). exists ls. unfold takes_in in Ht.
  destruct Ht as [[-> Hr]|(rq' & m & _ & Et & Ed & Hp & Ho)].
  - split_and!; [apply prefix_nil|done|]. intros ->%call_outcome_ok. exfalso. destruct (tower_inbound BODY_LIMIT (grpc_http g)) as [rq'|r0] eqn:Et.
    + by apply (Hr eq_refl eq_refl).
    + unfold handle in Hrun2. rewrite Et in Hrun2. injection Hrun2 as -> _ _. by apply (tower_refuses _ _ Et (Ok tt)).
  - pose proof (grpc_decode_sent _ _ _ Et Ed) as ->. split_and!; [done|done|]. intros ->%call_outcome_ok. auto.
Qed.

(** Events that add nothing to the stream of [k]: anything but an export with
    lines of that source. *)
Definition foreign_to (k : SourceKey) (e : Event) : Prop :=
  match e with
  | Arrives rq t => forall rq' m, tower_inbound BODY_LIMIT rq = Ok rq' -> hq_path rq = EXPORT_PATH ->
      grpc_decode rq' = Ok m -> message_lines k m = []
  | _ => True
  end.

Lemma step_stream retention sv w e k : foreign_to k e -> server_stream (server_step retention (sv, w) e).1 k = server_stream sv k.
Proof using AXL TWL.
  intros Hf. destruct (step_takes_in k retention sv w e) as (ls & Ht & ->). enough (ls = []) as -> by apply app_nil_r.
  destruct e as [rq t|elapsed|k'|now clock faults]; [|done..]. destruct Ht as [[-> _]|(rq' & m & Hp & Et & Ed & Hls & _)]; [done|].
  rewrite (Hf rq' m) in Hls by done. by apply prefix_nil_inv in Hls.
Qed.

Lemma steps_stream retention events k : forall sw, Forall (foreign_to k) events ->
  server_stream (foldl (server_step retention) sw events).1 k = server_stream sw.1 k.
Proof using AXL TWL.
  induction events as [|e events IH]; intros sw Hf; [done|]. apply Forall_cons in Hf as [He Hf]. cbn [foldl].
  rewrite IH by done. destruct sw as [sv w]. by apply step_stream.
Qed.

(** One call: the server takes in a part of the message, all of it when the call
    is acknowledged. *)
Lemma wire_export_stream k g n o n' :
  Forall (fun c => Forall (foreign_to k) c.1) (wi_calls n) -> wire_export g n = (o, n') ->
  Forall (fun c => Forall (foreign_to k) c.1) (wi_calls n') /\
  exists ls, ls `prefix_of` message_lines k (gr_message g) /\
    server_stream (wi_server n') k = server_stream (wi_server n) k ++ ls /\
    (o = InTime (Ok tt) -> ls = message_lines k (gr_message g)).
Proof using AXL TWL WL.
  intros Hc. unfold wire_export. destruct (wi_calls n) as [|[events fate] calls] eqn:Ecalls.
  { intros [= <- <-]. rewrite Ecalls. split; [done|]. exists []. split_and!; [apply prefix_nil|by rewrite app_nil_r|done]. }
  apply Forall_cons in Hc as [Hev Hc]. cbn [fst] in Hev.
  pose proof (steps_stream (wi_retention n) events k (wi_server n, wi_world n) Hev) as Hs. cbn [fst] in Hs.
  destruct (foldl _ _ events) as [sv1 w1]. cbn [fst snd] in *. destruct fate as [f|t lost].
  { intros [= <- <-]. split; [done|]. exists []. split_and!; [apply prefix_nil|by rewrite app_nil_r|by destruct f]. }
  destruct (handle (grpc_http g) t sv1 w1) as [reply [sv2 w2]] eqn:E. intros [= <- <-]. split; [done|].
  cbn [wire_after wi_server fst]. apply (handle_export_stream _ _ _ _ _ _ _ k) in E as (ls & Hp & Hst & Ho).
  exists ls. rewrite <- Hs. split_and!; [done|done|]. destruct lost as [f|]; [by destruct f|]. intros [= Hok]. by apply Ho.
Qed.
End Streams.

(** ** The exporter *)

Section ExportToServer.
Context {U : UuidApi} {UL : UuidLaws U} {C : ChronoApi} {S : Sha256Api} {J : JsonText} {M : MulterApi} {HT : HttpApi}
  {V : JsonSchemaApi} {A2 : Argon2Api} {OS : Os}
  {AX : AxumApi} {AXL : AxumLaws AX} {TW : TowerApi} {TWL : TowerLaws TW} {TS : TonicServerApi} {PR : PrometheusApi}
  {WI : TonicWire} {WL : TonicWireLaws TW TS WI} {UR : UrlApi} {P : ProstApi}.
Context (Tls : Type) (value : string -> option bytes) (internal unavailable : string -> string).

#[local] Instance Peer : TonicApi Wire := WireTonic Tls value internal unavailable.

(** The attempts of a run, each with the lines the server took in of it. *)
Definition taken_in (k : SourceKey) (x : Attempt) (ls : list Value) : Prop :=
  ls `prefix_of` message_lines k x.1 /\ (acknowledged x -> ls = message_lines k x.1).

(** What every call keeps, and what does not depend on the client's files, holds
    over the whole run. *)
Section Rule.
Context (wk : Worker) (I : World * @Rpc Wire -> Prop).
Context (Hcall : forall E rq, Keeps I (timed_export (E := E) wk rq)).
Context (Hfiles : forall w w' rpc, I (w, rpc) -> I (w', rpc)).

#[local] Instance rule_io {E A} (m : IO E A) : Keeps I (exp_io m).
Proof using Hfiles. intros [w rpc] H. unfold exp_io. cbn [fst snd]. destruct (m w). by eapply Hfiles. Qed.

#[local] Instance rule_outcome {E A B} (o : Timed B) (m1 : B -> @Exp Wire E A) (m2 : @Exp Wire E A) :
  (forall b, Keeps I (m1 b)) -> Keeps I m2 -> Keeps I (match o with InTime b => m1 b | TimedOut => m2 end).
Proof. destruct o; auto. Qed.

#[local] Instance rule_records records : Keeps I (export_records wk records).
Proof using Hcall Hfiles. unfold export_records; cbv zeta. destruct records; apply _. Qed.

#[local] Instance rule_step {E} st s : Keeps I (run_step (E := E) wk st s).
Proof using Hcall Hfiles. unfold run_step, export_or_spool; cbv zeta. destruct s as [[]| |]; apply _. Qed.

#[local] Instance rule_loop {E} l : forall st, Keeps I (run_loop (E := E) wk st l).
Proof using Hcall Hfiles. induction l as [|s l IH]; intros st; cbn [run_loop]; apply _. Qed.

Lemma run_rule {E} l : Keeps I (run (E := E) wk l).
Proof using Hcall Hfiles. unfold run, drain_spooled, replay_one. apply _. Qed.
End Rule.

Section Run.
Context (wk : Worker) (k : SourceKey) (rpc0 : @Rpc Wire).

Definition wired (wr : World * @Rpc Wire) : Prop :=
  exists new lines, rpc_log wr.2 = rpc_log rpc0 ++ new /\ Forall2 (taken_in k) new lines /\
    server_stream (wi_server (rpc_peer wr.2)) k = server_stream (wi_server (rpc_peer rpc0)) k ++ concat lines /\
    Forall (fun c => Forall (foreign_to k) c.1) (wi_calls (rpc_peer wr.2)).

Lemma get_channel_wire rpc o rpc1 : get_channel wk rpc = (o, rpc1) ->
  rpc_log rpc1 = rpc_log rpc /\ wi_server (rpc_peer rpc1) = wi_server (rpc_peer rpc) /\ wi_calls (rpc_peer rpc1) = wi_calls (rpc_peer rpc) /\
  wi_world (rpc_peer rpc1) = wi_world (rpc_peer rpc) /\ wi_retention (rpc_peer rpc1) = wi_retention (rpc_peer rpc).
Proof.
  unfold get_channel. destruct (rpc_channel rpc); [by intros [= _ <-]|]. cbn [grpc_connect Peer WireTonic]. unfold wire_connect.
  destruct (wi_connects (rpc_peer rpc)) as [|[[[]|e]|] rest]; by intros [= _ <-].
Qed.

Lemma grpc_request_message rq g : grpc_request wk rq = Ok g -> gr_message g = rq.
Proof. unfold grpc_request. destruct (metadata_value _); [|done]. destruct (metadata_value _); [|done]. by intros [= <-]. Qed.

Lemma wired_timed {E} rq : Keeps wired (timed_export (E := E) wk rq).
Proof using AXL TWL WL.
  intros [w rpc] (new & lines & Hl & HF & Hs & Hc). unfold timed_export. cbn [fst snd] in *.
  destruct (export_request wk rq rpc) as [o rpc1] eqn:E1. cbn [snd].
  enough (exists ls, taken_in k (rq, o) ls /\ rpc_log rpc1 = rpc_log rpc /\
    server_stream (wi_server (rpc_peer rpc1)) k = server_stream (wi_server (rpc_peer rpc)) k ++ ls /\
    Forall (fun c => Forall (foreign_to k) c.1) (wi_calls (rpc_peer rpc1))) as (ls & Ht & Hl1 & Hs1 & Hc1).
  { exists (new ++ [(rq, o)]), (lines ++ [ls]). cbn [snd rpc_log rpc_peer]. split_and!; [by rewrite Hl1, Hl, app_assoc| | |done].
    - apply Forall2_app; [done|]. apply Forall2_cons. split; [done|by apply Forall2_nil].
    - rewrite Hs1, Hs, concat_app, <- app_assoc. cbn [concat]. by rewrite app_nil_r. }
  revert E1. unfold export_request. destruct (get_channel wk rpc) as [o1 rpc2] eqn:E2.
  destruct (get_channel_wire _ _ _ E2) as (Hl2 & Hs2 & Hc2 & _ & _). rewrite <- Hs2, <- Hl2. rewrite <- Hc2 in Hc.
  assert (forall e, o <> InTime (Ok tt) -> (o, rpc2) = (e, rpc1) -> exists ls, taken_in k (rq, o) ls /\ rpc_log rpc1 = rpc_log rpc2 /\
    server_stream (wi_server (rpc_peer rpc1)) k = server_stream (wi_server (rpc_peer rpc2)) k ++ ls /\
    Forall (fun c => Forall (foreign_to k) c.1) (wi_calls (rpc_peer rpc1))) as Hnone.
  { intros e Ho [= _ <-]. exists []. split_and!; [|done|by rewrite app_nil_r|done]. split; [apply prefix_nil|done]. }
  destruct o1 as [[[]|e]|]; [|intros [= <- <-]; by eapply Hnone..].
  destruct (grpc_request wk rq) as [g|e] eqn:Eg; [|intros [= <- <-]; by eapply Hnone]. apply grpc_request_message in Eg.
  cbn [grpc_export Peer WireTonic]. destruct (wire_export g (rpc_peer rpc2)) as [o2 n2] eqn:E3. intros [= <- <-].
  destruct (wire_export_stream k g _ _ _ Hc E3) as (Hc3 & ls & Hp & Hst & Hok). rewrite Eg in Hp, Hok.
  by exists ls.
Qed.

Lemma wired_run {E} l : Keeps wired (run (E := E) wk l).
Proof using AXL TWL WL. apply run_rule; [intros E1 rq; apply wired_timed|done]. Qed.
End Run.

Lemma own_lines (wk : Worker) k records :
  SourceKey_new (src_project (wk_source wk)) (uuid_to_string (src_install_id (wk_source wk))) = Ok k ->
  message_lines k (export_request_for (wk_source wk) records) = log_record_json <$> records.
Proof.
  intros Hk. unfold message_lines. cbn [resource_logs export_request_for]. rewrite bind_singleton. unfold resource_lines.
  rewrite (client_source wk records) by apply list_elem_of_here. rewrite Hk. cbn [map_err scope_logs].
  rewrite bind_singleton. apply lines_for_same.
Qed.

(** A batch of the exporter, and what became of it: the server took in its first
    records, in order, and all of them, or it is in the client's queue. *)
Definition delivered_or_queued (wk : Worker) (fs : gmap Path Node) (x : Attempt) (ls : list Value) : Prop :=
  exists records, x.1 = export_request_for (wk_source wk) records /\ ls `prefix_of` (log_record_json <$> records) /\
    (ls = log_record_json <$> records \/ spooled wk fs x.1).

Lemma run_records_arrive wk k l w rpc r w' rpc' :
  (1 <= wk_batch_size wk)%Z -> writable (wk_queue_dir wk) w ->
  distinct_draws (w_uuids w) (w_uuids w + length (turns l)) ->
  SourceKey_new (src_project (wk_source wk)) (uuid_to_string (src_install_id (wk_source wk))) = Ok k ->
  Forall (fun c => Forall (foreign_to k) c.1) (wi_calls (rpc_peer rpc)) ->
  run (E := Empty_set) wk l (w, rpc) = (r, (w', rpc')) ->
  exists st replays exported rlines elines, r = Ok st /\
    rpc_log rpc' = rpc_log rpc ++ replays ++ exported /\ Forall2 (taken_in k) replays rlines /\
    Forall2 (delivered_or_queued wk (w_fs w')) exported elines /\
    server_stream (wi_server (rpc_peer rpc')) k =
      server_stream (wi_server (rpc_peer rpc)) k ++ concat rlines ++ concat elines /\
    (exported.*1 ≫= records_of) ++ run_batch st = filter (should_sample (wk_sample_rate wk)) (received (turns l)).
Proof using UL AXL TWL WL.
  intros Hpos Hw Hd Hk Hc Hrun.
  assert (wired k rpc (w, rpc)) as H0.
  { exists [], []. cbn [snd concat]. split_and!; [by rewrite app_nil_r|by apply Forall2_nil|by rewrite app_nil_r|done]. }
  pose proof (wired_run (E := Empty_set) wk k rpc l (w, rpc) H0) as (new & lines & Hl & HF & Hs & _).
  rewrite Hrun in Hl, Hs. cbn [snd] in Hl, Hs.
  destruct (run_acked_or_spooled wk l w rpc r w' rpc' Hpos Hw Hd Hrun) as (st & replays & exported & -> & Hl2 & Hcons & Hown & Hsp).
  rewrite Hl2 in Hl. apply app_inv_head in Hl as <-. apply Forall2_app_inv_l in HF as (rl & el & HR & HE & ->).
  exists st, replays, exported, rl, el. split_and!; [done|done|done| |by rewrite Hs, concat_app|done].
  apply Forall2_same_length_lookup. split; [by eapply Forall2_length|]. intros i x ls Hx Hls.
  destruct (Forall2_lookup_lr _ _ _ _ _ _ HE Hx Hls) as [Hp Ha].
  destruct (proj1 (Forall_lookup _ _) Hown i x Hx) as (records & Hrq & _). exists records. rewrite Hrq, own_lines in Hp, Ha by done.
  split_and!; [done|done|]. destruct (proj1 (Forall_lookup _ _) Hsp i x Hx) as [Hack|?]; [left; by apply Ha|by right].
Qed.

(** C15. Records arrive at least once and in order: the exporter runs against the
    server, under any failures of connections and calls, lost answers, and any
    other traffic, retention and writing at the server, one event after the other,
    that has no lines of the client's source.  When no file operation of the client
    fails, nothing is in the way in its queue directory and the names of the
    queue's files differ, the stream the server takes in for that source grows by
    the lines of the replayed requests and then of the exporter's batches, in the
    order they were sent; of each batch by all its records, or by the first ones
    only, and then the batch is in the client's queue, to be sent again.  The
    batches and the one still held are exactly the records the exporter received
    that sampling kept. *)
Theorem exported_records_arrive wk k l w rpc r w' rpc' :
  (1 <= wk_batch_size wk)%Z -> writable (wk_queue_dir wk) w ->
  distinct_draws (w_uuids w) (w_uuids w + length (turns l)) ->
  SourceKey_new (src_project (wk_source wk)) (uuid_to_string (src_install_id (wk_source wk))) = Ok k ->
  Forall (fun c => Forall (foreign_to k) c.1) (wi_calls (rpc_peer rpc)) ->
  run (E := Empty_set) wk l (w, rpc) = (r, (w', rpc')) ->
  exists st replays exported rlines elines, r = Ok st /\
    rpc_log rpc' = rpc_log rpc ++ replays ++ exported /\ Forall2 (taken_in k) replays rlines /\
    Forall2 (delivered_or_queued wk (w_fs w')) exported elines /\
    server_stream (wi_server (rpc_peer rpc')) k =
      server_stream (wi_server (rpc_peer rpc)) k ++ concat rlines ++ concat elines /\
    (exported.*1 ≫= records_of) ++ run_batch st = filter (should_sample (wk_sample_rate wk)) (received (turns l)).
Proof using UL AXL TWL WL. apply run_records_arrive. Qed.
End ExportToServer.

(** ** A concrete run: the first batch is acknowledged, the answer to the second
    is lost *)

Definition message_one : ExportLogsServiceRequest :=
  export_request_for (md_source sample_metadata) [LayerSafety.sample_record 1; LayerSafety.sample_record 2].
Definition message_two : ExportLogsServiceRequest :=
  export_request_for (md_source sample_metadata) [LayerSafety.sample_record 3].

(** A wire that tells the two messages apart and garbles all others. *)
#[export] Instance PairWire : TonicWire := {
  grpc_frames g := [as_bytes (if decide (gr_message g = message_one) then "1"
                              else if decide (gr_message g = message_two) then "2" else "?")]
}.

Definition PairTonic : TonicServerApi := {|
  grpc_decode rq := match hq_body rq with
                    | [Ok b] => if String.eqb (of_bytes b) "1" then Ok message_one
                                else if String.eqb (of_bytes b) "2" then Ok message_two
                                else Err {| st_code := InvalidArgument; st_message := "garbled" |}
                    | _ => Err {| st_code := InvalidArgument; st_message := "empty" |}
                    end
|}.

#[export] Instance PairWireLaws : TonicWireLaws ToyTower PairTonic PairWire.
Proof.
  split; [|done]. intros g rq m [= <-]. unfold grpc_decode, PairTonic, grpc_http. cbn [hq_body grpc_frames PairWire fmap list_fmap].
  rewrite of_as_bytes. destruct (decide (gr_message g = message_one)) as [->|]; [by intros [= <-]|].
  destruct (decide (gr_message g = message_two)) as [->|]; [by intros [= <-]|done].
Qed.


#[export] Instance PairPeer : TonicApi Wire :=
  Peer (J := ToyJson) (M := ToyMulter) (TS := PairTonic) unit (fun s => Some (as_bytes s)) id id.

Definition wire_worker : @Worker ToyUuid ToyUrl _ PairPeer :=
  {| wk_endpoint := sample_endpoint; wk_token := "pw"; wk_source := md_source sample_metadata; wk_batch_size := 2;
     wk_flush_interval := DEFAULT_FLUSH_INTERVAL; wk_flush_timeout := DEFAULT_FLUSH_TIMEOUT; wk_queue_dir := ["/"; "q"];
     wk_sample_rate := f64_one; wk_compression := None; wk_tls_config := None |}.

Definition sample_wire : Wire := {|
  wi_server := app server_config; wi_world := empty_world; wi_retention := RetentionConfig_default;
  wi_connects := [InTime (Ok tt)];
  wi_calls := [([], Handled sample_timing None);
               ([Arrives (sample_upload_request "pw") sample_timing; Ticks 0], Handled sample_timing (Some None))] |}.

Definition wire_rpc : Rpc := {| rpc_peer := sample_wire; rpc_channel := false; rpc_log := [] |}.

Definition wire_run := run (E := Empty_set) wire_worker sample_selected (queue_world, wire_rpc).

(** Both batches are in the server's stream; the second is in the queue too. *)
Lemma exported_records_arrive_witness :
  (snd <$> rpc_log wire_run.2.2) = [InTime (Ok tt); TimedOut] /\
  exists st replays exported rlines elines, wire_run.1 = Ok st /\
    rpc_log wire_run.2.2 = [] ++ replays ++ exported /\ Forall2 (taken_in client_key) replays rlines /\
    Forall2 (delivered_or_queued unit (fun s => Some (as_bytes s)) id id wire_worker (w_fs wire_run.2.1)) exported elines /\
    server_stream (wi_server (rpc_peer wire_run.2.2)) client_key =
      server_stream (wi_server sample_wire) client_key ++ concat rlines ++ concat elines /\
    (exported.*1 ≫= records_of) ++ run_batch st = filter (should_sample f64_one) (received (turns sample_selected)).
Proof.
  split; [vm_compute; reflexivity|].
  apply (exported_records_arrive (J := ToyJson) (M := ToyMulter) (TS := PairTonic) unit (fun s => Some (as_bytes s)) id id
    wire_worker client_key sample_selected queue_world wire_rpc wire_run.1 wire_run.2.1 wire_run.2.2).
  - cbn. lia.
  - exact queue_writable.
  - exact sample_draws.
  - reflexivity.
  - apply Forall_cons. split; [by apply Forall_nil|]. apply Forall_cons. split; [|by apply Forall_nil].
    apply Forall_cons. split; [intros rq' m _ Hp; discriminate Hp|]. apply Forall_cons. split; [exact I|by apply Forall_nil].
  - unfold wire_run. by destruct (run _ _ _) as [r [w rpc]].
Defined.
