(* ===== verification/EndToEndDisk.v ===== *)
(** * From the tracing layer to the server's disk

    The exporter against the running server behind a network, then the server's
    shutdown: what the client's records come to in the daily log files. *)

From Stdlib Require Import Ascii SpecFloat.
From S2P Require Import Prelude RustStd Fs FsDir External Instances F64 Json Protocol Metrics Schemas Storage RateLimit Auth State Crashes CrashStore CrashIngest Janitor Retention Refs System Spool PanicHook Shipper ClientInstances ShipSafety ShipProgress Layer LayerSafety Otlp Logs LogQueue LogWriter LogPipeline Server ServerSafety Calm ServerLogs EndToEndLogs EndToEndExport.

Section Disk.
Context {U : UuidApi} {UL : UuidLaws U} {C : ChronoApi} {CL : ChronoLaws C}
  {S : Sha256Api} {SL : Sha256Laws S} {J : JsonText} {JL : JsonTextLaws J}
  {M : MulterApi} {ML : MulterLaws M} {HT : HttpApi} {HL : HttpLaws HT}
  {V : JsonSchemaApi} {A2 : Argon2Api} {OS : Os}
  {AX : AxumApi} {AXL : AxumLaws AX} {TW : TowerApi} {TWL : TowerLaws TW} {TS : TonicServerApi} {PR : PrometheusApi}
  {WI : TonicWire} {WL : TonicWireLaws TW TS WI} {UR : UrlApi} {P : ProstApi}.
Context (Tls : Type) (value : string -> option bytes) (internal unavailable : string -> string).

#[local] Hint Extern 0 (TonicApi Wire) => exact (Peer Tls value internal unavailable) : typeclass_instances.

Definition calm_calls (T : Z -> Prop) (n : Wire) : Prop := Forall (fun c => Forall (calm_event T) c.1) (wi_calls n).

(** The server keeps its logs while it is called. *)
Record wire_logging (s : StoragePaths) (fs0 : gmap Path Node) (T : Z -> Prop) (retention : RetentionConfig) (n : Wire) : Prop := {
  wl_logging : logging s fs0 T (wi_server n) (wi_world n);
  wl_retention : wi_retention n = retention;
  wl_calls : calm_calls T n
}.

Lemma wire_export_logging s fs0 T retention g n :
  spares retention T -> wire_logging s fs0 T retention n -> wire_logging s fs0 T retention (wire_export g n).2.
Proof using UL CL SL JL ML HL AXL TWL.
  intros Hsp [Hl Hr Hc]. unfold wire_export, calm_calls in *. destruct (wi_calls n) as [|[events fate] calls] eqn:Ec; [|].
  { split; [done|done|]. unfold calm_calls. cbn [snd]. by rewrite Ec. }
  apply Forall_cons in Hc as [He Hc]. cbn [fst] in He. rewrite Hr.
  destruct (foldl _ _ events) as [sv1 w1] eqn:E. eapply (steps_logging s fs0 T retention events) in E; [|done|done|done].
  destruct fate as [f|t lost]; [by split|]. cbn [fst snd]. destruct (handle (grpc_http g) t sv1 w1) as [reply [sv2 w2]] eqn:Eh.
  apply (handle_logging s fs0 T) in Eh; [|done]. by split.
Qed.

Lemma export_request_logging s fs0 T retention wk rq rpc :
  spares retention T -> wire_logging s fs0 T retention (rpc_peer rpc) -> wire_logging s fs0 T retention (rpc_peer (export_request wk rq rpc).2).
Proof using UL CL SL JL ML HL AXL TWL.
  intros Hsp Hl. unfold export_request. destruct (get_channel wk rpc) as [o rpc1] eqn:E.
  destruct (get_channel_wire Tls value internal unavailable wk _ _ _ E) as (_ & Hs & Hc & Hw & Hr).
  assert (wire_logging s fs0 T retention (rpc_peer rpc1)) as Hl1.
  { destruct Hl as [H1 H2 H3]. split; [by rewrite Hs, Hw|congruence|unfold calm_calls in *; by rewrite Hc]. }
  destruct o as [[[]|e]|]; [|done..]. destruct (grpc_request wk rq) as [g|e]; [|done].
  pose proof (wire_export_logging s fs0 T retention g (rpc_peer rpc1) Hsp Hl1) as H. cbn [grpc_export Peer WireTonic].
  by destruct (wire_export g (rpc_peer rpc1)).
Qed.

Lemma run_logging s fs0 T retention wk l w rpc : spares retention T -> wire_logging s fs0 T retention (rpc_peer rpc) ->
  wire_logging s fs0 T retention (rpc_peer (run (E := Empty_set) wk l (w, rpc)).2.2).
Proof using UL CL SL JL ML HL AXL TWL.
  intros Hsp Hl0. refine (run_rule Tls value internal unavailable wk (fun wr => wire_logging s fs0 T retention (rpc_peer wr.2)) _ _ l (w, rpc) Hl0); [|done].
  intros E rq [w1 rpc1] Hl. unfold timed_export. cbn [fst snd] in *.
  pose proof (export_request_logging s fs0 T retention wk rq rpc1 Hsp Hl) as H. by destruct (export_request wk rq rpc1).
Qed.

(** C13. From a [tracing] event to the server's disk: the exporter runs against a
    freshly started server behind a network, under any failures of connections and
    calls, lost answers, and other traffic, retention and writing at the server,
    one event after the other, that has no lines of the client's source; then the
    server shuts down.  When no file operation fails, at the client or at the
    server, nothing is in the way in the client's queue directory and on the
    server's disk, the names of the queue's files differ, and the server's run is
    shorter than the retention of logs, the daily log files of the client's source
    grow by exactly the lines of the replayed requests and of the exporter's
    batches, in the order they were sent: of each batch by all its records, or by
    the first ones only, and then the batch is in the client's queue.  The batches
    and the one still held are exactly the records the exporter received that
    sampling kept. *)
Theorem exported_records_on_disk wk k l w rpc r w' rpc' config from to ws ws1 order :
  let s := StoragePaths_new (cf_data_dir config) in
  let retention := cf_retention config in
  (1 <= wk_batch_size wk)%Z -> writable (wk_queue_dir wk) w ->
  distinct_draws (w_uuids w) (w_uuids w + length (turns l)) ->
  SourceKey_new (src_project (wk_source wk)) (uuid_to_string (src_install_id (wk_source wk))) = Ok k ->
  (0 <= cf_max_dump_bytes config < 2 ^ 63)%Z -> (0 < logs_ttl_days retention)%Z -> (logs_ttl_days retention * 24 * 60 * 60 < 2 ^ 64)%Z ->
  (to - from <= logs_ttl_days retention * 24 * 60 * 60 * NANOS)%Z ->
  sound s (w_fs ws) -> all_ready s (w_fs ws) -> stamped (is_log s) (within from to) ws -> prepare s ws = (Ok tt, ws1) ->
  wi_server (rpc_peer rpc) = app config -> wi_world (rpc_peer rpc) = ws1 -> wi_retention (rpc_peer rpc) = retention ->
  Forall (fun c => Forall (foreign_to k) c.1) (wi_calls (rpc_peer rpc)) -> calm_calls (within from to) (rpc_peer rpc) ->
  run (E := Empty_set) wk l (w, rpc) = (r, (w', rpc')) ->
  order ≡ₚ (map_to_list (lwp_inner (sv_writers (wi_server (rpc_peer rpc'))))).*1 ->
  exists st replays exported rlines elines ws', r = Ok st /\
    rpc_log rpc' = rpc_log rpc ++ replays ++ exported /\ Forall2 (taken_in k) replays rlines /\
    Forall2 (delivered_or_queued Tls value internal unavailable wk (w_fs w')) exported elines /\
    finish_writers order (wi_server (rpc_peer rpc')) (wi_world (rpc_peer rpc')) = (Ok tt, ws') /\
    written s k (concat rlines ++ concat elines) (w_fs ws) (w_fs ws') /\
    (exported.*1 ≫= records_of) ++ run_batch st = filter (should_sample (wk_sample_rate wk)) (received (turns l)).
Proof using UL CL SL JL ML HL AXL TWL WL.
  intros s retention Hpos Hw Hd Hk Hmax H0 H1 Hlen Hsound Hready Hst Hprep Esv Ews Eret Hfor Hcalm Hrun Hord.
  pose proof (app_logging config (within from to) ws ws1 Hmax Hsound Hready Hst Hprep) as Hl.
  pose proof (run_logging s (w_fs ws) (within from to) retention wk l w rpc (within_spares retention from to H0 H1 Hlen)) as Hl2.
  rewrite Hrun in Hl2. cbn [snd] in Hl2. destruct Hl2 as [Hl2 _ _]; [split; [by rewrite Esv, Ews|done|done]|].
  destruct (logging_finish s (w_fs ws) _ _ _ order Hl2 Hord) as (ws' & Hfin & Hwr).
  destruct (run_records_arrive Tls value internal unavailable wk k l w rpc r w' rpc' Hpos Hw Hd Hk Hfor Hrun)
    as (st & replays & exported & rl & el & Hr & Hlog & HR & HE & Hstr & Hcons).
  assert (server_stream (app config) k = []) as E0 by (unfold server_stream, stream; cbn; by rewrite lookup_empty).
  exists st, replays, exported, rl, el, ws'. split_and!; try done. apply SourceKey_new_Ok in Hk as [_ Hkv].
  specialize (Hwr k Hkv). rewrite Hstr, Esv, E0 in Hwr. exact Hwr.
Qed.
End Disk.

(** ** A concrete run: the wire of two batches, then the shutdown *)

Definition disk_wire : Wire := {|
  wi_server := app server_config; wi_world := started.2; wi_retention := RetentionConfig_default;
  wi_connects := [InTime (Ok tt)];
  wi_calls := [([], Handled sample_timing None);
               ([Arrives (sample_upload_request "pw") sample_timing; Writes client_key; Ticks 0], Handled sample_timing (Some None))] |}.

Definition disk_rpc : Rpc := {| rpc_peer := disk_wire; rpc_channel := false; rpc_log := [] |}.

Definition disk_run := run (E := Empty_set) wire_worker sample_selected (queue_world, disk_rpc).

Definition disk_order : list SourceKey := (map_to_list (lwp_inner (sv_writers (wi_server (rpc_peer disk_run.2.2))))).*1.

(** Both batches are on disk after the shutdown; the second, whose answer was
    lost, is in the client's queue too. *)
Lemma exported_records_on_disk_witness :
  (snd <$> rpc_log disk_run.2.2) = [InTime (Ok tt); TimedOut] /\
  exists st replays exported rlines elines ws', disk_run.1 = Ok st /\
    rpc_log disk_run.2.2 = [] ++ replays ++ exported /\ Forall2 (taken_in client_key) replays rlines /\
    Forall2 (delivered_or_queued unit (fun s => Some (as_bytes s)) id id wire_worker (w_fs disk_run.2.1)) exported elines /\
    finish_writers (J := ToyJson) disk_order (wi_server (rpc_peer disk_run.2.2)) (wi_world (rpc_peer disk_run.2.2)) = (Ok tt, ws') /\
    written (J := ToyJson) sample_storage client_key (concat rlines ++ concat elines) (w_fs empty_world) (w_fs ws') /\
    (exported.*1 ≫= records_of) ++ run_batch st = filter (should_sample f64_one) (received (turns sample_selected)).
Proof.
  split; [vm_compute; reflexivity|].
  apply (exported_records_on_disk (J := ToyJson) (M := ToyMulter) (TS := PairTonic) unit (fun s => Some (as_bytes s)) id id
    wire_worker client_key sample_selected queue_world disk_rpc disk_run.1 disk_run.2.1 disk_run.2.2 server_config 0 10 empty_world started.2 disk_order).
  - cbn. lia.
  - exact queue_writable.
  - exact sample_draws.
  - reflexivity.
  - cbn. lia.
  - reflexivity.
  - reflexivity.
  - discriminate.
  - apply empty_sound.
  - exact empty_all_ready.
  - exact empty_stamped.
  - exact started_ok.
  - reflexivity.
  - reflexivity.
  - reflexivity.
  - apply Forall_cons. split; [by apply Forall_nil|]. apply Forall_cons. split; [|by apply Forall_nil].
    apply Forall_cons. split; [intros rq' m _ Hp; discriminate Hp|]. apply Forall_cons. split; [exact I|].
    apply Forall_cons. split; [exact I|by apply Forall_nil].
  - repeat constructor.
  - unfold disk_run. by destruct (run _ _ _) as [r [w rpc]].
  - reflexivity.
Defined.
