(* ===== verification/EndToEndDelivery.v ===== *)
(** * Healthy delivery: the shipper and the server, when nothing fails

    The running server meets the shipper's notion of an accepting peer: as long as
    no call fails, the token is a configured one that permits the client's source,
    the rate limiter admits the arrivals and the requests and answers come
    through, every upload is answered 201. *)

From Stdlib Require Import Ascii.
From S2P Require Import Prelude RustStd Fs FsDir External Instances Json Protocol Rfc7578 Multipart Metrics Schemas Storage F64 RateLimit Auth State Crashes CrashStore CrashIngest CrashProgress CrashParallel Janitor Retention Refs System Otlp Logs LogQueue LogWriter LogPipeline Compression Spool PanicHook Shipper ClientInstances ShipSafety ShipProgress EndToEnd Server ServerSafety Network EndToEndShip.

Section Delivery.
Context {U : UuidApi} {UL : UuidLaws U} {C : ChronoApi} {CL : ChronoLaws C} {S : Sha256Api} {SL : Sha256Laws S}
  {J : JsonText} {JL : JsonTextLaws J} {M : MulterApi} {ML : MulterLaws M} {MR : MulterRfc M}
  {HT : HttpApi} {HL : HttpLaws HT} {V : JsonSchemaApi} {A2 : Argon2Api} {OS : Os}
  {AX : AxumApi} {AXL : AxumLaws AX} {TW : TowerApi} {TWL : TowerLaws TW} {TS : TonicServerApi} {PR : PrometheusApi}
  {UR : UrlApi} {ZS : ZstdApi} {ZL : ZstdLaws ZS} {HA : HeaderApi}.

Context (s : StoragePaths) (max : Z) (endpoint : Url) (token : string) (config : ShipConfig).
Context (store : TokenStore) (registry : SchemaRegistry) (ctx : TokenContext) (k : SourceKey).

(** The client presents a configured token, which may write for its source. *)
Record authorised_client : Prop := {
  ac_url : url_path (crash_url endpoint) = "/v1/crashes";
  ac_header : forall raw, header_from_str ("Bearer " +:+ token) = Some raw -> header_to_str raw = Some ("Bearer " +:+ token);
  ac_token : authenticate store token = Some ctx;
  ac_permits : permits ctx k = true
}.

(** A crash of the source that the server's limits and schemas let pass. *)
Definition welcome (e : CrashEnvelope U C) : Prop :=
  EndToEndShip.shippable max endpoint token config e /\ key_of (ce_metadata e) = Ok k /\
  validate registry (src_project (md_source (ce_metadata e))) CrashMetadataKind (metadata_to_value (ce_metadata e)) = Ok tt.

(** A request that comes through undisturbed, with its answer. *)
Definition undisturbed (t : Transit) : Prop :=
  tr_events t = [] /\ exists sizes timing chunks, tr_fate t = Reached sizes timing (Ok chunks) /\ drain_body chunks = Ok tt.

(** When it reaches the limiter. *)
Definition arrival (t : Transit) : Z :=
  match tr_fate t with Reached _ timing _ => tm_instant timing 0 | Unreached _ => 0 end.

(** The limiter admits uploads of [k] at these instants. *)
Definition admits_all (rl : RateLimiter binary64) (instants : list Z) : Prop :=
  Forall (fun r => r = Ok tt) (check_run rl "crashes" (tc_id ctx) k (crashes_per_minute (rl_config rl)) (crashes_burst (rl_config rl)) instants).1.

(** The server and the network are in order for [i] more uploads. *)
Record healthy (i : nat) (l : Link) : Prop := {
  he_serves : serves s max (lk_server l) (lk_world l);
  he_good : good s (lk_world l);
  he_tokens : sv_tokens (lk_server l) = store;
  he_registry : schema_registry (sv_app (lk_server l)) = registry;
  he_script : Forall undisturbed (lk_script l);
  he_enough : (i <= length (lk_script l))%nat;
  he_limit : admits_all (rate_limiter (sv_app (lk_server l))) (arrival <$> lk_script l)
}.

(** The middleware lets the client's uploads pass. *)
Lemma auth_passes raw elapsed m : authorised_client -> header_from_str ("Bearer " +:+ token) = Some raw ->
  auth_middleware store m {| req_path := "/v1/crashes"; req_authorization := Some raw; req_token := None |} elapsed
  = (Forward {| req_path := "/v1/crashes"; req_authorization := Some raw; req_token := Some ctx |}, m).
Proof.
  intros [_ Hh Hauth _] Hraw. apply (auth_forwards store m "/v1/crashes" raw token); [done|done|by apply Hh|done].
Qed.

(** One upload at the server. *)
Lemma handle_upload e rq sizes t sv w :
  authorised_client -> welcome e -> upload_of endpoint token config e rq ->
  serves s max sv w -> good s w -> sv_tokens sv = store -> schema_registry (sv_app sv) = registry ->
  (check_crashes (rate_limiter (sv_app sv)) (tm_instant t 0) (tc_id ctx) k).1 = Ok tt ->
  exists reply sv' w', handle (http_request rq sizes) t sv w = (reply, (sv', w')) /\ reply_status reply = 201%Z /\
    good s w' /\ sv_tokens sv' = store /\ schema_registry (sv_app sv') = registry /\
    rate_limiter (sv_app sv') = (check_crashes (rate_limiter (sv_app sv)) (tm_instant t 0) (tc_id ctx) k).2.
Proof.
  intros Hac ([Hupl Hbody] & Hk & Hval) Hup [Hs Hm] Hg Htk Hreg Hlim. pose proof Hac as [Hurl _ _ Hperm].
  pose proof (Hbody rq Hup) as Hb. pose proof Hup as (Hru & Hra & _).
  assert (tower_inbound BODY_LIMIT (http_request rq sizes) = Ok (http_request rq sizes)) as Htw.
  { apply tower_inbound_plain; [done|]. cbn [http_request hq_body]. by rewrite body_len_cut. }
  set (sv0 := with_only_metrics sv (metrics (sv_app sv))).
  destruct (run_upload endpoint token config e rq (cut sizes (hp_body rq)) (sv_app sv0) ctx (tm_instant t 0) k w)
    as (resp & st' & w' & parts & Hrun & _ & _ & Hg' & (Hc1 & Hc2 & Hc3) & Hl'); try done.
  - cbn. by rewrite Hm.
  - apply (sg_max _ _ _ Hs).
  - apply concat_cut.
  - rewrite concat_cut. unfold BODY_LIMIT in Hb. lia.
  - split_and!; [done|done|done|]. cbn. by rewrite Hreg.
  - cbn. rewrite (sg_storage _ _ _ Hs). apply (sound_store _ _ (sg_sound _ _ _ Hs)).
  - cbn. by rewrite (sg_storage _ _ _ Hs).
  - assert (exists reply, handle (http_request rq sizes) t sv w = (JsonReply 201 reply, (set_app sv0 (with_metrics st' (fun m =>
      observe_request m "crashes" (Z_to_string 201) (tm_elapsed t))), w'))) as [reply Hhandle].
    { eexists. unfold handle. rewrite Htw. cbn [http_request hq_path hq_authorization hq_method]. rewrite Hru, Hurl, Htk.
      rewrite (auth_passes _ _ _ Hac Hra). cbn [req_token]. unfold dispatch. cbn [hq_method hq_path http_request]. rewrite Hru, Hurl.
      rewrite (axum_route_found _ http_routes "/v1/crashes" POST CrashesHandler); [|apply (bool_decide_unpack _); vm_compute; exact I|left].
      unfold serve_crash. fold (with_only_metrics sv (metrics (sv_app sv))). fold sv0. unfold crashes_handler, io_bind, io_try.
      cbn [hq_content_type hq_body http_request]. fold (arriving rq (cut sizes (hp_body rq))). rewrite Hrun. reflexivity. }
    exists (JsonReply 201 reply). do 2 eexists. split; [exact Hhandle|]. cbn in Hg', Hc1, Hc2, Hc3, Hl' |- *.
    rewrite (sg_storage _ _ _ Hs) in Hg'. split_and!; [done|done|done|congruence|done].
Qed.

(** The uploads of the pending entries are uploads of crashes that are welcome. *)
Definition welcome_upload (rq : HttpPost) : Prop := exists e, welcome e /\ upload_of endpoint token config e rq.

(** The server is an accepting peer. *)
Lemma healthy_accepts : authorised_client -> (0 <= max < 2 ^ 63)%Z -> accepts healthy welcome_upload.
Proof using UL CL SL JL ML MR HL AXL TWL ZL.
  intros Hac Hmax i rq l [Hs Hg Htk Hreg Hscr Hlen Hlim] (e & Hw & Hup). cbn [http_send ServerPeer]. unfold link_send.
  destruct (lk_script l) as [|t script] eqn:Esc; [cbn in Hlen; lia|]. apply Forall_cons in Hscr as [(Hev & sizes & timing & chunks & Hfate & Hd) Hscr].
  cbn [fmap list_fmap] in Hlim. unfold admits_all in Hlim. apply check_run_admits in Hlim as [Hadm Hlim].
  assert (arrival t = tm_instant timing 0) as Harr by (unfold arrival; by rewrite Hfate). rewrite Harr in Hadm, Hlim.
  fold (check_crashes (rate_limiter (sv_app (lk_server l))) (tm_instant timing 0) (tc_id ctx) k) in Hadm, Hlim.
  rewrite Hev, Hfate. cbn [foldl fst snd].
  destruct (handle_upload e rq sizes timing (lk_server l) (lk_world l)) as (reply & sv' & w' & Hrun & Hst & Hg' & Htk' & Hreg' & Hl'); try done.
  rewrite Hrun, Hst. exists 201%Z, chunks. eexists. split_and!; [reflexivity|done|done|].
  assert (serves s max sv' w') as Hs' by (eapply (handle_retains s max (fun _ => False)) in Hrun as [? _]; [done|done|by intros rq' m rest _ _ _ []]).
  split; cbn [lk_after lk_server lk_world lk_script fst snd]; try done; [cbn in Hlen; lia|].
  unfold admits_all. rewrite Hl'. unfold check_crashes at 2 3. by rewrite check_config.
Qed.
End Delivery.

Section Claim.
Context {U : UuidApi} {UL : UuidLaws U} {C : ChronoApi} {CL : ChronoLaws C} {S : Sha256Api} {SL : Sha256Laws S}
  {J : JsonText} {JL : JsonTextLaws J} {M : MulterApi} {ML : MulterLaws M} {MR : MulterRfc M}
  {HT : HttpApi} {HL : HttpLaws HT} {V : JsonSchemaApi} {A2 : Argon2Api} {OS : Os}
  {AX : AxumApi} {AXL : AxumLaws AX} {TW : TowerApi} {TWL : TowerLaws TW} {TS : TonicServerApi} {PR : PrometheusApi}
  {UR : UrlApi} {ZS : ZstdApi} {ZL : ZstdLaws ZS} {HA : HeaderApi}.

Lemma accepts_mono {N : Type} {HP : HttpPeer N} Good (R R' : HttpPost -> Prop) :
  (forall rq, R rq -> R' rq) -> accepts Good R' -> accepts Good R.
Proof. intros HR Hacc i rq peer Hg Hrq. by apply Hacc; [|apply HR]. Qed.

(** C9. Crashes get through: when no file operation fails on either side, the
    spool's directories are free, every pending entry is complete, encodes and
    holds a crash of the client's source within the server's limits and schema,
    different from the others in its time stamp, the client's token is configured
    at the server and permits the source, the network delivers requests and
    answers, and the rate limiter admits the arrivals, one run of the shipper
    against the server ships everything: it returns the number of pending
    entries, each of them lies byte for byte in [sent/], and the server's disk
    holds its crash, index and all parts. *)
Theorem healthy_crashes_delivered dir max endpoint token config store registry ctx k w n :
  let s := storage (sv_app (lk_server (net_peer n))) in
  w_faults w = [] -> named (w_fs w) -> spool_ready (w_fs w) dir -> ShipProgress.shippable dir endpoint token config (w_fs w) ->
  (forall entry e, spooled_crash dir (w_fs w) entry e -> welcome max endpoint token config registry k e) ->
  (forall entry entry' e e', spooled_crash dir (w_fs w) entry e -> spooled_crash dir (w_fs w) entry' e' ->
     name_of e = name_of e' -> entry = entry') ->
  authorised_client endpoint token store ctx k ->
  healthy s max store registry ctx k (length (subdirs (w_fs w) (dir ++ ["pending"]))) (net_peer n) ->
  exists w' n', ship_pending_with_client dir endpoint token config (w, n) =
      (Ok (Z.of_nat (length (subdirs (w_fs w) (dir ++ ["pending"])))), (w', n')) /\
    forall name, pending_in dir (w_fs w) ((dir ++ ["pending"]) ++ [name]) ->
      (forall rel, w_fs w' !! (((dir ++ ["sent"]) ++ [name]) ++ rel) = w_fs w !! (((dir ++ ["pending"]) ++ [name]) ++ rel) /\
         w_fs w' !! (((dir ++ ["pending"]) ++ [name]) ++ rel) = None) /\
      exists e, spooled_crash dir (w_fs w) ((dir ++ ["pending"]) ++ [name]) e /\
        stored s max (w_fs (lk_world (net_peer n'))) e.
Proof using UL CL SL JL ML MR HL AXL TWL ZL.
  intros s Hf Hnm Hr Hsh Hwel Hinj Hac Hhe. pose proof (he_serves _ _ _ _ _ _ _ _ Hhe) as Hserves.
  assert (0 <= max < 2 ^ 63)%Z as Hmax by (destruct Hserves as [Hs0 <-]; apply (sg_max _ _ _ Hs0)).
  destruct (run_ships_all dir endpoint token config (healthy s max store registry ctx k) w n Hf Hnm Hr Hsh) as (w' & n' & Hrun & Hmv & _); [|done|].
  { eapply accepts_mono; [|by apply (healthy_accepts s max endpoint token config store registry ctx k)].
    intros rq (entry & e & Hp & Hd & [Hc _] & Hup). exists e. split; [|done]. apply (Hwel entry). split; [done|by exists (w_fs w)]. }
  exists w', n'. split; [exact Hrun|].
  destruct (run_shipped_stored dir endpoint token config max w n (Ok (Z.of_nat (length (subdirs (w_fs w) (dir ++ ["pending"]))))) w' n' (ac_url _ _ _ _ _ Hac) Hnm) as (_ & done & _ & Hpl & Hst & _);
    [split; [intros entry e He; apply (Hwel entry e He)|exact Hinj]|exact Hserves| |exact Hrun|].
  { eapply Forall_impl; [apply (he_script _ _ _ _ _ _ _ _ Hhe)|]. intros t [-> _]. by apply Forall_nil. }
  intros name [Hp Hd]. pose proof Hp as (x & Hx & Hne)%parent_Some. apply app_inj_tail in Hx as [_ <-].
  split; [by apply Hmv|]. apply Hst. destruct (decide ((dir ++ ["pending"]) ++ [name] ∈ done)) as [|Hn]; [done|exfalso].
  specialize (Hpl name []). rewrite decide_False in Hpl by done. rewrite app_nil_r, Hd in Hpl.
  destruct (Hmv name Hd Hne []) as [_ H]. rewrite app_nil_r, Hpl in H. done.
Qed.
End Claim.

(** ** A concrete run: two crashes, both delivered *)

Definition spool_key : SourceKey :=
  {| sk_project := src_project (md_source spooled_metadata); sk_source_id := uuid_to_string (src_install_id (md_source spooled_metadata)) |}.

Definition through (sizes : list nat) : Transit :=
  {| tr_events := []; tr_fate := Reached sizes sample_timing (Ok [Ok (as_bytes "{}")]) |}.

Lemma through_undisturbed sizes : undisturbed (through sizes).
Proof. split; [reflexivity|]. exists sizes, sample_timing, [Ok (as_bytes "{}")]. split; reflexivity. Qed.

Definition healthy_link : Link := {|
  lk_server := app server_config; lk_world := empty_world; lk_retention := RetentionConfig_default;
  lk_script := [through [100%nat]; through []] |}.

Lemma two_crashes_ready : spool_ready two_crashes ["/"; "s"].
Proof.
  assert (forall q, (length q <= 4)%nat -> is_file two_crashes q = false) as Hn.
  { intros q Hq. unfold is_file. destruct (two_crashes !! q) as [[c t|]|] eqn:E; [|done|done].
    pose proof (nodes_forall (fun q n => match n with File _ _ => (4 <? length q)%nat | Dir => true end) two_crashes
      ltac:(vm_compute; reflexivity) q _ E) as H. apply Nat.ltb_lt in H. lia. }
  split; [intros q Hq; apply Hn; apply prefix_length in Hq; cbn in Hq; lia|]. split; [by vm_compute|].
  split; [apply Hn; cbn; lia|]. split; [apply Hn; cbn; lia|]. intros s. apply Hn. cbn. lia.
Qed.

Definition upload_request (t : nat) : @HttpPost ToyUrl := {|
  hp_url := crash_url upload_endpoint; hp_authorization := as_bytes "Bearer pw";
  hp_content_type := "multipart/form-data; boundary=" +:+ DEFAULT_BOUNDARY;
  hp_body := (write_to_with_boundary_and_encodings (compressed_of t) DEFAULT_BOUNDARY spooled_encodings []).2 |}.

Lemma entry_complete name t : (name, t) = ("a", 7%nat) \/ (name, t) = ("b", 8%nat) ->
  complete two_crashes ["/"; "s"; "pending"; name] (envelope_of t "core" "hi").
Proof.
  intros Ht. split; [split_and!|].
  - exists (metadata_to_vec_pretty (crash_at t)), 5%Z. split; [destruct Ht as [[= -> ->]|[= -> ->]]; vm_compute; reflexivity|].
    apply (metadata_from_to_vec_pretty (crash_at t)); [|destruct Ht as [[= -> ->]|[= -> ->]]; vm_compute; reflexivity|unfold context_fits, RECURSION_LIMIT; cbn; lia|reflexivity].
    split; [unfold U32_MAX; cbn; lia|]. split; [reflexivity|]. repeat constructor; unfold U64_MAX; cbn; lia.
  - exists 5%Z. destruct Ht as [[= -> ->]|[= -> ->]]; vm_compute; reflexivity.
  - apply Forall2_cons. split; [|by apply Forall2_nil]. split_and!; [done|done|]. exists 5%Z.
    destruct Ht as [[= -> ->]|[= -> ->]]; vm_compute; reflexivity.
  - apply Forall_cons. split; [|by apply Forall_nil]. by exists ["note.txt"].
Qed.

Lemma upload_request_of t : t = 7%nat \/ t = 8%nat ->
  upload_of upload_endpoint "pw" ShipConfig_default (envelope_of t "core" "hi") (upload_request t).
Proof.
  intros Ht. split_and!; [done|done|done|]. exists (compressed_of t), spooled_encodings. split; [reflexivity|].
  destruct Ht as [-> | ->]; vm_compute; reflexivity.
Qed.

Lemma healthy_crashes_delivered_witness :
  exists w' n', ship_pending_with_client (HP := ServerPeer (M := RfcMulter)) ["/"; "s"] upload_endpoint "pw" ShipConfig_default
      (client_world, {| net_peer := healthy_link; net_log := [] |}) = (Ok 2%Z, (w', n')) /\
    forall name, pending_in ["/"; "s"] two_crashes (["/"; "s"; "pending"] ++ [name]) ->
      (forall rel, w_fs w' !! ((["/"; "s"; "sent"] ++ [name]) ++ rel) = two_crashes !! ((["/"; "s"; "pending"] ++ [name]) ++ rel) /\
         w_fs w' !! ((["/"; "s"; "pending"] ++ [name]) ++ rel) = None) /\
      exists e, spooled_crash ["/"; "s"] two_crashes (["/"; "s"; "pending"] ++ [name]) e /\
        stored sample_storage 1000 (w_fs (lk_world (net_peer n'))) e.
Proof.
  assert (Z.of_nat (length (subdirs two_crashes ["/"; "s"; "pending"])) = 2%Z) as Hlen by (vm_compute; reflexivity). rewrite <- Hlen.
  apply (healthy_crashes_delivered (M := RfcMulter) ["/"; "s"] 1000 upload_endpoint "pw" ShipConfig_default {| ts_tokens := [server_token] |}
    SchemaRegistry_empty server_token spool_key client_world {| net_peer := healthy_link; net_log := [] |}).
  - reflexivity.
  - apply named_of_b. vm_compute. reflexivity.
  - exact two_crashes_ready.
  - intros e Hp Hd. destruct (two_crashes_pending e (conj Hp Hd)) as [-> | ->].
    + exists (envelope_of 7 "core" "hi"), (upload_request 7). split; [apply entry_complete; by left|apply upload_request_of; by left].
    + exists (envelope_of 8 "core" "hi"), (upload_request 8). split; [apply entry_complete; by right|apply upload_request_of; by right].
  - intros entry e [[_ ->]|[_ ->]]%two_crashes_cases; (split; [apply crash_shippable; auto|split; vm_compute; reflexivity]).
  - apply two_crashes_shippable.
  - split; [reflexivity| |vm_compute; reflexivity|vm_compute; reflexivity]. intros raw Hraw. vm_compute in Hraw. injection Hraw as <-. vm_compute. reflexivity.
  - split.
    + split; [|reflexivity]. apply app_serving; [cbn; lia|apply empty_sound].
    + apply empty_good.
    + reflexivity.
    + reflexivity.
    + repeat (apply Forall_cons; split; [apply through_undisturbed|]). apply Forall_nil_2.
    + apply Nat2Z.inj_le. change (Z.of_nat (length (subdirs two_crashes ["/"; "s"; "pending"])) <= 2)%Z. by rewrite Hlen.
    + unfold admits_all. vm_compute. repeat constructor.
Defined.
