(* ===== verification/EndToEndDeliveryLogs.v ===== *)
(** * Healthy delivery: the exporter and the server, when nothing fails

    The running server meets the exporter's notion of an acknowledging peer: as
    long as the calls come through, the token is a configured one that permits the
    client's source, the rate limiter admits the calls and the source's writer
    keeps up, every batch is acknowledged; so after the shutdown every record is on
    the server's disk, once and in order. *)

From Stdlib Require Import Ascii SpecFloat.
From S2P Require Import Prelude RustStd Fs FsDir External Instances F64 Json Protocol Metrics Schemas Storage RateLimit Auth State Crashes CrashStore CrashIngest Janitor Retention Refs System Spool PanicHook Shipper ClientInstances ShipSafety ShipProgress Layer LayerSafety LayerProgress Otlp Logs LogQueue LogWriter LogPipeline Server ServerSafety Calm ServerLogs EndToEndLogs EndToEndExport EndToEndDisk.

(** What happens at the server between the client's calls: time, ticks and the
    writers. *)
Definition quiet (T : Z -> Prop) (e : Event) : Prop :=
  match e with Arrives _ _ => False | _ => calm_event T e end.

(** The turns of the writer of [k]. *)
Definition is_turn (k : SourceKey) (e : Event) : bool :=
  match e with Writes k' => bool_decide (k' = k) | _ => false end.

Definition turns_of (k : SourceKey) (events : list Event) : nat := length (filter (is_turn k) events).

Lemma turns_of_one k e : turns_of k [e] = if is_turn k e then 1%nat else 0%nat.
Proof. unfold turns_of. rewrite filter_cons. by destruct (is_turn k e). Qed.

Section Quiet.
Context {U : UuidApi} {UL : UuidLaws U} {C : ChronoApi} {CL : ChronoLaws C}
  {S : Sha256Api} {SL : Sha256Laws S} {J : JsonText} {JL : JsonTextLaws J}
  {M : MulterApi} {ML : MulterLaws M} {HT : HttpApi} {HL : HttpLaws HT}
  {V : JsonSchemaApi} {A2 : Argon2Api} {OS : Os}
  {AX : AxumApi} {AXL : AxumLaws AX} {TW : TowerApi} {TWL : TowerLaws TW} {TS : TonicServerApi} {PR : PrometheusApi}.

Lemma quiet_calm T e : quiet T e -> calm_event T e.
Proof. by destruct e. Qed.

(** What quiet events leave alone, while the writer of [k] takes its turns. *)
Definition kept_quiet (k : SourceKey) (n : nat) (sv sv' : Server) : Prop :=
  sv_tokens sv' = sv_tokens sv /\ schema_registry (sv_app sv') = schema_registry (sv_app sv) /\
  rate_limiter (sv_app sv') = rate_limiter (sv_app sv) /\
  (queue_length (sv_writers sv') k <= queue_length (sv_writers sv) k - n)%nat.

Lemma quiet_step s fs0 T retention k sv w e :
  quiet T e -> logging s fs0 T sv w -> kept_quiet k (turns_of k [e]) sv (server_step retention (sv, w) e).1.
Proof.
  intros He Hl. unfold kept_quiet. rewrite turns_of_one. destruct e as [rq t|elapsed|k'|now clock faults]; [done| | |]; cbn [is_turn].
  - cbn [server_step]. destruct (sv_janitor sv); [destruct (janitor_tick _ _ _ _ _) as [[m|] w1]|]; cbn [fst]; (split_and!; [done|done|done|]);
      cbn [set_app stop_janitor sv_writers]; lia.
  - cbn [server_step]. unfold writer_turn, queue_length. destruct (lwp_inner (sv_writers sv) !! k') as [c|] eqn:Ec.
    2: { split_and!; [done..|]. cbn [fst]. case_bool_decide as Hk; [|lia]. subst k'. rewrite Ec. lia. }
    destruct (lg_spawned _ _ _ _ _ Hl k' c Ec) as [st ->]. destruct (ch_queue c) as [|line rest] eqn:Eq.
    { split_and!; [done..|]. cbn [fst]. case_bool_decide as Hk; [|lia]. subst k'. rewrite Ec, Eq. cbn. lia. }
    destruct (writer_step _ _ _ _ _) as [r w1]. cbn [fst sv_tokens sv_app sv_writers lwp_inner]. split_and!; [done..|].
    case_bool_decide as Hk.
    + subst k'. rewrite lookup_insert_eq, Ec. unfold drain. cbn [ch_queue]. rewrite length_drop. lia.
    + rewrite lookup_insert_ne by done. lia.
  - cbn [server_step fst]. split_and!; [done..|]. lia.
Qed.

Lemma quiet_steps s fs0 T retention k events : spares retention T -> forall sv w sv' w',
  Forall (quiet T) events -> logging s fs0 T sv w -> foldl (server_step retention) (sv, w) events = (sv', w') ->
  logging s fs0 T sv' w' /\ kept_quiet k (turns_of k events) sv sv'.
Proof using UL CL SL JL ML HL AXL TWL.
  intros Hsp. induction events as [|e events IH]; intros sv w sv' w' He Hl; cbn [foldl].
  { intros [= <- <-]. split; [done|]. split_and!; [done|done|done|]. cbn. lia. }
  apply Forall_cons in He as [He Hes]. pose proof (quiet_step s fs0 T retention k sv w e He Hl) as (H1 & H2 & H3 & H4).
  destruct (server_step retention (sv, w) e) as [sv1 w1] eqn:E. cbn [fst] in *.
  intros Hrun. eapply step_logging in E; [|done|by apply quiet_calm|done].
  destruct (IH sv1 w1 sv' w' Hes E Hrun) as (Hl' & H1' & H2' & H3' & H4'). split; [done|]. split_and!; [congruence..|].
  replace (turns_of k (e :: events)) with (turns_of k [e] + turns_of k events)%nat; [lia|].
  unfold turns_of. by rewrite <- length_app, <- filter_app.
Qed.
End Quiet.

Section DeliveryLogs.
Context {U : UuidApi} {UL : UuidLaws U} {C : ChronoApi} {CL : ChronoLaws C}
  {S : Sha256Api} {SL : Sha256Laws S} {J : JsonText} {JL : JsonTextLaws J}
  {M : MulterApi} {ML : MulterLaws M} {HT : HttpApi} {HL : HttpLaws HT}
  {V : JsonSchemaApi} {A2 : Argon2Api} {OS : Os}
  {AX : AxumApi} {AXL : AxumLaws AX} {TW : TowerApi} {TWL : TowerLaws TW} {TS : TonicServerApi} {PR : PrometheusApi}
  {WI : TonicWire} {WL : TonicWireLaws TW TS WI} {UR : UrlApi} {P : ProstApi}.
Context (Tls : Type) (value : string -> option bytes) (internal unavailable : string -> string).

(** tonic: metadata of a text is its bytes. *)
Context (value_text : forall s b, value s = Some b -> b = as_bytes s).

#[local] Hint Extern 0 (TonicApi Wire) => exact (Peer Tls value internal unavailable) : typeclass_instances.

#[local] Abbreviation WirePeer := (Peer Tls value internal unavailable).

Context (wk : @Worker U UR Wire WirePeer) (k : SourceKey) (store : TokenStore) (registry : SchemaRegistry) (ctx : TokenContext).
Context (s : StoragePaths) (fs0 : gmap Path Node) (T : Z -> Prop) (retention : RetentionConfig).

(** The client presents a configured token, which may write for its source, and
    its batches fit the server's queues. *)
Record log_client : Prop := {
  lc_key : SourceKey_new (src_project (wk_source wk)) (uuid_to_string (src_install_id (wk_source wk))) = Ok k;
  lc_sendable : sendable wk;
  lc_header : forall raw, value ("Bearer " +:+ wk_token wk) = Some raw -> header_to_str raw = Some ("Bearer " +:+ wk_token wk);
  lc_token : authenticate store (wk_token wk) = Some ctx;
  lc_permits : permits ctx k = true;
  lc_batch : (1 <= wk_batch_size wk <= Z.of_nat WRITER_CHANNEL_CAPACITY)%Z
}.

(** A batch that the body limit, the codec and the schema let pass. *)
Definition passable (rq : ExportLogsServiceRequest) : Prop :=
  (forall g, grpc_request wk rq = Ok g ->
     (body_len (hq_body (grpc_http g)) <= BODY_LIMIT)%Z /\ is_ok (grpc_decode (grpc_http g)) = true) /\
  Forall (fun rl => validate registry (tc_project ctx) LogAttributes (resource_logs_to_validation_value rl) = Ok tt) (resource_logs rq).

Definition deliverable (rq : ExportLogsServiceRequest) : Prop :=
  passable rq /\ exists records, (Z.of_nat (length records) <= wk_batch_size wk)%Z /\ rq = export_request_for (wk_source wk) records.

(** A call that comes through with its answer, before which the writer has time
    for a batch. *)
Definition attended (c : list Event * CallFate) : Prop :=
  Forall (quiet T) c.1 /\ (wk_batch_size wk <= Z.of_nat (turns_of k c.1))%Z /\ exists t, c.2 = Handled t None.

(** When it reaches the limiter. *)
Definition call_instant (c : list Event * CallFate) : Z :=
  match c.2 with Handled t _ => tm_instant t 0 | Dropped _ => 0 end.

(** The limiter admits exports of [k] at these instants. *)
Definition admits_logs (rl : RateLimiter binary64) (instants : list Z) : Prop :=
  Forall (fun r => r = Ok tt) (check_run rl "logs" (tc_id ctx) k (logs_per_minute (rl_config rl)) (logs_burst (rl_config rl)) instants).1.

(** The server at rest before a call: what it is configured with, and room for a
    batch once the writer has had its turns. *)
Record log_server (sv : Server) : Prop := {
  ls_tokens : sv_tokens sv = store;
  ls_registry : schema_registry (sv_app sv) = registry;
  ls_queue : (Z.of_nat (queue_length (sv_writers sv) k) <= wk_batch_size wk)%Z
}.

(** The server and the network are in order for [i] more calls. *)
Record log_healthy (i : nat) (rpc : @Rpc Wire) : Prop := {
  hl_logging : wire_logging s fs0 T retention (rpc_peer rpc);
  hl_server : log_server (wi_server (rpc_peer rpc));
  hl_connected : rpc_channel rpc = true \/ exists rest, wi_connects (rpc_peer rpc) = InTime (Ok tt) :: rest;
  hl_calls : Forall attended (wi_calls (rpc_peer rpc));
  hl_enough : (i <= length (wi_calls (rpc_peer rpc)))%nat;
  hl_limit : admits_logs (rate_limiter (sv_app (wi_server (rpc_peer rpc)))) (call_instant <$> wi_calls (rpc_peer rpc))
}.

(** One call at the server. *)
Lemma handle_batch records g t sv w :
  log_client -> passable (export_request_for (wk_source wk) records) ->
  grpc_request wk (export_request_for (wk_source wk) records) = Ok g ->
  sv_tokens sv = store -> schema_registry (sv_app sv) = registry ->
  (check_logs (rate_limiter (sv_app sv)) (tm_instant t 0) (tc_id ctx) k).1 = Ok tt ->
  (queue_length (sv_writers sv) k + length records <= WRITER_CHANNEL_CAPACITY)%nat ->
  exists sv', handle (grpc_http g) t sv w = (GrpcReply (Ok tt), (sv', w)) /\ sv_tokens sv' = store /\
    schema_registry (sv_app sv') = registry /\
    rate_limiter (sv_app sv') = (check_logs (rate_limiter (sv_app sv)) (tm_instant t 0) (tc_id ctx) k).2 /\
    (queue_length (sv_writers sv') k <= queue_length (sv_writers sv) k + length records)%nat.
Proof using HL AXL TWL WL value_text.
  intros Hc [Hpass Hval] Hg Htk Hreg Hlim Hq. destruct (Hpass g Hg) as [Hlen Hdec]. pose proof Hc as [Hk _ Hh Hauth Hperm _].
  destruct (request_fields (TN := WirePeer) value_text wk records g Hg) as [Hmsg _].
  assert (tower_inbound BODY_LIMIT (grpc_http g) = Ok (grpc_http g)) as Htw by (by apply tower_inbound_plain).
  assert (grpc_decode (grpc_http g) = Ok (gr_message g)) as Hd.
  { destruct (grpc_decode (grpc_http g)) as [m|e] eqn:Ed; [|done]. by rewrite (grpc_decode_sent _ _ _ Htw Ed). }
  assert (header_to_str (gr_authorization g) = Some ("Bearer " +:+ wk_token wk)) as Hhdr.
  { apply Hh. revert Hg. unfold grpc_request. destruct (metadata_value _); [|done]. cbn [ok_or metadata_value Peer WireTonic].
    destruct (value ("Bearer " +:+ wk_token wk)); [|done]. by intros [= <-]. }
  set (sv0 := set_app sv (with_metrics (sv_app sv) (fun _ => metrics (sv_app sv)))).
  destruct (run_exported_batch (TN := WirePeer) value_text wk records g ctx (tm_instant t 0) k (logs_handler sv0)) as (h' & Hrun & [Hrl Hql] & _); try done.
  { rewrite Hmsg. cbn. by rewrite Hreg. }
  assert (imap (fun i rl => (tm_instant t i, rl)) (resource_logs (gr_message g)) =
    (fun rl => (tm_instant t 0, rl)) <$> resource_logs (gr_message g)) as Himap by (by rewrite Hmsg).
  eexists. split; [|split_and!].
  - unfold handle. rewrite Htw, Htk. cbn [grpc_http hq_path hq_authorization].
    rewrite (auth_forwards store _ EXPORT_PATH (gr_authorization g) (wk_token wk) ctx) by done. fold sv0. cbn [req_token].
    unfold dispatch. cbn [grpc_http hq_path hq_method]. rewrite axum_route_unknown, String.eqb_refl.
    2: { apply (bool_decide_unpack _). vm_compute. exact I. }
    unfold serve_export. fold (grpc_http g). rewrite Hd, Himap. cbn [grpc_http hq_version]. fold (arriving_logs g ctx (tm_instant t 0)).
    unfold export, io_bind, io_try. rewrite Hrun. reflexivity.
  - done.
  - done.
  - cbn. by rewrite Hrl.
  - cbn. exact Hql.
Qed.

Lemma request_made rq : log_client -> exists g, grpc_request wk rq = Ok g.
Proof. intros [_ [[v Hv] [a Ha]] _ _ _ _]. unfold grpc_request. rewrite Hv, Ha. by eexists. Qed.

Lemma channel_ready i rpc : log_healthy i rpc -> exists rpc1, get_channel wk rpc = (InTime (Ok tt), rpc1) /\ rpc_channel rpc1 = true.
Proof.
  intros [_ _ Hch _ _ _]. unfold get_channel. destruct (rpc_channel rpc) eqn:E; [by exists rpc|].
  destruct Hch as [[=]|[rest Hrest]]. cbn [grpc_connect Peer WireTonic]. unfold wire_connect. rewrite Hrest. by eexists.
Qed.

(** One call of the exporter: acknowledged, and the server is ready for the next. *)
Lemma wire_call i records g n :
  spares retention T -> log_client -> passable (export_request_for (wk_source wk) records) ->
  (Z.of_nat (length records) <= wk_batch_size wk)%Z -> grpc_request wk (export_request_for (wk_source wk) records) = Ok g ->
  log_healthy (Datatypes.S i) {| rpc_peer := n; rpc_channel := true; rpc_log := [] |} ->
  exists n', wire_export g n = (InTime (Ok tt), n') /\ forall log, log_healthy i {| rpc_peer := n'; rpc_channel := true; rpc_log := log |}.
Proof using UL CL SL JL ML HL AXL TWL WL value_text.
  intros Hsp Hc Hpass Hlen Hg [Hlg [Htk Hreg Hq] _ Hcalls Henough Hlim]. cbn [rpc_peer] in *.
  pose proof (wire_export_logging s fs0 T retention g n Hsp Hlg) as Hlg2. revert Hlg2. unfold wire_export.
  destruct (wi_calls n) as [|[events fate] calls] eqn:Ec; [cbn in Henough; lia|].
  apply Forall_cons in Hcalls as [(Hqt & Hturns & t & Hfate) Hcalls]. cbn [fst snd] in Hqt, Hturns, Hfate. subst fate.
  cbn [fmap list_fmap] in Hlim. unfold admits_logs in Hlim. apply check_run_admits in Hlim as [Hadm Hlim]. unfold call_instant in Hadm, Hlim at 1.
  destruct (foldl _ _ events) as [sv1 w1] eqn:E. rewrite (wl_retention _ _ _ _ _ Hlg) in E.
  destruct (quiet_steps s fs0 T retention k events Hsp _ _ _ _ Hqt (wl_logging _ _ _ _ _ Hlg) E) as (_ & Ht1 & Hr1 & Hl1 & Hq1).
  pose proof (lc_batch Hc) as Hb.
  destruct (handle_batch records g t sv1 w1 Hc Hpass Hg) as (sv2 & Hrun & Htk2 & Hreg2 & Hl2 & Hq2); [congruence|congruence| |lia|].
  { rewrite Hl1. exact Hadm. }
  cbn [fst snd]. rewrite Hrun. cbn [snd call_outcome]. intros Hlg2. eexists. split; [reflexivity|]. intros log.
  split; cbn [rpc_peer rpc_channel wire_after wi_server wi_calls fst]; [done|split; [done|done|lia]|by left|done|cbn in Henough; lia|].
  unfold admits_logs. rewrite Hl2, Hl1. unfold check_logs at 2 3. by rewrite check_config.
Qed.

(** The server is an acknowledging peer. *)
Lemma healthy_acknowledges : spares retention T -> log_client -> acknowledges wk log_healthy deliverable.
Proof using UL CL SL JL ML HL AXL TWL WL value_text.
  intros Hsp Hc. split; [intros i rpc [H1 H2 H3 H4 H5 H6]; split; try done; lia|].
  intros i rq rpc Hh (Hpass & records & Hlen & ->). destruct (request_made (export_request_for (wk_source wk) records) Hc) as [g Hg].
  destruct (channel_ready _ _ Hh) as (rpc1 & Hch & Hopen).
  destruct (get_channel_wire Tls value internal unavailable wk _ _ _ Hch) as (Hlog & Hsv & Hcl & Hw & Hr).
  destruct (wire_call i records g (rpc_peer rpc1)) as (n' & Hcall & Hnext); try done.
  { destruct Hh as [[H1 H1' H1''] H2 H3 H4 H5 H6]. unfold calm_calls in H1''. split; cbn [rpc_peer rpc_channel]; [|by rewrite Hsv|by left|by rewrite Hcl..|by rewrite Hsv, Hcl].
    split; [by rewrite Hsv, Hw|congruence|unfold calm_calls; by rewrite Hcl]. }
  unfold export_request. rewrite Hch, Hg. cbn [grpc_export Peer WireTonic]. rewrite Hcall. eexists. split; [reflexivity|]. cbn [rpc_peer rpc_channel rpc_log].
  split; [done|]. intros log. rewrite Hopen. apply Hnext.
Qed.
End DeliveryLogs.

(** ** The claim *)

Section Claim.
Context {U : UuidApi} {UL : UuidLaws U} {C : ChronoApi} {CL : ChronoLaws C}
  {S : Sha256Api} {SL : Sha256Laws S} {J : JsonText} {JL : JsonTextLaws J}
  {M : MulterApi} {ML : MulterLaws M} {HT : HttpApi} {HL : HttpLaws HT}
  {V : JsonSchemaApi} {A2 : Argon2Api} {OS : Os}
  {AX : AxumApi} {AXL : AxumLaws AX} {TW : TowerApi} {TWL : TowerLaws TW} {TS : TonicServerApi} {PR : PrometheusApi}
  {WI : TonicWire} {WL : TonicWireLaws TW TS WI} {UR : UrlApi} {P : ProstApi}.
Context (Tls : Type) (value : string -> option bytes) (internal unavailable : string -> string).

#[local] Hint Extern 0 (TonicApi Wire) => exact (Peer Tls value internal unavailable) : typeclass_instances.
#[local] Abbreviation WirePeer := (Peer Tls value internal unavailable).

Context (wk : @Worker U UR Wire WirePeer) (k : SourceKey).

(** A request of the exporter's making. *)
Definition of_client (rq : ExportLogsServiceRequest) : Prop := exists records, rq = export_request_for (wk_source wk) records.

Lemma acked_lines new lines :
  SourceKey_new (src_project (wk_source wk)) (uuid_to_string (src_install_id (wk_source wk))) = Ok k ->
  Forall2 (taken_in k) new lines -> Forall acknowledged new -> Forall of_client new.*1 ->
  concat lines = log_record_json <$> (new.*1 ≫= records_of).
Proof.
  intros Hk. induction 1 as [|x ls new lines [_ Hx] _ IH]; [done|].
  intros [Ha Has]%Forall_cons [[records Hr] Hrs]%Forall_cons. cbn [concat fmap list_fmap]. rewrite bind_cons, fmap_app, <- IH by done. f_equal.
  rewrite (Hx Ha), Hr, (own_lines Tls value internal unavailable wk k records Hk). by rewrite records_of_request.
Qed.

(** The lines of a run whose calls are all acknowledged. *)
Lemma run_acked_lines l w rpc r w' rpc' new :
  SourceKey_new (src_project (wk_source wk)) (uuid_to_string (src_install_id (wk_source wk))) = Ok k ->
  Forall (fun c => Forall (foreign_to k) c.1) (wi_calls (rpc_peer rpc)) ->
  run (E := Empty_set) wk l (w, rpc) = (r, (w', rpc')) -> rpc_log rpc' = rpc_log rpc ++ new ->
  Forall acknowledged new -> Forall of_client new.*1 ->
  server_stream (wi_server (rpc_peer rpc')) k =
    server_stream (wi_server (rpc_peer rpc)) k ++ (log_record_json <$> (new.*1 ≫= records_of)).
Proof using AXL TWL WL.
  intros Hk Hc Hrun Hl Ha Hown.
  assert (wired k rpc (w, rpc)) as H0.
  { exists [], []. cbn [snd concat]. split_and!; [by rewrite app_nil_r|by apply Forall2_nil|by rewrite app_nil_r|done]. }
  pose proof (wired_run Tls value internal unavailable (E := Empty_set) wk k rpc l (w, rpc) H0) as (new' & lines & Hl' & HF & Hs & _).
  rewrite Hrun in Hl', Hs. cbn [snd] in Hl', Hs. rewrite Hl in Hl'. apply app_inv_head in Hl' as <-.
  by rewrite Hs, (acked_lines new lines Hk HF Ha Hown).
Qed.

Lemma attended_foreign T calls : Forall (attended Tls value internal unavailable wk k T) calls ->
  Forall (fun c => Forall (foreign_to k) c.1) calls /\ Forall (fun c => Forall (calm_event T) c.1) calls.
Proof.
  intros H. split; (eapply Forall_impl; [exact H|]); intros c (Hq & _); (eapply Forall_impl; [exact Hq|]); [|by intros e; apply quiet_calm].
  by intros [].
Qed.

(** C10. Records get through, once: the exporter runs until its channel is closed
    against a freshly started server, which then shuts down.  When no file
    operation fails on either side, the client's token is configured at the server
    and permits its source, connecting works, every call comes through with its
    answer, the rate limiter admits the calls, before each call the source's
    writer has time for a batch, a batch fits the server's queue, and the requests
    of the client's queue and the batches of the run pass the body limit, the
    codec and the schema, then every flush is answered with success, the queue's
    requests are sent and their files removed, and the source's daily log files
    grow by exactly the lines of those requests and then of the records the
    exporter received that sampling kept: each record once, in order. *)
Theorem healthy_logs_on_disk l w rpc config ctx from to ws ws1 :
  let s := StoragePaths_new (cf_data_dir config) in
  let retention := cf_retention config in
  let may_pass := passable Tls value internal unavailable wk (cf_schema_registry config) ctx in
  (forall t b, value t = Some b -> b = as_bytes t) ->
  log_client Tls value internal unavailable wk k (cf_token_store config) ctx -> lockable (wk_queue_dir wk) w -> Closed ∈ l ->
  (forall rq, own_batch wk (turns l) rq -> may_pass rq) ->
  (forall q rq, queued (wk_queue_dir wk) (w_fs w) q -> request_at (w_fs w) q = Some rq -> may_pass rq /\
     exists records, (Z.of_nat (length records) <= wk_batch_size wk)%Z /\ rq = export_request_for (wk_source wk) records) ->
  (0 <= cf_max_dump_bytes config < 2 ^ 63)%Z -> (0 < logs_ttl_days retention)%Z -> (logs_ttl_days retention * 24 * 60 * 60 < 2 ^ 64)%Z ->
  (to - from <= logs_ttl_days retention * 24 * 60 * 60 * NANOS)%Z ->
  sound s (w_fs ws) -> all_ready s (w_fs ws) -> stamped (is_log s) (within from to) ws -> prepare s ws = (Ok tt, ws1) ->
  wi_server (rpc_peer rpc) = app config -> wi_world (rpc_peer rpc) = ws1 -> wi_retention (rpc_peer rpc) = retention ->
  rpc_channel rpc = true \/ (exists rest, wi_connects (rpc_peer rpc) = InTime (Ok tt) :: rest) ->
  Forall (attended Tls value internal unavailable wk k (within from to)) (wi_calls (rpc_peer rpc)) ->
  (forall paths, NoDup paths -> (forall q, q ∈ paths <-> queued (wk_queue_dir wk) (w_fs w) q) ->
     (length paths + length (turns l) <= length (wi_calls (rpc_peer rpc)))%nat) ->
  admits_logs k ctx (RateLimiter_new (cf_rate_limit config)) (call_instant <$> wi_calls (rpc_peer rpc)) ->
  exists st w' rpc' paths, run (E := Empty_set) wk l (w, rpc) = (Ok st, (w', rpc')) /\
    (run_replies st).*1 = flushes (turns l) /\ Forall (fun a => a.2 = Ok tt) (run_replies st) /\
    NoDup paths /\ (forall q, q ∈ paths <-> queued (wk_queue_dir wk) (w_fs w) q) /\
    (forall q, q ∈ paths -> w_fs w' !! q = if decide (is_Some (request_at (w_fs w) q)) then None else w_fs w !! q) /\
    forall order, order ≡ₚ (map_to_list (lwp_inner (sv_writers (wi_server (rpc_peer rpc'))))).*1 ->
      exists ws', finish_writers order (wi_server (rpc_peer rpc')) (wi_world (rpc_peer rpc')) = (Ok tt, ws') /\
        written s k (log_record_json <$> ((omap (request_at (w_fs w)) paths ≫= records_of) ++ sampled wk (turns l))) (w_fs ws) (w_fs ws').
Proof using UL CL SL JL ML HL AXL TWL WL.
  intros s retention may_pass Hvt Hc Hlk Hcl Hown Hqd Hmax H0 H1 Hlen Hsound Hready Hst Hprep Esv Ews Eret Hch Hcalls Henough Hadm.
  pose proof (within_spares retention from to H0 H1 Hlen) as Hsp.
  destruct (attended_foreign _ _ Hcalls) as [Hfor Hcalm].
  set (G := log_healthy Tls value internal unavailable wk k (cf_token_store config) (cf_schema_registry config) ctx s (w_fs ws) (within from to) retention).
  set (R := deliverable Tls value internal unavailable wk (cf_schema_registry config) ctx).
  assert (forall i, (i <= length (wi_calls (rpc_peer rpc)))%nat -> G i rpc) as HG.
  { intros i Hi. split; [split; [rewrite Esv, Ews; by apply app_logging|done|exact Hcalm]| |done|done|done|by rewrite Esv].
    rewrite Esv. split; [done|done|]. unfold queue_length. cbn. rewrite lookup_empty. pose proof (lc_batch _ _ _ _ _ _ _ _ Hc). cbn. lia. }
  destruct (run_delivers wk G R 0 l w rpc) as (st & w' & rpc' & paths & replays & exported & Hrun & Hlog & Hack & Hnd & Hp & Hrep & Hfs & Hsam & Hb & Hfl & Hok & Hownx & HG').
  - by apply healthy_acknowledges.
  - intros rq (before & records & after & Hrec & Hne & Hlenr & Hrq). split; [apply Hown; by exists before, records, after|by exists records].
  - apply (lc_batch _ _ _ _ _ _ _ _ Hc).
  - done.
  - done.
  - intros paths Hnd Hp. apply HG. rewrite Nat.add_0_r. by apply Henough.
  - exact Hqd.
  - exists st, w', rpc', paths. split_and!; try done. intros order Hord.
    destruct HG' as [[Hlg _ _] _ _ _ _ _]. destruct (logging_finish s (w_fs ws) _ _ _ order Hlg Hord) as (ws' & Hfin & Hwr).
    exists ws'. split; [exact Hfin|]. pose proof (lc_key _ _ _ _ _ _ _ _ Hc) as Hk. pose proof Hk as [_ Hkv]%SourceKey_new_Ok.
    specialize (Hwr k Hkv).
    rewrite (run_acked_lines l w rpc (Ok st) w' rpc' (replays ++ exported) Hk Hfor Hrun Hlog Hack) in Hwr.
    2: { rewrite fmap_app. apply Forall_app. split; [|apply Forall_fmap; eapply Forall_impl; [exact Hownx|]; intros x (records & Hx & _); by exists records].
         rewrite Hrep. apply Forall_forall. intros rq (q & Hq & Hr)%list_elem_of_omap. destruct (Hqd q rq (proj1 (Hp q) Hq) Hr) as (_ & records & _ & ->). by exists records. }
    assert (server_stream (wi_server (rpc_peer rpc)) k = []) as E0 by (rewrite Esv; unfold server_stream, stream; cbn; by rewrite lookup_empty).
    rewrite E0, fmap_app, bind_app, Hrep, Hsam in Hwr. exact Hwr.
Qed.
End Claim.

(** ** A concrete run: a queued request and two batches *)

(** The requests this client can make. *)
Definition known_requests : list ExportLogsServiceRequest :=
  export_request_for (md_source sample_metadata) <$>
    [[LayerSafety.sample_record 1; LayerSafety.sample_record 2]; [LayerSafety.sample_record 3]; [LayerSafety.sample_record 1];
     [LayerSafety.sample_record 2]; [LayerSafety.sample_record 2; LayerSafety.sample_record 3]].

(** A wire that carries the number of a known request, and garbles all others. *)
Definition KnownWire : TonicWire := {|
  grpc_frames g := [match list_find (fun m => gr_message g = m) known_requests with
                    | Some (i, _) => replicate i "."%char
                    | None => replicate (length known_requests) "."%char
                    end]
|}.

Definition KnownTonic : TonicServerApi := {|
  grpc_decode rq := match hq_body rq with
                    | [Ok b] => ok_or (known_requests !! length b) {| st_code := InvalidArgument; st_message := "garbled" |}
                    | _ => Err {| st_code := InvalidArgument; st_message := "empty" |}
                    end
|}.

#[local] Instance KnownWireLaws : TonicWireLaws ToyTower KnownTonic KnownWire.
Proof.
  split; [|done]. intros g rq m [= <-]. unfold grpc_decode, KnownTonic, grpc_http. cbn [hq_body grpc_frames KnownWire fmap list_fmap].
  destruct (list_find _ _) as [[i x]|] eqn:E; rewrite length_replicate.
  - apply list_find_Some in E as (-> & -> & _). by intros [= <-].
  - by rewrite lookup_ge_None_2.
Qed.

#[local] Instance KnownPeer : TonicApi Wire :=
  Peer (J := ToyJson) (M := ToyMulter) (TS := KnownTonic) (WI := KnownWire) unit (fun s => Some (as_bytes s)) id id.

Definition healthy_worker : @Worker ToyUuid ToyUrl _ KnownPeer :=
  {| wk_endpoint := sample_endpoint; wk_token := "pw"; wk_source := md_source sample_metadata; wk_batch_size := 2;
     wk_flush_interval := DEFAULT_FLUSH_INTERVAL; wk_flush_timeout := DEFAULT_FLUSH_TIMEOUT; wk_queue_dir := ["/"; "q"];
     wk_sample_rate := f64_one; wk_compression := None; wk_tls_config := None |}.

Definition attended_call : list Event * CallFate := ([Writes client_key; Ticks 0; Writes client_key], Handled sample_timing None).

Definition healthy_wire : Wire := {|
  wi_server := app server_config; wi_world := started.2; wi_retention := RetentionConfig_default;
  wi_connects := [InTime (Ok tt)]; wi_calls := replicate 7 attended_call |}.

Definition healthy_rpc : Rpc := {| rpc_peer := healthy_wire; rpc_channel := false; rpc_log := [] |}.

Definition queue_files : list Path := [["/"; "q"; "log-0.protobuf"]; ["/"; "q"; "log-1.protobuf"]].

Definition listed_file (q : Path) (_ : Node) : bool :=
  negb (bool_decide (parent q = Some ["/"; "q"])) || bool_decide (q ∈ queue_files).

Lemma filled_files q : queued ["/"; "q"] (w_fs filled_queue) q -> q ∈ queue_files.
Proof.
  intros (Hp & _ & [n Hn]).
  pose proof (nodes_forall listed_file (w_fs filled_queue) ltac:(vm_compute; reflexivity) q n Hn) as H. unfold listed_file in H. rewrite bool_decide_true in H by done. by apply bool_decide_eq_true in H.
Qed.

Lemma known_passable rq : rq ∈ known_requests ->
  passable (WI := KnownWire) (TS := KnownTonic) (J := ToyJson) (M := ToyMulter) unit (fun s => Some (as_bytes s)) id id healthy_worker
    SchemaRegistry_empty server_token rq.
Proof.
  intros H. split.
  - intros g Hg. unfold grpc_request in Hg. cbn in Hg. injection Hg as <-. unfold known_requests in H. cbn [fmap list_fmap] in H.
    repeat (apply elem_of_cons in H as [-> | H]; [split; vm_compute; [discriminate|reflexivity]|]). by apply elem_of_nil in H.
  - apply list_elem_of_fmap in H as (records & -> & _). apply Forall_cons. split; [reflexivity|by apply Forall_nil].
Qed.

Lemma known_batches rq : own_batch healthy_worker (turns sample_selected) rq -> rq ∈ known_requests.
Proof.
  intros (before & records & after & Hs & Hne & Hlen & ->). apply list_elem_of_fmap. exists records. split; [done|].
  change (sampled healthy_worker (turns sample_selected)) with [LayerSafety.sample_record 1; LayerSafety.sample_record 2; LayerSafety.sample_record 3] in Hs.
  cbn [healthy_worker wk_batch_size] in Hlen.
  destruct records as [|r1 [|r2 [|r3 records]]]; cbn in Hne, Hlen; [lia| | |lia];
    (destruct before as [|b1 [|b2 [|b3 before]]]; cbn in Hs; simplify_eq; [set_solver..|]);
    by destruct before.
Qed.

Lemma attended_call_ok : attended (WI := KnownWire) (TS := KnownTonic) (J := ToyJson) (M := ToyMulter) unit (fun s => Some (as_bytes s)) id id
  healthy_worker client_key (within 0 10) attended_call.
Proof. split; [repeat constructor|]. split; [vm_compute; discriminate|]. by exists sample_timing. Qed.

Lemma healthy_client : log_client (WI := KnownWire) (TS := KnownTonic) (J := ToyJson) (M := ToyMulter) unit (fun s => Some (as_bytes s)) id id
  healthy_worker client_key {| ts_tokens := [server_token] |} server_token.
Proof.
  split; [vm_compute; reflexivity|split; by eexists| |vm_compute; reflexivity|vm_compute; reflexivity|].
  - intros raw [= <-]. vm_compute. reflexivity.
  - split; [cbn; lia|]. apply Z.leb_le. vm_compute. reflexivity.
Qed.

Lemma enough_calls paths : NoDup paths -> (forall q, q ∈ paths <-> queued ["/"; "q"] (w_fs filled_queue) q) ->
  (length paths + length (turns sample_selected) <= length (wi_calls healthy_wire))%nat.
Proof.
  intros Hnd Hp. enough (length paths <= length queue_files)%nat as H by (cbn in *; lia).
  apply submseteq_length, NoDup_submseteq; [done|]. intros q Hq. apply filled_files. by apply Hp.
Qed.

(** The queued request and both batches are on disk after the shutdown, and the
    damaged file of the queue stays. *)
Lemma healthy_logs_on_disk_witness : exists st w' rpc' paths,
  run (E := Empty_set) healthy_worker sample_selected (filled_queue, healthy_rpc) = (Ok st, (w', rpc')) /\
  (run_replies st).*1 = flushes (turns sample_selected) /\ Forall (fun a => a.2 = Ok tt) (run_replies st) /\
  NoDup paths /\ (forall q, q ∈ paths <-> queued ["/"; "q"] (w_fs filled_queue) q) /\
  (forall q, q ∈ paths -> w_fs w' !! q = if decide (is_Some (request_at (w_fs filled_queue) q)) then None else w_fs filled_queue !! q) /\
  forall order, order ≡ₚ (map_to_list (lwp_inner (sv_writers (wi_server (rpc_peer rpc'))))).*1 ->
    exists ws', finish_writers (J := ToyJson) order (wi_server (rpc_peer rpc')) (wi_world (rpc_peer rpc')) = (Ok tt, ws') /\
      written (J := ToyJson) sample_storage client_key
        (log_record_json <$> ((omap (request_at (w_fs filled_queue)) paths ≫= records_of) ++ sampled healthy_worker (turns sample_selected)))
        (w_fs empty_world) (w_fs ws').
Proof.
  apply (healthy_logs_on_disk (WI := KnownWire) (TS := KnownTonic) (J := ToyJson) (M := ToyMulter) unit (fun s => Some (as_bytes s)) id id
    healthy_worker client_key sample_selected filled_queue healthy_rpc server_config server_token 0 10 empty_world started.2).
  - by intros t b [= <-].
  - exact healthy_client.
  - exact filled_lockable.
  - unfold sample_selected. repeat (apply list_elem_of_here || apply list_elem_of_further).
  - intros rq H. apply known_passable. by apply known_batches.
  - intros q rq Hq Hr. assert (rq = sample_request_otlp) as ->.
    { revert Hr. unfold request_at. destruct (w_fs filled_queue !! q) as [[c t|]|]; [|done..]. cbn [prost_decode ToyProst].
      case_bool_decide; [by intros [= <-]|done]. }
    split; [apply known_passable; right; left|]. exists [LayerSafety.sample_record 3]. split; [cbn; lia|reflexivity].
  - cbn. lia.
  - reflexivity.
  - reflexivity.
  - discriminate.
  - apply empty_sound.
  - exact empty_all_ready.
  - exact empty_stamped.
  - exact started_ok.
  - reflexivity.
  - reflexivity.
  - reflexivity.
  - right. exists []. reflexivity.
  - repeat (apply Forall_cons; split; [exact attended_call_ok|]). by apply Forall_nil.
  - exact enough_calls.
  - unfold admits_logs. vm_compute. repeat constructor.
Defined.
